(** * Device, host and pinned buffers of mirheo/core/containers.h

    A shallow embedding of the three owning containers ([DeviceBuffer],
    [HostBuffer], [PinnedBuffer]) together with the small part of the CUDA
    runtime they call: two address spaces, allocation and release, work
    enqueued on streams and executed later, and stream synchronisation.

    Sizes are [size_t] values, kept in [Z] with the wrap-around at [2^64]
    written out.  The growth estimate is computed in IEEE-754 binary64, as
    the source does, using the executable specification of the Standard
    Library ([SpecFloat]). *)

From Stdlib Require Import ZArith Lia Bool List.
From Stdlib Require Import Strings.Byte.
From Stdlib Require Import Floats.SpecFloat.
From stdpp Require Import base option list gmap.

Local Open Scope Z_scope.

(** ** Growth policy *)

Module Growth.

Definition prec : Z := 53.
Definition emax : Z := 1024.

(** [size_t] is 64 bits wide: its values are the integers below [size_t_range]. *)
Definition size_t_range : Z := 2 ^ 64.
Definition size_add (a b : Z) : Z := (a + b) mod size_t_range.
Definition size_mul (a b : Z) : Z := (a * b) mod size_t_range.

(** [static_cast<double>(n)]: round to nearest, ties to even. *)
Definition double_of_size_t (n : Z) : spec_float :=
  binary_normalize prec emax n 0 false.

(** The literal [1.1]: the double nearest to 11/10, with significand
    [M11] and exponent [-52]. *)
Definition M11 : Z := 4953959590107546.
Definition d_1_1 : spec_float := S754_finite false 4953959590107546 (-52).

(** The literal [10.0]. *)
Definition d_10 : spec_float := S754_finite false 5629499534213120 (-49).

(** [std::ceil] on doubles. *)
Definition d_ceil (x : spec_float) : spec_float :=
  match x with
  | S754_finite s m e =>
      if 0 <=? e then x
      else binary_normalize prec emax
             (if s then - (Zpos m / 2 ^ (- e)) else - ((- Zpos m) / 2 ^ (- e))) 0 s
  | _ => x
  end.

(** [static_cast<size_t>(x)]: truncation; undefined outside the range of
    [size_t] (and for infinities and NaN), which is [None] here. *)
Definition size_t_of_double (x : spec_float) : option Z :=
  match x with
  | S754_zero _ => Some 0
  | S754_finite s m e =>
      let z := if 0 <=? e then SpecFloat.cond_Zopp s (Zpos m * 2 ^ e)
               else Z.quot (SpecFloat.cond_Zopp s (Zpos m)) (2 ^ (- e)) in
      if (0 <=? z) && (z <? size_t_range) then Some z else None
  | _ => None
  end.

(** [static_cast<size_t>(std::ceil(1.1 * static_cast<double>(n) + 10.0))] *)
Definition conservative_estimate (n : Z) : option Z :=
  size_t_of_double
    (d_ceil (SFadd prec emax (SFmul prec emax d_1_1 (double_of_size_t n)) d_10)).

(** [128 * ((conservative_estimate + 127) / 128)] in [size_t] arithmetic. *)
Definition align_up (ce : Z) : Z := size_mul 128 (size_add ce 127 / 128).

(** The capacity chosen by the reallocating branch of every [_resize]. *)
Definition new_capacity (n : Z) : option Z :=
  align_up <$> conservative_estimate n.

(** The formula of the specification, read over the rationals:
    [ceil(1.1 * n + 10)] and [128 * ceil(ceil(1.1 * n + 10) / 128)]. *)
Definition exact_estimate (n : Z) : Z := - ((- (11 * n + 100)) / 10).
Definition spec_capacity (n : Z) : Z := 128 * (- ((- exact_estimate n) / 128)).

End Growth.

(** ** The CUDA runtime, as far as the containers use it *)

Module Cuda.

(** Pointers are allocation identifiers; [nullptr] is [0]. *)
Abbreviation ptr := N (only parsing).
Definition nullptr : ptr := 0%N.

Abbreviation cudaStream_t := nat (only parsing).

(** A byte of memory is either indeterminate (fresh from the allocator) or
    holds a value. *)
Inductive cell := Undef | Init (b : byte).
Abbreviation block := (list cell) (only parsing).

Inductive space := Host | Device.

Inductive cudaMemcpyKind :=
| cudaMemcpyHostToHost
| cudaMemcpyHostToDevice
| cudaMemcpyDeviceToHost
| cudaMemcpyDeviceToDevice.

Definition src_space (k : cudaMemcpyKind) : space :=
  match k with
  | cudaMemcpyHostToHost | cudaMemcpyHostToDevice => Host
  | cudaMemcpyDeviceToHost | cudaMemcpyDeviceToDevice => Device
  end.

Definition dst_space (k : cudaMemcpyKind) : space :=
  match k with
  | cudaMemcpyHostToHost | cudaMemcpyDeviceToHost => Host
  | cudaMemcpyHostToDevice | cudaMemcpyDeviceToDevice => Device
  end.

(** Pinned host memory, device memory, and the next allocation identifier
    (identifiers are never reused). *)
Record memory := Memory {
  hostmem : gmap N block;
  devmem : gmap N block;
  next : positive
}.

Definition heap_of (sp : space) (m : memory) : gmap N block :=
  match sp with Host => hostmem m | Device => devmem m end.

Definition set_heap (sp : space) (h : gmap N block) (m : memory) : memory :=
  match sp with
  | Host => Memory h (devmem m) (next m)
  | Device => Memory (hostmem m) h (next m)
  end.

(** Read the first [count] bytes of an allocation. *)
Definition load (h : gmap N block) (p : ptr) (count : nat) : option (list cell) :=
  match h !! p with
  | Some blk => if decide (count ≤ length blk)%nat then Some (take count blk) else None
  | None => None
  end.

(** Overwrite [data] at byte offset [off] of an allocation. *)
Definition store (h : gmap N block) (p : ptr) (off : nat) (data : list cell)
  : option (gmap N block) :=
  match h !! p with
  | Some blk =>
      if decide (off + length data ≤ length blk)%nat
      then Some (<[p := take off blk ++ data ++ drop (off + length data) blk]> h)
      else None
  | None => None
  end.

(** Work items executed by the device some time after they were enqueued. *)
Inductive work :=
| WMemcpy (dst src : ptr) (count : Z) (kind : cudaMemcpyKind)
| WMemset (dst : ptr) (value : byte) (count : Z)
| WKernelStore (dst : ptr) (offset : Z) (data : list byte).

Definition exec_work (w : work) (m : memory) : option memory :=
  match w with
  | WMemcpy dst src count kind =>
      match load (heap_of (src_space kind) m) src (Z.to_nat count) with
      | Some data =>
          match store (heap_of (dst_space kind) m) dst 0 data with
          | Some h => Some (set_heap (dst_space kind) h m)
          | None => None
          end
      | None => None
      end
  | WMemset dst value count =>
      match store (devmem m) dst 0 (replicate (Z.to_nat count) (Init value)) with
      | Some h => Some (set_heap Device h m)
      | None => None
      end
  | WKernelStore dst offset data =>
      match store (devmem m) dst (Z.to_nat offset) (Init <$> data) with
      | Some h => Some (set_heap Device h m)
      | None => None
      end
  end.

(** Runtime calls, recorded in the order the host thread issues them. *)
Inductive api_call :=
| CallMalloc
| CallHostAlloc
| CallFree
| CallFreeHost
| CallMemcpyAsync (stream : cudaStream_t)
| CallMemsetAsync (stream : cudaStream_t)
| CallLaunch (stream : cudaStream_t)
| CallMemcpy
| CallStreamSynchronize (stream : cudaStream_t).

(** The runtime calls during which the host thread waits for device work:
    [cudaStreamSynchronize] waits for one stream; the blocking [cudaMemcpy]
    and the two releases, [cudaFree] and [cudaFreeHost], wait until the
    whole device is idle. *)
Definition blocking_call (c : api_call) : bool :=
  match c with
  | CallFree | CallFreeHost | CallMemcpy | CallStreamSynchronize _ => true
  | _ => false
  end.

Abbreviation queue := (list (cudaStream_t * work)) (only parsing).

(** The state of the process: memory, the work enqueued and not yet
    executed (in submission order), the decisions the device scheduler
    will take before each of the coming runtime calls (each decision lists
    the streams that advance by one work item), and the calls made so far. *)
Record state := State {
  mem : memory;
  pending : queue;
  sched : list (list cudaStream_t);
  trace : list api_call
}.

Inductive failure :=
| IncompatibleSizes   (* die() of genericCopy *)
| CudaError           (* CUDA_Check on a failed runtime call *)
| Undefined.          (* behaviour the language leaves undefined *)

Inductive result (A : Type) :=
| Ok (a : A)
| Fail (f : failure).
Arguments Ok {A} a.
Arguments Fail {A} f.

Definition M (A : Type) : Type := state -> result (A * state).

Definition ret {A} (a : A) : M A := fun σ => Ok (a, σ).
Definition bind {A B} (m : M A) (k : A -> M B) : M B :=
  fun σ => match m σ with
           | Ok (a, σ') => k a σ'
           | Fail f => Fail f
           end.
Definition fail {A} (f : failure) : M A := fun _ => Fail f.

Declare Scope cuda_scope.
Delimit Scope cuda_scope with cuda.
Notation "x <- m ;; k" := (bind m (fun x => k))
  (at level 100, m at next level, right associativity) : cuda_scope.
Notation "m ;; k" := (bind m (fun _ => k))
  (at level 100, right associativity) : cuda_scope.
Local Open Scope cuda_scope.

(** *** Asynchronous execution *)

(** The oldest work item of stream [s], and the queue without it. *)
Fixpoint take_first (s : cudaStream_t) (q : queue) : option (work * queue) :=
  match q with
  | [] => None
  | (s', w) :: q' =>
      if decide (s' = s) then Some (w, q')
      else match take_first s q' with
           | Some (w0, r) => Some (w0, (s', w) :: r)
           | None => None
           end
  end.

Definition step (s : cudaStream_t) (mq : memory * queue) : result (memory * queue) :=
  match take_first s mq.2 with
  | None => Ok mq
  | Some (w, q') =>
      match exec_work w mq.1 with
      | Some m' => Ok (m', q')
      | None => Fail CudaError
      end
  end.

Fixpoint steps (d : list cudaStream_t) (mq : memory * queue) : result (memory * queue) :=
  match d with
  | [] => Ok mq
  | s :: d' =>
      match step s mq with
      | Ok mq' => steps d' mq'
      | Fail f => Fail f
      end
  end.

(** Every runtime call gives the device the opportunity to make progress. *)
Definition tick : M unit := fun σ =>
  match sched σ with
  | [] => Ok (tt, σ)
  | d :: ds =>
      match steps d (mem σ, pending σ) with
      | Ok (m', q') => Ok (tt, State m' q' ds (trace σ))
      | Fail f => Fail f
      end
  end.

Definition record (c : api_call) : M unit := fun σ =>
  Ok (tt, State (mem σ) (pending σ) (sched σ) (trace σ ++ [c])).

Definition enqueue (s : cudaStream_t) (w : work) : M unit := fun σ =>
  Ok (tt, State (mem σ) (pending σ ++ [(s, w)]) (sched σ) (trace σ)).

(** Run every work item of stream [s], oldest first; the other streams
    keep theirs. *)
Fixpoint drain_stream (s : cudaStream_t) (q : queue) (m : memory)
  : option (memory * queue) :=
  match q with
  | [] => Some (m, [])
  | (s', w) :: q' =>
      if decide (s' = s) then
        match exec_work w m with
        | Some m' => drain_stream s q' m'
        | None => None
        end
      else match drain_stream s q' m with
           | Some (m', r) => Some (m', (s', w) :: r)
           | None => None
           end
  end.

(** Run everything that is enqueued, in submission order. *)
Fixpoint drain (q : queue) (m : memory) : option memory :=
  match q with
  | [] => Some m
  | (_, w) :: q' =>
      match exec_work w m with
      | Some m' => drain q' m'
      | None => None
      end
  end.

Definition wait_stream (s : cudaStream_t) : M unit := fun σ =>
  match drain_stream s (pending σ) (mem σ) with
  | Some (m', q') => Ok (tt, State m' q' (sched σ) (trace σ))
  | None => Fail CudaError
  end.

Definition wait_device : M unit := fun σ =>
  match drain (pending σ) (mem σ) with
  | Some m' => Ok (tt, State m' [] (sched σ) (trace σ))
  | None => Fail CudaError
  end.

Definition cudaStreamSynchronize (stream : cudaStream_t) : M unit :=
  tick ;; record (CallStreamSynchronize stream) ;; wait_stream stream.

(** *** Allocation *)

Definition fresh_block (bytes : Z) : block := replicate (Z.to_nat bytes) Undef.

Definition allocate (sp : space) (bytes : Z) : M ptr := fun σ =>
  let m := mem σ in
  let p := Npos (next m) in
  let m' := match sp with
            | Host => Memory (<[p := fresh_block bytes]> (hostmem m)) (devmem m)
                        (Pos.succ (next m))
            | Device => Memory (hostmem m) (<[p := fresh_block bytes]> (devmem m))
                          (Pos.succ (next m))
            end in
  Ok (p, State m' (pending σ) (sched σ) (trace σ)).

Definition release (sp : space) (p : ptr) : M unit := fun σ =>
  match heap_of sp (mem σ) !! p with
  | Some _ =>
      Ok (tt, State (set_heap sp (delete p (heap_of sp (mem σ))) (mem σ))
                (pending σ) (sched σ) (trace σ))
  | None => Fail CudaError
  end.

Definition cudaMalloc (bytes : Z) : M ptr :=
  tick ;; record CallMalloc ;; allocate Device bytes.

Definition cudaHostAlloc (bytes : Z) : M ptr :=
  tick ;; record CallHostAlloc ;; allocate Host bytes.

(** Releasing memory waits for the device to become idle; releasing the
    null pointer does nothing. *)
Definition cudaFree (p : ptr) : M unit :=
  tick ;; record CallFree ;;
  if decide (p = nullptr) then ret tt
  else wait_device ;; release Device p.

Definition cudaFreeHost (p : ptr) : M unit :=
  tick ;; record CallFreeHost ;;
  if decide (p = nullptr) then ret tt
  else wait_device ;; release Host p.

(** *** Transfers *)

Definition cudaMemcpyAsync (dst src : ptr) (count : Z) (kind : cudaMemcpyKind)
    (stream : cudaStream_t) : M unit :=
  tick ;; record (CallMemcpyAsync stream) ;; enqueue stream (WMemcpy dst src count kind).

Definition cudaMemsetAsync (dst : ptr) (value : byte) (count : Z)
    (stream : cudaStream_t) : M unit :=
  tick ;; record (CallMemsetAsync stream) ;; enqueue stream (WMemset dst value count).

Definition run_now (w : work) (f : failure) : M unit := fun σ =>
  match exec_work w (mem σ) with
  | Some m' => Ok (tt, State m' (pending σ) (sched σ) (trace σ))
  | None => Fail f
  end.

(** The blocking copy: returns when the bytes have arrived. *)
Definition cudaMemcpy (dst src : ptr) (count : Z) (kind : cudaMemcpyKind) : M unit :=
  tick ;; record CallMemcpy ;; wait_device ;;
  run_now (WMemcpy dst src count kind) CudaError.

(** A kernel launched on [stream] that stores [data] through a device
    pointer. *)
Definition launch_store (dst : ptr) (offset : Z) (data : list byte)
    (stream : cudaStream_t) : M unit :=
  tick ;; record (CallLaunch stream) ;; enqueue stream (WKernelStore dst offset data).

(** *** The host's own memory operations (libc) *)

Definition memcpy (dst src : ptr) (count : Z) : M unit :=
  if decide (count = 0) then ret tt
  else run_now (WMemcpy dst src count cudaMemcpyHostToHost) Undefined.

Definition memset (dst : ptr) (value : byte) (count : Z) : M unit := fun σ =>
  if decide (count = 0) then Ok (tt, σ)
  else match store (hostmem (mem σ)) dst 0 (replicate (Z.to_nat count) (Init value)) with
       | Some h => Ok (tt, State (set_heap Host h (mem σ)) (pending σ) (sched σ) (trace σ))
       | None => Fail Undefined
       end.

(** A store through a host pointer ([hostptr[i] = v], byte-wise). *)
Definition host_store (dst : ptr) (offset : Z) (data : list byte) : M unit := fun σ =>
  match store (hostmem (mem σ)) dst (Z.to_nat offset) (Init <$> data) with
  | Some h => Ok (tt, State (set_heap Host h (mem σ)) (pending σ) (sched σ) (trace σ))
  | None => Fail Undefined
  end.

(** A load of [count] bytes through a host pointer ([v = hostptr[i]]). *)
Definition host_load (src : ptr) (offset count : Z) : M (list cell) := fun σ =>
  match hostmem (mem σ) !! src with
  | Some blk =>
      if decide (Z.to_nat offset + Z.to_nat count ≤ length blk)%nat
      then Ok (take (Z.to_nat count) (drop (Z.to_nat offset) blk), σ)
      else Fail Undefined
  | None => Fail Undefined
  end.

(** A load through a host pointer: the allocation's bytes as they are now. *)
Definition host_bytes (σ : state) (p : ptr) : option block := hostmem (mem σ) !! p.

(** Device memory as it is now (work still enqueued has not acted). *)
Definition device_bytes (σ : state) (p : ptr) : option block := devmem (mem σ) !! p.

(** *** Vocabulary for the statements *)

(** [p] is a live allocation of [bytes] bytes. *)
Definition allocated (h : gmap N block) (p : ptr) (bytes : Z) : Prop :=
  exists blk, h !! p = Some blk /\ Z.of_nat (length blk) = bytes.

(** Live allocations are non-null and older than the next identifier. *)
Definition mem_ok (m : memory) : Prop :=
  forall sp p, is_Some (heap_of sp m !! p) -> (0 < p < Npos (next m))%N.

(** The bytes of the new allocation after a reallocating resize: the old
    bytes followed by indeterminate ones when the resize copies, all
    indeterminate otherwise. *)
Definition grown_block (copy : bool) (oldptr : ptr) (oldbytes newbytes : Z)
    (old : option block) : block :=
  match old with
  | Some blk =>
      if copy && negb (oldptr =? nullptr)%N && (0 <? oldbytes)
      then take (Z.to_nat oldbytes) blk ++ drop (Z.to_nat oldbytes) (fresh_block newbytes)
      else fresh_block newbytes
  | None => fresh_block newbytes
  end.

(** What a preserving resize leaves in one address space: if the old
    pointer referred to an allocation, the new pointer refers to one whose
    first [k] bytes are the same. *)
Definition prefix_kept (h h' : gmap N block) (old new : ptr) (k : nat) : Prop :=
  forall blk, h !! old = Some blk ->
  exists blk', h' !! new = Some blk' /\ take k blk' = take k blk.

(** A runtime call that returns without waiting for the device. *)
Definition nonblocking (c : api_call) : Prop := blocking_call c = false.

(** The runtime calls that allocate or release memory. *)
Definition allocation_call (c : api_call) : bool :=
  match c with
  | CallMalloc | CallHostAlloc | CallFree | CallFreeHost => true
  | _ => false
  end.
Definition no_alloc (c : api_call) : Prop := allocation_call c = false.

(** No work is in flight. *)
Definition quiescent (σ : state) : Prop := pending σ = [].

(** The runtime calls made by [m] when started in [σ]. *)
Definition calls_of {A} (m : M A) (σ : state) : list api_call :=
  match m σ with
  | Ok (_, σ') => drop (length (trace σ)) (trace σ')
  | Fail _ => []
  end.

(** [m], when it returns, returns a value satisfying [Q]. *)
Definition returns {A} (m : M A) (Q : A -> Prop) : Prop :=
  forall σ a σ', m σ = Ok (a, σ') -> Q a.

(** [m], when it returns, has made only runtime calls satisfying [P]. *)
Definition only_calls {A} (P : api_call -> Prop) (m : M A) : Prop :=
  forall σ a σ', m σ = Ok (a, σ') ->
  exists l, trace σ' = trace σ ++ l /\ Forall P l.

(** The device is stalled: the scheduler lets no enqueued work run during
    the coming runtime calls, so that work is executed only where the host
    thread waits for it. *)
Definition stalled (σ : state) : Prop := sched σ = [].

(** [m] does not wait for the device: started while the device is
    stalled, it can only return with all the work that was pending still
    pending, followed by the work it enqueued itself, which is on streams
    satisfying [on]. *)
Definition enqueues_only {A} (on : cudaStream_t -> Prop) (m : M A) : Prop :=
  forall σ a σ', stalled σ -> m σ = Ok (a, σ') ->
  stalled σ' /\
  exists l, pending σ' = pending σ ++ l /\ Forall (fun sw => on sw.1) l.

(** Monadic iteration over a list of requests. *)
Fixpoint foldM {A C} (f : C -> A -> M A) (l : list C) (a : A) : M A :=
  match l with
  | [] => ret a
  | c :: l' => a' <- f c a ;; foldM f l' a'
  end.

End Cuda.

(** ** The containers *)

Import Cuda.
Local Open Scope cuda_scope.

(** An element type [T] of the templates is known by [sizeof(T)]. *)
Record ctype := CType { sizeof : Z; sizeof_pos : 0 < sizeof }.

(** [sizeof(T) * k] in [size_t] arithmetic. *)
Definition bytes_of (T : ctype) (k : Z) : Z := Growth.size_mul (sizeof T) k.

(** A request for [n] elements whose allocation can be addressed: the
    capacity chosen for [n] stays below [2 * n + 256] elements. *)
Definition fits (T : ctype) (n : Z) : Prop :=
  0 <= n /\ sizeof T * (2 * n + 256) <= Growth.size_t_range.

(** The two public resize calls. *)
Inductive resize_call :=
| ResizePreserve (n : Z) (stream : cudaStream_t)
| ResizeAnew (n : Z).

Definition requested (c : resize_call) : Z :=
  match c with ResizePreserve n _ => n | ResizeAnew n => n end.

Inductive ContainersSynch := Synch | Asynch.

(** The interface of containers of device data (class [GPUcontainer]). *)
Class GPUcontainer (C : Type) := {
  size : C -> Z;
  datatype_size : C -> Z;
  genericDevPtr : C -> ptr;
  resize_anew : Z -> C -> M C;
  resize : Z -> cudaStream_t -> C -> M C;
  clearDevice : cudaStream_t -> C -> M unit;
  produce : C -> M C
}.

(** What the [copy] templates require of their argument [Cont]: a size and
    a device pointer, or a size and a host pointer, to elements of type [T]. *)
Class DeviceSource (T : ctype) (Cont : Type) := {
  dsrc_size : Cont -> Z;
  dsrc_devPtr : Cont -> ptr
}.
Class HostSource (T : ctype) (Cont : Type) := {
  hsrc_size : Cont -> Z;
  hsrc_hostPtr : Cont -> ptr
}.

(** *** DeviceBuffer *)

Module DeviceBuffer.

Record t (T : ctype) := Build { capacity : Z; _size : Z; devptr : ptr }.
Arguments Build {T} _ _ _.
Arguments capacity {T} _.
Arguments _size {T} _.
Arguments devptr {T} _.

Section Methods.
Context {T : ctype}.

(** The default member initialisers. *)
Definition empty : t T := Build 0 0 nullptr.

Definition devPtr (b : t T) : ptr := devptr b.

Definition _resize (n : Z) (stream : cudaStream_t) (copy : bool) (b : t T) : M (t T) :=
  let dold := devptr b in
  let oldsize := _size b in
  if n <=? capacity b then ret (Build (capacity b) n (devptr b))
  else
    match Growth.conservative_estimate n with
    | None => fail Undefined
    | Some conservative_estimate =>
        let capacity' := Growth.align_up conservative_estimate in
        p <- cudaMalloc (bytes_of T capacity') ;;
        (if copy && negb (dold =? nullptr)%N
         then if 0 <? oldsize
              then cudaMemcpyAsync p dold (bytes_of T oldsize)
                     cudaMemcpyDeviceToDevice stream
              else ret tt
         else ret tt) ;;
        cudaFree dold ;;
        ret (Build capacity' n p)
    end.

Definition resize (n : Z) (stream : cudaStream_t) (b : t T) : M (t T) :=
  _resize n stream true b.
Definition resize_anew (n : Z) (b : t T) : M (t T) :=
  _resize n 0%nat false b.

(** [DeviceBuffer(size_t n = 0)] *)
Definition new (n : Z) : M (t T) := resize_anew n empty.

Definition produce (b : t T) : M (t T) := new 0.

Definition clearDevice (stream : cudaStream_t) (b : t T) : M unit :=
  if 0 <? _size b
  then cudaMemsetAsync (devptr b) x00 (bytes_of T (_size b)) stream
  else ret tt.

Definition clear (stream : cudaStream_t) (b : t T) : M unit :=
  clearDevice stream b.

(** [copy(const Cont&, cudaStream_t)], for a [Cont] with [devPtr()]. *)
Definition copy_dev {Cont} `{DeviceSource T Cont} (cont : Cont)
    (stream : cudaStream_t) (b : t T) : M (t T) :=
  b' <- resize_anew (dsrc_size cont) b ;;
  (if 0 <? _size b'
   then cudaMemcpyAsync (devptr b') (dsrc_devPtr cont) (bytes_of T (_size b'))
          cudaMemcpyDeviceToDevice stream
   else ret tt) ;;
  ret b'.

(** [copy(const Cont&, cudaStream_t)], for a [Cont] with [hostPtr()]. *)
Definition copy_host {Cont} `{HostSource T Cont} (cont : Cont)
    (stream : cudaStream_t) (b : t T) : M (t T) :=
  b' <- resize_anew (hsrc_size cont) b ;;
  (if 0 <? _size b'
   then cudaMemcpyAsync (devptr b') (hsrc_hostPtr cont) (bytes_of T (_size b'))
          cudaMemcpyHostToDevice stream
   else ret tt) ;;
  ret b'.

(** [copy(const DeviceBuffer<T>&)], the synchronous copy. *)
Definition copy (cont : t T) (b : t T) : M (t T) :=
  b' <- resize_anew (_size cont) b ;;
  (if 0 <? _size b'
   then cudaMemcpy (devptr b') (devPtr cont) (bytes_of T (_size b'))
          cudaMemcpyDeviceToDevice
   else ret tt) ;;
  ret b'.

(** [copyFromDevice] and [copyFromHost] take a [PinnedBuffer<T>], which
    offers both pointers. *)
Definition copyFromDevice {Cont} `{DeviceSource T Cont} (cont : Cont)
    (stream : cudaStream_t) (b : t T) : M (t T) :=
  b' <- resize_anew (dsrc_size cont) b ;;
  (if 0 <? _size b'
   then cudaMemcpyAsync (devptr b') (dsrc_devPtr cont) (bytes_of T (_size b'))
          cudaMemcpyDeviceToDevice stream
   else ret tt) ;;
  ret b'.

Definition copyFromHost {Cont} `{HostSource T Cont} (cont : Cont)
    (stream : cudaStream_t) (b : t T) : M (t T) :=
  b' <- resize_anew (hsrc_size cont) b ;;
  (if 0 <? _size b'
   then cudaMemcpyAsync (devptr b') (hsrc_hostPtr cont) (bytes_of T (_size b'))
          cudaMemcpyHostToDevice stream
   else ret tt) ;;
  ret b'.

(** Copy construction and copy assignment. *)
Definition copy_construct (b : t T) : M (t T) := copy b empty.
Definition copy_assign (b : t T) (this : t T) : M (t T) := copy b this.

(** [~DeviceBuffer()] *)
Definition destroy (b : t T) : M unit :=
  if negb (devptr b =? nullptr)%N then cudaFree (devptr b) else ret tt.

(** Move assignment works on two objects that may be the same one, so
    it is stated on a store of objects addressed by identity. *)
Definition move_assign (this b : positive) (objs : gmap positive (t T))
  : M (gmap positive (t T)) :=
  if decide (this = b) then ret objs
  else
    match objs !! this, objs !! b with
    | Some self, Some other =>
        (if negb (devptr self =? nullptr)%N then cudaFree (devptr self) else ret tt) ;;
        ret (<[b := Build 0 0 nullptr]>
               (<[this := Build (capacity other) (_size other) (devptr other)]> objs))
    | _, _ => fail Undefined
    end.

(** Move construction: the new object starts from the default member
    initialisers and is then move-assigned. *)
Definition move_construct (this b : positive) (objs : gmap positive (t T))
  : M (gmap positive (t T)) :=
  match objs !! this with
  | None => move_assign this b (<[this := empty]> objs)
  | Some _ => fail Undefined
  end.

(** The end of an object's lifetime. *)
Definition delete_object (a : positive) (objs : gmap positive (t T))
  : M (gmap positive (t T)) :=
  match objs !! a with
  | Some self => destroy self ;; ret (delete a objs)
  | None => fail Undefined
  end.

Definition resize_by (c : resize_call) (b : t T) : M (t T) :=
  match c with
  | ResizePreserve n stream => resize n stream b
  | ResizeAnew n => resize_anew n b
  end.

(** The state invariant on the fields. *)
Definition inv (b : t T) : Prop :=
  0 <= _size b <= capacity b /\ (capacity b = 0 <-> devptr b = nullptr).

(** The invariant together with what the pointer refers to. *)
Definition wf (σ : state) (b : t T) : Prop :=
  inv b /\ sizeof T * capacity b < Growth.size_t_range /\
  (devptr b <> nullptr ->
   allocated (devmem (mem σ)) (devptr b) (sizeof T * capacity b)).

End Methods.

End DeviceBuffer.

#[export] Instance DeviceBuffer_GPUcontainer (T : ctype) : GPUcontainer (DeviceBuffer.t T) := {
  size := DeviceBuffer._size;
  datatype_size := fun _ => sizeof T;
  genericDevPtr := DeviceBuffer.devPtr;
  resize_anew := DeviceBuffer.resize_anew;
  resize := DeviceBuffer.resize;
  clearDevice := DeviceBuffer.clearDevice;
  produce := DeviceBuffer.produce
}.

#[export] Instance DeviceBuffer_DeviceSource (T : ctype) : DeviceSource T (DeviceBuffer.t T) := {
  dsrc_size := DeviceBuffer._size;
  dsrc_devPtr := DeviceBuffer.devPtr
}.

(** *** HostBuffer *)

Module HostBuffer.

Record t (T : ctype) := Build { capacity : Z; _size : Z; hostptr : ptr }.
Arguments Build {T} _ _ _.
Arguments capacity {T} _.
Arguments _size {T} _.
Arguments hostptr {T} _.

Section Methods.
Context {T : ctype}.

Definition empty : t T := Build 0 0 nullptr.

Definition hostPtr (b : t T) : ptr := hostptr b.
Definition data (b : t T) : ptr := hostptr b.

#[global] Instance HostBuffer_HostSource : HostSource T (t T) := {
  hsrc_size := _size;
  hsrc_hostPtr := hostPtr
}.

Definition _resize (n : Z) (copy : bool) (b : t T) : M (t T) :=
  let hold := hostptr b in
  let oldsize := _size b in
  if n <=? capacity b then ret (Build (capacity b) n (hostptr b))
  else
    match Growth.conservative_estimate n with
    | None => fail Undefined
    | Some conservative_estimate =>
        let capacity' := Growth.align_up conservative_estimate in
        p <- cudaHostAlloc (bytes_of T capacity') ;;
        (if copy && negb (hold =? nullptr)%N
         then if 0 <? oldsize then memcpy p hold (bytes_of T oldsize) else ret tt
         else ret tt) ;;
        cudaFreeHost hold ;;
        ret (Build capacity' n p)
    end.

Definition resize (n : Z) (b : t T) : M (t T) := _resize n true b.
Definition resize_anew (n : Z) (b : t T) : M (t T) := _resize n false b.

(** [HostBuffer(size_t n = 0)] *)
Definition new (n : Z) : M (t T) := resize_anew n empty.

(** [operator[]] used as an lvalue: the [sizeof(T)] bytes of element [i]. *)
Definition set (i : Z) (v : list byte) (b : t T) : M unit :=
  host_store (hostptr b) (i * sizeof T) v.

(** [operator[]] used as an rvalue. *)
Definition get (i : Z) (b : t T) : M (list cell) :=
  host_load (hostptr b) (i * sizeof T) (sizeof T).

(** Set all the bytes to 0. *)
Definition clear (b : t T) : M unit :=
  memset (hostptr b) x00 (bytes_of T (_size b)).

(** [copy(const Cont&)], for a [Cont] with [hostPtr()]. *)
Definition copy {Cont} `{HostSource T Cont} (cont : Cont) (b : t T) : M (t T) :=
  b' <- resize (hsrc_size cont) b ;;
  memcpy (hostptr b') (hsrc_hostPtr cont) (bytes_of T (_size b')) ;;
  ret b'.

(** [copy(const Cont&, cudaStream_t)], for a [Cont] with [devPtr()]. *)
Definition copy_dev {Cont} `{DeviceSource T Cont} (cont : Cont)
    (stream : cudaStream_t) (b : t T) : M (t T) :=
  b' <- resize (dsrc_size cont) b ;;
  (if 0 <? _size b'
   then cudaMemcpyAsync (hostptr b') (dsrc_devPtr cont) (bytes_of T (_size b'))
          cudaMemcpyDeviceToHost stream
   else ret tt) ;;
  ret b'.

(** Copy data from an arbitrary [GPUcontainer]; the element type of the
    source is not known, only its size. *)
Definition genericCopy {C} `{GPUcontainer C} (cont : C) (stream : cudaStream_t)
    (b : t T) : M (t T) :=
  if negb (datatype_size cont mod sizeof T =? 0) then fail IncompatibleSizes
  else
    let typeSizeFactor := datatype_size cont / sizeof T in
    b' <- resize (Growth.size_mul (size cont) typeSizeFactor) b ;;
    (if 0 <? _size b'
     then cudaMemcpyAsync (hostptr b') (genericDevPtr cont) (bytes_of T (_size b'))
            cudaMemcpyDeviceToHost stream
     else ret tt) ;;
    ret b'.

(** Copy construction and copy assignment. *)
Definition copy_construct (b : t T) : M (t T) := copy b empty.
Definition copy_assign (b : t T) (this : t T) : M (t T) := copy b this.

(** [~HostBuffer()] *)
Definition destroy (b : t T) : M unit := cudaFreeHost (hostptr b).

Definition move_assign (this b : positive) (objs : gmap positive (t T))
  : M (gmap positive (t T)) :=
  if decide (this = b) then ret objs
  else
    match objs !! this, objs !! b with
    | Some self, Some other =>
        (if negb (hostptr self =? nullptr)%N then cudaFreeHost (hostptr self)
         else ret tt) ;;
        ret (<[b := Build 0 0 nullptr]>
               (<[this := Build (capacity other) (_size other) (hostptr other)]> objs))
    | _, _ => fail Undefined
    end.

Definition move_construct (this b : positive) (objs : gmap positive (t T))
  : M (gmap positive (t T)) :=
  match objs !! this with
  | None => move_assign this b (<[this := empty]> objs)
  | Some _ => fail Undefined
  end.

Definition delete_object (a : positive) (objs : gmap positive (t T))
  : M (gmap positive (t T)) :=
  match objs !! a with
  | Some self => destroy self ;; ret (delete a objs)
  | None => fail Undefined
  end.

Definition resize_by (c : resize_call) (b : t T) : M (t T) :=
  match c with
  | ResizePreserve n _ => resize n b
  | ResizeAnew n => resize_anew n b
  end.

Definition inv (b : t T) : Prop :=
  0 <= _size b <= capacity b /\ (capacity b = 0 <-> hostptr b = nullptr).

Definition wf (σ : state) (b : t T) : Prop :=
  inv b /\ sizeof T * capacity b < Growth.size_t_range /\
  (hostptr b <> nullptr ->
   allocated (hostmem (mem σ)) (hostptr b) (sizeof T * capacity b)).

End Methods.

End HostBuffer.

(** *** PinnedBuffer *)

Module PinnedBuffer.

Record t (T : ctype) := Build { capacity : Z; _size : Z; hostptr : ptr; devptr : ptr }.
Arguments Build {T} _ _ _ _.
Arguments capacity {T} _.
Arguments _size {T} _.
Arguments hostptr {T} _.
Arguments devptr {T} _.

Section Methods.
Context {T : ctype}.

Definition empty : t T := Build 0 0 nullptr nullptr.

Definition hostPtr (b : t T) : ptr := hostptr b.
Definition data (b : t T) : ptr := hostptr b.
Definition devPtr (b : t T) : ptr := devptr b.

Definition _resize (n : Z) (stream : cudaStream_t) (copy : bool) (b : t T) : M (t T) :=
  let hold := hostptr b in
  let dold := devptr b in
  let oldsize := _size b in
  if n <=? capacity b then ret (Build (capacity b) n (hostptr b) (devptr b))
  else
    match Growth.conservative_estimate n with
    | None => fail Undefined
    | Some conservative_estimate =>
        let capacity' := Growth.align_up conservative_estimate in
        hp <- cudaHostAlloc (bytes_of T capacity') ;;
        dp <- cudaMalloc (bytes_of T capacity') ;;
        (if copy && negb (hold =? nullptr)%N && (0 <? oldsize)
         then memcpy hp hold (bytes_of T oldsize) ;;
              cudaMemcpyAsync dp dold (bytes_of T oldsize)
                cudaMemcpyDeviceToDevice stream ;;
              cudaStreamSynchronize stream
         else ret tt) ;;
        cudaFreeHost hold ;;
        cudaFree dold ;;
        ret (Build capacity' n hp dp)
    end.

Definition resize (n : Z) (stream : cudaStream_t) (b : t T) : M (t T) :=
  _resize n stream true b.
Definition resize_anew (n : Z) (b : t T) : M (t T) :=
  _resize n 0%nat false b.

(** [PinnedBuffer(size_t n = 0)] *)
Definition new (n : Z) : M (t T) := resize_anew n empty.

Definition produce (b : t T) : M (t T) := new 0.

(** [operator[]] used as an lvalue: host data. *)
Definition set (i : Z) (v : list byte) (b : t T) : M unit :=
  host_store (hostptr b) (i * sizeof T) v.

(** [operator[]] used as an rvalue: host data. *)
Definition get (i : Z) (b : t T) : M (list cell) :=
  host_load (hostptr b) (i * sizeof T) (sizeof T).

(** Copy data from device to host. *)
Definition downloadFromDevice (stream : cudaStream_t) (synch : ContainersSynch)
    (b : t T) : M unit :=
  (if 0 <? _size b
   then cudaMemcpyAsync (hostptr b) (devptr b) (bytes_of T (_size b))
          cudaMemcpyDeviceToHost stream
   else ret tt) ;;
  match synch with
  | Synch => cudaStreamSynchronize stream
  | Asynch => ret tt
  end.

(** Copy data from host to device. *)
Definition uploadToDevice (stream : cudaStream_t) (b : t T) : M unit :=
  if 0 <? _size b
  then cudaMemcpyAsync (devptr b) (hostptr b) (bytes_of T (_size b))
         cudaMemcpyHostToDevice stream
  else ret tt.

(** Set all the bytes to 0 on device only. *)
Definition clearDevice (stream : cudaStream_t) (b : t T) : M unit :=
  if 0 <? _size b
  then cudaMemsetAsync (devptr b) x00 (bytes_of T (_size b)) stream
  else ret tt.

(** Set all the bytes to 0 on host only. *)
Definition clearHost (b : t T) : M unit :=
  if 0 <? _size b then memset (hostptr b) x00 (bytes_of T (_size b)) else ret tt.

(** Set all the bytes to 0 on both host and device. *)
Definition clear (stream : cudaStream_t) (b : t T) : M unit :=
  clearDevice stream b ;; clearHost b.

(** [copy(const DeviceBuffer<T>&, cudaStream_t)] *)
Definition copy_dev (cont : DeviceBuffer.t T) (stream : cudaStream_t) (b : t T)
  : M (t T) :=
  b' <- resize_anew (DeviceBuffer._size cont) b ;;
  (if 0 <? _size b'
   then cudaMemcpyAsync (devptr b') (DeviceBuffer.devPtr cont) (bytes_of T (_size b'))
          cudaMemcpyDeviceToDevice stream
   else ret tt) ;;
  ret b'.

(** [copy(const HostBuffer<T>&)] *)
Definition copy_host (cont : HostBuffer.t T) (b : t T) : M (t T) :=
  b' <- resize_anew (HostBuffer._size cont) b ;;
  memcpy (hostptr b') (HostBuffer.hostPtr cont) (bytes_of T (_size b')) ;;
  ret b'.

(** [copy(const PinnedBuffer<T>&, cudaStream_t)] *)
Definition copy_pinned (cont : t T) (stream : cudaStream_t) (b : t T) : M (t T) :=
  b' <- resize_anew (_size cont) b ;;
  (if 0 <? _size b'
   then cudaMemcpyAsync (devptr b') (devPtr cont) (bytes_of T (_size b'))
          cudaMemcpyDeviceToDevice stream ;;
        memcpy (hostptr b') (hostPtr cont) (bytes_of T (_size b'))
   else ret tt) ;;
  ret b'.

(** [copyDeviceOnly(const PinnedBuffer<T>&, cudaStream_t)] *)
Definition copyDeviceOnly (cont : t T) (stream : cudaStream_t) (b : t T) : M (t T) :=
  b' <- resize_anew (_size cont) b ;;
  (if 0 <? _size b'
   then cudaMemcpyAsync (devptr b') (devPtr cont) (bytes_of T (_size b'))
          cudaMemcpyDeviceToDevice stream
   else ret tt) ;;
  ret b'.

(** [copy(const PinnedBuffer<T>&)], the synchronous copy. *)
Definition copy (cont : t T) (b : t T) : M (t T) :=
  b' <- resize_anew (_size cont) b ;;
  (if 0 <? _size b'
   then cudaMemcpy (devptr b') (devPtr cont) (bytes_of T (_size b'))
          cudaMemcpyDeviceToDevice ;;
        memcpy (hostptr b') (hostPtr cont) (bytes_of T (_size b'))
   else ret tt) ;;
  ret b'.

Definition copy_construct (b : t T) : M (t T) := copy b empty.
Definition copy_assign (b : t T) (this : t T) : M (t T) := copy b this.

(** [~PinnedBuffer()] *)
Definition destroy (b : t T) : M unit :=
  if negb (devptr b =? nullptr)%N
  then cudaFreeHost (hostptr b) ;; cudaFree (devptr b)
  else ret tt.

Definition move_assign (this b : positive) (objs : gmap positive (t T))
  : M (gmap positive (t T)) :=
  if decide (this = b) then ret objs
  else
    match objs !! this, objs !! b with
    | Some self, Some other =>
        ret (<[b := Build 0 0 nullptr nullptr]>
               (<[this := Build (capacity other) (_size other)
                            (hostptr other) (devptr other)]> objs))
    | _, _ => fail Undefined
    end.

Definition move_construct (this b : positive) (objs : gmap positive (t T))
  : M (gmap positive (t T)) :=
  match objs !! this with
  | None => move_assign this b (<[this := empty]> objs)
  | Some _ => fail Undefined
  end.

Definition delete_object (a : positive) (objs : gmap positive (t T))
  : M (gmap positive (t T)) :=
  match objs !! a with
  | Some self => destroy self ;; ret (delete a objs)
  | None => fail Undefined
  end.

Definition resize_by (c : resize_call) (b : t T) : M (t T) :=
  match c with
  | ResizePreserve n stream => resize n stream b
  | ResizeAnew n => resize_anew n b
  end.

Definition inv (b : t T) : Prop :=
  0 <= _size b <= capacity b /\
  (capacity b = 0 <-> devptr b = nullptr) /\
  (hostptr b = nullptr <-> devptr b = nullptr).

Definition wf (σ : state) (b : t T) : Prop :=
  inv b /\ sizeof T * capacity b < Growth.size_t_range /\
  (devptr b <> nullptr ->
   allocated (devmem (mem σ)) (devptr b) (sizeof T * capacity b) /\
   allocated (hostmem (mem σ)) (hostptr b) (sizeof T * capacity b)).

End Methods.

End PinnedBuffer.

#[export] Instance PinnedBuffer_GPUcontainer (T : ctype) : GPUcontainer (PinnedBuffer.t T) := {
  size := PinnedBuffer._size;
  datatype_size := fun _ => sizeof T;
  genericDevPtr := PinnedBuffer.devPtr;
  resize_anew := PinnedBuffer.resize_anew;
  resize := PinnedBuffer.resize;
  clearDevice := PinnedBuffer.clearDevice;
  produce := PinnedBuffer.produce
}.

#[export] Instance PinnedBuffer_DeviceSource (T : ctype) : DeviceSource T (PinnedBuffer.t T) := {
  dsrc_size := PinnedBuffer._size;
  dsrc_devPtr := PinnedBuffer.devPtr
}.

#[export] Instance PinnedBuffer_HostSource (T : ctype) : HostSource T (PinnedBuffer.t T) := {
  hsrc_size := PinnedBuffer._size;
  hsrc_hostPtr := PinnedBuffer.hostPtr
}.

(** ** The operations of each container, as values

    So that a statement can range over every operation. *)

Module DeviceOp.

Inductive t (T : ctype) :=
| Resize (n : Z) (stream : cudaStream_t)
| ResizeAnew (n : Z)
| ClearDevice (stream : cudaStream_t)
| Clear (stream : cudaStream_t)
| CopyDevice (cont : DeviceBuffer.t T) (stream : cudaStream_t)
| CopyHost (cont : HostBuffer.t T) (stream : cudaStream_t)
| Copy (cont : DeviceBuffer.t T)
| CopyFromDevice (cont : PinnedBuffer.t T) (stream : cudaStream_t)
| CopyFromHost (cont : PinnedBuffer.t T) (stream : cudaStream_t).
Arguments Resize {T} _ _.
Arguments ResizeAnew {T} _.
Arguments ClearDevice {T} _.
Arguments Clear {T} _.
Arguments CopyDevice {T} _ _.
Arguments CopyHost {T} _ _.
Arguments Copy {T} _.
Arguments CopyFromDevice {T} _ _.
Arguments CopyFromHost {T} _ _.

Definition run {T} (op : t T) (b : DeviceBuffer.t T) : M (DeviceBuffer.t T) :=
  match op with
  | Resize n stream => DeviceBuffer.resize n stream b
  | ResizeAnew n => DeviceBuffer.resize_anew n b
  | ClearDevice stream => DeviceBuffer.clearDevice stream b ;; ret b
  | Clear stream => DeviceBuffer.clear stream b ;; ret b
  | CopyDevice cont stream => DeviceBuffer.copy_dev cont stream b
  | CopyHost cont stream => DeviceBuffer.copy_host cont stream b
  | Copy cont => DeviceBuffer.copy cont b
  | CopyFromDevice cont stream => DeviceBuffer.copyFromDevice cont stream b
  | CopyFromHost cont stream => DeviceBuffer.copyFromHost cont stream b
  end.

(** The number of elements the operation asks the buffer to hold. *)
Definition request {T} (op : t T) (b : DeviceBuffer.t T) : Z :=
  match op with
  | Resize n _ | ResizeAnew n => n
  | ClearDevice _ | Clear _ => DeviceBuffer._size b
  | CopyDevice cont _ | Copy cont => DeviceBuffer._size cont
  | CopyHost cont _ => HostBuffer._size cont
  | CopyFromDevice cont _ | CopyFromHost cont _ => PinnedBuffer._size cont
  end.

(** The operations the source marks as synchronous. *)
Definition synchronous {T} (op : t T) : bool :=
  match op with Copy _ => true | _ => false end.

(** The stream the call is given, if it takes one. *)
Definition stream {T} (op : t T) : option cudaStream_t :=
  match op with
  | Resize _ s | ClearDevice s | Clear s | CopyDevice _ s | CopyHost _ s
  | CopyFromDevice _ s | CopyFromHost _ s => Some s
  | ResizeAnew _ | Copy _ => None
  end.

End DeviceOp.

Module HostOp.

Inductive t (T : ctype) :=
| Resize (n : Z)
| ResizeAnew (n : Z)
| Set_ (i : Z) (v : list byte)
| Clear
| CopyHost (cont : HostBuffer.t T)
| CopyPinnedHost (cont : PinnedBuffer.t T)
| CopyDevice (cont : DeviceBuffer.t T) (stream : cudaStream_t)
| CopyPinnedDevice (cont : PinnedBuffer.t T) (stream : cudaStream_t)
| GenericCopyDevice (T' : ctype) (cont : DeviceBuffer.t T') (stream : cudaStream_t)
| GenericCopyPinned (T' : ctype) (cont : PinnedBuffer.t T') (stream : cudaStream_t).
Arguments Resize {T} _.
Arguments ResizeAnew {T} _.
Arguments Set_ {T} _ _.
Arguments Clear {T}.
Arguments CopyHost {T} _.
Arguments CopyPinnedHost {T} _.
Arguments CopyDevice {T} _ _.
Arguments CopyPinnedDevice {T} _ _.
Arguments GenericCopyDevice {T} _ _ _.
Arguments GenericCopyPinned {T} _ _ _.

Definition run {T} (op : t T) (b : HostBuffer.t T) : M (HostBuffer.t T) :=
  match op with
  | Resize n => HostBuffer.resize n b
  | ResizeAnew n => HostBuffer.resize_anew n b
  | Set_ i v => HostBuffer.set i v b ;; ret b
  | Clear => HostBuffer.clear b ;; ret b
  | CopyHost cont => HostBuffer.copy cont b
  | CopyPinnedHost cont => HostBuffer.copy cont b
  | CopyDevice cont stream => HostBuffer.copy_dev cont stream b
  | CopyPinnedDevice cont stream => HostBuffer.copy_dev cont stream b
  | GenericCopyDevice _ cont stream => HostBuffer.genericCopy cont stream b
  | GenericCopyPinned _ cont stream => HostBuffer.genericCopy cont stream b
  end.

Definition request {T} (op : t T) (b : HostBuffer.t T) : Z :=
  match op with
  | Resize n | ResizeAnew n => n
  | Set_ _ _ | Clear => HostBuffer._size b
  | CopyHost cont => HostBuffer._size cont
  | CopyPinnedHost cont | CopyPinnedDevice cont _ => PinnedBuffer._size cont
  | CopyDevice cont _ => DeviceBuffer._size cont
  | GenericCopyDevice T' cont _ =>
      Growth.size_mul (DeviceBuffer._size cont) (sizeof T' / sizeof T)
  | GenericCopyPinned T' cont _ =>
      Growth.size_mul (PinnedBuffer._size cont) (sizeof T' / sizeof T)
  end.

End HostOp.

Module PinnedOp.

Inductive t (T : ctype) :=
| Resize (n : Z) (stream : cudaStream_t)
| ResizeAnew (n : Z)
| Set_ (i : Z) (v : list byte)
| DownloadFromDevice (stream : cudaStream_t) (synch : ContainersSynch)
| UploadToDevice (stream : cudaStream_t)
| Clear (stream : cudaStream_t)
| ClearDevice (stream : cudaStream_t)
| ClearHost
| CopyDevice (cont : DeviceBuffer.t T) (stream : cudaStream_t)
| CopyHost (cont : HostBuffer.t T)
| CopyPinned (cont : PinnedBuffer.t T) (stream : cudaStream_t)
| CopyDeviceOnly (cont : PinnedBuffer.t T) (stream : cudaStream_t)
| Copy (cont : PinnedBuffer.t T).
Arguments Resize {T} _ _.
Arguments ResizeAnew {T} _.
Arguments Set_ {T} _ _.
Arguments DownloadFromDevice {T} _ _.
Arguments UploadToDevice {T} _.
Arguments Clear {T} _.
Arguments ClearDevice {T} _.
Arguments ClearHost {T}.
Arguments CopyDevice {T} _ _.
Arguments CopyHost {T} _.
Arguments CopyPinned {T} _ _.
Arguments CopyDeviceOnly {T} _ _.
Arguments Copy {T} _.

Definition run {T} (op : t T) (b : PinnedBuffer.t T) : M (PinnedBuffer.t T) :=
  match op with
  | Resize n stream => PinnedBuffer.resize n stream b
  | ResizeAnew n => PinnedBuffer.resize_anew n b
  | Set_ i v => PinnedBuffer.set i v b ;; ret b
  | DownloadFromDevice stream synch => PinnedBuffer.downloadFromDevice stream synch b ;; ret b
  | UploadToDevice stream => PinnedBuffer.uploadToDevice stream b ;; ret b
  | Clear stream => PinnedBuffer.clear stream b ;; ret b
  | ClearDevice stream => PinnedBuffer.clearDevice stream b ;; ret b
  | ClearHost => PinnedBuffer.clearHost b ;; ret b
  | CopyDevice cont stream => PinnedBuffer.copy_dev cont stream b
  | CopyHost cont => PinnedBuffer.copy_host cont b
  | CopyPinned cont stream => PinnedBuffer.copy_pinned cont stream b
  | CopyDeviceOnly cont stream => PinnedBuffer.copyDeviceOnly cont stream b
  | Copy cont => PinnedBuffer.copy cont b
  end.

Definition request {T} (op : t T) (b : PinnedBuffer.t T) : Z :=
  match op with
  | Resize n _ | ResizeAnew n => n
  | CopyDevice cont _ => DeviceBuffer._size cont
  | CopyHost cont => HostBuffer._size cont
  | CopyPinned cont _ | CopyDeviceOnly cont _ | Copy cont => PinnedBuffer._size cont
  | _ => PinnedBuffer._size b
  end.

Definition synchronous {T} (op : t T) : bool :=
  match op with
  | Copy _ | DownloadFromDevice _ Synch => true
  | _ => false
  end.

(** The stream the call is given, if it takes one. *)
Definition stream {T} (op : t T) : option cudaStream_t :=
  match op with
  | Resize _ s | DownloadFromDevice s _ | UploadToDevice s | Clear s | ClearDevice s
  | CopyDevice _ s | CopyPinned _ s | CopyDeviceOnly _ s => Some s
  | ResizeAnew _ | Set_ _ _ | ClearHost | CopyHost _ | Copy _ => None
  end.

End PinnedOp.

(** ** Concrete objects for the examples *)

Definition float_t : ctype := CType 4 eq_refl.
Definition double_t : ctype := CType 8 eq_refl.

(** The bytes of element [i] of an allocation of [T]s. *)
Definition element (T : ctype) (blk : block) (i : Z) : block :=
  take (Z.to_nat (sizeof T)) (drop (Z.to_nat (i * sizeof T)) blk).

(** A fresh process: nothing allocated, nothing in flight, and a device
    that runs enqueued work only when the host waits for it. *)
Definition start : state := State (Memory ∅ ∅ 1) [] [] [].

(** A process with one pinned-host and one device allocation of 512 bytes,
    each holding 128 floats of which 3 are in use, and a device that takes
    up work of stream 0 before each of the next runtime calls. *)
Definition demo_memory : memory :=
  Memory {[1%N := replicate 512 (Init x01)]} {[2%N := replicate 512 (Init x02)]} 3.
Definition demo : state :=
  State demo_memory [] [[0%nat]; [0%nat]; [0%nat]; [0%nat]] [].
(** The same process while the device is stalled with work in flight: a
    memset of the first device element is pending on stream 7. *)
Definition demo_busy : state :=
  State demo_memory [(7%nat, WMemset 2%N x00 4)] [] [].
Definition demo_device : DeviceBuffer.t float_t := DeviceBuffer.Build 128 3 2%N.
Definition demo_host : HostBuffer.t float_t := HostBuffer.Build 128 3 1%N.
Definition demo_pinned : PinnedBuffer.t float_t := PinnedBuffer.Build 128 3 1%N 2%N.

(** * Facts *)

(** ** The growth estimate in double precision *)

Module GrowthFacts.
Import Growth.

Lemma digits2_pos_bounds (m : positive) :
  2 ^ (Zpos (digits2_pos m) - 1) <= Zpos m < 2 ^ Zpos (digits2_pos m).
Proof.
  induction m as [m IH | m IH |]; cbn [digits2_pos].
  - rewrite Pos2Z.inj_succ, Z.pow_succ_r by lia.
    replace (Z.succ (Zpos (digits2_pos m)) - 1) with (Z.succ (Zpos (digits2_pos m) - 1)) by lia.
    rewrite Z.pow_succ_r by lia. lia.
  - rewrite Pos2Z.inj_succ, Z.pow_succ_r by lia.
    replace (Z.succ (Zpos (digits2_pos m)) - 1) with (Z.succ (Zpos (digits2_pos m) - 1)) by lia.
    rewrite Z.pow_succ_r by lia. lia.
  - cbn. lia.
Qed.

Lemma digits2_pos_unique (m : positive) (d : Z) :
  2 ^ (d - 1) <= Zpos m < 2 ^ d -> Zpos (digits2_pos m) = d.
Proof.
  intros [Hlo Hhi]. pose proof (digits2_pos_bounds m) as [Blo Bhi].
  set (d' := Zpos (digits2_pos m)) in *.
  assert (0 < d') by (subst d'; lia).
  destruct (Z.lt_trichotomy d' d) as [Hlt | [Heq | Hgt]]; [| exact Heq |].
  - assert (2 ^ d' <= 2 ^ (d - 1)) by (apply Z.pow_le_mono_r; lia). lia.
  - destruct (Z_lt_le_dec d 0) as [Hneg | Hnn].
    + rewrite (Z.pow_neg_r 2 d) in Hhi by lia. lia.
    + assert (2 ^ d <= 2 ^ (d' - 1)) by (apply Z.pow_le_mono_r; lia). lia.
Qed.

Lemma shr_1_m (mrs : shr_record) :
  0 <= shr_m mrs -> shr_m (shr_1 mrs) = shr_m mrs / 2.
Proof.
  destruct mrs as [m r s]; cbn [shr_m]. intros Hm.
  destruct m as [| p | p]; [reflexivity | | lia].
  destruct p as [p | p |]; cbn [shr_1 shr_m].
  - rewrite Pos2Z.inj_xI. apply Z.div_unique with 1; lia.
  - rewrite Pos2Z.inj_xO. apply Z.div_unique with 0; lia.
  - reflexivity.
Qed.

Lemma iter_shr_1_m (p : positive) : forall mrs,
  0 <= shr_m mrs -> shr_m (SpecFloat.iter_pos shr_1 p mrs) = shr_m mrs / 2 ^ Zpos p.
Proof.
  assert (Hnn : forall mrs, 0 <= shr_m mrs -> 0 <= shr_m (shr_1 mrs)).
  { intros mrs H. rewrite shr_1_m by exact H. apply Z.div_pos; lia. }
  induction p as [p IH | p IH |]; intros mrs Hm; cbn [SpecFloat.iter_pos].
  - assert (H1 : 0 <= shr_m (shr_1 mrs)) by auto.
    assert (H2 : 0 <= shr_m (SpecFloat.iter_pos shr_1 p (shr_1 mrs))).
    { rewrite IH by exact H1. apply Z.div_pos; [exact H1 | apply Z.pow_pos_nonneg; lia]. }
    rewrite IH by exact H2. rewrite IH by exact H1. rewrite shr_1_m by exact Hm.
    rewrite !Z.div_div by (try apply Z.pow_pos_nonneg; lia).
    f_equal. replace (Zpos p~1) with (1 + Zpos p + Zpos p) by lia.
    rewrite !Z.pow_add_r by lia. lia.
  - assert (H2 : 0 <= shr_m (SpecFloat.iter_pos shr_1 p mrs)).
    { rewrite IH by exact Hm. apply Z.div_pos; [exact Hm | apply Z.pow_pos_nonneg; lia]. }
    rewrite IH by exact H2. rewrite IH by exact Hm.
    rewrite !Z.div_div by (try apply Z.pow_pos_nonneg; lia).
    f_equal. replace (Zpos p~0) with (Zpos p + Zpos p) by lia.
    rewrite !Z.pow_add_r by lia. lia.
  - rewrite shr_1_m by exact Hm. reflexivity.
Qed.

Lemma iter_xO (p : positive) (m : positive) :
  Zpos (Pos.iter xO m p) = Zpos m * 2 ^ Zpos p.
Proof.
  induction p as [| p IH] using Pos.peano_ind.
  - cbn. lia.
  - rewrite Pos.iter_succ, Pos2Z.inj_xO, IH, Pos2Z.inj_succ, Z.pow_succ_r by lia. lia.
Qed.

Lemma round_nearest_even_bounds (m : Z) (l : location) :
  m <= round_nearest_even m l <= m + 1.
Proof.
  destruct l as [| c]; cbn; [lia |].
  destruct c; [destruct (Z.even m) | |]; lia.
Qed.

Lemma fexp_normal (e : Z) : -1074 <= e - 53 -> fexp prec emax e = e - 53.
Proof. unfold fexp, emin, prec, emax. lia. Qed.

(** Second normalisation step of [binary_round_aux]: a mantissa that the
    rounding pushed to [2^53] is shifted once more. *)
Lemma shr_fexp_renorm (m2 e : Z) :
  2 ^ 52 <= m2 <= 2 ^ 53 -> -1074 <= e ->
  exists m' e',
    shr_fexp prec emax m2 e loc_Exact = (Build_shr_record m' false false, e') /\
    2 ^ 52 <= m' < 2 ^ 53 /\ (e' = e \/ e' = e + 1) /\ m' * 2 ^ (e' - e) = m2.
Proof.
  intros Hm He.
  destruct m2 as [| q | q]; [cbn in Hm; lia | | cbn in Hm; lia].
  destruct (Z.eq_dec (Zpos q) (2 ^ 53)) as [Heq | Hne].
  - exists (2 ^ 52), (e + 1).
    assert (Hd : Zpos (digits2_pos q) = 54).
    { apply digits2_pos_unique. rewrite Heq. split; [reflexivity | ].
      apply Z.pow_lt_mono_r; lia. }
    unfold shr_fexp. cbn [Zdigits2]. rewrite Hd, fexp_normal by lia.
    replace (54 + e - 53 - e) with 1 by lia.
    injection Heq as ->. cbn [shr shr_record_of_loc SpecFloat.iter_pos shr_1].
    split; [reflexivity |]. split; [split; [lia | apply Z.pow_lt_mono_r; lia] |].
    split; [right; reflexivity |].
    replace (e + 1 - e) with 1 by lia. reflexivity.
  - exists (Zpos q), e.
    assert (Hd : Zpos (digits2_pos q) = 53).
    { apply digits2_pos_unique. change (53 - 1) with 52. lia. }
    unfold shr_fexp. cbn [Zdigits2]. rewrite Hd, fexp_normal by lia.
    replace (53 + e - 53 - e) with 0 by lia. cbn [shr shr_record_of_loc].
    split; [reflexivity |]. split; [lia |]. split; [left; reflexivity |].
    rewrite Z.sub_diag, Z.pow_0_r. lia.
Qed.

(** Rounding an exact value [mx * 2^ex] whose mantissa has at least 53 bits:
    the result is a normal double lying between the two neighbours of the
    value on the grid of spacing [2^(d-53)]. *)
Lemma binary_round_aux_exact (mx : positive) (ex : Z) :
  let d := Zpos (digits2_pos mx) in
  53 <= d -> -1074 <= ex + d - 53 -> ex + d - 52 <= 971 ->
  exists m' e',
    binary_round_aux prec emax false (Zpos mx) ex loc_Exact = S754_finite false m' e' /\
    2 ^ 52 <= Zpos m' < 2 ^ 53 /\
    (e' = ex + d - 53 \/ e' = ex + d - 52) /\
    (Zpos mx / 2 ^ (d - 53)) * 2 ^ (d - 53) <= Zpos m' * 2 ^ (e' - ex)
      <= (Zpos mx / 2 ^ (d - 53) + 1) * 2 ^ (d - 53).
Proof.
  intros d Hd He Hmax.
  pose proof (digits2_pos_bounds mx) as Hb. fold d in Hb.
  set (k := d - 53) in *.
  assert (Hk : 0 <= k) by (unfold k; lia).
  assert (HK : 0 < 2 ^ k) by (apply Z.pow_pos_nonneg; lia).
  assert (Hm1 : 2 ^ 52 <= Zpos mx / 2 ^ k < 2 ^ 53).
  { replace (d - 1) with (52 + k) in Hb by (unfold k; lia).
    replace d with (53 + k) in Hb by (unfold k; lia).
    rewrite !Z.pow_add_r in Hb by lia. split.
    - apply Z.div_le_lower_bound; lia.
    - apply Z.div_lt_upper_bound; lia. }
  unfold binary_round_aux.
  assert (Hfirst : exists r s,
    shr_fexp prec emax (Zpos mx) ex loc_Exact =
      (Build_shr_record (Zpos mx / 2 ^ k) r s, ex + k)).
  { unfold shr_fexp. cbn [Zdigits2]. fold d. rewrite fexp_normal by lia.
    replace (d + ex - 53 - ex) with k by (unfold k; lia).
    destruct k as [| p | p] eqn:Ek; [| | lia].
    - exists false, false. cbn [shr shr_record_of_loc].
      rewrite Z.pow_0_r, Z.div_1_r, Z.add_0_r. reflexivity.
    - cbn [shr shr_record_of_loc].
      pose proof (iter_shr_1_m p (Build_shr_record (Zpos mx) false false)) as Hi.
      cbn [shr_m] in Hi. specialize (Hi ltac:(lia)).
      destruct (SpecFloat.iter_pos shr_1 p (Build_shr_record (Zpos mx) false false)) as [m1 r1 s1].
      cbn [shr_m] in Hi. subst m1. exists r1, s1. reflexivity. }
  destruct Hfirst as (r & s & ->).
  cbn [shr_m].
  set (m1 := Zpos mx / 2 ^ k) in *.
  pose proof (round_nearest_even_bounds m1 (loc_of_shr_record (Build_shr_record m1 r s))) as Hr.
  set (m2 := round_nearest_even m1 _) in *.
  destruct (shr_fexp_renorm m2 (ex + k)) as (m' & e' & -> & Hm' & He' & Hval); [lia | lia |].
  cbn [shr_m].
  destruct m' as [| q | q]; [lia | | lia].
  exists q, e'.
  replace (Z.leb e' (emax - prec)) with true
    by (symmetry; apply Z.leb_le; unfold emax, prec, k in *; lia).
  split; [reflexivity |]. split; [exact Hm' |]. split; [unfold k in *; lia |].
  assert (Hpow : Zpos q * 2 ^ (e' - ex) = m2 * 2 ^ k).
  { rewrite <- Hval. destruct He' as [-> | ->].
    - replace (ex + k - ex) with k by lia. rewrite Z.sub_diag, Z.pow_0_r. lia.
    - replace (ex + k + 1 - ex) with (1 + k) by lia.
      replace (ex + k + 1 - (ex + k)) with 1 by lia.
      rewrite Z.pow_add_r by lia. lia. }
  rewrite Hpow. split; apply Z.mul_le_mono_nonneg_r; lia.
Qed.

Lemma binary_round_aux_53 (mx : positive) (ex : Z) :
  Zpos (digits2_pos mx) = 53 -> -1074 <= ex <= 971 ->
  binary_round_aux prec emax false (Zpos mx) ex loc_Exact = S754_finite false mx ex.
Proof.
  intros Hd He. unfold binary_round_aux, shr_fexp. cbn [Zdigits2].
  rewrite Hd, fexp_normal by lia.
  replace (53 + ex - 53 - ex) with 0 by lia.
  cbn [shr shr_record_of_loc shr_m loc_of_shr_record round_nearest_even Zdigits2].
  rewrite Hd, fexp_normal by lia.
  replace (53 + ex - 53 - ex) with 0 by lia.
  cbn [shr shr_record_of_loc shr_m].
  replace (Z.leb ex (emax - prec)) with true
    by (symmetry; apply Z.leb_le; unfold emax, prec; lia).
  reflexivity.
Qed.

Lemma pow2_exp_lt (a b : Z) : 0 <= b -> 2 ^ a < 2 ^ b -> a < b.
Proof. intros Hb H. apply (Z.pow_lt_mono_r_iff 2); lia. Qed.

(** The same bounds, with input and output measured in units of [2^e0]:
    the relative error of one rounding is at most [2^-52]. *)
Lemma binary_round_aux_scaled (e0 : Z) (mx : positive) (ex : Z) :
  let d := Zpos (digits2_pos mx) in
  e0 <= ex -> 53 <= d -> -1074 <= ex + d - 53 -> ex + d - 52 <= 971 ->
  exists m' e',
    binary_round_aux prec emax false (Zpos mx) ex loc_Exact = S754_finite false m' e' /\
    2 ^ 52 <= Zpos m' < 2 ^ 53 /\
    (e' = ex + d - 53 \/ e' = ex + d - 52) /\
    (Zpos mx * 2 ^ (ex - e0) - Zpos m' * 2 ^ (e' - e0)) * 2 ^ 52 <= Zpos mx * 2 ^ (ex - e0) /\
    (Zpos m' * 2 ^ (e' - e0) - Zpos mx * 2 ^ (ex - e0)) * 2 ^ 52 <= Zpos mx * 2 ^ (ex - e0).
Proof.
  intros d H0 Hd He Hmax.
  destruct (binary_round_aux_exact mx ex Hd He Hmax) as (m' & e' & Heq & Hm' & He' & Hlo & Hhi).
  fold d in He', Hlo, Hhi.
  exists m', e'. split; [exact Heq |]. split; [exact Hm' |]. split; [exact He' |].
  pose proof (digits2_pos_bounds mx) as Hb. fold d in Hb.
  set (k := d - 53) in *.
  assert (HK : 0 < 2 ^ k) by (apply Z.pow_pos_nonneg; unfold k; lia).
  assert (HS : 0 < 2 ^ (ex - e0)) by (apply Z.pow_pos_nonneg; lia).
  replace (d - 1) with (52 + k) in Hb by (unfold k; lia).
  rewrite Z.pow_add_r in Hb by (unfold k; lia).
  replace (e' - e0) with ((e' - ex) + (ex - e0)) by lia.
  rewrite Z.pow_add_r by (unfold k in *; lia).
  set (K := 2 ^ k) in *. set (sc := 2 ^ (ex - e0)) in *.
  set (V := Zpos m' * 2 ^ (e' - ex)) in *.
  pose proof (Z.div_mod (Zpos mx) K ltac:(lia)) as Hdm.
  pose proof (Z.mod_pos_bound (Zpos mx) K HK) as Hmod.
  set (q := Zpos mx / K) in *.
  assert (H1 : (Zpos mx - V) * 2 ^ 52 <= Zpos mx) by nia.
  assert (H2 : (V - Zpos mx) * 2 ^ 52 <= Zpos mx) by nia.
  replace (Zpos m' * (2 ^ (e' - ex) * sc)) with (V * sc) by (unfold V; ring).
  split.
  - replace ((Zpos mx * sc - V * sc) * 2 ^ 52) with (((Zpos mx - V) * 2 ^ 52) * sc) by ring.
    apply Z.mul_le_mono_nonneg_r; lia.
  - replace ((V * sc - Zpos mx * sc) * 2 ^ 52) with (((V - Zpos mx) * 2 ^ 52) * sc) by ring.
    apply Z.mul_le_mono_nonneg_r; lia.
Qed.

Lemma shl_align_fst (mx : positive) (ex ex' : Z) :
  ex' <= ex -> Zpos (fst (shl_align mx ex ex')) = Zpos mx * 2 ^ (ex - ex').
Proof.
  intros H. unfold shl_align.
  destruct (ex' - ex) as [| p | p] eqn:E; cbn [fst].
  - replace (ex - ex') with 0 by lia. rewrite Z.pow_0_r. lia.
  - lia.
  - rewrite iter_xO. f_equal. f_equal. lia.
Qed.

Lemma shl_align_cases (mx : positive) (ex ex' : Z) :
  shl_align mx ex ex' =
    if ex' <? ex then (Pos.iter xO mx (Z.to_pos (ex - ex')), ex') else (mx, ex).
Proof.
  unfold shl_align. destruct (Z.ltb_spec ex' ex) as [H | H].
  - destruct (ex' - ex) as [| p | p] eqn:E; try lia.
    replace (ex - ex') with (Zpos p) by lia. reflexivity.
  - destruct (ex' - ex) as [| p | p] eqn:E; try lia; reflexivity.
Qed.

(** Rounding of [mx * 2^ex] by [binary_round] (which first aligns short
    mantissas to 53 bits), in units of [2^e0]. *)
Lemma binary_round_scaled (e0 : Z) (mx : positive) (ex : Z) :
  let d := Zpos (digits2_pos mx) in
  e0 <= ex + d - 53 -> e0 <= ex -> -1074 <= ex + d - 53 -> ex + d - 52 <= 971 ->
  exists m' e',
    binary_round prec emax false mx ex = S754_finite false m' e' /\
    2 ^ 52 <= Zpos m' < 2 ^ 53 /\
    (e' = ex + d - 53 \/ e' = ex + d - 52) /\
    (Zpos mx * 2 ^ (ex - e0) - Zpos m' * 2 ^ (e' - e0)) * 2 ^ 52 <= Zpos mx * 2 ^ (ex - e0) /\
    (Zpos m' * 2 ^ (e' - e0) - Zpos mx * 2 ^ (ex - e0)) * 2 ^ 52 <= Zpos mx * 2 ^ (ex - e0) /\
    (d <= 53 -> Zpos m' * 2 ^ (e' - e0) = Zpos mx * 2 ^ (ex - e0)).
Proof.
  intros d H0 H0' He Hmax. unfold binary_round.
  rewrite shl_align_cases. cbn [Zdigits2]. fold d. rewrite fexp_normal by lia.
  pose proof (digits2_pos_bounds mx) as Hb. fold d in Hb.
  assert (Hdpos : 0 < d) by (unfold d; lia).
  destruct (Z.ltb_spec (d + ex - 53) ex) as [Hshort | Hlong].
  - set (sh := ex - (d + ex - 53)).
    assert (Hsh : sh = 53 - d) by (unfold sh; lia).
    assert (Hz : Zpos (Pos.iter xO mx (Z.to_pos sh)) = Zpos mx * 2 ^ (53 - d)).
    { rewrite iter_xO, Z2Pos.id by lia. rewrite Hsh. reflexivity. }
    assert (Hdz : Zpos (digits2_pos (Pos.iter xO mx (Z.to_pos sh))) = 53).
    { apply digits2_pos_unique. rewrite Hz. change (53 - 1) with 52.
      assert (HP : 0 < 2 ^ (53 - d)) by (apply Z.pow_pos_nonneg; lia).
      replace (2 ^ 52) with (2 ^ (d - 1) * 2 ^ (53 - d))
        by (rewrite <- Z.pow_add_r by lia; f_equal; lia).
      replace (2 ^ 53) with (2 ^ d * 2 ^ (53 - d))
        by (rewrite <- Z.pow_add_r by lia; f_equal; lia).
      split; [apply Z.mul_le_mono_nonneg_r; lia | apply Z.mul_lt_mono_pos_r; lia]. }
    rewrite binary_round_aux_53 by (try exact Hdz; lia).
    exists (Pos.iter xO mx (Z.to_pos sh)), (d + ex - 53).
    assert (Hval : Zpos (Pos.iter xO mx (Z.to_pos sh)) * 2 ^ (d + ex - 53 - e0)
                   = Zpos mx * 2 ^ (ex - e0)).
    { rewrite Hz, <- Z.mul_assoc, <- Z.pow_add_r by lia. f_equal. f_equal. lia. }
    split; [reflexivity |].
    split.
    { pose proof (digits2_pos_bounds (Pos.iter xO mx (Z.to_pos sh))) as Hbz.
      rewrite Hdz in Hbz. exact Hbz. }
    split; [left; lia |].
    rewrite Hval.
    assert (0 < Zpos mx * 2 ^ (ex - e0)).
    { apply Z.mul_pos_pos; [lia | apply Z.pow_pos_nonneg; lia]. }
    split; [lia |]. split; [lia |]. intros _. reflexivity.
  - pose proof (binary_round_aux_scaled e0 mx ex) as Hs. cbv zeta in Hs. fold d in Hs.
    destruct Hs as (m' & e' & Heq & Hm' & He' & Hlo & Hhi); try lia.
    exists m', e'.
    split; [exact Heq |]. split; [exact Hm' |]. split; [exact He' |].
    split; [exact Hlo |]. split; [exact Hhi |].
    intros Hd53. assert (Hd : Zpos (digits2_pos mx) = 53) by (fold d; lia).
    rewrite binary_round_aux_53 in Heq by (try exact Hd; lia).
    injection Heq as <- <-. reflexivity.
Qed.

Lemma double_of_size_t_spec (n : Z) :
  0 < n < 2 ^ 64 ->
  exists mn en,
    double_of_size_t n = S754_finite false mn en /\
    2 ^ 52 <= Zpos mn < 2 ^ 53 /\ -52 <= en <= 12 /\
    Zpos mn * 2 ^ (en + 52) - n * 2 ^ 52 <= n /\
    n * 2 ^ 52 - Zpos mn * 2 ^ (en + 52) <= n /\
    (n < 2 ^ 53 -> Zpos mn * 2 ^ (en + 52) = n * 2 ^ 52).
Proof.
  intros Hn. destruct n as [| p | p]; try lia.
  unfold double_of_size_t. cbn [binary_normalize].
  pose proof (digits2_pos_bounds p) as Hb.
  set (d := Zpos (digits2_pos p)) in *.
  assert (Hd1 : 0 < d) by (unfold d; lia).
  assert (Hd2 : d - 1 < 64) by (apply pow2_exp_lt; lia).
  pose proof (binary_round_scaled (-52) p 0) as Hs. cbv zeta in Hs. fold d in Hs.
  destruct Hs as (mn & en & Heq & Hmn & Hen & Hlo & Hhi & Hex); try lia.
  exists mn, en. split; [exact Heq |]. split; [exact Hmn |]. split; [lia |].
  replace (en - -52) with (en + 52) in * by lia.
  replace (0 - -52) with 52 in * by lia.
  assert (H52 : 0 < 2 ^ 52) by (apply Z.pow_pos_nonneg; lia).
  set (Vn := Zpos mn * 2 ^ (en + 52)) in *.
  split; [nia |]. split; [nia |].
  intros Hsmall. apply Hex.
  assert (d - 1 < 53) by (apply pow2_exp_lt; lia). lia.
Qed.

Lemma mul_1_1_spec (mn : positive) (en : Z) :
  2 ^ 52 <= Zpos mn < 2 ^ 53 -> -52 <= en <= 12 ->
  exists mp ep,
    SFmul prec emax d_1_1 (S754_finite false mn en) = S754_finite false mp ep /\
    2 ^ 52 <= Zpos mp < 2 ^ 53 /\ en <= ep <= en + 2 /\
    (Zpos mp * 2 ^ (ep + 52) * 2 ^ 52 - M11 * (Zpos mn * 2 ^ (en + 52))) * 2 ^ 52
      <= M11 * (Zpos mn * 2 ^ (en + 52)) /\
    (M11 * (Zpos mn * 2 ^ (en + 52)) - Zpos mp * 2 ^ (ep + 52) * 2 ^ 52) * 2 ^ 52
      <= M11 * (Zpos mn * 2 ^ (en + 52)).
Proof.
  intros Hmn Hen. unfold d_1_1. cbn [SFmul xorb].
  set (mx := (4953959590107546 * mn)%positive).
  assert (Hmx : Zpos mx = M11 * Zpos mn) by (unfold mx, M11; lia).
  pose proof (digits2_pos_bounds mx) as Hb.
  set (d := Zpos (digits2_pos mx)) in *.
  assert (HM : 2 ^ 52 <= M11 < 2 ^ 53) by (unfold M11; split; [apply Z.leb_le | apply Z.ltb_lt]; reflexivity).
  assert (Hprod : 2 ^ 104 <= Zpos mx < 2 ^ 106).
  { rewrite Hmx.
    replace (2 ^ 104) with (2 ^ 52 * 2 ^ 52) by (rewrite <- Z.pow_add_r by lia; reflexivity).
    replace (2 ^ 106) with (2 ^ 53 * 2 ^ 53) by (rewrite <- Z.pow_add_r by lia; reflexivity).
    split; [apply Z.mul_le_mono_nonneg | apply Z.mul_lt_mono_nonneg]; lia. }
  assert (Hd1 : 104 < d) by (apply pow2_exp_lt; lia).
  assert (Hd2 : d - 1 < 106) by (apply pow2_exp_lt; lia).
  pose proof (binary_round_aux_scaled (-104) mx (-52 + en)) as Hs. cbv zeta in Hs. fold d in Hs.
  destruct Hs as (mp & ep & Heq & Hmp & Hep & Hlo & Hhi); try lia.
  exists mp, ep. split; [exact Heq |]. split; [exact Hmp |]. split; [lia |].
  replace (-52 + en - -104) with (en + 52) in * by lia.
  replace (ep - -104) with ((ep + 52) + 52) in * by lia.
  rewrite (Z.pow_add_r 2 (ep + 52) 52) in Hlo, Hhi by lia.
  rewrite Hmx in Hlo, Hhi.
  rewrite !Z.mul_assoc in *. split; lia.
Qed.

Lemma add_10_spec (mp : positive) (ep : Z) :
  2 ^ 52 <= Zpos mp < 2 ^ 53 -> -52 <= ep <= 14 ->
  exists ms es,
    SFadd prec emax (S754_finite false mp ep) d_10 = S754_finite false ms es /\
    2 ^ 52 <= Zpos ms < 2 ^ 53 /\ -52 <= es <= 16 /\
    (Zpos ms * 2 ^ (es + 52) - (Zpos mp * 2 ^ (ep + 52) + 10 * 2 ^ 52)) * 2 ^ 52
      <= Zpos mp * 2 ^ (ep + 52) + 10 * 2 ^ 52 /\
    ((Zpos mp * 2 ^ (ep + 52) + 10 * 2 ^ 52) - Zpos ms * 2 ^ (es + 52)) * 2 ^ 52
      <= Zpos mp * 2 ^ (ep + 52) + 10 * 2 ^ 52.
Proof.
  intros Hmp Hep. unfold d_10. cbn [SFadd cond_Zopp].
  set (ez := Z.min ep (-49)).
  assert (Hez : -52 <= ez <= -49) by (unfold ez; lia).
  rewrite <- Pos2Z.inj_add. cbn [binary_normalize].
  set (a := fst (shl_align mp ep ez)).
  set (b := fst (shl_align 5629499534213120 (-49) ez)).
  assert (Ha : Zpos a = Zpos mp * 2 ^ (ep - ez)) by (apply shl_align_fst; unfold ez; lia).
  assert (Hb : Zpos b = 5629499534213120 * 2 ^ (-49 - ez)) by (apply shl_align_fst; unfold ez; lia).
  assert (HA : Zpos (a + b) * 2 ^ (ez + 52) = Zpos mp * 2 ^ (ep + 52) + 10 * 2 ^ 52).
  { rewrite Pos2Z.inj_add, Ha, Hb, Z.mul_add_distr_r.
    rewrite <- !Z.mul_assoc, <- !Z.pow_add_r by lia.
    replace (ep - ez + (ez + 52)) with (ep + 52) by lia.
    replace (-49 - ez + (ez + 52)) with 3 by lia. reflexivity. }
  assert (Hlo : 2 ^ 52 <= Zpos (a + b)).
  { rewrite Pos2Z.inj_add, Ha.
    assert (1 <= 2 ^ (ep - ez)) by (apply Z.lt_pred_le, Z.pow_pos_nonneg; lia). nia. }
  assert (Hhi : Zpos (a + b) < 2 ^ 121).
  { rewrite Pos2Z.inj_add, Ha, Hb.
    assert (2 ^ (ep - ez) <= 2 ^ 66) by (apply Z.pow_le_mono_r; lia).
    assert (2 ^ (-49 - ez) <= 2 ^ 3) by (apply Z.pow_le_mono_r; lia).
    assert (0 < 2 ^ (ep - ez)) by (apply Z.pow_pos_nonneg; lia).
    assert (0 < 2 ^ (-49 - ez)) by (apply Z.pow_pos_nonneg; lia).
    replace (2 ^ 121) with (2 ^ 53 * 2 ^ 66 + 2 ^ 53 * 2 ^ 66 * 3)
      by (apply Z.eqb_eq; reflexivity).
    assert (Zpos mp * 2 ^ (ep - ez) < 2 ^ 53 * 2 ^ 66) by nia.
    assert (5629499534213120 * 2 ^ (-49 - ez) <= 2 ^ 53 * 2 ^ 3) by nia.
    assert (2 ^ 53 * 2 ^ 3 <= 2 ^ 53 * 2 ^ 66 * 3) by (apply Z.leb_le; reflexivity).
    lia. }
  pose proof (digits2_pos_bounds (a + b)) as Hbd.
  set (d := Zpos (digits2_pos (a + b))) in *.
  assert (Hd1 : 52 < d) by (apply pow2_exp_lt; lia).
  assert (Hd2 : d - 1 < 121) by (apply pow2_exp_lt; lia).
  pose proof (binary_round_scaled (-52) (a + b) ez) as Hs. cbv zeta in Hs. fold d in Hs.
  destruct Hs as (ms & es & Heq & Hms & Hes & Hl & Hh & _); try lia.
  exists ms, es. split; [exact Heq |]. split; [exact Hms |].
  replace (ez - -52) with (ez + 52) in * by lia.
  replace (es - -52) with (es + 52) in * by lia.
  rewrite HA in Hl, Hh.
  assert (Hes2 : es <= 16).
  { (* the sum is below 2^69, so its exponent is at most 16 *)
    assert (Hmag : Zpos mp * 2 ^ (ep + 52) + 10 * 2 ^ 52 < 2 ^ 120).
    { assert (2 ^ (ep + 52) <= 2 ^ 66) by (apply Z.pow_le_mono_r; lia).
      assert (0 < 2 ^ (ep + 52)) by (apply Z.pow_pos_nonneg; lia).
      assert (Zpos mp * 2 ^ (ep + 52) < 2 ^ 53 * 2 ^ 66) by nia.
      assert (2 ^ 53 * 2 ^ 66 + 10 * 2 ^ 52 < 2 ^ 120) by (apply Z.ltb_lt; reflexivity).
      lia. }
    assert (Hpow : 2 ^ (es + 104) <= Zpos ms * 2 ^ (es + 52)).
    { replace (es + 104) with (52 + (es + 52)) by lia.
      rewrite Z.pow_add_r by lia.
      apply Z.mul_le_mono_nonneg_r; [apply Z.pow_nonneg; lia | lia]. }
    assert (Hlt : 2 ^ (es + 104) < 2 ^ 121).
    { assert (Zpos ms * 2 ^ (es + 52) < 2 ^ 121); [| lia].
      assert (2 ^ 121 = 2 * 2 ^ 120) by (apply Z.eqb_eq; reflexivity).
      assert (0 < 2 ^ 52) by (apply Z.pow_pos_nonneg; lia).
      nia. }
    apply pow2_exp_lt in Hlt; lia. }
  split; [lia |]. split; [exact Hh | exact Hl].
Qed.

Lemma size_t_of_exact_double (mq : positive) (eq q : Z) :
  -52 <= eq -> 0 <= q < size_t_range -> Zpos mq * 2 ^ (eq + 52) = q * 2 ^ 52 ->
  size_t_of_double (S754_finite false mq eq) = Some q.
Proof.
  intros Heq Hq Hval. unfold size_t_of_double. cbn [cond_Zopp].
  assert (H52 : 0 < 2 ^ 52) by (apply Z.pow_pos_nonneg; lia).
  assert (Hz : (if 0 <=? eq then Zpos mq * 2 ^ eq else Z.quot (Zpos mq) (2 ^ (- eq))) = q).
  { destruct (Z.leb_spec 0 eq) as [Hnn | Hneg].
    - rewrite Z.pow_add_r, Z.mul_assoc in Hval by lia.
      apply Z.mul_reg_r in Hval; lia.
    - assert (HP : 0 < 2 ^ (- eq)) by (apply Z.pow_pos_nonneg; lia).
      assert (Hmq : Zpos mq = q * 2 ^ (- eq)).
      { replace (2 ^ 52) with (2 ^ (- eq) * 2 ^ (eq + 52)) in Hval
          by (rewrite <- Z.pow_add_r by lia; f_equal; lia).
        rewrite Z.mul_assoc in Hval.
        apply Z.mul_reg_r in Hval; [exact Hval |].
        assert (0 < 2 ^ (eq + 52)) by (apply Z.pow_pos_nonneg; lia). lia. }
      rewrite Hmq. apply Z.quot_mul. lia. }
  rewrite Hz.
  replace (0 <=? q) with true by (symmetry; apply Z.leb_le; lia).
  replace (q <? size_t_range) with true by (symmetry; apply Z.ltb_lt; lia).
  reflexivity.
Qed.

Lemma ceil_cast_spec (ms : positive) (es : Z) :
  2 ^ 52 <= Zpos ms < 2 ^ 53 -> -52 <= es ->
  - ((- (Zpos ms * 2 ^ (es + 52))) / 2 ^ 52) < size_t_range ->
  size_t_of_double (d_ceil (S754_finite false ms es))
    = Some (- ((- (Zpos ms * 2 ^ (es + 52))) / 2 ^ 52)).
Proof.
  intros Hms Hes Hlt.
  assert (H52 : 0 < 2 ^ 52) by (apply Z.pow_pos_nonneg; lia).
  assert (HP : 0 < 2 ^ (es + 52)) by (apply Z.pow_pos_nonneg; lia).
  set (Vs := Zpos ms * 2 ^ (es + 52)) in *.
  assert (HVs : 0 < Vs) by (unfold Vs; nia).
  set (q := - ((- Vs) / 2 ^ 52)) in *.
  assert (Hq : 0 < q).
  { unfold q. assert ((- Vs) / 2 ^ 52 < 0); [| lia].
    apply Z.div_lt_upper_bound; lia. }
  unfold d_ceil. destruct (Z.leb_spec 0 es) as [Hnn | Hneg].
  - apply size_t_of_exact_double; [lia | lia |].
    unfold q, Vs.
    replace (- (Zpos ms * 2 ^ (es + 52))) with ((- (Zpos ms * 2 ^ es)) * 2 ^ 52)
      by (rewrite Z.pow_add_r by lia; ring).
    rewrite Z.div_mul by lia. rewrite Z.pow_add_r by lia. ring.
  - assert (HPe : 0 < 2 ^ (- es)) by (apply Z.pow_pos_nonneg; lia).
    assert (Hqq : - ((- Zpos ms) / 2 ^ (- es)) = q).
    { unfold q, Vs. f_equal.
      replace (2 ^ 52) with (2 ^ (- es) * 2 ^ (es + 52))
        by (rewrite <- Z.pow_add_r by lia; f_equal; lia).
      replace (- (Zpos ms * 2 ^ (es + 52))) with ((- Zpos ms) * 2 ^ (es + 52)) by ring.
      rewrite Z.div_mul_cancel_r by lia. reflexivity. }
    rewrite Hqq.
    assert (Hq52 : q <= 2 ^ 52).
    { unfold q. assert (- 2 ^ 52 <= (- Vs) / 2 ^ 52); [| lia].
      apply Z.div_le_lower_bound; [lia |].
      assert (2 ^ (es + 52) <= 2 ^ 51) by (apply Z.pow_le_mono_r; lia).
      assert (Vs <= 2 ^ 53 * 2 ^ 51) by (unfold Vs; nia).
      assert (2 ^ 53 * 2 ^ 51 = 2 ^ 52 * 2 ^ 52) by (apply Z.eqb_eq; reflexivity).
      lia. }
    destruct q as [| pq | pq] eqn:Eq; try lia.
    cbn [binary_normalize].
    pose proof (digits2_pos_bounds pq) as Hbd.
    set (d := Zpos (digits2_pos pq)) in *.
    assert (Hd0 : 0 < d) by (unfold d; lia).
    assert (Hd1 : d - 1 < 53).
    { apply pow2_exp_lt; [lia |].
      assert (2 ^ 52 < 2 ^ 53) by (apply Z.pow_lt_mono_r; lia). lia. }
    pose proof (binary_round_scaled (-52) pq 0) as Hs. cbv zeta in Hs. fold d in Hs.
    destruct Hs as (mq & eq & Heq & Hmq & Heqq & _ & _ & Hex); try lia.
    rewrite Heq.
    replace (eq - -52) with (eq + 52) in Hex by lia.
    replace (0 - -52) with 52 in Hex by lia.
    apply size_t_of_exact_double; [lia | lia | apply Hex; lia].
Qed.

(** The three roundings of the estimate, in units of [2^-52]. *)
Lemma conservative_estimate_spec (n : Z) :
  0 < n <= 2 ^ 63 ->
  exists Vn Vp Vs,
    conservative_estimate n = Some (- ((- Vs) / 2 ^ 52)) /\
    Vn - n * 2 ^ 52 <= n /\ n * 2 ^ 52 - Vn <= n /\
    (n < 2 ^ 53 -> Vn = n * 2 ^ 52) /\
    (Vp * 2 ^ 52 - M11 * Vn) * 2 ^ 52 <= M11 * Vn /\
    (M11 * Vn - Vp * 2 ^ 52) * 2 ^ 52 <= M11 * Vn /\
    (Vs - (Vp + 10 * 2 ^ 52)) * 2 ^ 52 <= Vp + 10 * 2 ^ 52 /\
    ((Vp + 10 * 2 ^ 52) - Vs) * 2 ^ 52 <= Vp + 10 * 2 ^ 52.
Proof.
  intros Hn.
  assert (H63 : 2 ^ 63 < 2 ^ 64) by (apply Z.pow_lt_mono_r; lia).
  destruct (double_of_size_t_spec n) as (mn & en & Hdn & Hmn & Hen & Hn1 & Hn2 & Hn3); [lia |].
  destruct (mul_1_1_spec mn en Hmn Hen) as (mp & ep & Hdp & Hmp & Hep & Hp1 & Hp2).
  destruct (add_10_spec mp ep Hmp) as (ms & es & Hds & Hms & Hes & Hs1 & Hs2); [lia |].
  exists (Zpos mn * 2 ^ (en + 52)), (Zpos mp * 2 ^ (ep + 52)), (Zpos ms * 2 ^ (es + 52)).
  split.
  - unfold conservative_estimate. rewrite Hdn, Hdp, Hds.
    apply ceil_cast_spec; [exact Hms | lia |].
    set (Vn := Zpos mn * 2 ^ (en + 52)) in *.
    set (Vp := Zpos mp * 2 ^ (ep + 52)) in *.
    set (Vs := Zpos ms * 2 ^ (es + 52)) in *.
    unfold size_t_range, M11 in *.
    assert (E52 : 2 ^ 52 = 4503599627370496) by reflexivity.
    assert (E63 : 2 ^ 63 = 9223372036854775808) by reflexivity.
    assert (E64 : 2 ^ 64 = 18446744073709551616) by reflexivity.
    rewrite E52 in *. rewrite E63 in *. rewrite E64 in *.
    assert (- Vs <= (- Vs) / 4503599627370496 * 4503599627370496 + 4503599627370495).
    { pose proof (Z.div_mod (- Vs) 4503599627370496 ltac:(lia)).
      pose proof (Z.mod_pos_bound (- Vs) 4503599627370496 ltac:(lia)). lia. }
    lia.
  - repeat split; assumption.
Qed.

Lemma conservative_estimate_bounds (n : Z) :
  0 <= n <= 2 ^ 63 ->
  exists est, conservative_estimate n = Some est /\
              n + 10 <= est /\ 10 * est <= 12 * n + 120.
Proof.
  intros Hn. destruct (Z.eq_dec n 0) as [-> | Hnz].
  - exists 10. split; [vm_compute; reflexivity | lia].
  - destruct (conservative_estimate_spec n) as
      (Vn & Vp & Vs & Hest & Hn1 & Hn2 & _ & Hp1 & Hp2 & Hs1 & Hs2); [lia |].
    exists (- ((- Vs) / 2 ^ 52)). split; [exact Hest |].
    unfold M11 in *.
    assert (E52 : 2 ^ 52 = 4503599627370496) by reflexivity.
    assert (E63 : 2 ^ 63 = 9223372036854775808) by reflexivity.
    rewrite E52 in *. rewrite E63 in *.
    pose proof (Z.div_mod (- Vs) 4503599627370496 ltac:(lia)).
    pose proof (Z.mod_pos_bound (- Vs) 4503599627370496 ltac:(lia)).
    lia.
Qed.

Lemma conservative_estimate_near_exact (n : Z) :
  0 <= n < 2 ^ 44 ->
  exists est, conservative_estimate n = Some est /\
              exact_estimate n <= est <= exact_estimate n + 1.
Proof.
  intros Hn. destruct (Z.eq_dec n 0) as [-> | Hnz].
  - exists 10. split; [vm_compute; reflexivity | vm_compute; split; discriminate].
  - assert (E44 : 2 ^ 44 = 17592186044416) by reflexivity.
    assert (E52 : 2 ^ 52 = 4503599627370496) by reflexivity.
    assert (E53 : 2 ^ 53 = 9007199254740992) by reflexivity.
    assert (E63 : 2 ^ 63 = 9223372036854775808) by reflexivity.
    destruct (conservative_estimate_spec n) as
      (Vn & Vp & Vs & Hest & _ & _ & Hn3 & Hp1 & Hp2 & Hs1 & Hs2); [lia |].
    exists (- ((- Vs) / 2 ^ 52)). split; [exact Hest |].
    specialize (Hn3 ltac:(lia)). subst Vn.
    unfold M11, exact_estimate in *.
    rewrite E52 in *. rewrite E44 in *.
    pose proof (Z.div_mod (- Vs) 4503599627370496 ltac:(lia)).
    pose proof (Z.mod_pos_bound (- Vs) 4503599627370496 ltac:(lia)).
    pose proof (Z.div_mod (- (11 * n + 100)) 10 ltac:(lia)).
    pose proof (Z.mod_pos_bound (- (11 * n + 100)) 10 ltac:(lia)).
    lia.
Qed.

Lemma align_up_spec (est : Z) :
  0 <= est -> est + 127 < size_t_range ->
  align_up est = 128 * (- ((- est) / 128)) /\
  est <= align_up est <= est + 127 /\
  align_up est mod 128 = 0.
Proof.
  intros H0 H1. unfold align_up, size_mul, size_add, size_t_range in *.
  assert (E64 : 2 ^ 64 = 18446744073709551616) by reflexivity.
  rewrite E64 in *.
  rewrite (Z.mod_small (est + 127)) by lia.
  pose proof (Z.div_mod (est + 127) 128 ltac:(lia)) as Hd.
  pose proof (Z.mod_pos_bound (est + 127) 128 ltac:(lia)) as Hm.
  pose proof (Z.div_mod (- est) 128 ltac:(lia)) as Hd'.
  pose proof (Z.mod_pos_bound (- est) 128 ltac:(lia)) as Hm'.
  rewrite Z.mod_small by lia.
  split; [lia |]. split; [lia |].
  rewrite Z.mul_comm. apply Z.mod_mul. lia.
Qed.

(** What the reallocating branch computes for a request of at most
    [2^63] elements. *)
Lemma new_capacity_spec (n : Z) :
  0 <= n <= 2 ^ 63 ->
  exists est,
    conservative_estimate n = Some est /\
    n + 10 <= est /\ 10 * est <= 12 * n + 120 /\
    align_up est = 128 * (- ((- est) / 128)) /\
    est <= align_up est <= est + 127 /\
    align_up est mod 128 = 0.
Proof.
  intros Hn. destruct (conservative_estimate_bounds n Hn) as (est & Hest & Hlo & Hhi).
  exists est. split; [exact Hest |]. split; [exact Hlo |]. split; [exact Hhi |].
  apply align_up_spec; [lia |].
  unfold size_t_range.
  assert (E63 : 2 ^ 63 = 9223372036854775808) by reflexivity.
  assert (E64 : 2 ^ 64 = 18446744073709551616) by reflexivity.
  rewrite E63 in *. rewrite E64. lia.
Qed.

End GrowthFacts.

(** ** The runtime primitives when at most one work item is in flight *)

Module CudaFacts.

Lemma bind_ok {A B} (m : M A) (k : A -> M B) σ a σ' :
  m σ = Ok (a, σ') -> bind m k σ = k a σ'.
Proof. intros H. unfold bind. rewrite H. reflexivity. Qed.

Lemma bind_inv {A B} (m : M A) (k : A -> M B) σ b σ'' :
  bind m k σ = Ok (b, σ'') ->
  exists a σ', m σ = Ok (a, σ') /\ k a σ' = Ok (b, σ'').
Proof.
  unfold bind. destruct (m σ) as [[a σ'] | f]; [| discriminate].
  intros H. exists a, σ'. split; [reflexivity | exact H].
Qed.

Lemma bind_assoc {A B C} (m : M A) (k0 : A -> M B) (k : B -> M C) σ :
  bind (bind m k0) k σ = bind m (fun x => bind (k0 x) k) σ.
Proof. unfold bind. destruct (m σ) as [[a σ'] | f]; reflexivity. Qed.

Lemma steps_idle (d : list cudaStream_t) (m : memory) : steps d (m, []) = Ok (m, []).
Proof. induction d as [| s d IH]; [reflexivity | exact IH]. Qed.

Lemma tick_idle m sc tr : tick (State m [] sc tr) = Ok (tt, State m [] (tail sc) tr).
Proof.
  unfold tick. cbn [sched mem pending trace]. destruct sc as [| d ds]; [reflexivity |].
  rewrite steps_idle. reflexivity.
Qed.

Lemma steps_single (d : list cudaStream_t) m s w m' :
  exec_work w m = Some m' ->
  steps d (m, [(s, w)]) = Ok (m, [(s, w)]) \/ steps d (m, [(s, w)]) = Ok (m', []).
Proof.
  intros Hw. induction d as [| s' d IH]; [left; reflexivity |].
  cbn [steps]. unfold step. cbn [take_first snd fst].
  destruct (decide (s = s')) as [-> | Hne].
  - rewrite Hw. right. apply steps_idle.
  - exact IH.
Qed.

Lemma tick_single m s w sc tr m' :
  exec_work w m = Some m' ->
  tick (State m [(s, w)] sc tr) = Ok (tt, State m [(s, w)] (tail sc) tr) \/
  tick (State m [(s, w)] sc tr) = Ok (tt, State m' [] (tail sc) tr).
Proof.
  intros Hw. unfold tick. cbn [sched mem pending trace].
  destruct sc as [| d ds]; [left; reflexivity |]. cbn [tail].
  destruct (steps_single d m s w m' Hw) as [E | E]; rewrite E; [left | right]; reflexivity.
Qed.

Lemma cudaMalloc_idle bytes m sc tr :
  cudaMalloc bytes (State m [] sc tr) =
  Ok (Npos (next m),
      State (Memory (hostmem m) (<[Npos (next m) := fresh_block bytes]> (devmem m))
               (Pos.succ (next m)))
        [] (tail sc) (tr ++ [CallMalloc])).
Proof. unfold cudaMalloc. rewrite (bind_ok _ _ _ _ _ (tick_idle m sc tr)). reflexivity. Qed.

Lemma cudaHostAlloc_idle bytes m sc tr :
  cudaHostAlloc bytes (State m [] sc tr) =
  Ok (Npos (next m),
      State (Memory (<[Npos (next m) := fresh_block bytes]> (hostmem m)) (devmem m)
               (Pos.succ (next m)))
        [] (tail sc) (tr ++ [CallHostAlloc])).
Proof. unfold cudaHostAlloc. rewrite (bind_ok _ _ _ _ _ (tick_idle m sc tr)). reflexivity. Qed.

Lemma cudaFree_null_idle m sc tr :
  cudaFree nullptr (State m [] sc tr) = Ok (tt, State m [] (tail sc) (tr ++ [CallFree])).
Proof. unfold cudaFree. rewrite (bind_ok _ _ _ _ _ (tick_idle m sc tr)). reflexivity. Qed.

Lemma cudaFreeHost_null_idle m sc tr :
  cudaFreeHost nullptr (State m [] sc tr) = Ok (tt, State m [] (tail sc) (tr ++ [CallFreeHost])).
Proof. unfold cudaFreeHost. rewrite (bind_ok _ _ _ _ _ (tick_idle m sc tr)). reflexivity. Qed.

Lemma cudaFree_idle p m sc tr :
  p <> nullptr -> is_Some (devmem m !! p) ->
  cudaFree p (State m [] sc tr) =
  Ok (tt, State (Memory (hostmem m) (delete p (devmem m)) (next m)) [] (tail sc)
            (tr ++ [CallFree])).
Proof.
  intros Hp [blk Hblk]. unfold cudaFree.
  rewrite (bind_ok _ _ _ _ _ (tick_idle m sc tr)).
  unfold bind, record. cbn [mem pending sched trace].
  destruct (decide (p = nullptr)) as [E | _]; [contradiction |].
  unfold wait_device, release. cbn [mem pending sched trace drain heap_of].
  rewrite Hblk. reflexivity.
Qed.

Lemma cudaFreeHost_idle p m sc tr :
  p <> nullptr -> is_Some (hostmem m !! p) ->
  cudaFreeHost p (State m [] sc tr) =
  Ok (tt, State (Memory (delete p (hostmem m)) (devmem m) (next m)) [] (tail sc)
            (tr ++ [CallFreeHost])).
Proof.
  intros Hp [blk Hblk]. unfold cudaFreeHost.
  rewrite (bind_ok _ _ _ _ _ (tick_idle m sc tr)).
  unfold bind, record. cbn [mem pending sched trace].
  destruct (decide (p = nullptr)) as [E | _]; [contradiction |].
  unfold wait_device, release. cbn [mem pending sched trace drain heap_of].
  rewrite Hblk. reflexivity.
Qed.

(** With one work item in flight, releasing device memory first lets it
    finish, whatever the scheduler did before. *)
Lemma cudaFree_single p m s w sc tr m' :
  p <> nullptr -> exec_work w m = Some m' -> is_Some (devmem m' !! p) ->
  cudaFree p (State m [(s, w)] sc tr) =
  Ok (tt, State (Memory (hostmem m') (delete p (devmem m')) (next m')) [] (tail sc)
            (tr ++ [CallFree])).
Proof.
  intros Hp Hw [blk Hblk]. unfold cudaFree.
  destruct (tick_single m s w sc tr m' Hw) as [Ht | Ht];
    rewrite (bind_ok _ _ _ _ _ Ht);
    unfold bind, record; cbn [mem pending sched trace];
    (destruct (decide (p = nullptr)) as [E | _]; [contradiction |]);
    unfold wait_device, release; cbn [mem pending sched trace drain heap_of];
    rewrite ?Hw; cbn [mem heap_of]; rewrite Hblk; reflexivity.
Qed.

Lemma cudaMemcpyAsync_idle dst src count kind s m sc tr :
  cudaMemcpyAsync dst src count kind s (State m [] sc tr) =
  Ok (tt, State m [(s, WMemcpy dst src count kind)] (tail sc) (tr ++ [CallMemcpyAsync s])).
Proof. unfold cudaMemcpyAsync. rewrite (bind_ok _ _ _ _ _ (tick_idle m sc tr)). reflexivity. Qed.

Lemma cudaMemsetAsync_idle dst v count s m sc tr :
  cudaMemsetAsync dst v count s (State m [] sc tr) =
  Ok (tt, State m [(s, WMemset dst v count)] (tail sc) (tr ++ [CallMemsetAsync s])).
Proof. unfold cudaMemsetAsync. rewrite (bind_ok _ _ _ _ _ (tick_idle m sc tr)). reflexivity. Qed.

Lemma launch_store_idle dst off data s m sc tr :
  launch_store dst off data s (State m [] sc tr) =
  Ok (tt, State m [(s, WKernelStore dst off data)] (tail sc) (tr ++ [CallLaunch s])).
Proof. unfold launch_store. rewrite (bind_ok _ _ _ _ _ (tick_idle m sc tr)). reflexivity. Qed.

Lemma cudaStreamSynchronize_idle s m sc tr :
  cudaStreamSynchronize s (State m [] sc tr) =
  Ok (tt, State m [] (tail sc) (tr ++ [CallStreamSynchronize s])).
Proof.
  unfold cudaStreamSynchronize. rewrite (bind_ok _ _ _ _ _ (tick_idle m sc tr)). reflexivity.
Qed.

Lemma cudaStreamSynchronize_single s w m sc tr m' :
  exec_work w m = Some m' ->
  cudaStreamSynchronize s (State m [(s, w)] sc tr) =
  Ok (tt, State m' [] (tail sc) (tr ++ [CallStreamSynchronize s])).
Proof.
  intros Hw. unfold cudaStreamSynchronize.
  destruct (tick_single m s w sc tr m' Hw) as [Ht | Ht];
    rewrite (bind_ok _ _ _ _ _ Ht);
    unfold bind, record, wait_stream; cbn [mem pending sched trace drain_stream].
  - destruct (decide (s = s)) as [_ | E]; [| contradiction].
    rewrite Hw. reflexivity.
  - reflexivity.
Qed.

Lemma exec_memcpy m dst src count kind sblk dblk :
  heap_of (src_space kind) m !! src = Some sblk ->
  heap_of (dst_space kind) m !! dst = Some dblk ->
  (Z.to_nat count <= length sblk)%nat -> (Z.to_nat count <= length dblk)%nat ->
  exec_work (WMemcpy dst src count kind) m =
  Some (set_heap (dst_space kind)
          (<[dst := take (Z.to_nat count) sblk ++ drop (Z.to_nat count) dblk]>
             (heap_of (dst_space kind) m)) m).
Proof.
  intros Hs Hd Hls Hld. unfold exec_work, load, store. rewrite Hs.
  destruct (decide (Z.to_nat count ≤ length sblk)%nat) as [_ | E]; [| contradiction].
  rewrite Hd. rewrite length_take_le by exact Hls.
  destruct (decide (0 + Z.to_nat count ≤ length dblk)%nat) as [_ | E]; [| lia].
  reflexivity.
Qed.

End CudaFacts.

(** ** Sizes in bytes *)

Module SizeFacts.
Import Growth GrowthFacts.

Lemma pow2_63 : 2 ^ 63 = 9223372036854775808.
Proof. reflexivity. Qed.
Lemma pow2_64 : 2 ^ 64 = 18446744073709551616.
Proof. reflexivity. Qed.

Lemma fits_le (T : ctype) (n : Z) : fits T n -> 0 <= n <= 2 ^ 63.
Proof.
  intros [H0 H1]. pose proof (sizeof_pos T) as Hs. unfold size_t_range in H1.
  rewrite pow2_63. rewrite pow2_64 in H1. split; [lia | nia].
Qed.

Lemma bytes_of_small (T : ctype) (k : Z) :
  0 <= k -> sizeof T * k < size_t_range -> bytes_of T k = sizeof T * k.
Proof.
  intros Hk Hlt. unfold bytes_of, size_mul. apply Z.mod_small.
  pose proof (sizeof_pos T). split; [nia | exact Hlt].
Qed.

(** The capacity chosen for a request that fits. *)
Lemma fits_capacity (T : ctype) (n : Z) :
  fits T n ->
  exists est,
    conservative_estimate n = Some est /\
    n + 10 <= est /\
    align_up est = 128 * (- ((- est) / 128)) /\
    n < align_up est /\
    align_up est mod 128 = 0 /\
    sizeof T * align_up est < size_t_range /\
    bytes_of T (align_up est) = sizeof T * align_up est.
Proof.
  intros Hf. pose proof (fits_le T n Hf) as Hn. destruct Hf as [H0 H1].
  destruct (new_capacity_spec n Hn) as (est & Hest & Hlo & Hhi & Hal & Hb & Hm).
  exists est. split; [exact Hest |]. split; [exact Hlo |]. split; [exact Hal |].
  split; [lia |]. split; [exact Hm |].
  pose proof (sizeof_pos T) as Hs.
  assert (Hlt : sizeof T * align_up est < size_t_range).
  { assert (align_up est < 2 * n + 256) by lia. nia. }
  split; [exact Hlt |]. apply bytes_of_small; [lia | exact Hlt].
Qed.

End SizeFacts.

(** ** The reallocating and the non-reallocating branch of [_resize] *)

Module DeviceFacts.
Import Growth GrowthFacts SizeFacts CudaFacts DeviceBuffer.

Lemma device_resize_keep (T : ctype) n st copy (b : t T) σ :
  n <= capacity b ->
  _resize n st copy b σ = Ok (Build (capacity b) n (devptr b), σ).
Proof.
  intros H. unfold _resize.
  replace (n <=? capacity b) with true by (symmetry; apply Z.leb_le; exact H).
  reflexivity.
Qed.


Lemma device_resize_grow (T : ctype) n st copy (b : t T) m sc tr :
  mem_ok m -> wf (State m [] sc tr) b -> fits T n -> capacity b < n ->
  exists est sc' tr',
    conservative_estimate n = Some est /\
    _resize n st copy b (State m [] sc tr) =
      Ok (Build (align_up est) n (Npos (next m)),
          State (Memory (hostmem m)
                   (delete (devptr b)
                      (<[Npos (next m) :=
                           grown_block copy (devptr b) (sizeof T * _size b)
                             (sizeof T * align_up est) (devmem m !! devptr b)]> (devmem m)))
                   (Pos.succ (next m)))
            [] sc' tr').
Proof.
  intros Hok (Hinv & Hcap & Halloc) Hfit Hlt. cbn [mem] in Halloc.
  destruct Hinv as [Hsz Hnull].
  destruct (fits_capacity T n Hfit) as (est & Hest & Hlo & Hal & Hn & Hmod & Hbytes & Hbo).
  pose proof (sizeof_pos T) as Hs.
  exists est. unfold _resize.
  replace (n <=? capacity b) with false by (symmetry; apply Z.leb_gt; exact Hlt).
  rewrite Hest. rewrite Hbo.
  rewrite (bind_ok _ _ _ _ _ (cudaMalloc_idle _ m sc tr)).
  set (p := Npos (next m)).
  set (cap := align_up est) in *.
  destruct (N.eqb_spec (devptr b) nullptr) as [Hd | Hd].
  - (* nothing was allocated before *)
    rewrite andb_false_r. cbn [negb].
    rewrite (bind_ok _ _ _ _ _ (eq_refl : ret tt _ = Ok (tt, _))).
    rewrite Hd.
    rewrite (bind_ok _ _ _ _ _ (cudaFree_null_idle _ _ _)).
    eexists _, _. split; [reflexivity |]. unfold ret. do 3 f_equal.
    assert (Hnone : devmem m !! nullptr = None).
    { destruct (devmem m !! nullptr) eqn:E; [| reflexivity].
      destruct (Hok Device nullptr) as [Hpos _]; [cbn; rewrite E; eauto |].
      unfold nullptr in Hpos. lia. }
    rewrite Hnone. cbn [grown_block].
    rewrite delete_id; [reflexivity |].
    rewrite lookup_insert_ne by (unfold p, nullptr; lia). exact Hnone.
  - destruct (Halloc Hd) as (blk & Hblk & Hlen).
    assert (Hne : p <> devptr b).
    { destruct (Hok Device (devptr b)) as [_ Hlt']; [cbn; rewrite Hblk; eauto |].
      unfold p. lia. }
    assert (Heqb : (devptr b =? nullptr)%N = false) by (apply N.eqb_neq; exact Hd).
    rewrite Hblk. unfold grown_block. rewrite ?Heqb. cbn [negb]. rewrite ?andb_true_r.
    destruct copy; cbn [andb].
    + destruct (Z.ltb_spec 0 (_size b)) as [Hpos | Hzero].
      * replace (0 <? sizeof T * _size b) with true by (symmetry; apply Z.ltb_lt; nia).
        rewrite bytes_of_small by nia.
        rewrite (bind_ok _ _ _ _ _ (cudaMemcpyAsync_idle _ _ _ _ _ _ _ _)).
        set (m1 := Memory (hostmem m) (<[p := fresh_block (sizeof T * cap)]> (devmem m))
                     (Pos.succ (next m))).
        assert (Hexec : exec_work
                  (WMemcpy p (devptr b) (sizeof T * _size b) cudaMemcpyDeviceToDevice) m1
                = Some (Memory (hostmem m)
                          (<[p := take (Z.to_nat (sizeof T * _size b)) blk ++
                                  drop (Z.to_nat (sizeof T * _size b))
                                    (fresh_block (sizeof T * cap))]>
                             (<[p := fresh_block (sizeof T * cap)]> (devmem m)))
                          (Pos.succ (next m)))).
        { erewrite exec_memcpy; [reflexivity | | | |].
          - cbn. rewrite lookup_insert_ne by exact Hne. exact Hblk.
          - cbn. apply lookup_insert_eq.
          - nia.
          - unfold fresh_block. rewrite length_replicate. nia. }
        erewrite (bind_ok _ _ _ _ _ (cudaFree_single _ _ _ _ _ _ _ Hd Hexec _)).
        eexists _, _. split; [reflexivity |]. unfold ret. cbn [hostmem devmem next].
        rewrite insert_insert_eq. reflexivity.
      * replace (0 <? sizeof T * _size b) with false by (symmetry; apply Z.ltb_ge; nia).
        rewrite (bind_ok _ _ _ _ _ (eq_refl : ret tt _ = Ok (tt, _))).
        erewrite (bind_ok _ _ _ _ _ (cudaFree_idle _ _ _ _ Hd _)).
        eexists _, _. split; [reflexivity |]. reflexivity.
    + rewrite (bind_ok _ _ _ _ _ (eq_refl : ret tt _ = Ok (tt, _))).
      erewrite (bind_ok _ _ _ _ _ (cudaFree_idle _ _ _ _ Hd _)).
      eexists _, _. split; [reflexivity |]. reflexivity.
  Unshelve.
  all: cbn [devmem]; rewrite ?lookup_insert_ne by exact Hne; rewrite ?Hblk; eauto.
Qed.

End DeviceFacts.

Module HostFacts.
Import Growth GrowthFacts SizeFacts CudaFacts HostBuffer.

Lemma memcpy_ok dst src count m q sc tr m' :
  count <> 0 ->
  exec_work (WMemcpy dst src count cudaMemcpyHostToHost) m = Some m' ->
  memcpy dst src count (State m q sc tr) = Ok (tt, State m' q sc tr).
Proof.
  intros Hc Hw. unfold memcpy.
  destruct (decide (count = 0)) as [E | _]; [contradiction |].
  unfold run_now. cbn [mem pending sched trace]. rewrite Hw. reflexivity.
Qed.

Lemma null_not_allocated (sp : space) (m : memory) :
  mem_ok m -> heap_of sp m !! nullptr = None.
Proof.
  intros Hok. destruct (heap_of sp m !! nullptr) eqn:E; [| reflexivity].
  destruct (Hok sp nullptr) as [Hpos _]; [rewrite E; eauto |].
  unfold nullptr in Hpos. lia.
Qed.

Lemma host_resize_keep (T : ctype) n copy (b : t T) σ :
  n <= capacity b ->
  _resize n copy b σ = Ok (Build (capacity b) n (hostptr b), σ).
Proof.
  intros H. unfold _resize.
  replace (n <=? capacity b) with true by (symmetry; apply Z.leb_le; exact H).
  reflexivity.
Qed.

Lemma host_resize_grow (T : ctype) n copy (b : t T) m sc tr :
  mem_ok m -> wf (State m [] sc tr) b -> fits T n -> capacity b < n ->
  exists est sc' tr',
    conservative_estimate n = Some est /\
    _resize n copy b (State m [] sc tr) =
      Ok (Build (align_up est) n (Npos (next m)),
          State (Memory
                   (delete (hostptr b)
                      (<[Npos (next m) :=
                           grown_block copy (hostptr b) (sizeof T * _size b)
                             (sizeof T * align_up est) (hostmem m !! hostptr b)]> (hostmem m)))
                   (devmem m) (Pos.succ (next m)))
            [] sc' tr').
Proof.
  intros Hok (Hinv & Hcap & Halloc) Hfit Hlt. cbn [mem] in Halloc.
  destruct Hinv as [Hsz Hnull].
  destruct (fits_capacity T n Hfit) as (est & Hest & Hlo & Hal & Hn & Hmod & Hbytes & Hbo).
  pose proof (sizeof_pos T) as Hs.
  exists est. unfold _resize.
  replace (n <=? capacity b) with false by (symmetry; apply Z.leb_gt; exact Hlt).
  rewrite Hest. rewrite Hbo.
  rewrite (bind_ok _ _ _ _ _ (cudaHostAlloc_idle _ m sc tr)).
  set (p := Npos (next m)).
  set (cap := align_up est) in *.
  destruct (N.eqb_spec (hostptr b) nullptr) as [Hd | Hd].
  - rewrite andb_false_r. cbn [negb].
    rewrite (bind_ok _ _ _ _ _ (eq_refl : ret tt _ = Ok (tt, _))).
    rewrite Hd.
    rewrite (bind_ok _ _ _ _ _ (cudaFreeHost_null_idle _ _ _)).
    eexists _, _. split; [reflexivity |]. unfold ret. do 3 f_equal.
    pose proof (null_not_allocated Host m Hok) as Hnone. cbn [heap_of] in Hnone.
    rewrite Hnone. cbn [grown_block].
    rewrite delete_id; [reflexivity |].
    rewrite lookup_insert_ne by (unfold p, nullptr; lia). exact Hnone.
  - destruct (Halloc Hd) as (blk & Hblk & Hlen).
    assert (Hne : p <> hostptr b).
    { destruct (Hok Host (hostptr b)) as [_ Hlt']; [cbn; rewrite Hblk; eauto |].
      unfold p. lia. }
    assert (Heqb : (hostptr b =? nullptr)%N = false) by (apply N.eqb_neq; exact Hd).
    rewrite Hblk. unfold grown_block. rewrite ?Heqb. cbn [negb]. rewrite ?andb_true_r.
    destruct copy; cbn [andb].
    + destruct (Z.ltb_spec 0 (_size b)) as [Hpos | Hzero].
      * replace (0 <? sizeof T * _size b) with true by (symmetry; apply Z.ltb_lt; nia).
        rewrite bytes_of_small by nia.
        set (m1 := Memory (<[p := fresh_block (sizeof T * cap)]> (hostmem m)) (devmem m)
                     (Pos.succ (next m))).
        assert (Hexec : exec_work
                  (WMemcpy p (hostptr b) (sizeof T * _size b) cudaMemcpyHostToHost) m1
                = Some (Memory
                          (<[p := take (Z.to_nat (sizeof T * _size b)) blk ++
                                  drop (Z.to_nat (sizeof T * _size b))
                                    (fresh_block (sizeof T * cap))]>
                             (<[p := fresh_block (sizeof T * cap)]> (hostmem m)))
                          (devmem m) (Pos.succ (next m)))).
        { erewrite exec_memcpy; [reflexivity | | | |].
          - cbn. rewrite lookup_insert_ne by exact Hne. exact Hblk.
          - cbn. apply lookup_insert_eq.
          - nia.
          - unfold fresh_block. rewrite length_replicate. nia. }
        assert (Hnz : sizeof T * _size b <> 0) by nia.
        rewrite (bind_ok _ _ _ _ _ (memcpy_ok _ _ _ _ _ _ _ _ Hnz Hexec)).
        erewrite (bind_ok _ _ _ _ _ (cudaFreeHost_idle _ _ _ _ Hd _)).
        eexists _, _. split; [reflexivity |]. unfold ret. cbn [hostmem devmem next].
        rewrite insert_insert_eq. reflexivity.
      * replace (0 <? sizeof T * _size b) with false by (symmetry; apply Z.ltb_ge; nia).
        rewrite (bind_ok _ _ _ _ _ (eq_refl : ret tt _ = Ok (tt, _))).
        erewrite (bind_ok _ _ _ _ _ (cudaFreeHost_idle _ _ _ _ Hd _)).
        eexists _, _. split; [reflexivity |]. reflexivity.
    + rewrite (bind_ok _ _ _ _ _ (eq_refl : ret tt _ = Ok (tt, _))).
      erewrite (bind_ok _ _ _ _ _ (cudaFreeHost_idle _ _ _ _ Hd _)).
      eexists _, _. split; [reflexivity |]. reflexivity.
  Unshelve.
  all: cbn [hostmem set_heap dst_space]; rewrite ?lookup_insert_ne by exact Hne; rewrite ?Hblk; eauto.
Qed.

End HostFacts.

Module PinnedFacts.
Import Growth GrowthFacts SizeFacts CudaFacts PinnedBuffer.
Import HostFacts.

Lemma pinned_resize_keep (T : ctype) n st copy (b : t T) σ :
  n <= capacity b ->
  _resize n st copy b σ = Ok (Build (capacity b) n (hostptr b) (devptr b), σ).
Proof.
  intros H. unfold _resize.
  replace (n <=? capacity b) with true by (symmetry; apply Z.leb_le; exact H).
  reflexivity.
Qed.

Lemma pinned_resize_grow_calls (T : ctype) n st copy (b : t T) m sc tr :
  mem_ok m -> wf (State m [] sc tr) b -> fits T n -> capacity b < n ->
  exists est sc' l,
    conservative_estimate n = Some est /\
    (copy = true -> hostptr b <> nullptr -> 0 < _size b ->
     In (CallStreamSynchronize st) l) /\
    _resize n st copy b (State m [] sc tr) =
      Ok (Build (align_up est) n (Npos (next m)) (Npos (Pos.succ (next m))),
          State (Memory
                   (delete (hostptr b)
                      (<[Npos (next m) :=
                           grown_block copy (hostptr b) (sizeof T * _size b)
                             (sizeof T * align_up est) (hostmem m !! hostptr b)]> (hostmem m)))
                   (delete (devptr b)
                      (<[Npos (Pos.succ (next m)) :=
                           grown_block copy (devptr b) (sizeof T * _size b)
                             (sizeof T * align_up est) (devmem m !! devptr b)]> (devmem m)))
                   (Pos.succ (Pos.succ (next m))))
            [] sc' (tr ++ l)).
Proof.
  intros Hok (Hinv & Hcap & Halloc) Hfit Hlt. cbn [mem] in Halloc.
  destruct Hinv as (Hsz & Hnull & Hboth).
  destruct (fits_capacity T n Hfit) as (est & Hest & Hlo & Hal & Hn & Hmod & Hbytes & Hbo).
  pose proof (sizeof_pos T) as Hs.
  exists est. unfold _resize.
  replace (n <=? capacity b) with false by (symmetry; apply Z.leb_gt; exact Hlt).
  rewrite Hest. rewrite Hbo.
  rewrite (bind_ok _ _ _ _ _ (cudaHostAlloc_idle _ m sc tr)).
  rewrite (bind_ok _ _ _ _ _ (cudaMalloc_idle _ _ _ _)). cbn [hostmem devmem next].
  set (hp := Npos (next m)).
  set (dp := Npos (Pos.succ (next m))).
  set (cap := align_up est) in *.
  pose proof (null_not_allocated Host m Hok) as Hhnone. cbn [heap_of] in Hhnone.
  pose proof (null_not_allocated Device m Hok) as Hdnone. cbn [heap_of] in Hdnone.
  destruct (N.eqb_spec (hostptr b) nullptr) as [Hh | Hh].
  - assert (Hd : devptr b = nullptr) by (apply Hboth; exact Hh).
    rewrite andb_false_r. cbn [negb andb].
    rewrite (bind_ok _ _ _ _ _ (eq_refl : ret tt _ = Ok (tt, _))).
    rewrite Hh, Hd.
    rewrite (bind_ok _ _ _ _ _ (cudaFreeHost_null_idle _ _ _)).
    rewrite (bind_ok _ _ _ _ _ (cudaFree_null_idle _ _ _)).
    rewrite <- ?app_assoc.
    eexists _, _. split; [reflexivity |]. split; [intros _ E; contradiction |]. unfold ret.
    rewrite Hhnone, Hdnone. cbn [grown_block].
    rewrite !delete_id; [reflexivity | |].
    + rewrite lookup_insert_ne by (unfold dp, nullptr; lia). exact Hdnone.
    + rewrite lookup_insert_ne by (unfold hp, nullptr; lia). exact Hhnone.
  - assert (Hd : devptr b <> nullptr) by (intros E; apply Hh, Hboth; exact E).
    destruct (Halloc Hd) as ((dblk & Hdblk & Hdlen) & (hblk & Hhblk & Hhlen)).
    assert (Hneh : hp <> hostptr b).
    { destruct (Hok Host (hostptr b)) as [_ Hlt']; [cbn; rewrite Hhblk; eauto |].
      unfold hp. lia. }
    assert (Hned : dp <> devptr b).
    { destruct (Hok Device (devptr b)) as [_ Hlt']; [cbn; rewrite Hdblk; eauto |].
      unfold dp. lia. }
    assert (Heqh : (hostptr b =? nullptr)%N = false) by (apply N.eqb_neq; exact Hh).
    assert (Heqd : (devptr b =? nullptr)%N = false) by (apply N.eqb_neq; exact Hd).
    rewrite Hhblk, Hdblk. unfold grown_block. rewrite ?Heqh, ?Heqd.
    cbn [negb]. rewrite ?andb_true_r.
    destruct (copy && (0 <? _size b)) eqn:Hc.
    + apply andb_true_iff in Hc as [-> Hpos]. apply Z.ltb_lt in Hpos. cbn [andb].
      replace (0 <? sizeof T * _size b) with true by (symmetry; apply Z.ltb_lt; nia).
      rewrite bytes_of_small by nia.
      set (k := Z.to_nat (sizeof T * _size b)).
      set (fresh := fresh_block (sizeof T * cap)).
      assert (Hfresh : length fresh = Z.to_nat (sizeof T * cap))
        by (unfold fresh, fresh_block; apply length_replicate).
      assert (Hnz : sizeof T * _size b <> 0) by nia.
      set (m2 := Memory (<[hp := fresh]> (hostmem m)) (<[dp := fresh]> (devmem m))
                   (Pos.succ (Pos.succ (next m)))).
      set (m3 := Memory (<[hp := take k hblk ++ drop k fresh]> (hostmem m))
                   (<[dp := fresh]> (devmem m)) (Pos.succ (Pos.succ (next m)))).
      set (m4 := Memory (<[hp := take k hblk ++ drop k fresh]> (hostmem m))
                   (<[dp := take k dblk ++ drop k fresh]> (devmem m))
                   (Pos.succ (Pos.succ (next m)))).
      assert (Hexec1 : exec_work
                (WMemcpy hp (hostptr b) (sizeof T * _size b) cudaMemcpyHostToHost) m2
              = Some m3).
      { erewrite exec_memcpy; [| | | |].
        - unfold m3, m2. cbn [set_heap dst_space heap_of hostmem devmem next].
          rewrite insert_insert_eq. reflexivity.
        - cbn. rewrite lookup_insert_ne by exact Hneh. exact Hhblk.
        - cbn. apply lookup_insert_eq.
        - nia.
        - rewrite Hfresh. nia. }
      assert (Hexec2 : exec_work
                (WMemcpy dp (devptr b) (sizeof T * _size b) cudaMemcpyDeviceToDevice) m3
              = Some m4).
      { erewrite exec_memcpy; [| | | |].
        - unfold m4, m3. cbn [set_heap dst_space heap_of hostmem devmem next].
          rewrite insert_insert_eq. reflexivity.
        - cbn. rewrite lookup_insert_ne by exact Hned. exact Hdblk.
        - cbn. apply lookup_insert_eq.
        - nia.
        - rewrite Hfresh. nia. }
      fold m2. rewrite !bind_assoc.
      rewrite (bind_ok _ _ _ _ _ (memcpy_ok _ _ _ _ _ _ _ _ Hnz Hexec1)). cbv beta.
      rewrite ?bind_assoc.
      rewrite (bind_ok _ _ _ _ _ (cudaMemcpyAsync_idle _ _ _ _ _ _ _ _)). cbv beta.
      rewrite (bind_ok _ _ _ _ _ (cudaStreamSynchronize_single _ _ _ _ _ _ Hexec2)).
      erewrite (bind_ok _ _ _ _ _ (cudaFreeHost_idle _ _ _ _ Hh _)).
      erewrite (bind_ok _ _ _ _ _ (cudaFree_idle _ _ _ _ Hd _)).
      rewrite <- ?app_assoc.
      eexists _, _. split; [reflexivity |]. split; [| reflexivity].
      intros _ _ _. rewrite ?in_app_iff. cbn [In]. intuition congruence.
    + replace (copy && (0 <? sizeof T * _size b)) with false.
      2:{ symmetry. apply andb_false_iff. apply andb_false_iff in Hc as [Hc | Hc];
          [left; exact Hc | right]. apply Z.ltb_ge. apply Z.ltb_ge in Hc. nia. }
      rewrite (bind_ok _ _ _ _ _ (eq_refl : ret tt _ = Ok (tt, _))).
      erewrite (bind_ok _ _ _ _ _ (cudaFreeHost_idle _ _ _ _ Hh _)).
      erewrite (bind_ok _ _ _ _ _ (cudaFree_idle _ _ _ _ Hd _)).
      rewrite <- ?app_assoc.
      eexists _, _. split; [reflexivity |]. split; [| reflexivity].
      intros -> _ Hpos. apply andb_false_iff in Hc as [Hc | Hc]; [discriminate |].
      apply Z.ltb_ge in Hc. lia.
  Unshelve.
  all: repeat match goal with x := _ : memory |- _ => subst x end;
    cbn [hostmem devmem]; rewrite ?lookup_insert_ne by assumption;
    rewrite ?Hhblk, ?Hdblk; eauto.
Qed.

Lemma pinned_resize_grow (T : ctype) n st copy (b : t T) m sc tr :
  mem_ok m -> wf (State m [] sc tr) b -> fits T n -> capacity b < n ->
  exists est sc' tr',
    conservative_estimate n = Some est /\
    _resize n st copy b (State m [] sc tr) =
      Ok (Build (align_up est) n (Npos (next m)) (Npos (Pos.succ (next m))),
          State (Memory
                   (delete (hostptr b)
                      (<[Npos (next m) :=
                           grown_block copy (hostptr b) (sizeof T * _size b)
                             (sizeof T * align_up est) (hostmem m !! hostptr b)]> (hostmem m)))
                   (delete (devptr b)
                      (<[Npos (Pos.succ (next m)) :=
                           grown_block copy (devptr b) (sizeof T * _size b)
                             (sizeof T * align_up est) (devmem m !! devptr b)]> (devmem m)))
                   (Pos.succ (Pos.succ (next m))))
            [] sc' tr').
Proof.
  intros Hok Hwf Hfit Hlt.
  destruct (pinned_resize_grow_calls T n st copy b m sc tr Hok Hwf Hfit Hlt)
    as (est & sc' & l & Hest & _ & Hrun).
  exists est, sc', (tr ++ l). split; [exact Hest | exact Hrun].
Qed.

End PinnedFacts.

(** ** Statements about the containers *)

Import Growth GrowthFacts SizeFacts CudaFacts.

Lemma grown_block_prefix (p : N) (oldbytes newbytes : Z) (blk : list cell) (k : nat) :
  p <> nullptr -> (k <= Z.to_nat oldbytes)%nat -> (Z.to_nat oldbytes <= length blk)%nat ->
  take k (grown_block true p oldbytes newbytes (Some blk)) = take k blk.
Proof.
  intros Hp Hk Hlen. unfold grown_block.
  replace (p =? nullptr)%N with false by (symmetry; apply N.eqb_neq; exact Hp).
  cbn [negb andb]. destruct (Z.ltb_spec 0 oldbytes) as [Hpos | Hzero].
  - rewrite take_app_le by (rewrite length_take_le; lia).
    rewrite take_take. f_equal. lia.
  - assert (k = 0%nat) by lia. subst k. rewrite !take_0. reflexivity.
Qed.

Lemma device_resize_prefix (T : ctype) n st (b : DeviceBuffer.t T) σ :
  mem_ok (mem σ) -> quiescent σ -> fits T n -> DeviceBuffer.wf σ b ->
  exists b' σ',
    DeviceBuffer.resize n st b σ = Ok (b', σ') /\
    DeviceBuffer._size b' = n /\
    prefix_kept (devmem (mem σ)) (devmem (mem σ')) (DeviceBuffer.devptr b)
      (DeviceBuffer.devptr b') (Z.to_nat (sizeof T * Z.min (DeviceBuffer._size b) n)) /\
    (n <= DeviceBuffer.capacity b -> σ' = σ /\ DeviceBuffer.devptr b' = DeviceBuffer.devptr b) /\
    (DeviceBuffer.capacity b < n ->
     DeviceBuffer.devptr b' <> DeviceBuffer.devptr b /\
     devmem (mem σ') !! DeviceBuffer.devptr b = None).
Proof.
  intros Hok Hq Hfit Hwf. destruct σ as [m q sc tr]. cbn [mem] in *.
  unfold quiescent in Hq. cbn [pending] in Hq. subst q.
  unfold DeviceBuffer.resize.
  destruct (Z.le_gt_cases n (DeviceBuffer.capacity b)) as [Hle | Hgt].
  - rewrite DeviceFacts.device_resize_keep by exact Hle.
    eexists _, _. split; [reflexivity |]. cbn [DeviceBuffer._size DeviceBuffer.devptr mem].
    split; [reflexivity |]. split.
    + intros blk Hblk. exists blk. split; [exact Hblk | reflexivity].
    + split; [intros _; split; reflexivity | lia].
  - destruct (DeviceFacts.device_resize_grow T n st true b m sc tr Hok Hwf Hfit Hgt)
      as (est & sc' & tr' & Hest & ->).
    destruct Hwf as ((Hsz & Hnull) & Hcap & Halloc). cbn [mem] in Halloc.
    pose proof (sizeof_pos T) as Hs.
    pose proof (HostFacts.null_not_allocated Device m Hok) as Hnone. cbn [heap_of] in Hnone.
    assert (Hne : DeviceBuffer.devptr b <> Npos (next m)).
    { intros E. destruct (decide (DeviceBuffer.devptr b = nullptr)) as [E0 | E0].
      - rewrite E0 in E. discriminate.
      - destruct (Halloc E0) as (blk & Hblk & _).
        destruct (Hok Device (DeviceBuffer.devptr b)) as [_ Hlt]; [cbn; rewrite Hblk; eauto |].
        lia. }
    eexists _, _. split; [reflexivity |]. cbn [DeviceBuffer._size DeviceBuffer.devptr mem devmem].
    split; [reflexivity |]. split.
    + intros blk Hblk. rewrite Hblk.
      assert (E0 : DeviceBuffer.devptr b <> nullptr).
      { intros E. rewrite E, Hnone in Hblk. discriminate. }
      destruct (Halloc E0) as (blk0 & Hblk0 & Hlen). rewrite Hblk in Hblk0.
      injection Hblk0 as <-.
      eexists. split.
      * rewrite lookup_delete_ne by exact Hne. apply lookup_insert_eq.
      * apply grown_block_prefix; [exact E0 | nia | nia].
    + split; [lia |]. intros _. split; [congruence |]. apply lookup_delete_eq.
Qed.

Lemma host_resize_prefix (T : ctype) n (b : HostBuffer.t T) σ :
  mem_ok (mem σ) -> quiescent σ -> fits T n -> HostBuffer.wf σ b ->
  exists b' σ',
    HostBuffer.resize n b σ = Ok (b', σ') /\
    HostBuffer._size b' = n /\
    prefix_kept (hostmem (mem σ)) (hostmem (mem σ')) (HostBuffer.hostptr b)
      (HostBuffer.hostptr b') (Z.to_nat (sizeof T * Z.min (HostBuffer._size b) n)) /\
    (n <= HostBuffer.capacity b -> σ' = σ /\ HostBuffer.hostptr b' = HostBuffer.hostptr b) /\
    (HostBuffer.capacity b < n ->
     HostBuffer.hostptr b' <> HostBuffer.hostptr b /\
     hostmem (mem σ') !! HostBuffer.hostptr b = None).
Proof.
  intros Hok Hq Hfit Hwf. destruct σ as [m q sc tr]. cbn [mem] in *.
  unfold quiescent in Hq. cbn [pending] in Hq. subst q.
  unfold HostBuffer.resize.
  destruct (Z.le_gt_cases n (HostBuffer.capacity b)) as [Hle | Hgt].
  - rewrite HostFacts.host_resize_keep by exact Hle.
    eexists _, _. split; [reflexivity |]. cbn [HostBuffer._size HostBuffer.hostptr mem].
    split; [reflexivity |]. split.
    + intros blk Hblk. exists blk. split; [exact Hblk | reflexivity].
    + split; [intros _; split; reflexivity | lia].
  - destruct (HostFacts.host_resize_grow T n true b m sc tr Hok Hwf Hfit Hgt)
      as (est & sc' & tr' & Hest & ->).
    destruct Hwf as ((Hsz & Hnull) & Hcap & Halloc). cbn [mem] in Halloc.
    pose proof (sizeof_pos T) as Hs.
    pose proof (HostFacts.null_not_allocated Host m Hok) as Hnone. cbn [heap_of] in Hnone.
    assert (Hne : HostBuffer.hostptr b <> Npos (next m)).
    { intros E. destruct (decide (HostBuffer.hostptr b = nullptr)) as [E0 | E0].
      - rewrite E0 in E. discriminate.
      - destruct (Halloc E0) as (blk & Hblk & _).
        destruct (Hok Host (HostBuffer.hostptr b)) as [_ Hlt]; [cbn; rewrite Hblk; eauto |].
        lia. }
    eexists _, _. split; [reflexivity |].
    cbn [HostBuffer._size HostBuffer.hostptr mem hostmem].
    split; [reflexivity |]. split.
    + intros blk Hblk. rewrite Hblk.
      assert (E0 : HostBuffer.hostptr b <> nullptr).
      { intros E. rewrite E, Hnone in Hblk. discriminate. }
      destruct (Halloc E0) as (blk0 & Hblk0 & Hlen). rewrite Hblk in Hblk0.
      injection Hblk0 as <-.
      eexists. split.
      * rewrite lookup_delete_ne by exact Hne. apply lookup_insert_eq.
      * apply grown_block_prefix; [exact E0 | nia | nia].
    + split; [lia |]. intros _. split; [congruence |]. apply lookup_delete_eq.
Qed.

Lemma pinned_resize_prefix (T : ctype) n st (b : PinnedBuffer.t T) σ :
  mem_ok (mem σ) -> quiescent σ -> fits T n -> PinnedBuffer.wf σ b ->
  exists b' σ',
    PinnedBuffer.resize n st b σ = Ok (b', σ') /\
    PinnedBuffer._size b' = n /\
    prefix_kept (hostmem (mem σ)) (hostmem (mem σ')) (PinnedBuffer.hostptr b)
      (PinnedBuffer.hostptr b') (Z.to_nat (sizeof T * Z.min (PinnedBuffer._size b) n)) /\
    prefix_kept (devmem (mem σ)) (devmem (mem σ')) (PinnedBuffer.devptr b)
      (PinnedBuffer.devptr b') (Z.to_nat (sizeof T * Z.min (PinnedBuffer._size b) n)) /\
    (n <= PinnedBuffer.capacity b ->
     σ' = σ /\ PinnedBuffer.hostptr b' = PinnedBuffer.hostptr b /\
     PinnedBuffer.devptr b' = PinnedBuffer.devptr b) /\
    (PinnedBuffer.capacity b < n ->
     PinnedBuffer.hostptr b' <> PinnedBuffer.hostptr b /\
     PinnedBuffer.devptr b' <> PinnedBuffer.devptr b /\
     hostmem (mem σ') !! PinnedBuffer.hostptr b = None /\
     devmem (mem σ') !! PinnedBuffer.devptr b = None).
Proof.
  intros Hok Hq Hfit Hwf. destruct σ as [m q sc tr]. cbn [mem] in *.
  unfold quiescent in Hq. cbn [pending] in Hq. subst q.
  unfold PinnedBuffer.resize.
  destruct (Z.le_gt_cases n (PinnedBuffer.capacity b)) as [Hle | Hgt].
  - rewrite PinnedFacts.pinned_resize_keep by exact Hle.
    eexists _, _. split; [reflexivity |].
    cbn [PinnedBuffer._size PinnedBuffer.hostptr PinnedBuffer.devptr mem].
    split; [reflexivity |]. split; [| split].
    + intros blk Hblk. exists blk. split; [exact Hblk | reflexivity].
    + intros blk Hblk. exists blk. split; [exact Hblk | reflexivity].
    + split; [intros _; repeat split; reflexivity | lia].
  - destruct (PinnedFacts.pinned_resize_grow T n st true b m sc tr Hok Hwf Hfit Hgt)
      as (est & sc' & tr' & Hest & ->).
    destruct Hwf as ((Hsz & Hnull & Hboth) & Hcap & Halloc). cbn [mem] in Halloc.
    pose proof (sizeof_pos T) as Hs.
    pose proof (HostFacts.null_not_allocated Host m Hok) as Hhnone. cbn [heap_of] in Hhnone.
    pose proof (HostFacts.null_not_allocated Device m Hok) as Hdnone. cbn [heap_of] in Hdnone.
    assert (Hneh : PinnedBuffer.hostptr b <> Npos (next m)).
    { intros E. destruct (decide (PinnedBuffer.devptr b = nullptr)) as [E0 | E0].
      - apply Hboth in E0. rewrite E0 in E. discriminate.
      - destruct (Halloc E0) as (_ & (blk & Hblk & _)).
        destruct (Hok Host (PinnedBuffer.hostptr b)) as [_ Hlt]; [cbn; rewrite Hblk; eauto |].
        lia. }
    assert (Hned : PinnedBuffer.devptr b <> Npos (Pos.succ (next m))).
    { intros E. destruct (decide (PinnedBuffer.devptr b = nullptr)) as [E0 | E0].
      - rewrite E0 in E. discriminate.
      - destruct (Halloc E0) as ((blk & Hblk & _) & _).
        destruct (Hok Device (PinnedBuffer.devptr b)) as [_ Hlt]; [cbn; rewrite Hblk; eauto |].
        lia. }
    eexists _, _. split; [reflexivity |].
    cbn [PinnedBuffer._size PinnedBuffer.hostptr PinnedBuffer.devptr mem hostmem devmem].
    split; [reflexivity |]. split; [| split].
    + intros blk Hblk. rewrite Hblk.
      assert (Eh : PinnedBuffer.hostptr b <> nullptr).
      { intros E. rewrite E, Hhnone in Hblk. discriminate. }
      assert (E0 : PinnedBuffer.devptr b <> nullptr) by (intros E; apply Eh, Hboth, E).
      destruct (Halloc E0) as (_ & (blk0 & Hblk0 & Hlen)). rewrite Hblk in Hblk0.
      injection Hblk0 as <-.
      eexists. split.
      * rewrite lookup_delete_ne by exact Hneh. apply lookup_insert_eq.
      * apply grown_block_prefix; [exact Eh | nia | nia].
    + intros blk Hblk. rewrite Hblk.
      assert (E0 : PinnedBuffer.devptr b <> nullptr).
      { intros E. rewrite E, Hdnone in Hblk. discriminate. }
      destruct (Halloc E0) as ((blk0 & Hblk0 & Hlen) & _). rewrite Hblk in Hblk0.
      injection Hblk0 as <-.
      eexists. split.
      * rewrite lookup_delete_ne by exact Hned. apply lookup_insert_eq.
      * apply grown_block_prefix; [exact E0 | nia | nia].
    + split; [lia |]. intros _.
      split; [congruence |]. split; [congruence |].
      split; apply lookup_delete_eq.
Qed.

Module TraceFacts.

Section OnlyCalls.
Context (P : api_call -> Prop).

Lemma only_calls_ret {A} (a : A) : only_calls P (ret a).
Proof.
  intros σ a' σ' H. unfold ret in H. injection H as <- <-.
  exists []. split; [rewrite app_nil_r; reflexivity | constructor].
Qed.

Lemma only_calls_fail {A} (f : failure) : only_calls P (@fail A f).
Proof. intros σ a σ' H. discriminate. Qed.

Lemma only_calls_bind {A B} (m : M A) (k : A -> M B) :
  only_calls P m -> (forall a, only_calls P (k a)) -> only_calls P (bind m k).
Proof.
  intros Hm Hk σ b σ'' H. apply bind_inv in H as (a & σ' & H1 & H2).
  destruct (Hm _ _ _ H1) as (l1 & E1 & F1). destruct (Hk a _ _ _ H2) as (l2 & E2 & F2).
  exists (l1 ++ l2). split; [rewrite E2, E1, app_assoc; reflexivity |].
  apply Forall_app; split; assumption.
Qed.

(** A computation that leaves the trace alone. *)
Lemma only_calls_silent {A} (m : M A) :
  (forall σ a σ', m σ = Ok (a, σ') -> trace σ' = trace σ) -> only_calls P m.
Proof.
  intros Hm σ a σ' H. exists []. split; [rewrite app_nil_r; eauto | constructor].
Qed.

Lemma only_calls_tick : only_calls P tick.
Proof.
  apply only_calls_silent. intros σ a σ' H. unfold tick in H.
  destruct (sched σ) as [| d ds]; [injection H as _ <-; reflexivity |].
  destruct (steps d (mem σ, pending σ)) as [[m' q'] | f]; [| discriminate].
  injection H as _ <-. reflexivity.
Qed.

Lemma only_calls_record (c : api_call) : P c -> only_calls P (record c).
Proof.
  intros Hc σ a σ' H. unfold record in H. injection H as _ <-.
  exists [c]. split; [reflexivity | repeat constructor; exact Hc].
Qed.

Lemma only_calls_enqueue s w : only_calls P (enqueue s w).
Proof.
  apply only_calls_silent. intros σ a σ' H. unfold enqueue in H.
  injection H as _ <-. reflexivity.
Qed.

Lemma only_calls_allocate sp bytes : only_calls P (allocate sp bytes).
Proof.
  apply only_calls_silent. intros σ a σ' H. unfold allocate in H.
  destruct sp; injection H as _ <-; reflexivity.
Qed.

Lemma only_calls_release sp p : only_calls P (release sp p).
Proof.
  apply only_calls_silent. intros σ a σ' H. unfold release in H.
  destruct (heap_of sp (mem σ) !! p); [| discriminate]. injection H as _ <-. reflexivity.
Qed.

Lemma only_calls_wait_device : only_calls P wait_device.
Proof.
  apply only_calls_silent. intros σ a σ' H. unfold wait_device in H.
  destruct (drain (pending σ) (mem σ)); [| discriminate]. injection H as _ <-. reflexivity.
Qed.

Lemma only_calls_wait_stream s : only_calls P (wait_stream s).
Proof.
  apply only_calls_silent. intros σ a σ' H. unfold wait_stream in H.
  destruct (drain_stream s (pending σ) (mem σ)) as [[m' q'] |]; [| discriminate].
  injection H as _ <-. reflexivity.
Qed.

Lemma only_calls_run_now w f : only_calls P (run_now w f).
Proof.
  apply only_calls_silent. intros σ a σ' H. unfold run_now in H.
  destruct (exec_work w (mem σ)); [| discriminate]. injection H as _ <-. reflexivity.
Qed.

Lemma only_calls_memcpy dst src count : only_calls P (memcpy dst src count).
Proof.
  unfold memcpy. destruct (decide (count = 0)); [apply only_calls_ret | apply only_calls_run_now].
Qed.

Lemma only_calls_memset dst v count : only_calls P (memset dst v count).
Proof.
  apply only_calls_silent. intros σ a σ' H. unfold memset in H.
  destruct (decide (count = 0)); [injection H as _ <-; reflexivity |].
  destruct (store _ _ _ _); [| discriminate]. injection H as _ <-. reflexivity.
Qed.

Lemma only_calls_host_store dst off data : only_calls P (host_store dst off data).
Proof.
  apply only_calls_silent. intros σ a σ' H. unfold host_store in H.
  destruct (store _ _ _ _); [| discriminate]. injection H as _ <-. reflexivity.
Qed.

Lemma only_calls_cudaMalloc bytes : P CallMalloc -> only_calls P (cudaMalloc bytes).
Proof.
  intros H. unfold cudaMalloc.
  repeat (apply only_calls_bind; [| intros ?]);
    auto using only_calls_tick, only_calls_record, only_calls_allocate.
Qed.

Lemma only_calls_cudaHostAlloc bytes : P CallHostAlloc -> only_calls P (cudaHostAlloc bytes).
Proof.
  intros H. unfold cudaHostAlloc.
  repeat (apply only_calls_bind; [| intros ?]);
    auto using only_calls_tick, only_calls_record, only_calls_allocate.
Qed.

Lemma only_calls_cudaFree p : P CallFree -> only_calls P (cudaFree p).
Proof.
  intros H. unfold cudaFree.
  repeat (apply only_calls_bind; [| intros ?]);
    auto using only_calls_tick, only_calls_record.
  destruct (decide (p = nullptr)); [apply only_calls_ret |].
  apply only_calls_bind; [apply only_calls_wait_device | intros ?; apply only_calls_release].
Qed.

Lemma only_calls_cudaFreeHost p : P CallFreeHost -> only_calls P (cudaFreeHost p).
Proof.
  intros H. unfold cudaFreeHost.
  repeat (apply only_calls_bind; [| intros ?]);
    auto using only_calls_tick, only_calls_record.
  destruct (decide (p = nullptr)); [apply only_calls_ret |].
  apply only_calls_bind; [apply only_calls_wait_device | intros ?; apply only_calls_release].
Qed.

Lemma only_calls_cudaMemcpyAsync dst src count kind s :
  P (CallMemcpyAsync s) -> only_calls P (cudaMemcpyAsync dst src count kind s).
Proof.
  intros H. unfold cudaMemcpyAsync.
  repeat (apply only_calls_bind; [| intros ?]);
    auto using only_calls_tick, only_calls_record, only_calls_enqueue.
Qed.

Lemma only_calls_cudaMemsetAsync dst v count s :
  P (CallMemsetAsync s) -> only_calls P (cudaMemsetAsync dst v count s).
Proof.
  intros H. unfold cudaMemsetAsync.
  repeat (apply only_calls_bind; [| intros ?]);
    auto using only_calls_tick, only_calls_record, only_calls_enqueue.
Qed.

Lemma only_calls_cudaStreamSynchronize s :
  P (CallStreamSynchronize s) -> only_calls P (cudaStreamSynchronize s).
Proof.
  intros H. unfold cudaStreamSynchronize.
  repeat (apply only_calls_bind; [| intros ?]);
    auto using only_calls_tick, only_calls_record, only_calls_wait_stream.
Qed.

End OnlyCalls.

Lemma only_calls_of {A} (P : api_call -> Prop) (m : M A) (σ : state) :
  only_calls P m -> Forall P (calls_of m σ).
Proof.
  intros H. unfold calls_of. destruct (m σ) as [[a σ'] | f] eqn:E; [| constructor].
  destruct (H _ _ _ E) as (l & -> & Hl). rewrite drop_app_length. exact Hl.
Qed.

End TraceFacts.


Module InvFacts.

Lemma returns_ret {A} (a : A) (Q : A -> Prop) : Q a -> returns (ret a) Q.
Proof. intros H σ a' σ' E. unfold ret in E. injection E as <- _. exact H. Qed.

Lemma returns_fail {A} (f : failure) (Q : A -> Prop) : returns (fail f) Q.
Proof. intros σ a σ' E. discriminate. Qed.

Lemma returns_any {A} (m : M A) : returns m (fun _ => True).
Proof. intros σ a σ' _. exact I. Qed.

Lemma returns_bind {A B} (m : M A) (k : A -> M B) (Q : A -> Prop) (R : B -> Prop) :
  returns m Q -> (forall a, Q a -> returns (k a) R) -> returns (bind m k) R.
Proof.
  intros Hm Hk σ b σ'' E. apply bind_inv in E as (a & σ' & E1 & E2).
  exact (Hk a (Hm _ _ _ E1) _ _ _ E2).
Qed.

(** Running something whose value is ignored, then returning [b]. *)
Lemma returns_then {A B} (m : M A) (b : B) (Q : B -> Prop) :
  Q b -> returns (bind m (fun _ => ret b)) Q.
Proof.
  intros H. apply returns_bind with (Q := fun _ => True); [apply returns_any |].
  intros _ _. apply returns_ret. exact H.
Qed.

Lemma allocate_nonnull sp bytes : returns (allocate sp bytes) (fun p => p <> nullptr).
Proof.
  intros σ p σ' E. unfold allocate in E. injection E as <- _. discriminate.
Qed.

Lemma cudaMalloc_nonnull bytes : returns (cudaMalloc bytes) (fun p => p <> nullptr).
Proof.
  unfold cudaMalloc. apply returns_bind with (Q := fun _ => True); [apply returns_any |].
  intros _ _. apply returns_bind with (Q := fun _ => True); [apply returns_any |].
  intros _ _. apply allocate_nonnull.
Qed.

Lemma cudaHostAlloc_nonnull bytes : returns (cudaHostAlloc bytes) (fun p => p <> nullptr).
Proof.
  unfold cudaHostAlloc. apply returns_bind with (Q := fun _ => True); [apply returns_any |].
  intros _ _. apply returns_bind with (Q := fun _ => True); [apply returns_any |].
  intros _ _. apply allocate_nonnull.
Qed.

(** The capacity chosen for [n] exceeds [n] and is not zero. *)
Lemma grown_capacity (n est : Z) :
  0 <= n <= 2 ^ 63 -> conservative_estimate n = Some est ->
  n < align_up est /\ 0 < align_up est.
Proof.
  intros Hn Hest. destruct (new_capacity_spec n Hn) as (est' & Hest' & Hlo & _ & _ & Hb & _).
  rewrite Hest in Hest'. injection Hest' as <-. lia.
Qed.

(** The two outcomes of [_resize]: only the size changes, or a larger,
    freshly allocated buffer replaces the old one. *)
Lemma device_resize_shape (T : ctype) n st copy (b : DeviceBuffer.t T) :
  0 <= n <= 2 ^ 63 ->
  returns (DeviceBuffer._resize n st copy b)
    (fun b' => DeviceBuffer._size b' = n /\
       ((n <= DeviceBuffer.capacity b /\
         DeviceBuffer.capacity b' = DeviceBuffer.capacity b /\
         DeviceBuffer.devptr b' = DeviceBuffer.devptr b) \/
        (DeviceBuffer.capacity b < n /\ n < DeviceBuffer.capacity b' /\
         DeviceBuffer.devptr b' <> nullptr))).
Proof.
  intros Hn. unfold DeviceBuffer._resize.
  destruct (Z.leb_spec n (DeviceBuffer.capacity b)) as [Hle | Hgt].
  - apply returns_ret. cbn. split; [reflexivity |]. left. repeat split; [exact Hle].
  - destruct (conservative_estimate n) as [est |] eqn:Hest; [| apply returns_fail].
    destruct (grown_capacity n est Hn Hest) as [H1 H2].
    apply returns_bind with (Q := fun p => p <> nullptr); [apply cudaMalloc_nonnull |].
    intros p Hp. apply returns_bind with (Q := fun _ => True); [apply returns_any |].
    intros _ _. apply returns_then. cbn. split; [reflexivity |]. right. repeat split; assumption.
Qed.

Lemma host_resize_shape (T : ctype) n copy (b : HostBuffer.t T) :
  0 <= n <= 2 ^ 63 ->
  returns (HostBuffer._resize n copy b)
    (fun b' => HostBuffer._size b' = n /\
       ((n <= HostBuffer.capacity b /\
         HostBuffer.capacity b' = HostBuffer.capacity b /\
         HostBuffer.hostptr b' = HostBuffer.hostptr b) \/
        (HostBuffer.capacity b < n /\ n < HostBuffer.capacity b' /\
         HostBuffer.hostptr b' <> nullptr))).
Proof.
  intros Hn. unfold HostBuffer._resize.
  destruct (Z.leb_spec n (HostBuffer.capacity b)) as [Hle | Hgt].
  - apply returns_ret. cbn. split; [reflexivity |]. left. repeat split; [exact Hle].
  - destruct (conservative_estimate n) as [est |] eqn:Hest; [| apply returns_fail].
    destruct (grown_capacity n est Hn Hest) as [H1 H2].
    apply returns_bind with (Q := fun p => p <> nullptr); [apply cudaHostAlloc_nonnull |].
    intros p Hp. apply returns_bind with (Q := fun _ => True); [apply returns_any |].
    intros _ _. apply returns_then. cbn. split; [reflexivity |]. right. repeat split; assumption.
Qed.

Lemma pinned_resize_shape (T : ctype) n st copy (b : PinnedBuffer.t T) :
  0 <= n <= 2 ^ 63 ->
  returns (PinnedBuffer._resize n st copy b)
    (fun b' => PinnedBuffer._size b' = n /\
       ((n <= PinnedBuffer.capacity b /\
         PinnedBuffer.capacity b' = PinnedBuffer.capacity b /\
         PinnedBuffer.hostptr b' = PinnedBuffer.hostptr b /\
         PinnedBuffer.devptr b' = PinnedBuffer.devptr b) \/
        (PinnedBuffer.capacity b < n /\ n < PinnedBuffer.capacity b' /\
         PinnedBuffer.hostptr b' <> nullptr /\ PinnedBuffer.devptr b' <> nullptr))).
Proof.
  intros Hn. unfold PinnedBuffer._resize.
  destruct (Z.leb_spec n (PinnedBuffer.capacity b)) as [Hle | Hgt].
  - apply returns_ret. cbn. split; [reflexivity |]. left. repeat split; [exact Hle].
  - destruct (conservative_estimate n) as [est |] eqn:Hest; [| apply returns_fail].
    destruct (grown_capacity n est Hn Hest) as [H1 H2].
    apply returns_bind with (Q := fun p => p <> nullptr); [apply cudaHostAlloc_nonnull |].
    intros hp Hhp.
    apply returns_bind with (Q := fun p => p <> nullptr); [apply cudaMalloc_nonnull |].
    intros dp Hdp. apply returns_bind with (Q := fun _ => True); [apply returns_any |].
    intros _ _. apply returns_bind with (Q := fun _ => True); [apply returns_any |].
    intros _ _. apply returns_then. cbn. split; [reflexivity |]. right.
    repeat split; assumption.
Qed.

(** Weakening of the postcondition. *)
Lemma returns_weaken {A} (m : M A) (Q R : A -> Prop) :
  returns m Q -> (forall a, Q a -> R a) -> returns m R.
Proof. intros H HQR σ a σ' E. apply HQR. exact (H _ _ _ E). Qed.

Lemma device_resize_returns (T : ctype) n st copy (b : DeviceBuffer.t T) :
  0 <= n <= 2 ^ 63 -> DeviceBuffer.inv b ->
  returns (DeviceBuffer._resize n st copy b)
    (fun b' => DeviceBuffer.inv b' /\ DeviceBuffer._size b' = n /\
               DeviceBuffer.capacity b <= DeviceBuffer.capacity b').
Proof.
  intros Hn (Hsz & Hnull). eapply returns_weaken; [apply device_resize_shape; exact Hn |].
  intros b' (Hs & [(H1 & H2 & H3) | (H1 & H2 & H3)]); unfold DeviceBuffer.inv;
    rewrite ?Hs, ?H2, ?H3.
  - repeat split; try lia; apply Hnull.
  - split; [split; [lia | split; intros E; [lia | contradiction]] | split; [reflexivity | lia]].
Qed.

Lemma host_resize_returns (T : ctype) n copy (b : HostBuffer.t T) :
  0 <= n <= 2 ^ 63 -> HostBuffer.inv b ->
  returns (HostBuffer._resize n copy b)
    (fun b' => HostBuffer.inv b' /\ HostBuffer._size b' = n /\
               HostBuffer.capacity b <= HostBuffer.capacity b').
Proof.
  intros Hn (Hsz & Hnull). eapply returns_weaken; [apply host_resize_shape; exact Hn |].
  intros b' (Hs & [(H1 & H2 & H3) | (H1 & H2 & H3)]); unfold HostBuffer.inv;
    rewrite ?Hs, ?H2, ?H3.
  - repeat split; try lia; apply Hnull.
  - split; [split; [lia | split; intros E; [lia | contradiction]] | split; [reflexivity | lia]].
Qed.

Lemma pinned_resize_returns (T : ctype) n st copy (b : PinnedBuffer.t T) :
  0 <= n <= 2 ^ 63 -> PinnedBuffer.inv b ->
  returns (PinnedBuffer._resize n st copy b)
    (fun b' => PinnedBuffer.inv b' /\ PinnedBuffer._size b' = n /\
               PinnedBuffer.capacity b <= PinnedBuffer.capacity b').
Proof.
  intros Hn (Hsz & Hnull & Hboth).
  eapply returns_weaken; [apply pinned_resize_shape; exact Hn |].
  intros b' (Hs & [(H1 & H2 & H3 & H4) | (H1 & H2 & H3 & H4)]); unfold PinnedBuffer.inv;
    rewrite ?Hs, ?H2, ?H3, ?H4.
  - repeat split; try lia; try apply Hnull; apply Hboth.
  - split; [| split; [reflexivity | lia]].
    split; [lia |]. split; split; intros E; solve [lia | contradiction].
Qed.


(** An operation that resizes and then works on the resized buffer. *)
Ltac resize_then lemma :=
  eapply returns_bind;
  [ eapply returns_weaken; [apply lemma; assumption | intros ? H; exact (proj1 H)]
  | intros ? ?; first [apply returns_then; assumption | apply returns_ret; assumption] ].

Lemma device_op_inv (T : ctype) (op : DeviceOp.t T) (b : DeviceBuffer.t T) :
  DeviceBuffer.inv b -> 0 <= DeviceOp.request op b <= 2 ^ 63 ->
  returns (DeviceOp.run op b) DeviceBuffer.inv.
Proof.
  intros Hinv Hreq. destruct op; cbn [DeviceOp.run DeviceOp.request] in *;
    unfold DeviceBuffer.resize, DeviceBuffer.resize_anew, DeviceBuffer.clear,
      DeviceBuffer.copy_dev, DeviceBuffer.copy_host, DeviceBuffer.copy,
      DeviceBuffer.copyFromDevice, DeviceBuffer.copyFromHost, DeviceBuffer.resize_anew;
    cbn [dsrc_size hsrc_size DeviceBuffer_DeviceSource PinnedBuffer_DeviceSource
         PinnedBuffer_HostSource HostBuffer.HostBuffer_HostSource];
    first
      [ eapply returns_weaken;
        [apply device_resize_returns; assumption | intros ? H; exact (proj1 H)]
      | apply returns_then; assumption
      | resize_then device_resize_returns ].
Qed.

Lemma host_op_inv (T : ctype) (op : HostOp.t T) (b : HostBuffer.t T) :
  HostBuffer.inv b -> 0 <= HostOp.request op b <= 2 ^ 63 ->
  returns (HostOp.run op b) HostBuffer.inv.
Proof.
  intros Hinv Hreq. destruct op; cbn [HostOp.run HostOp.request] in *;
    unfold HostBuffer.resize, HostBuffer.resize_anew, HostBuffer.copy, HostBuffer.copy_dev,
      HostBuffer.genericCopy, HostBuffer.resize;
    cbn [dsrc_size hsrc_size DeviceBuffer_DeviceSource PinnedBuffer_DeviceSource
         PinnedBuffer_HostSource HostBuffer.HostBuffer_HostSource
         size datatype_size DeviceBuffer_GPUcontainer PinnedBuffer_GPUcontainer];
    try match goal with
        | |- returns (if ?c then _ else _) _ => destruct c; [apply returns_fail |]
        end;
    first
      [ eapply returns_weaken;
        [apply host_resize_returns; assumption | intros ? H; exact (proj1 H)]
      | apply returns_then; assumption
      | resize_then host_resize_returns ].
Qed.

Lemma pinned_op_inv (T : ctype) (op : PinnedOp.t T) (b : PinnedBuffer.t T) :
  PinnedBuffer.inv b -> 0 <= PinnedOp.request op b <= 2 ^ 63 ->
  returns (PinnedOp.run op b) PinnedBuffer.inv.
Proof.
  intros Hinv Hreq. destruct op; cbn [PinnedOp.run PinnedOp.request] in *;
    unfold PinnedBuffer.resize, PinnedBuffer.resize_anew, PinnedBuffer.copy,
      PinnedBuffer.copy_dev, PinnedBuffer.copy_host, PinnedBuffer.copy_pinned,
      PinnedBuffer.copyDeviceOnly, PinnedBuffer.resize_anew;
    first
      [ eapply returns_weaken;
        [apply pinned_resize_returns; assumption | intros ? H; exact (proj1 H)]
      | apply returns_then; assumption
      | resize_then pinned_resize_returns ].
Qed.


(** Construction with size 0 allocates nothing and leaves the fields zero
    and null. *)
Lemma device_new_zero (T : ctype) σ :
  DeviceBuffer.new 0 σ = Ok (@DeviceBuffer.empty T, σ).
Proof. reflexivity. Qed.

Lemma host_new_zero (T : ctype) σ :
  HostBuffer.new 0 σ = Ok (@HostBuffer.empty T, σ).
Proof. reflexivity. Qed.

Lemma pinned_new_zero (T : ctype) σ :
  PinnedBuffer.new 0 σ = Ok (@PinnedBuffer.empty T, σ).
Proof. reflexivity. Qed.

Lemma device_empty_inv (T : ctype) : DeviceBuffer.inv (@DeviceBuffer.empty T).
Proof. unfold DeviceBuffer.inv. cbn. repeat split; lia. Qed.

Lemma host_empty_inv (T : ctype) : HostBuffer.inv (@HostBuffer.empty T).
Proof. unfold HostBuffer.inv. cbn. repeat split; lia. Qed.

Lemma pinned_empty_inv (T : ctype) : PinnedBuffer.inv (@PinnedBuffer.empty T).
Proof. unfold PinnedBuffer.inv. cbn. repeat split; lia. Qed.

Lemma device_move_assign_inv (T : ctype) this b (objs : gmap positive (DeviceBuffer.t T)) :
  map_Forall (fun _ => DeviceBuffer.inv) objs ->
  returns (DeviceBuffer.move_assign this b objs) (map_Forall (fun _ => DeviceBuffer.inv)).
Proof.
  intros Hall. unfold DeviceBuffer.move_assign.
  destruct (decide (this = b)); [apply returns_ret; exact Hall |].
  destruct (objs !! this) as [self |] eqn:Hs; [| apply returns_fail].
  destruct (objs !! b) as [other |] eqn:Ho; [| apply returns_fail].
  apply returns_then. apply map_Forall_insert_2; [apply device_empty_inv |].
  apply map_Forall_insert_2; [| exact Hall].
  specialize (Hall _ _ Ho). destruct other. exact Hall.
Qed.

Lemma host_move_assign_inv (T : ctype) this b (objs : gmap positive (HostBuffer.t T)) :
  map_Forall (fun _ => HostBuffer.inv) objs ->
  returns (HostBuffer.move_assign this b objs) (map_Forall (fun _ => HostBuffer.inv)).
Proof.
  intros Hall. unfold HostBuffer.move_assign.
  destruct (decide (this = b)); [apply returns_ret; exact Hall |].
  destruct (objs !! this) as [self |] eqn:Hs; [| apply returns_fail].
  destruct (objs !! b) as [other |] eqn:Ho; [| apply returns_fail].
  apply returns_then. apply map_Forall_insert_2; [apply host_empty_inv |].
  apply map_Forall_insert_2; [| exact Hall].
  specialize (Hall _ _ Ho). destruct other. exact Hall.
Qed.

Lemma pinned_move_assign_inv (T : ctype) this b (objs : gmap positive (PinnedBuffer.t T)) :
  map_Forall (fun _ => PinnedBuffer.inv) objs ->
  returns (PinnedBuffer.move_assign this b objs) (map_Forall (fun _ => PinnedBuffer.inv)).
Proof.
  intros Hall. unfold PinnedBuffer.move_assign.
  destruct (decide (this = b)); [apply returns_ret; exact Hall |].
  destruct (objs !! this) as [self |] eqn:Hs; [| apply returns_fail].
  destruct (objs !! b) as [other |] eqn:Ho; [| apply returns_fail].
  apply returns_ret. apply map_Forall_insert_2; [apply pinned_empty_inv |].
  apply map_Forall_insert_2; [| exact Hall].
  specialize (Hall _ _ Ho). destruct other. exact Hall.
Qed.

(** Capacity along a sequence of resize calls. *)
Lemma device_resizes_monotone (T : ctype) (calls : list resize_call) :
  Forall (fun c => 0 <= requested c <= 2 ^ 63) calls ->
  forall b : DeviceBuffer.t T,
  returns (foldM DeviceBuffer.resize_by calls b)
    (fun b' => DeviceBuffer.capacity b <= DeviceBuffer.capacity b').
Proof.
  induction 1 as [| c calls Hc _ IH]; intros b; cbn [foldM].
  - apply returns_ret. lia.
  - apply returns_bind
      with (Q := fun b1 => DeviceBuffer.capacity b <= DeviceBuffer.capacity b1).
    + destruct c; cbn [DeviceBuffer.resize_by requested] in *;
        (eapply returns_weaken; [apply device_resize_shape; exact Hc |]);
        intros b1 (_ & [(_ & E & _) | (H1 & H2 & _)]); lia.
    + intros b1 Hb1. eapply returns_weaken; [apply IH |].
      cbv beta. intros b' Hb'. lia.
Qed.

Lemma host_resizes_monotone (T : ctype) (calls : list resize_call) :
  Forall (fun c => 0 <= requested c <= 2 ^ 63) calls ->
  forall b : HostBuffer.t T,
  returns (foldM HostBuffer.resize_by calls b)
    (fun b' => HostBuffer.capacity b <= HostBuffer.capacity b').
Proof.
  induction 1 as [| c calls Hc _ IH]; intros b; cbn [foldM].
  - apply returns_ret. lia.
  - apply returns_bind
      with (Q := fun b1 => HostBuffer.capacity b <= HostBuffer.capacity b1).
    + destruct c; cbn [HostBuffer.resize_by requested] in *;
        (eapply returns_weaken; [apply host_resize_shape; exact Hc |]);
        intros b1 (_ & [(_ & E & _) | (H1 & H2 & _)]); lia.
    + intros b1 Hb1. eapply returns_weaken; [apply IH |].
      cbv beta. intros b' Hb'. lia.
Qed.

Lemma pinned_resizes_monotone (T : ctype) (calls : list resize_call) :
  Forall (fun c => 0 <= requested c <= 2 ^ 63) calls ->
  forall b : PinnedBuffer.t T,
  returns (foldM PinnedBuffer.resize_by calls b)
    (fun b' => PinnedBuffer.capacity b <= PinnedBuffer.capacity b').
Proof.
  induction 1 as [| c calls Hc _ IH]; intros b; cbn [foldM].
  - apply returns_ret. lia.
  - apply returns_bind
      with (Q := fun b1 => PinnedBuffer.capacity b <= PinnedBuffer.capacity b1).
    + destruct c; cbn [PinnedBuffer.resize_by requested] in *;
        (eapply returns_weaken; [apply pinned_resize_shape; exact Hc |]);
        intros b1 (_ & [(_ & E & _) | (H1 & H2 & _)]); lia.
    + intros b1 Hb1. eapply returns_weaken; [apply IH |].
      cbv beta. intros b' Hb'. lia.
Qed.

End InvFacts.




Module TransferFacts.
Import PinnedBuffer.

Lemma store_front (h : gmap N (list cell)) p data blk :
  h !! p = Some blk -> (length data <= length blk)%nat ->
  store h p 0 data = Some (<[p := data ++ drop (length data) blk]> h).
Proof.
  intros Hp Hl. unfold store. rewrite Hp.
  destruct (decide (0 + length data ≤ length blk)%nat) as [_ | E]; [| lia].
  reflexivity.
Qed.

Lemma memset_ok dst v count m q sc tr blk :
  count <> 0 -> hostmem m !! dst = Some blk -> (Z.to_nat count <= length blk)%nat ->
  memset dst v count (State m q sc tr) =
  Ok (tt, State (Memory (<[dst := replicate (Z.to_nat count) (Init v) ++
                                  drop (Z.to_nat count) blk]> (hostmem m))
                   (devmem m) (next m)) q sc tr).
Proof.
  intros Hc Hp Hl. unfold memset. destruct (decide (count = 0)); [contradiction |].
  cbn [mem pending sched trace]. erewrite store_front; [| exact Hp |].
  - rewrite length_replicate. reflexivity.
  - rewrite length_replicate. exact Hl.
Qed.

(** What a well-formed pinned buffer with elements owns. *)
Lemma wf_blocks (T : ctype) (b : t T) σ :
  wf σ b -> 0 < _size b ->
  hostptr b <> nullptr /\ devptr b <> nullptr /\
  exists hblk dblk,
    hostmem (mem σ) !! hostptr b = Some hblk /\
    devmem (mem σ) !! devptr b = Some dblk /\
    Z.of_nat (length hblk) = sizeof T * capacity b /\
    Z.of_nat (length dblk) = sizeof T * capacity b /\
    bytes_of T (_size b) = sizeof T * _size b /\
    0 < sizeof T * _size b <= sizeof T * capacity b.
Proof.
  intros ((Hsz & Hnull & Hboth) & Hcap & Halloc) Hpos.
  pose proof (sizeof_pos T) as Hs.
  assert (Hd : devptr b <> nullptr) by (intros E; apply Hnull in E; lia).
  assert (Hh : hostptr b <> nullptr) by (intros E; apply Hboth in E; contradiction).
  destruct (Halloc Hd) as ((dblk & Hdblk & Hdlen) & (hblk & Hhblk & Hhlen)).
  split; [exact Hh |]. split; [exact Hd |]. exists hblk, dblk.
  repeat split; try assumption; try nia.
  apply bytes_of_small; nia.
Qed.

(** The round trip with the upload completed before the host side is
    cleared. *)
Lemma roundtrip (T : ctype) (b : t T) st m sc tr hblk :
  wf (State m [] sc tr) b -> 0 < _size b ->
  hostmem m !! hostptr b = Some hblk ->
  exists σ' hblk',
    (uploadToDevice st b ;; cudaStreamSynchronize st ;; clearHost b ;;
     downloadFromDevice st Synch b) (State m [] sc tr) = Ok (tt, σ') /\
    quiescent σ' /\
    hostmem (mem σ') !! hostptr b = Some hblk' /\
    take (Z.to_nat (sizeof T * _size b)) hblk' = take (Z.to_nat (sizeof T * _size b)) hblk.
Proof.
  intros Hwf Hpos Hh.
  destruct (wf_blocks T b _ Hwf Hpos)
    as (Hhn & Hdn & hblk0 & dblk & Hh0 & Hd & Hhl & Hdl & Hbytes & Hk).
  cbn [mem] in Hh0, Hd. rewrite Hh in Hh0. injection Hh0 as <-.
  unfold uploadToDevice, clearHost, downloadFromDevice.
  replace (0 <? _size b) with true by (symmetry; apply Z.ltb_lt; exact Hpos).
  rewrite Hbytes. set (k := Z.to_nat (sizeof T * _size b)).
  assert (Hkh : (k <= length hblk)%nat) by (unfold k; lia).
  assert (Hkd : (k <= length dblk)%nat) by (unfold k; lia).
  rewrite (bind_ok _ _ _ _ _ (cudaMemcpyAsync_idle _ _ _ _ _ _ _ _)).
  (* the upload runs, at the latest when the stream is synchronised *)
  set (m1 := Memory (hostmem m) (<[devptr b := take k hblk ++ drop k dblk]> (devmem m))
               (next m)).
  assert (Hup : exec_work
            (WMemcpy (devptr b) (hostptr b) (sizeof T * _size b) cudaMemcpyHostToDevice) m
          = Some m1).
  { erewrite exec_memcpy; [reflexivity | exact Hh | exact Hd | exact Hkh | exact Hkd]. }
  rewrite (bind_ok _ _ _ _ _ (cudaStreamSynchronize_single _ _ _ _ _ _ Hup)).
  (* the host side is zeroed *)
  assert (Hnz : sizeof T * _size b <> 0) by lia.
  rewrite (bind_ok _ _ _ _ _
             (memset_ok _ _ _ m1 _ _ _ hblk Hnz Hh Hkh)).
  fold k. cbn [hostmem devmem next].
  set (m2 := Memory (<[hostptr b := replicate k (Init x00) ++ drop k hblk]> (hostmem m))
               (<[devptr b := take k hblk ++ drop k dblk]> (devmem m)) (next m)).
  (* the download brings the uploaded bytes back *)
  rewrite (bind_ok _ _ _ _ _ (cudaMemcpyAsync_idle _ _ _ _ _ _ _ _)). cbv beta.
  set (back := take k (take k hblk ++ drop k dblk) ++
               drop k (replicate k (Init x00) ++ drop k hblk)).
  assert (Hdown : exec_work
            (WMemcpy (hostptr b) (devptr b) (sizeof T * _size b) cudaMemcpyDeviceToHost) m2
          = Some (Memory (<[hostptr b := back]> (hostmem m))
                    (<[devptr b := take k hblk ++ drop k dblk]> (devmem m)) (next m))).
  { erewrite exec_memcpy; [| | | |].
    - unfold m2. cbn [set_heap dst_space heap_of hostmem devmem next].
      rewrite insert_insert_eq. reflexivity.
    - cbn. apply lookup_insert_eq.
    - cbn. apply lookup_insert_eq.
    - fold k. rewrite length_app, length_take, length_drop. lia.
    - fold k. rewrite length_app, length_replicate, length_drop. lia. }
  rewrite (cudaStreamSynchronize_single _ _ _ _ _ _ Hdown).
  eexists _, back. split; [reflexivity |]. split; [reflexivity |].
  cbn [mem hostmem]. split; [apply lookup_insert_eq |].
  unfold back. rewrite take_app_le by (rewrite length_take, length_app, length_take, length_drop; lia).
  rewrite take_take, Nat.min_id.
  rewrite take_app_le by (rewrite length_take; lia).
  rewrite take_take, Nat.min_id. reflexivity.
Qed.

End TransferFacts.

Module IndependenceFacts.
Import PinnedBuffer TransferFacts.

Lemma store_at (h : gmap N (list cell)) p off data blk :
  h !! p = Some blk -> (off + length data <= length blk)%nat ->
  store h p off data = Some (<[p := take off blk ++ data ++ drop (off + length data) blk]> h).
Proof.
  intros Hp Hl. unfold store. rewrite Hp.
  destruct (decide (off + length data ≤ length blk)%nat) as [_ | E]; [| lia].
  reflexivity.
Qed.

Lemma element_written (T : ctype) (blk : list cell) (i : Z) (data rest : list cell) :
  0 <= i -> length data = Z.to_nat (sizeof T) ->
  (Z.to_nat (i * sizeof T) <= length blk)%nat ->
  element T (take (Z.to_nat (i * sizeof T)) blk ++ data ++ rest) i = data.
Proof.
  intros Hi Hd Hl. unfold element.
  rewrite drop_app_length' by (rewrite length_take; lia).
  apply take_app_length'. symmetry. exact Hd.
Qed.

Lemma host_store_ok dst off data m q sc tr blk :
  hostmem m !! dst = Some blk ->
  (Z.to_nat off + length data <= length blk)%nat ->
  host_store dst off data (State m q sc tr) =
  Ok (tt, State (Memory (<[dst := take (Z.to_nat off) blk ++ (Init <$> data) ++
                                  drop (Z.to_nat off + length data) blk]> (hostmem m))
                   (devmem m) (next m)) q sc tr).
Proof.
  intros Hp Hl. unfold host_store. cbn [mem pending sched trace].
  erewrite store_at; [| exact Hp | rewrite length_fmap; exact Hl].
  rewrite length_fmap. reflexivity.
Qed.

Lemma exec_kernel_store dst off data m blk :
  devmem m !! dst = Some blk ->
  (Z.to_nat off + length data <= length blk)%nat ->
  exec_work (WKernelStore dst off data) m =
  Some (Memory (hostmem m)
          (<[dst := take (Z.to_nat off) blk ++ (Init <$> data) ++
                    drop (Z.to_nat off + length data) blk]> (devmem m)) (next m)).
Proof.
  intros Hp Hl. unfold exec_work.
  erewrite store_at; [| exact Hp | rewrite length_fmap; exact Hl].
  rewrite length_fmap. reflexivity.
Qed.

(** Host-side operations touch neither device memory nor the work in
    flight. *)
Lemma set_frame (T : ctype) (b : t T) i v σ σ' :
  set i v b σ = Ok (tt, σ') ->
  devmem (mem σ') = devmem (mem σ) /\ pending σ' = pending σ.
Proof.
  unfold set, host_store. destruct (store _ _ _ _); [| discriminate].
  intros E. injection E as <-. split; reflexivity.
Qed.

Lemma clearHost_frame (T : ctype) (b : t T) σ σ' :
  clearHost b σ = Ok (tt, σ') ->
  devmem (mem σ') = devmem (mem σ) /\ pending σ' = pending σ.
Proof.
  unfold clearHost, memset. destruct (0 <? _size b).
  - destruct (decide (_ = 0)); [intros E; injection E as <-; split; reflexivity |].
    destruct (store _ _ _ _); [| discriminate].
    intros E. injection E as <-. split; reflexivity.
  - intros E. injection E as <-. split; reflexivity.
Qed.

Lemma steps_single_inv (d : list nat) m s w r :
  steps d (m, [(s, w)]) = Ok r ->
  r = (m, [(s, w)]) \/ exists m', exec_work w m = Some m' /\ r = (m', []).
Proof.
  induction d as [| s' d IH]; cbn [steps].
  - intros E. injection E as <-. left. reflexivity.
  - unfold step. cbn [take_first snd fst]. destruct (decide (s = s')) as [_ | _]; [| exact IH].
    destruct (exec_work w m) as [m' |] eqn:Hw; [| discriminate].
    rewrite steps_idle. intros E. injection E as <-. right. eauto.
Qed.

Lemma exec_memset_hostmem dst v count m m' :
  exec_work (WMemset dst v count) m = Some m' -> hostmem m' = hostmem m.
Proof.
  unfold exec_work. destruct (store _ _ _ _); [| discriminate].
  intros E. injection E as <-. reflexivity.
Qed.

(** Clearing the device side, even once completed, leaves host memory
    alone. *)
Lemma clearDevice_frame (T : ctype) (b : t T) st σ σ' :
  quiescent σ ->
  (clearDevice st b ;; cudaStreamSynchronize st) σ = Ok (tt, σ') ->
  hostmem (mem σ') = hostmem (mem σ).
Proof.
  destruct σ as [m q sc tr]. unfold quiescent. cbn [pending]. intros ->.
  unfold clearDevice. destruct (0 <? _size b).
  - rewrite (bind_ok _ _ _ _ _ (cudaMemsetAsync_idle _ _ _ _ _ _ _)).
    set (w := WMemset (devptr b) x00 (bytes_of T (_size b))).
    intros E. unfold cudaStreamSynchronize in E.
    apply bind_inv in E as ([] & σ1 & Ht & E).
    apply bind_inv in E as ([] & σ2 & Hr & E).
    unfold record in Hr. injection Hr as <-.
    unfold wait_stream in E. cbn [mem pending sched trace] in E.
    unfold tick in Ht. cbn [sched mem pending trace] in Ht.
    assert (Hσ1 : (mem σ1, pending σ1) = (m, [(st, w)]) \/
                  exists m', exec_work w m = Some m' /\ (mem σ1, pending σ1) = (m', [])).
    { destruct (tail sc) as [| d ds].
      - injection Ht as <-. left. reflexivity.
      - destruct (steps d (m, [(st, w)])) as [[m1 q1] | f] eqn:Hd; [| discriminate].
        injection Ht as <-. cbn [mem pending]. apply (steps_single_inv _ _ _ _ _ Hd). }
    destruct Hσ1 as [Hσ1 | (m' & Hw & Hσ1)]; injection Hσ1 as Hm Hq; rewrite Hm, Hq in E.
    + cbn [drain_stream] in E. destruct (decide (st = st)); [| contradiction].
      destruct (exec_work w m) as [m' |] eqn:Hw; [| discriminate].
      injection E as <-. cbn [mem]. exact (exec_memset_hostmem _ _ _ _ _ Hw).
    + cbn [drain_stream] in E. injection E as <-. cbn [mem].
      exact (exec_memset_hostmem _ _ _ _ _ Hw).
  - rewrite (bind_ok _ _ _ _ _ (eq_refl : ret tt _ = Ok (tt, _))).
    rewrite cudaStreamSynchronize_idle. intros E. injection E as <-. reflexivity.
Qed.

Lemma independent_host_then_device (T : ctype) (b : t T) st m sc tr i vh vd :
  wf (State m [] sc tr) b -> 0 <= i < _size b ->
  Z.of_nat (length vh) = sizeof T -> Z.of_nat (length vd) = sizeof T ->
  exists σ' hb db,
    (set i vh b ;; launch_store (devPtr b) (i * sizeof T) vd st ;;
     cudaStreamSynchronize st) (State m [] sc tr) = Ok (tt, σ') /\
    hostmem (mem σ') !! hostptr b = Some hb /\ element T hb i = Init <$> vh /\
    devmem (mem σ') !! devptr b = Some db /\ element T db i = Init <$> vd.
Proof.
  intros Hwf Hi Hlh Hld.
  destruct (wf_blocks T b _ Hwf ltac:(lia))
    as (Hhn & Hdn & hblk & dblk & Hh & Hd & Hhl & Hdl & Hbytes & Hk).
  cbn [mem] in Hh, Hd. pose proof (sizeof_pos T) as Hs.
  assert (Hfh : (Z.to_nat (i * sizeof T) + length vh <= length hblk)%nat) by nia.
  assert (Hfd : (Z.to_nat (i * sizeof T) + length vd <= length dblk)%nat) by nia.
  unfold set, devPtr.
  rewrite (bind_ok _ _ _ _ _ (host_store_ok _ _ vh _ _ _ _ hblk Hh Hfh)).
  rewrite (bind_ok _ _ _ _ _ (launch_store_idle _ _ _ _ _ _ _)).
  erewrite cudaStreamSynchronize_single;
    [| apply exec_kernel_store with (blk := dblk); [exact Hd | exact Hfd]].
  eexists _, _, _. split; [reflexivity |]. cbn [mem hostmem devmem].
  split; [apply lookup_insert_eq |].
  split; [apply element_written; [lia | rewrite length_fmap; lia | lia] |].
  split; [apply lookup_insert_eq |].
  apply element_written; [lia | rewrite length_fmap; lia | lia].
Qed.

Lemma independent_device_then_host (T : ctype) (b : t T) st m sc tr i vh vd :
  wf (State m [] sc tr) b -> 0 <= i < _size b ->
  Z.of_nat (length vh) = sizeof T -> Z.of_nat (length vd) = sizeof T ->
  exists σ' hb db,
    (launch_store (devPtr b) (i * sizeof T) vd st ;; set i vh b ;;
     cudaStreamSynchronize st) (State m [] sc tr) = Ok (tt, σ') /\
    hostmem (mem σ') !! hostptr b = Some hb /\ element T hb i = Init <$> vh /\
    devmem (mem σ') !! devptr b = Some db /\ element T db i = Init <$> vd.
Proof.
  intros Hwf Hi Hlh Hld.
  destruct (wf_blocks T b _ Hwf ltac:(lia))
    as (Hhn & Hdn & hblk & dblk & Hh & Hd & Hhl & Hdl & Hbytes & Hk).
  cbn [mem] in Hh, Hd. pose proof (sizeof_pos T) as Hs.
  assert (Hfh : (Z.to_nat (i * sizeof T) + length vh <= length hblk)%nat) by nia.
  assert (Hfd : (Z.to_nat (i * sizeof T) + length vd <= length dblk)%nat) by nia.
  unfold set, devPtr.
  rewrite (bind_ok _ _ _ _ _ (launch_store_idle _ _ _ _ _ _ _)).
  rewrite (bind_ok _ _ _ _ _ (host_store_ok _ _ vh _ _ _ _ hblk Hh Hfh)).
  erewrite cudaStreamSynchronize_single;
    [| apply exec_kernel_store with (blk := dblk); [exact Hd | exact Hfd]].
  eexists _, _, _. split; [reflexivity |]. cbn [mem hostmem devmem].
  split; [apply lookup_insert_eq |].
  split; [apply element_written; [lia | rewrite length_fmap; lia | lia] |].
  split; [apply lookup_insert_eq |].
  apply element_written; [lia | rewrite length_fmap; lia | lia].
Qed.

End IndependenceFacts.

Module CopyFacts.
Import TransferFacts.

Lemma bytes_of_zero (T : ctype) : bytes_of T 0 = 0.
Proof. unfold bytes_of, size_mul. rewrite Z.mul_0_r. reflexivity. Qed.

(** [PinnedBuffer::copy(const HostBuffer<T>&)] in full. *)
Lemma copy_host_spec (T : ctype) (src : HostBuffer.t T) (b : PinnedBuffer.t T) m sc tr :
  mem_ok m ->
  PinnedBuffer.wf (State m [] sc tr) b -> HostBuffer.wf (State m [] sc tr) src ->
  fits T (HostBuffer._size src) ->
  (HostBuffer.hostptr src <> nullptr -> HostBuffer.hostptr src <> PinnedBuffer.hostptr b) ->
  exists b' σ',
    PinnedBuffer.copy_host src b (State m [] sc tr) = Ok (b', σ') /\
    PinnedBuffer._size b' = HostBuffer._size src /\
    pending σ' = [] /\
    (0 < HostBuffer._size src ->
     exists sblk hb,
       hostmem m !! HostBuffer.hostptr src = Some sblk /\
       hostmem (mem σ') !! PinnedBuffer.hostptr b' = Some hb /\
       take (Z.to_nat (sizeof T * HostBuffer._size src)) hb =
       take (Z.to_nat (sizeof T * HostBuffer._size src)) sblk) /\
    (HostBuffer._size src <= PinnedBuffer.capacity b ->
     PinnedBuffer.devptr b' = PinnedBuffer.devptr b /\ devmem (mem σ') = devmem m) /\
    (PinnedBuffer.capacity b < HostBuffer._size src ->
     devmem (mem σ') !! PinnedBuffer.devptr b' =
       Some (fresh_block (sizeof T * PinnedBuffer.capacity b'))).
Proof.
  intros Hok Hwf Hsrc Hfit Hdist.
  pose proof (sizeof_pos T) as Hs.
  destruct Hsrc as ((Hssz & Hsnull) & Hscap & Hsalloc). cbn [mem] in Hsalloc.
  set (n := HostBuffer._size src) in *.
  unfold PinnedBuffer.copy_host, PinnedBuffer.resize_anew. fold n.
  assert (Hbn : bytes_of T n = sizeof T * n) by (apply bytes_of_small; nia).
  assert (Hsblk : 0 < n -> HostBuffer.hostptr src <> nullptr /\
            exists sblk, hostmem m !! HostBuffer.hostptr src = Some sblk /\
                         Z.of_nat (length sblk) = sizeof T * HostBuffer.capacity src).
  { intros Hpos. assert (Hp : HostBuffer.hostptr src <> nullptr)
      by (intros E; apply Hsnull in E; lia).
    split; [exact Hp |]. exact (Hsalloc Hp). }
  destruct (Z.le_gt_cases n (PinnedBuffer.capacity b)) as [Hle | Hgt].
  - rewrite (bind_ok _ _ _ _ _ (PinnedFacts.pinned_resize_keep T n 0%nat false b _ Hle)).
    cbn [PinnedBuffer._size PinnedBuffer.hostptr PinnedBuffer.devptr]. rewrite Hbn.
    destruct (Z.lt_ge_cases 0 n) as [Hpos | Hzero].
    + destruct (Hsblk Hpos) as (Hp & sblk & Hsb & Hsl).
      assert (Hks : (Z.to_nat (sizeof T * n) <= length sblk)%nat) by nia.
      assert (Hwf' : PinnedBuffer.wf (State m [] sc tr)
                       (PinnedBuffer.Build (T := T) (PinnedBuffer.capacity b) n
                          (PinnedBuffer.hostptr b) (PinnedBuffer.devptr b))).
      { destruct Hwf as ((Hsz & Hnull & Hboth) & Hcap & Halloc).
        split; [| split; assumption]. repeat split; cbn; try lia; try apply Hnull; apply Hboth. }
      destruct (wf_blocks T _ _ Hwf' Hpos)
        as (Hhn & Hdn & hblk & dblk & Hh & Hd & Hhl & Hdl & _ & Hk).
      cbn [mem PinnedBuffer.hostptr PinnedBuffer.devptr PinnedBuffer.capacity
             PinnedBuffer._size] in *.
      assert (Hnz : sizeof T * n <> 0) by lia.
      assert (Hexec : exec_work
                (WMemcpy (PinnedBuffer.hostptr b) (HostBuffer.hostptr src) (sizeof T * n)
                   cudaMemcpyHostToHost) m
              = Some (Memory
                        (<[PinnedBuffer.hostptr b :=
                             take (Z.to_nat (sizeof T * n)) sblk ++
                             drop (Z.to_nat (sizeof T * n)) hblk]> (hostmem m))
                        (devmem m) (next m))).
      { erewrite exec_memcpy; [reflexivity | exact Hsb | exact Hh | nia | nia]. }
      rewrite (bind_ok _ _ _ _ _ (HostFacts.memcpy_ok _ _ _ _ _ _ _ _ Hnz Hexec)).
      eexists _, _. split; [reflexivity |].
      cbn [PinnedBuffer._size mem pending hostmem devmem
             PinnedBuffer.hostptr PinnedBuffer.devptr].
      split; [reflexivity |]. split; [reflexivity |].
      split; [| split; [intros _; split; reflexivity | lia]].
      intros _. exists sblk. eexists. split; [exact Hsb |].
      split; [apply lookup_insert_eq |].
      rewrite take_app_le by (rewrite length_take_le by exact Hks; apply Nat.le_refl).
      rewrite take_take, Nat.min_id. reflexivity.
    + assert (n = 0) by lia. subst n. rewrite H, Z.mul_0_r in *.
      rewrite (bind_ok _ _ _ _ _ (eq_refl : memcpy _ _ 0 _ = Ok (tt, _))).
      eexists _, _. split; [reflexivity |]. cbn [PinnedBuffer._size mem pending
                                                   PinnedBuffer.devptr].
      split; [reflexivity |]. split; [reflexivity |].
      split; [lia |]. split; [intros _; split; reflexivity | lia].
  - destruct (PinnedFacts.pinned_resize_grow T n 0%nat false b m sc tr Hok Hwf Hfit Hgt)
      as (est & sc' & tr' & Hest & Hrun).
    rewrite (bind_ok _ _ _ _ _ Hrun).
    destruct (fits_capacity T n Hfit) as (est' & Hest' & _ & _ & Hn & _ & Hbytes & _).
    rewrite Hest in Hest'. injection Hest' as <-.
    destruct Hwf as ((Hsz & Hnull & Hboth) & Hcap & Halloc). cbn [mem] in Halloc.
    assert (Hpos : 0 < n) by lia.
    destruct (Hsblk Hpos) as (Hp & sblk & Hsb & Hsl).
    assert (Hks : (Z.to_nat (sizeof T * n) <= length sblk)%nat) by nia.
    cbn [PinnedBuffer._size PinnedBuffer.hostptr PinnedBuffer.devptr PinnedBuffer.capacity].
    rewrite Hbn.
    assert (Hfresh : forall p o, grown_block false p (sizeof T * PinnedBuffer._size b)
                            (sizeof T * align_up est) o = fresh_block (sizeof T * align_up est)).
    { intros p o. unfold grown_block. destruct o; reflexivity. }
    rewrite !Hfresh in *.
    assert (Hsrc_lt : (HostBuffer.hostptr src < Npos (next m))%N).
    { destruct (Hok Host (HostBuffer.hostptr src)) as [_ Hlt]; [cbn; rewrite Hsb; eauto |].
      exact Hlt. }
    assert (Hold_ne : PinnedBuffer.hostptr b <> Npos (next m)).
    { intros E. destruct (decide (PinnedBuffer.devptr b = nullptr)) as [E0 | E0].
      - apply Hboth in E0. rewrite E0 in E. discriminate.
      - destruct (Halloc E0) as (_ & (blk & Hblk & _)).
        destruct (Hok Host (PinnedBuffer.hostptr b)) as [_ Hlt]; [cbn; rewrite Hblk; eauto |].
        lia. }
    assert (Hdold_ne : PinnedBuffer.devptr b <> Npos (Pos.succ (next m))).
    { intros E. destruct (decide (PinnedBuffer.devptr b = nullptr)) as [E0 | E0].
      - rewrite E0 in E. discriminate.
      - destruct (Halloc E0) as ((blk & Hblk & _) & _).
        destruct (Hok Device (PinnedBuffer.devptr b)) as [_ Hlt]; [cbn; rewrite Hblk; eauto |].
        lia. }
    assert (Hnz : sizeof T * n <> 0) by (clear - Hs Hpos; nia).
    set (hp := Npos (next m)) in *.
    set (fresh := fresh_block (sizeof T * align_up est)) in *.
    set (h1 := delete (PinnedBuffer.hostptr b) (<[hp := fresh]> (hostmem m))).
    set (d1 := delete (PinnedBuffer.devptr b)
                 (<[Npos (Pos.succ (next m)) := fresh]> (devmem m))).
    assert (Hexec : exec_work
              (WMemcpy hp (HostBuffer.hostptr src) (sizeof T * n) cudaMemcpyHostToHost)
              (Memory h1 d1 (Pos.succ (Pos.succ (next m))))
            = Some (Memory
                      (<[hp := take (Z.to_nat (sizeof T * n)) sblk ++
                               drop (Z.to_nat (sizeof T * n)) fresh]> h1)
                      d1 (Pos.succ (Pos.succ (next m))))).
    { erewrite exec_memcpy; [reflexivity | | | |].
      * cbn. unfold h1. rewrite lookup_delete_ne by (apply not_eq_sym, Hdist, Hp).
        rewrite lookup_insert_ne by (unfold hp; clear - Hsrc_lt; lia). exact Hsb.
      * cbn. unfold h1. rewrite lookup_delete_ne by exact Hold_ne. apply lookup_insert_eq.
      * exact Hks.
      * unfold fresh, fresh_block. rewrite length_replicate.
        apply Z2Nat.inj_le; [clear - Hs Hpos; nia | clear - Hs Hpos Hn; nia |].
        apply Z.mul_le_mono_nonneg_l; [clear - Hs; lia | clear - Hn; lia]. }
    rewrite (bind_ok _ _ _ _ _ (HostFacts.memcpy_ok _ _ _ _ _ _ _ _ Hnz Hexec)).
    eexists _, _. split; [reflexivity |].
    cbn [PinnedBuffer._size mem pending hostmem devmem PinnedBuffer.hostptr
           PinnedBuffer.devptr PinnedBuffer.capacity].
    split; [reflexivity |]. split; [reflexivity |].
    split; [| split; [lia |]].
    + intros _. exists sblk. eexists. split; [exact Hsb |].
      split; [apply lookup_insert_eq |].
      rewrite take_app_le by (rewrite length_take_le by exact Hks; apply Nat.le_refl).
      rewrite take_take, Nat.min_id. reflexivity.
    + intros _. unfold d1. rewrite lookup_delete_ne by exact Hdold_ne. apply lookup_insert_eq.
Qed.

End CopyFacts.


Module GenericCopyFacts.

Lemma host_resize_ok (T : ctype) n copy (b : HostBuffer.t T) m sc tr :
  mem_ok m -> HostBuffer.wf (State m [] sc tr) b -> fits T n ->
  exists b' m' sc' tr',
    HostBuffer._resize n copy b (State m [] sc tr) = Ok (b', State m' [] sc' tr') /\
    HostBuffer._size b' = n.
Proof.
  intros Hok Hwf Hfit.
  destruct (Z.le_gt_cases n (HostBuffer.capacity b)) as [Hle | Hgt].
  - rewrite HostFacts.host_resize_keep by exact Hle. eexists _, _, _, _. split; reflexivity.
  - destruct (HostFacts.host_resize_grow T n copy b m sc tr Hok Hwf Hfit Hgt)
      as (est & sc' & tr' & _ & ->).
    eexists _, _, _, _. split; reflexivity.
Qed.

End GenericCopyFacts.

Module MoveFacts.

Lemma device_move_assign (T : ctype) dst src (objs : gmap positive (DeviceBuffer.t T))
    A B m sc tr :
  dst <> src -> objs !! src = Some A -> objs !! dst = Some B ->
  DeviceBuffer.wf (State m [] sc tr) B ->
  exists m' sc' tr',
    DeviceBuffer.move_assign dst src objs (State m [] sc tr) =
      Ok (<[src := DeviceBuffer.empty]> (<[dst := A]> objs), State m' [] sc' tr') /\
    hostmem m' = hostmem m /\
    (forall p, p <> DeviceBuffer.devptr B -> devmem m' !! p = devmem m !! p).
Proof.
  intros Hne Hs Hd (_ & _ & Halloc). cbn [mem] in Halloc.
  unfold DeviceBuffer.move_assign.
  destruct (decide (dst = src)) as [E | _]; [contradiction |].
  rewrite Hd, Hs. destruct A as [cA sA pA]. cbn [DeviceBuffer.capacity DeviceBuffer._size
                                                   DeviceBuffer.devptr].
  destruct (N.eqb_spec (DeviceBuffer.devptr B) nullptr) as [Hnull | Hnn]; cbn [negb].
  - rewrite (bind_ok _ _ _ _ _ (eq_refl : ret tt _ = Ok (tt, _))).
    eexists _, _, _. split; [reflexivity |]. split; [reflexivity |]. intros p _. reflexivity.
  - destruct (Halloc Hnn) as (blk & Hblk & _).
    rewrite (bind_ok _ _ _ _ _ (cudaFree_idle _ _ _ _ Hnn (mk_is_Some _ _ Hblk))).
    eexists _, _, _. split; [reflexivity |]. split; [reflexivity |].
    intros p Hp. cbn [devmem]. apply lookup_delete_ne. congruence.
Qed.

Lemma host_move_assign (T : ctype) dst src (objs : gmap positive (HostBuffer.t T))
    A B m sc tr :
  dst <> src -> objs !! src = Some A -> objs !! dst = Some B ->
  HostBuffer.wf (State m [] sc tr) B ->
  exists m' sc' tr',
    HostBuffer.move_assign dst src objs (State m [] sc tr) =
      Ok (<[src := HostBuffer.empty]> (<[dst := A]> objs), State m' [] sc' tr') /\
    devmem m' = devmem m /\
    (forall p, p <> HostBuffer.hostptr B -> hostmem m' !! p = hostmem m !! p).
Proof.
  intros Hne Hs Hd (_ & _ & Halloc). cbn [mem] in Halloc.
  unfold HostBuffer.move_assign.
  destruct (decide (dst = src)) as [E | _]; [contradiction |].
  rewrite Hd, Hs. destruct A as [cA sA pA]. cbn [HostBuffer.capacity HostBuffer._size
                                                   HostBuffer.hostptr].
  destruct (N.eqb_spec (HostBuffer.hostptr B) nullptr) as [Hnull | Hnn]; cbn [negb].
  - rewrite (bind_ok _ _ _ _ _ (eq_refl : ret tt _ = Ok (tt, _))).
    eexists _, _, _. split; [reflexivity |]. split; [reflexivity |]. intros p _. reflexivity.
  - destruct (Halloc Hnn) as (blk & Hblk & _).
    rewrite (bind_ok _ _ _ _ _ (cudaFreeHost_idle _ _ _ _ Hnn (mk_is_Some _ _ Hblk))).
    eexists _, _, _. split; [reflexivity |]. split; [reflexivity |].
    intros p Hp. cbn [hostmem]. apply lookup_delete_ne. congruence.
Qed.

Lemma pinned_move_assign (T : ctype) dst src (objs : gmap positive (PinnedBuffer.t T))
    A B σ :
  dst <> src -> objs !! src = Some A -> objs !! dst = Some B ->
  PinnedBuffer.move_assign dst src objs σ =
    Ok (<[src := PinnedBuffer.empty]> (<[dst := A]> objs), σ).
Proof.
  intros Hne Hs Hd. unfold PinnedBuffer.move_assign.
  destruct (decide (dst = src)) as [E | _]; [contradiction |].
  rewrite Hd, Hs. destruct A. reflexivity.
Qed.

(** Destroying a moved-from object releases nothing. *)
Lemma device_delete_moved (T : ctype) src (objs : gmap positive (DeviceBuffer.t T)) σ :
  objs !! src = Some DeviceBuffer.empty ->
  DeviceBuffer.delete_object src objs σ = Ok (delete src objs, σ).
Proof. intros H. unfold DeviceBuffer.delete_object. rewrite H. reflexivity. Qed.

Lemma host_delete_moved (T : ctype) src (objs : gmap positive (HostBuffer.t T)) m sc tr :
  objs !! src = Some HostBuffer.empty ->
  exists sc' tr',
    HostBuffer.delete_object src objs (State m [] sc tr) =
      Ok (delete src objs, State m [] sc' tr').
Proof.
  intros H. unfold HostBuffer.delete_object. rewrite H.
  unfold HostBuffer.destroy. cbn [HostBuffer.hostptr HostBuffer.empty].
  rewrite (bind_ok _ _ _ _ _ (cudaFreeHost_null_idle _ _ _)).
  eexists _, _. reflexivity.
Qed.

Lemma pinned_delete_moved (T : ctype) src (objs : gmap positive (PinnedBuffer.t T)) σ :
  objs !! src = Some PinnedBuffer.empty ->
  PinnedBuffer.delete_object src objs σ = Ok (delete src objs, σ).
Proof. intros H. unfold PinnedBuffer.delete_object. rewrite H. reflexivity. Qed.

End MoveFacts.

(** ** Where the host thread waits for the device *)

Module BlockingFacts.
Import TraceFacts.

(** The asynchronous primitives on a stalled device. *)
Lemma cudaMemcpyAsync_stalled dst src count kind s m q tr :
  cudaMemcpyAsync dst src count kind s (State m q [] tr) =
  Ok (tt, State m (q ++ [(s, WMemcpy dst src count kind)]) [] (tr ++ [CallMemcpyAsync s])).
Proof. reflexivity. Qed.

Lemma cudaMemsetAsync_stalled dst v count s m q tr :
  cudaMemsetAsync dst v count s (State m q [] tr) =
  Ok (tt, State m (q ++ [(s, WMemset dst v count)]) [] (tr ++ [CallMemsetAsync s])).
Proof. reflexivity. Qed.

Section EnqueuesOnly.
Variable on : cudaStream_t -> Prop.

(** A computation that leaves the queue and the schedule alone. *)
Lemma enq_silent {A} (m : M A) :
  (forall σ a σ', m σ = Ok (a, σ') -> pending σ' = pending σ /\ sched σ' = sched σ) ->
  enqueues_only on m.
Proof.
  intros Hm σ a σ' Hst H. destruct (Hm _ _ _ H) as [Hp Hs].
  split; [unfold stalled in *; congruence |].
  exists []. split; [rewrite app_nil_r; exact Hp | constructor].
Qed.

Lemma enq_pure {A} (m : M A) (a0 : A) :
  (forall σ, m σ = Ok (a0, σ)) -> enqueues_only on m.
Proof.
  intros Hm. apply enq_silent. intros σ a σ' H. rewrite Hm in H.
  injection H as _ <-. split; reflexivity.
Qed.

Lemma enq_ret {A} (a : A) : enqueues_only on (ret a).
Proof. apply (enq_pure _ a). reflexivity. Qed.

Lemma enq_fail {A} (f : failure) : enqueues_only on (@fail A f).
Proof. intros σ a σ' _ H. discriminate. Qed.

Lemma enq_bind {A B} (m : M A) (k : A -> M B) :
  enqueues_only on m -> (forall a, enqueues_only on (k a)) -> enqueues_only on (bind m k).
Proof.
  intros Hm Hk σ b σ'' Hst H. apply bind_inv in H as (a & σ' & H1 & H2).
  destruct (Hm _ _ _ Hst H1) as (Hst' & l1 & E1 & F1).
  destruct (Hk a _ _ _ Hst' H2) as (Hst'' & l2 & E2 & F2).
  split; [exact Hst'' |]. exists (l1 ++ l2).
  split; [rewrite E2, E1, app_assoc; reflexivity |].
  apply Forall_app; split; assumption.
Qed.

(** On a stalled device a runtime call gives the device no progress. *)
Lemma enq_tick : enqueues_only on tick.
Proof.
  intros σ a σ' Hst H. unfold tick in H. unfold stalled in Hst. rewrite Hst in H.
  injection H as _ <-. split; [exact Hst |].
  exists []. split; [rewrite app_nil_r; reflexivity | constructor].
Qed.

Lemma enq_record (c : api_call) : enqueues_only on (record c).
Proof.
  apply enq_silent. intros σ a σ' H. unfold record in H. injection H as _ <-.
  split; reflexivity.
Qed.

Lemma enq_enqueue s w : on s -> enqueues_only on (enqueue s w).
Proof.
  intros Hs σ a σ' Hst H. unfold enqueue in H. injection H as _ <-.
  split; [exact Hst |]. exists [(s, w)]. split; [reflexivity |].
  repeat constructor. exact Hs.
Qed.

Lemma enq_allocate sp bytes : enqueues_only on (allocate sp bytes).
Proof.
  apply enq_silent. intros σ a σ' H. unfold allocate in H.
  destruct sp; injection H as _ <-; split; reflexivity.
Qed.

Lemma enq_run_now w f : enqueues_only on (run_now w f).
Proof.
  apply enq_silent. intros σ a σ' H. unfold run_now in H.
  destruct (exec_work w (mem σ)); [| discriminate]. injection H as _ <-.
  split; reflexivity.
Qed.

Lemma enq_memcpy dst src count : enqueues_only on (memcpy dst src count).
Proof.
  unfold memcpy. destruct (decide (count = 0)); [apply enq_ret | apply enq_run_now].
Qed.

Lemma enq_memset dst v count : enqueues_only on (memset dst v count).
Proof.
  apply enq_silent. intros σ a σ' H. unfold memset in H.
  destruct (decide (count = 0)); [injection H as _ <-; split; reflexivity |].
  destruct (store _ _ _ _); [| discriminate]. injection H as _ <-. split; reflexivity.
Qed.

Lemma enq_host_store dst off data : enqueues_only on (host_store dst off data).
Proof.
  apply enq_silent. intros σ a σ' H. unfold host_store in H.
  destruct (store _ _ _ _); [| discriminate]. injection H as _ <-. split; reflexivity.
Qed.

Lemma enq_cudaMemcpyAsync dst src count kind s :
  on s -> enqueues_only on (cudaMemcpyAsync dst src count kind s).
Proof.
  intros H. unfold cudaMemcpyAsync.
  repeat (apply enq_bind; [| intros ?]); auto using enq_tick, enq_record, enq_enqueue.
Qed.

Lemma enq_cudaMemsetAsync dst v count s :
  on s -> enqueues_only on (cudaMemsetAsync dst v count s).
Proof.
  intros H. unfold cudaMemsetAsync.
  repeat (apply enq_bind; [| intros ?]); auto using enq_tick, enq_record, enq_enqueue.
Qed.

Lemma enq_cudaMalloc bytes : enqueues_only on (cudaMalloc bytes).
Proof.
  unfold cudaMalloc.
  repeat (apply enq_bind; [| intros ?]); auto using enq_tick, enq_record, enq_allocate.
Qed.

Lemma enq_cudaHostAlloc bytes : enqueues_only on (cudaHostAlloc bytes).
Proof.
  unfold cudaHostAlloc.
  repeat (apply enq_bind; [| intros ?]); auto using enq_tick, enq_record, enq_allocate.
Qed.

(** Releasing the null pointer releases nothing and waits for nothing. *)
Lemma enq_cudaFree_null : enqueues_only on (cudaFree nullptr).
Proof.
  unfold cudaFree.
  repeat (apply enq_bind; [| intros ?]); auto using enq_tick, enq_record.
  destruct (decide (nullptr = nullptr)); [apply enq_ret | contradiction].
Qed.

Lemma enq_cudaFreeHost_null : enqueues_only on (cudaFreeHost nullptr).
Proof.
  unfold cudaFreeHost.
  repeat (apply enq_bind; [| intros ?]); auto using enq_tick, enq_record.
  destruct (decide (nullptr = nullptr)); [apply enq_ret | contradiction].
Qed.

End EnqueuesOnly.

Lemma only_calls_pure {A} (P : api_call -> Prop) (m : M A) (a0 : A) :
  (forall σ, m σ = Ok (a0, σ)) -> only_calls P m.
Proof.
  intros Hm. apply only_calls_silent. intros σ a σ' H. rewrite Hm in H.
  injection H as _ <-. reflexivity.
Qed.

(** A computation that enqueues on no stream leaves the queue as it is. *)
Lemma enqueues_nothing {A} (m : M A) σ a σ' :
  enqueues_only (fun _ => False) m -> stalled σ -> m σ = Ok (a, σ') ->
  pending σ' = pending σ.
Proof.
  intros Hm Hst H. destruct (Hm _ _ _ Hst H) as (_ & l & E & F).
  destruct l as [| x l]; [rewrite app_nil_r in E; exact E |].
  apply Forall_cons in F as [[] _].
Qed.

(** *** A request within the capacity *)

Lemma device_keep_calls (T : ctype) P n st copy (b : DeviceBuffer.t T) :
  n <= DeviceBuffer.capacity b -> only_calls P (DeviceBuffer._resize n st copy b).
Proof.
  intros H. eapply only_calls_pure. intros σ. apply DeviceFacts.device_resize_keep, H.
Qed.

Lemma pinned_keep_enq (T : ctype) on n st copy (b : PinnedBuffer.t T) :
  n <= PinnedBuffer.capacity b -> enqueues_only on (PinnedBuffer._resize n st copy b).
Proof.
  intros H. eapply enq_pure. intros σ. apply PinnedFacts.pinned_resize_keep, H.
Qed.

Lemma pinned_keep_calls (T : ctype) P n st copy (b : PinnedBuffer.t T) :
  n <= PinnedBuffer.capacity b -> only_calls P (PinnedBuffer._resize n st copy b).
Proof.
  intros H. eapply only_calls_pure. intros σ. apply PinnedFacts.pinned_resize_keep, H.
Qed.

(** Solves [enqueues_only on m] for code made of asynchronous primitives
    and host memory operations. *)
Ltac enq :=
  repeat first
    [ apply enq_ret
    | apply enq_fail
    | apply enq_memcpy
    | apply enq_memset
    | apply enq_host_store
    | apply enq_cudaMalloc
    | apply enq_cudaHostAlloc
    | apply enq_cudaFree_null
    | apply enq_cudaFreeHost_null
    | apply enq_cudaMemcpyAsync; reflexivity
    | apply enq_cudaMemsetAsync; reflexivity
    | apply pinned_keep_enq; assumption
    | apply enq_bind; [| intros ?]
    | match goal with
      | |- enqueues_only _ (if ?c then _ else _) => destruct c
      | |- enqueues_only _ (match ?c with _ => _ end) => destruct c
      end ].

(** Solves [only_calls nonblocking m] for the same code. *)
Ltac calm :=
  repeat first
    [ apply only_calls_ret
    | apply only_calls_fail
    | apply only_calls_memcpy
    | apply only_calls_memset
    | apply only_calls_host_store
    | apply only_calls_cudaMemcpyAsync; reflexivity
    | apply only_calls_cudaMemsetAsync; reflexivity
    | apply device_keep_calls; assumption
    | apply pinned_keep_calls; assumption
    | apply only_calls_bind; [| intros ?]
    | match goal with
      | |- only_calls _ (if ?c then _ else _) => destruct c
      | |- only_calls _ (match ?c with _ => _ end) => destruct c
      end ].

(** An operation of a [DeviceBuffer] that is not marked synchronous and
    asks for no more than the capacity only enqueues. *)
Lemma device_op_enqueues (T : ctype) (op : DeviceOp.t T) (b : DeviceBuffer.t T) m q tr :
  DeviceOp.synchronous op = false ->
  DeviceOp.request op b <= DeviceBuffer.capacity b ->
  exists b' l calls,
    DeviceOp.run op b (State m q [] tr) = Ok (b', State m (q ++ l) [] (tr ++ calls)) /\
    Forall (fun sw => DeviceOp.stream op = Some sw.1) l /\
    Forall nonblocking calls.
Proof.
  intros Hs Hreq.
  assert (Hnil : forall b' : DeviceBuffer.t T,
            exists b'' l calls,
              Ok (b', State m q [] tr) = Ok (b'', State m (q ++ l) [] (tr ++ calls)) /\
              Forall (fun sw => DeviceOp.stream op = Some sw.1) l /\
              Forall nonblocking calls).
  { intros b'. exists b', [], []. rewrite !app_nil_r.
    split; [reflexivity | split; constructor]. }
  destruct op; try discriminate Hs; cbn [DeviceOp.run DeviceOp.request] in *;
    unfold DeviceBuffer.resize, DeviceBuffer.resize_anew, DeviceBuffer.clear,
      DeviceBuffer.clearDevice, DeviceBuffer.copy_dev, DeviceBuffer.copy_host,
      DeviceBuffer.copyFromDevice, DeviceBuffer.copyFromHost, DeviceBuffer.resize_anew;
    try rewrite (bind_ok _ _ _ _ _ (DeviceFacts.device_resize_keep T _ _ _ b _ Hreq));
    try rewrite (DeviceFacts.device_resize_keep T _ _ _ b _ Hreq);
    try apply Hnil;
    cbn [DeviceBuffer._size DeviceBuffer.devptr];
    match goal with
    | |- context [if ?c then _ else _] => destruct c
    end;
    try apply Hnil;
    try rewrite (bind_ok _ _ _ _ _ (cudaMemcpyAsync_stalled _ _ _ _ _ _ _ _));
    try rewrite (bind_ok _ _ _ _ _ (cudaMemsetAsync_stalled _ _ _ _ _ _ _));
    try rewrite (bind_ok _ _ _ _ _ (eq_refl : ret tt _ = Ok (tt, _)));
    try apply Hnil;
    (eexists _, [_], [_]; split; [reflexivity |];
     split; repeat constructor).
Qed.

Lemma device_op_calm (T : ctype) (op : DeviceOp.t T) (b : DeviceBuffer.t T) :
  DeviceOp.synchronous op = false ->
  DeviceOp.request op b <= DeviceBuffer.capacity b ->
  only_calls nonblocking (DeviceOp.run op b).
Proof.
  intros Hs Hreq. destruct op; try discriminate Hs;
    cbn [DeviceOp.run DeviceOp.request] in *;
    unfold DeviceBuffer.resize, DeviceBuffer.resize_anew, DeviceBuffer.clear,
      DeviceBuffer.clearDevice, DeviceBuffer.copy_dev, DeviceBuffer.copy_host,
      DeviceBuffer.copyFromDevice, DeviceBuffer.copyFromHost, DeviceBuffer.resize_anew;
    calm.
Qed.

Lemma pinned_op_enqueues (T : ctype) (op : PinnedOp.t T) (b : PinnedBuffer.t T) :
  PinnedOp.synchronous op = false ->
  PinnedOp.request op b <= PinnedBuffer.capacity b ->
  enqueues_only (fun s => PinnedOp.stream op = Some s) (PinnedOp.run op b).
Proof.
  intros Hs Hreq. destruct op; try discriminate Hs;
    cbn [PinnedOp.run PinnedOp.request PinnedOp.stream] in *;
    unfold PinnedBuffer.resize, PinnedBuffer.resize_anew, PinnedBuffer.set,
      PinnedBuffer.downloadFromDevice,
      PinnedBuffer.uploadToDevice, PinnedBuffer.clear, PinnedBuffer.clearDevice,
      PinnedBuffer.clearHost, PinnedBuffer.copy_dev, PinnedBuffer.copy_host,
      PinnedBuffer.copy_pinned, PinnedBuffer.copyDeviceOnly, PinnedBuffer.resize_anew;
    enq.
  all: discriminate Hs.
Qed.

Lemma pinned_op_calm (T : ctype) (op : PinnedOp.t T) (b : PinnedBuffer.t T) :
  PinnedOp.synchronous op = false ->
  PinnedOp.request op b <= PinnedBuffer.capacity b ->
  only_calls nonblocking (PinnedOp.run op b).
Proof.
  intros Hs Hreq. destruct op; try discriminate Hs;
    cbn [PinnedOp.run PinnedOp.request] in *;
    unfold PinnedBuffer.resize, PinnedBuffer.resize_anew, PinnedBuffer.set,
      PinnedBuffer.downloadFromDevice,
      PinnedBuffer.uploadToDevice, PinnedBuffer.clear, PinnedBuffer.clearDevice,
      PinnedBuffer.clearHost, PinnedBuffer.copy_dev, PinnedBuffer.copy_host,
      PinnedBuffer.copy_pinned, PinnedBuffer.copyDeviceOnly, PinnedBuffer.resize_anew;
    calm.
  all: discriminate Hs.
Qed.

(** The host blocks a well-formed buffer with room for elements owns. *)
Lemma pinned_host_block (T : ctype) (b : PinnedBuffer.t T) σ :
  PinnedBuffer.wf σ b -> 0 < PinnedBuffer.capacity b ->
  exists hblk, hostmem (mem σ) !! PinnedBuffer.hostptr b = Some hblk /\
               Z.of_nat (length hblk) = sizeof T * PinnedBuffer.capacity b.
Proof.
  intros ((Hsz & Hnull & Hboth) & Hcap & Halloc) Hpos.
  assert (Hd : PinnedBuffer.devptr b <> nullptr) by (intros E; apply Hnull in E; lia).
  destruct (Halloc Hd) as (_ & (hblk & Hh & Hl)). exists hblk. split; assumption.
Qed.

Lemma host_host_block (T : ctype) (b : HostBuffer.t T) σ :
  HostBuffer.wf σ b -> 0 < HostBuffer.capacity b ->
  exists hblk, hostmem (mem σ) !! HostBuffer.hostptr b = Some hblk /\
               Z.of_nat (length hblk) = sizeof T * HostBuffer.capacity b.
Proof.
  intros ((Hsz & Hnull) & Hcap & Halloc) Hpos.
  assert (Hd : HostBuffer.hostptr b <> nullptr) by (intros E; apply Hnull in E; lia).
  destruct (Halloc Hd) as (hblk & Hh & Hl). exists hblk. split; assumption.
Qed.

Lemma bytes_within (T : ctype) (k cap : Z) (blk : list cell) :
  0 <= k <= cap -> sizeof T * cap < Growth.size_t_range ->
  Z.of_nat (length blk) = sizeof T * cap ->
  bytes_of T k = sizeof T * k /\ (Z.to_nat (sizeof T * k) <= length blk)%nat.
Proof.
  intros Hk Hcap Hlen. pose proof (sizeof_pos T) as Hs.
  assert (Hle : sizeof T * k <= sizeof T * cap) by nia.
  split; [apply bytes_of_small; lia | lia].
Qed.

(** The host copy of [k] elements between two blocks that hold them. *)
Lemma memcpy_elements_returns (T : ctype) dst src k capd caps m q sc tr dblk sblk :
  0 < k ->
  hostmem m !! dst = Some dblk -> hostmem m !! src = Some sblk ->
  k <= capd -> sizeof T * capd < Growth.size_t_range ->
  Z.of_nat (length dblk) = sizeof T * capd ->
  k <= caps -> sizeof T * caps < Growth.size_t_range ->
  Z.of_nat (length sblk) = sizeof T * caps ->
  exists m', memcpy dst src (bytes_of T k) (State m q sc tr) = Ok (tt, State m' q sc tr).
Proof.
  intros Hk Hd Hs Hkd Hcd Hld Hks Hcs Hls.
  destruct (bytes_within T k capd dblk) as [Hb Hbd]; [lia | exact Hcd | exact Hld |].
  destruct (bytes_within T k caps sblk) as [_ Hbs]; [lia | exact Hcs | exact Hls |].
  rewrite Hb. unfold memcpy. destruct (decide (sizeof T * k = 0)); [eexists; reflexivity |].
  unfold run_now. cbn [mem pending sched trace].
  rewrite (exec_memcpy m dst src (sizeof T * k) cudaMemcpyHostToHost sblk dblk Hs Hd Hbs Hbd).
  eexists. reflexivity.
Qed.

Lemma host_store_returns dst off data m q sc tr blk :
  hostmem m !! dst = Some blk -> (Z.to_nat off + length data <= length blk)%nat ->
  exists m', host_store dst off data (State m q sc tr) = Ok (tt, State m' q sc tr).
Proof.
  intros Hp Hl. unfold host_store. cbn [mem pending sched trace].
  erewrite IndependenceFacts.store_at;
    [eexists; reflexivity | exact Hp | rewrite length_fmap; exact Hl].
Qed.

(** Every operation of a well-formed [PinnedBuffer] that is not marked
    synchronous and asks for no more than the capacity returns, provided
    an element store is in bounds and a container whose host memory is
    read is well-formed too. *)
Lemma pinned_op_returns (T : ctype) (op : PinnedOp.t T) (b : PinnedBuffer.t T) σ :
  PinnedOp.synchronous op = false ->
  PinnedOp.request op b <= PinnedBuffer.capacity b ->
  stalled σ -> PinnedBuffer.wf σ b ->
  (forall i v, op = PinnedOp.Set_ i v ->
     0 <= i < PinnedBuffer._size b /\ Z.of_nat (length v) = sizeof T) ->
  (forall cont, op = PinnedOp.CopyHost cont -> HostBuffer.wf σ cont) ->
  (forall cont st, op = PinnedOp.CopyPinned cont st -> PinnedBuffer.wf σ cont) ->
  exists b' σ', PinnedOp.run op b σ = Ok (b', σ').
Proof.
  intros Hs Hreq Hst Hwf Hset Hhost Hpin.
  destruct σ as [m q sc tr]. unfold stalled in Hst. cbn [sched] in Hst. subst sc.
  pose proof (sizeof_pos T) as HsT.
  assert (Hcapb : sizeof T * PinnedBuffer.capacity b < Growth.size_t_range)
    by (destruct Hwf as (_ & H & _); exact H).
  assert (Hblk : 0 < PinnedBuffer.capacity b ->
            exists hblk, hostmem m !! PinnedBuffer.hostptr b = Some hblk /\
                         Z.of_nat (length hblk) = sizeof T * PinnedBuffer.capacity b).
  { intros Hpos. exact (pinned_host_block T b _ Hwf Hpos). }
  assert (Hszb : 0 <= PinnedBuffer._size b <= PinnedBuffer.capacity b)
    by (destruct Hwf as ((H & _) & _); exact H).
  assert (Hclear : forall q' tr',
            exists σ', PinnedBuffer.clearHost b (State m q' [] tr') = Ok (tt, σ')).
  { intros q' tr'. unfold PinnedBuffer.clearHost.
    destruct (Z.ltb_spec 0 (PinnedBuffer._size b)) as [Hpos | _];
      [| eexists; reflexivity].
    destruct Hblk as (hblk & Hh & Hlh); [lia |].
    destruct (bytes_within T (PinnedBuffer._size b) (PinnedBuffer.capacity b) hblk)
      as [Hb Hl]; [lia | exact Hcapb | exact Hlh |].
    rewrite Hb.
    erewrite TransferFacts.memset_ok; [eexists; reflexivity | nia | exact Hh | exact Hl]. }
  destruct op; try discriminate Hs;
    cbn [PinnedOp.run PinnedOp.request] in *;
    unfold PinnedBuffer.resize, PinnedBuffer.resize_anew, PinnedBuffer.set,
      PinnedBuffer.downloadFromDevice,
      PinnedBuffer.uploadToDevice, PinnedBuffer.clear, PinnedBuffer.clearDevice,
      PinnedBuffer.copy_dev, PinnedBuffer.copy_host, PinnedBuffer.copy_pinned,
      PinnedBuffer.copyDeviceOnly, PinnedBuffer.resize_anew;
    try rewrite (bind_ok _ _ _ _ _ (PinnedFacts.pinned_resize_keep T _ _ _ b _ Hreq));
    try rewrite (PinnedFacts.pinned_resize_keep T _ _ _ b _ Hreq);
    cbn [PinnedBuffer._size PinnedBuffer.devptr PinnedBuffer.hostptr].
  - (* resize *) eexists _, _. reflexivity.
  - (* resize_anew *) eexists _, _. reflexivity.
  - (* an element store *)
    destruct (Hset i v eq_refl) as [Hi Hv].
    destruct Hblk as (hblk & Hh & Hlh); [lia |].
    destruct (host_store_returns (PinnedBuffer.hostptr b) (i * sizeof T) v m q [] tr hblk Hh)
      as (m' & E).
    { assert (i * sizeof T + sizeof T <= sizeof T * PinnedBuffer.capacity b) by nia.
      assert (0 <= i * sizeof T) by nia. lia. }
    rewrite (bind_ok _ _ _ _ _ E). eexists _, _. reflexivity.
  - (* downloadFromDevice, asynchronous *)
    destruct synch; [discriminate Hs |].
    destruct (0 <? PinnedBuffer._size b); eexists _, _; reflexivity.
  - (* uploadToDevice *)
    destruct (0 <? PinnedBuffer._size b); eexists _, _; reflexivity.
  - (* clear *)
    destruct (0 <? PinnedBuffer._size b).
    + rewrite bind_assoc.
      rewrite (bind_ok _ _ _ _ _ (cudaMemsetAsync_stalled _ _ _ _ _ _ _)).
      destruct (Hclear (q ++ [(stream, WMemset (PinnedBuffer.devptr b) x00
                                         (bytes_of T (PinnedBuffer._size b)))])
                  (tr ++ [CallMemsetAsync stream])) as (σ' & E).
      rewrite (bind_ok _ _ _ _ _ E). eexists _, _. reflexivity.
    + rewrite bind_assoc.
      rewrite (bind_ok _ _ _ _ _ (eq_refl : ret tt _ = Ok (tt, _))).
      destruct (Hclear q tr) as (σ' & E).
      rewrite (bind_ok _ _ _ _ _ E). eexists _, _. reflexivity.
  - (* clearDevice *)
    destruct (0 <? PinnedBuffer._size b); eexists _, _; reflexivity.
  - (* clearHost *)
    destruct (Hclear q tr) as (σ' & E).
    rewrite (bind_ok _ _ _ _ _ E). eexists _, _. reflexivity.
  - (* copy from a DeviceBuffer *)
    destruct (0 <? DeviceBuffer._size cont); eexists _, _; reflexivity.
  - (* copy from a HostBuffer *)
    pose proof (Hhost cont eq_refl) as Hsrc.
    destruct (Z.eq_dec (HostBuffer._size cont) 0) as [E0 | Hne].
    + rewrite E0, CopyFacts.bytes_of_zero. eexists _, _. reflexivity.
    + assert (Hszc : 0 <= HostBuffer._size cont <= HostBuffer.capacity cont)
        by (destruct Hsrc as ((H & _) & _); exact H).
      assert (Hcapc : sizeof T * HostBuffer.capacity cont < Growth.size_t_range)
        by (destruct Hsrc as (_ & H & _); exact H).
      destruct Hblk as (dblk & Hd & Hld); [lia |].
      destruct (host_host_block T cont _ Hsrc) as (sblk & Hsb & Hls); [lia |].
      cbn [mem] in Hsb.
      destruct (memcpy_elements_returns T (PinnedBuffer.hostptr b) (HostBuffer.hostPtr cont)
                  (HostBuffer._size cont) (PinnedBuffer.capacity b) (HostBuffer.capacity cont)
                  m q [] tr dblk sblk) as (m' & E);
        [lia | exact Hd | exact Hsb | exact Hreq | exact Hcapb | exact Hld
        | lia | exact Hcapc | exact Hls |].
      rewrite (bind_ok _ _ _ _ _ E). eexists _, _. reflexivity.
  - (* copy from a PinnedBuffer, with a stream *)
    pose proof (Hpin cont stream eq_refl) as Hsrc.
    destruct (Z.ltb_spec 0 (PinnedBuffer._size cont)) as [Hpos | _];
      [| eexists _, _; reflexivity].
    assert (Hszc : 0 <= PinnedBuffer._size cont <= PinnedBuffer.capacity cont)
      by (destruct Hsrc as ((H & _) & _); exact H).
    assert (Hcapc : sizeof T * PinnedBuffer.capacity cont < Growth.size_t_range)
      by (destruct Hsrc as (_ & H & _); exact H).
    destruct Hblk as (dblk & Hd & Hld); [lia |].
    destruct (pinned_host_block T cont _ Hsrc) as (sblk & Hsb & Hls); [lia |].
    cbn [mem] in Hsb.
    rewrite !bind_assoc.
    rewrite (bind_ok _ _ _ _ _ (cudaMemcpyAsync_stalled _ _ _ _ _ _ _ _)).
    destruct (memcpy_elements_returns T (PinnedBuffer.hostptr b) (PinnedBuffer.hostPtr cont)
                (PinnedBuffer._size cont) (PinnedBuffer.capacity b)
                (PinnedBuffer.capacity cont) m
                (q ++ [(stream, WMemcpy (PinnedBuffer.devptr b) (PinnedBuffer.devPtr cont)
                                  (bytes_of T (PinnedBuffer._size cont))
                                  cudaMemcpyDeviceToDevice)])
                [] (tr ++ [CallMemcpyAsync stream]) dblk sblk) as (m' & E);
      [lia | exact Hd | exact Hsb | exact Hreq | exact Hcapb | exact Hld
      | lia | exact Hcapc | exact Hls |].
    rewrite (bind_ok _ _ _ _ _ E). eexists _, _. reflexivity.
  - (* copyDeviceOnly *)
    destruct (0 <? PinnedBuffer._size cont); eexists _, _; reflexivity.
Qed.

(** *** A request beyond the capacity *)

(** Releasing a live allocation returns only when the device is idle. *)
Lemma cudaFree_drains p σ u σ' :
  p <> nullptr -> cudaFree p σ = Ok (u, σ') -> pending σ' = [].
Proof.
  intros Hp H. unfold cudaFree in H.
  apply bind_inv in H as (? & σ1 & _ & H). apply bind_inv in H as (? & σ2 & _ & H).
  destruct (decide (p = nullptr)); [contradiction |].
  apply bind_inv in H as (? & σ3 & Hw & Hr).
  unfold wait_device in Hw. destruct (drain _ _); [| discriminate]. injection Hw as _ <-.
  unfold release in Hr. cbn [mem pending sched trace] in Hr.
  destruct (heap_of Device _ !! p); [| discriminate]. injection Hr as _ <-. reflexivity.
Qed.

Lemma device_resize_waits (T : ctype) n st copy (b : DeviceBuffer.t T) σ b' σ' :
  DeviceBuffer.capacity b < n -> DeviceBuffer.devPtr b <> nullptr ->
  DeviceBuffer._resize n st copy b σ = Ok (b', σ') -> pending σ' = [].
Proof.
  intros Hlt Hp H. unfold DeviceBuffer._resize in H.
  replace (n <=? DeviceBuffer.capacity b) with false in H
    by (symmetry; apply Z.leb_gt; exact Hlt).
  destruct (Growth.conservative_estimate n); [| discriminate].
  apply bind_inv in H as (p & σ1 & _ & H).
  apply bind_inv in H as (? & σ2 & _ & H).
  apply bind_inv in H as (? & σ3 & Hfree & H).
  unfold ret in H. injection H as _ <-.
  exact (cudaFree_drains _ _ _ _ Hp Hfree).
Qed.

Lemma pinned_resize_waits (T : ctype) n st copy (b : PinnedBuffer.t T) σ b' σ' :
  PinnedBuffer.capacity b < n -> PinnedBuffer.devPtr b <> nullptr ->
  PinnedBuffer._resize n st copy b σ = Ok (b', σ') -> pending σ' = [].
Proof.
  intros Hlt Hp H. unfold PinnedBuffer._resize in H.
  replace (n <=? PinnedBuffer.capacity b) with false in H
    by (symmetry; apply Z.leb_gt; exact Hlt).
  destruct (Growth.conservative_estimate n); [| discriminate].
  apply bind_inv in H as (hp & σ1 & _ & H).
  apply bind_inv in H as (dp & σ2 & _ & H).
  apply bind_inv in H as (? & σ3 & _ & H).
  apply bind_inv in H as (? & σ4 & _ & H).
  apply bind_inv in H as (? & σ5 & Hfree & H).
  unfold ret in H. injection H as _ <-.
  exact (cudaFree_drains _ _ _ _ Hp Hfree).
Qed.

(** The first allocation of a container that owns none waits for nothing. *)
Lemma device_resize_first (T : ctype) n st copy (b : DeviceBuffer.t T) :
  DeviceBuffer.devPtr b = nullptr ->
  enqueues_only (fun _ => False) (DeviceBuffer._resize n st copy b).
Proof.
  intros Hp. unfold DeviceBuffer.devPtr in Hp. unfold DeviceBuffer._resize. rewrite Hp.
  replace (negb (nullptr =? nullptr)%N) with false by reflexivity.
  rewrite andb_false_r. enq.
Qed.

Lemma pinned_resize_first (T : ctype) n st copy (b : PinnedBuffer.t T) :
  PinnedBuffer.hostPtr b = nullptr -> PinnedBuffer.devPtr b = nullptr ->
  enqueues_only (fun _ => False) (PinnedBuffer._resize n st copy b).
Proof.
  intros Hh Hd. unfold PinnedBuffer.hostPtr in Hh. unfold PinnedBuffer.devPtr in Hd.
  unfold PinnedBuffer._resize. rewrite Hh, Hd.
  replace (negb (nullptr =? nullptr)%N) with false by reflexivity.
  rewrite andb_false_r. cbn [andb]. enq.
Qed.

End BlockingFacts.

(** ** Sequences of resize calls *)

Module SequenceFacts.

Lemma grown_block_length copy p oldbytes newbytes old :
  0 <= oldbytes <= newbytes ->
  (forall blk, old = Some blk -> p <> nullptr -> oldbytes <= Z.of_nat (length blk)) ->
  Z.of_nat (length (grown_block copy p oldbytes newbytes old)) = newbytes.
Proof.
  intros Hb Hold. unfold grown_block, fresh_block.
  destruct old as [blk |]; [| rewrite length_replicate; lia].
  destruct (copy && negb (p =? nullptr)%N && (0 <? oldbytes)) eqn:Hc;
    [| rewrite length_replicate; lia].
  apply andb_true_iff in Hc as [Hc _]. apply andb_true_iff in Hc as [_ Hp].
  apply negb_true_iff, N.eqb_neq in Hp.
  specialize (Hold blk eq_refl Hp).
  rewrite length_app, length_take, length_drop, length_replicate. lia.
Qed.

Lemma fits_request (T : ctype) n : fits T n -> 0 <= n <= 2 ^ 63.
Proof.
  intros [H0 Hb]. pose proof (sizeof_pos T) as Hs. split; [exact H0 |].
  unfold size_t_range in Hb. rewrite pow2_63. rewrite pow2_64 in Hb. nia.
Qed.

(** A resize of a well-formed buffer in an idle process succeeds and leaves
    a well-formed buffer in an idle process. *)
Lemma device_resize_total (T : ctype) n st copy (b : DeviceBuffer.t T) σ :
  mem_ok (mem σ) -> quiescent σ -> DeviceBuffer.wf σ b -> fits T n ->
  exists b' σ',
    DeviceBuffer._resize n st copy b σ = Ok (b', σ') /\
    mem_ok (mem σ') /\ quiescent σ' /\ DeviceBuffer.wf σ' b' /\
    DeviceBuffer.capacity b <= DeviceBuffer.capacity b'.
Proof.
  intros Hok Hidle Hwf Hfit.
  destruct (Z.le_gt_cases n (DeviceBuffer.capacity b)) as [Hle | Hgt].
  - rewrite (DeviceFacts.device_resize_keep T n st copy b σ Hle).
    eexists _, _. split; [reflexivity |]. split; [exact Hok |]. split; [exact Hidle |].
    split; [| cbn; lia].
    destruct Hwf as ((Hsz & Hnull) & Hcap & Halloc). destruct Hfit as [H0 _].
    split; [split; cbn; [lia | exact Hnull] | split; [exact Hcap | exact Halloc]].
  - destruct σ as [m q sc tr]. unfold quiescent in Hidle. cbn [pending] in Hidle. subst q.
    cbn [mem] in Hok.
    destruct (DeviceFacts.device_resize_grow T n st copy b m sc tr Hok Hwf Hfit Hgt)
      as (est & sc' & tr' & Hest & Hrun).
    destruct (fits_capacity T n Hfit) as (est' & Hest' & Hlo & Hal & Hn & Hmod & Hbytes & Hbo).
    rewrite Hest in Hest'. injection Hest' as <-.
    rewrite Hrun. eexists _, _. split; [reflexivity |].
    destruct Hwf as ((Hsz & Hnull) & Hcap & Halloc). cbn [mem] in Halloc.
    destruct Hfit as [H0 _]. pose proof (sizeof_pos T) as Hs.
    assert (Hnew : Npos (next m) <> DeviceBuffer.devptr b).
    { intros E. destruct (Hok Device (DeviceBuffer.devptr b)) as [_ Hlt]; [| lia].
      destruct Halloc as (blk & Hblk & _); [rewrite <- E; discriminate |].
      cbn. rewrite Hblk. eauto. }
    split; [| split; [reflexivity | split; [| cbn; lia]]].
    + intros sp p Hp. cbn [mem next]. destruct sp; cbn [mem heap_of hostmem devmem] in Hp.
      * destruct (Hok Host p Hp). lia.
      * destruct (decide (p = DeviceBuffer.devptr b)) as [-> | Hne];
          [rewrite lookup_delete_eq in Hp; destruct Hp; discriminate |].
        rewrite lookup_delete_ne in Hp by congruence.
        destruct (decide (p = Npos (next m))) as [-> | Hne2]; [lia |].
        rewrite lookup_insert_ne in Hp by congruence. destruct (Hok Device p Hp). lia.
    + split; [split; cbn; [lia | split; [lia | discriminate]] |].
      split; [cbn; exact Hbytes |].
      intros _. cbn [mem devmem DeviceBuffer.devptr DeviceBuffer.capacity]. eexists. split.
      * rewrite lookup_delete_ne by (apply not_eq_sym; exact Hnew). apply lookup_insert_eq.
      * apply grown_block_length; [nia |]. intros blk Hblk Hp.
        destruct (Halloc Hp) as (blk' & Hb' & Hl). rewrite Hblk in Hb'. injection Hb' as <-. nia.
Qed.

Lemma host_resize_total (T : ctype) n copy (b : HostBuffer.t T) σ :
  mem_ok (mem σ) -> quiescent σ -> HostBuffer.wf σ b -> fits T n ->
  exists b' σ',
    HostBuffer._resize n copy b σ = Ok (b', σ') /\
    mem_ok (mem σ') /\ quiescent σ' /\ HostBuffer.wf σ' b' /\
    HostBuffer.capacity b <= HostBuffer.capacity b'.
Proof.
  intros Hok Hidle Hwf Hfit.
  destruct (Z.le_gt_cases n (HostBuffer.capacity b)) as [Hle | Hgt].
  - rewrite (HostFacts.host_resize_keep T n copy b σ Hle).
    eexists _, _. split; [reflexivity |]. split; [exact Hok |]. split; [exact Hidle |].
    split; [| cbn; lia].
    destruct Hwf as ((Hsz & Hnull) & Hcap & Halloc). destruct Hfit as [H0 _].
    split; [split; cbn; [lia | exact Hnull] | split; [exact Hcap | exact Halloc]].
  - destruct σ as [m q sc tr]. unfold quiescent in Hidle. cbn [pending] in Hidle. subst q.
    cbn [mem] in Hok.
    destruct (HostFacts.host_resize_grow T n copy b m sc tr Hok Hwf Hfit Hgt)
      as (est & sc' & tr' & Hest & Hrun).
    destruct (fits_capacity T n Hfit) as (est' & Hest' & Hlo & Hal & Hn & Hmod & Hbytes & Hbo).
    rewrite Hest in Hest'. injection Hest' as <-.
    rewrite Hrun. eexists _, _. split; [reflexivity |].
    destruct Hwf as ((Hsz & Hnull) & Hcap & Halloc). cbn [mem] in Halloc.
    destruct Hfit as [H0 _]. pose proof (sizeof_pos T) as Hs.
    assert (Hnew : Npos (next m) <> HostBuffer.hostptr b).
    { intros E. destruct (Hok Host (HostBuffer.hostptr b)) as [_ Hlt]; [| lia].
      destruct Halloc as (blk & Hblk & _); [rewrite <- E; discriminate |].
      cbn. rewrite Hblk. eauto. }
    split; [| split; [reflexivity | split; [| cbn; lia]]].
    + intros sp p Hp. cbn [mem next]. destruct sp; cbn [mem heap_of hostmem devmem] in Hp.
      * destruct (decide (p = HostBuffer.hostptr b)) as [-> | Hne];
          [rewrite lookup_delete_eq in Hp; destruct Hp; discriminate |].
        rewrite lookup_delete_ne in Hp by congruence.
        destruct (decide (p = Npos (next m))) as [-> | Hne2]; [lia |].
        rewrite lookup_insert_ne in Hp by congruence. destruct (Hok Host p Hp). lia.
      * destruct (Hok Device p Hp). lia.
    + split; [split; cbn; [lia | split; [lia | discriminate]] |].
      split; [cbn; exact Hbytes |].
      intros _. cbn [mem hostmem HostBuffer.hostptr HostBuffer.capacity]. eexists. split.
      * rewrite lookup_delete_ne by (apply not_eq_sym; exact Hnew). apply lookup_insert_eq.
      * apply grown_block_length; [nia |]. intros blk Hblk Hp.
        destruct (Halloc Hp) as (blk' & Hb' & Hl). rewrite Hblk in Hb'. injection Hb' as <-. nia.
Qed.

Lemma pinned_resize_total (T : ctype) n st copy (b : PinnedBuffer.t T) σ :
  mem_ok (mem σ) -> quiescent σ -> PinnedBuffer.wf σ b -> fits T n ->
  exists b' σ',
    PinnedBuffer._resize n st copy b σ = Ok (b', σ') /\
    mem_ok (mem σ') /\ quiescent σ' /\ PinnedBuffer.wf σ' b' /\
    PinnedBuffer.capacity b <= PinnedBuffer.capacity b'.
Proof.
  intros Hok Hidle Hwf Hfit.
  destruct (Z.le_gt_cases n (PinnedBuffer.capacity b)) as [Hle | Hgt].
  - rewrite (PinnedFacts.pinned_resize_keep T n st copy b σ Hle).
    eexists _, _. split; [reflexivity |]. split; [exact Hok |]. split; [exact Hidle |].
    split; [| cbn; lia].
    destruct Hwf as ((Hsz & Hnull) & Hcap & Halloc). destruct Hfit as [H0 _].
    split; [split; cbn; [lia | exact Hnull] | split; [exact Hcap | exact Halloc]].
  - destruct σ as [m q sc tr]. unfold quiescent in Hidle. cbn [pending] in Hidle. subst q.
    cbn [mem] in Hok.
    destruct (PinnedFacts.pinned_resize_grow T n st copy b m sc tr Hok Hwf Hfit Hgt)
      as (est & sc' & tr' & Hest & Hrun).
    destruct (fits_capacity T n Hfit) as (est' & Hest' & Hlo & Hal & Hn & Hmod & Hbytes & Hbo).
    rewrite Hest in Hest'. injection Hest' as <-.
    rewrite Hrun. eexists _, _. split; [reflexivity |].
    destruct Hwf as ((Hsz & Hnull & Hboth) & Hcap & Halloc). cbn [mem] in Halloc.
    destruct Hfit as [H0 _]. pose proof (sizeof_pos T) as Hs.
    assert (Hnewh : Npos (next m) <> PinnedBuffer.hostptr b).
    { intros E. destruct (Hok Host (PinnedBuffer.hostptr b)) as [_ Hlt]; [| lia].
      destruct Halloc as (_ & (blk & Hblk & _));
        [intros E0; apply Hboth in E0; rewrite E0 in E; discriminate |].
      cbn. rewrite Hblk. eauto. }
    assert (Hnewd : Npos (Pos.succ (next m)) <> PinnedBuffer.devptr b).
    { intros E. destruct (Hok Device (PinnedBuffer.devptr b)) as [_ Hlt]; [| lia].
      destruct Halloc as ((blk & Hblk & _) & _); [rewrite <- E; discriminate |].
      cbn. rewrite Hblk. eauto. }
    split; [| split; [reflexivity | split; [| cbn; lia]]].
    + intros sp p Hp. cbn [mem next]. destruct sp; cbn [mem heap_of hostmem devmem] in Hp.
      * destruct (decide (p = PinnedBuffer.hostptr b)) as [-> | Hne];
          [rewrite lookup_delete_eq in Hp; destruct Hp; discriminate |].
        rewrite lookup_delete_ne in Hp by congruence.
        destruct (decide (p = Npos (next m))) as [-> | Hne2]; [lia |].
        rewrite lookup_insert_ne in Hp by congruence. destruct (Hok Host p Hp). lia.
      * destruct (decide (p = PinnedBuffer.devptr b)) as [-> | Hne];
          [rewrite lookup_delete_eq in Hp; destruct Hp; discriminate |].
        rewrite lookup_delete_ne in Hp by congruence.
        destruct (decide (p = Npos (Pos.succ (next m)))) as [-> | Hne2]; [lia |].
        rewrite lookup_insert_ne in Hp by congruence. destruct (Hok Device p Hp). lia.
    + split; [split; cbn; [lia | split; split; [lia | discriminate | discriminate | discriminate]] |].
      split; [cbn; exact Hbytes |].
      intros _. cbn [mem hostmem devmem PinnedBuffer.hostptr PinnedBuffer.devptr
                       PinnedBuffer.capacity].
      split; eexists; (split;
        [rewrite lookup_delete_ne by (apply not_eq_sym; assumption); apply lookup_insert_eq |]).
      * apply grown_block_length; [nia |]. intros blk Hblk Hp.
        destruct (Halloc Hp) as ((blk' & Hb' & Hl) & _).
        rewrite Hblk in Hb'. injection Hb' as <-. nia.
      * apply grown_block_length; [nia |]. intros blk Hblk Hp.
        assert (Hd : PinnedBuffer.devptr b <> nullptr)
          by (intros E; apply Hp, Hboth; exact E).
        destruct (Halloc Hd) as (_ & (blk' & Hb' & Hl)).
        rewrite Hblk in Hb'. injection Hb' as <-. nia.
Qed.

Lemma device_resizes_total (T : ctype) (calls : list resize_call) :
  Forall (fun c => fits T (requested c)) calls ->
  forall (b : DeviceBuffer.t T) σ,
  mem_ok (mem σ) -> quiescent σ -> DeviceBuffer.wf σ b ->
  exists b' σ',
    foldM DeviceBuffer.resize_by calls b σ = Ok (b', σ') /\
    mem_ok (mem σ') /\ quiescent σ' /\ DeviceBuffer.wf σ' b' /\
    DeviceBuffer.capacity b <= DeviceBuffer.capacity b'.
Proof.
  induction 1 as [| c calls Hc _ IH]; intros b σ Hok Hidle Hwf.
  - exists b, σ. split; [reflexivity |]. repeat (split; [assumption |]). lia.
  - assert (Hstep : exists b1 σ1,
              DeviceBuffer.resize_by c b σ = Ok (b1, σ1) /\
              mem_ok (mem σ1) /\ quiescent σ1 /\ DeviceBuffer.wf σ1 b1 /\
              DeviceBuffer.capacity b <= DeviceBuffer.capacity b1)
      by (destruct c; apply device_resize_total; assumption).
    destruct Hstep as (b1 & σ1 & Hrun & Hok1 & Hidle1 & Hwf1 & Hle1).
    destruct (IH b1 σ1 Hok1 Hidle1 Hwf1) as (b' & σ' & Hrun' & Hok' & Hidle' & Hwf' & Hle').
    exists b', σ'. cbn [foldM]. rewrite (bind_ok _ _ _ _ _ Hrun).
    split; [exact Hrun' |]. repeat (split; [assumption |]). lia.
Qed.

Lemma host_resizes_total (T : ctype) (calls : list resize_call) :
  Forall (fun c => fits T (requested c)) calls ->
  forall (b : HostBuffer.t T) σ,
  mem_ok (mem σ) -> quiescent σ -> HostBuffer.wf σ b ->
  exists b' σ',
    foldM HostBuffer.resize_by calls b σ = Ok (b', σ') /\
    mem_ok (mem σ') /\ quiescent σ' /\ HostBuffer.wf σ' b' /\
    HostBuffer.capacity b <= HostBuffer.capacity b'.
Proof.
  induction 1 as [| c calls Hc _ IH]; intros b σ Hok Hidle Hwf.
  - exists b, σ. split; [reflexivity |]. repeat (split; [assumption |]). lia.
  - assert (Hstep : exists b1 σ1,
              HostBuffer.resize_by c b σ = Ok (b1, σ1) /\
              mem_ok (mem σ1) /\ quiescent σ1 /\ HostBuffer.wf σ1 b1 /\
              HostBuffer.capacity b <= HostBuffer.capacity b1)
      by (destruct c; apply host_resize_total; assumption).
    destruct Hstep as (b1 & σ1 & Hrun & Hok1 & Hidle1 & Hwf1 & Hle1).
    destruct (IH b1 σ1 Hok1 Hidle1 Hwf1) as (b' & σ' & Hrun' & Hok' & Hidle' & Hwf' & Hle').
    exists b', σ'. cbn [foldM]. rewrite (bind_ok _ _ _ _ _ Hrun).
    split; [exact Hrun' |]. repeat (split; [assumption |]). lia.
Qed.

Lemma pinned_resizes_total (T : ctype) (calls : list resize_call) :
  Forall (fun c => fits T (requested c)) calls ->
  forall (b : PinnedBuffer.t T) σ,
  mem_ok (mem σ) -> quiescent σ -> PinnedBuffer.wf σ b ->
  exists b' σ',
    foldM PinnedBuffer.resize_by calls b σ = Ok (b', σ') /\
    mem_ok (mem σ') /\ quiescent σ' /\ PinnedBuffer.wf σ' b' /\
    PinnedBuffer.capacity b <= PinnedBuffer.capacity b'.
Proof.
  induction 1 as [| c calls Hc _ IH]; intros b σ Hok Hidle Hwf.
  - exists b, σ. split; [reflexivity |]. repeat (split; [assumption |]). lia.
  - assert (Hstep : exists b1 σ1,
              PinnedBuffer.resize_by c b σ = Ok (b1, σ1) /\
              mem_ok (mem σ1) /\ quiescent σ1 /\ PinnedBuffer.wf σ1 b1 /\
              PinnedBuffer.capacity b <= PinnedBuffer.capacity b1)
      by (destruct c; apply pinned_resize_total; assumption).
    destruct Hstep as (b1 & σ1 & Hrun & Hok1 & Hidle1 & Hwf1 & Hle1).
    destruct (IH b1 σ1 Hok1 Hidle1 Hwf1) as (b' & σ' & Hrun' & Hok' & Hidle' & Hwf' & Hle').
    exists b', σ'. cbn [foldM]. rewrite (bind_ok _ _ _ _ _ Hrun).
    split; [exact Hrun' |]. repeat (split; [assumption |]). lia.
Qed.

End SequenceFacts.

(** ** The concrete objects *)

Module ExampleFacts.

Lemma pow2_44 : 2 ^ 44 = 17592186044416.
Proof. reflexivity. Qed.

Lemma mem_ok_start : mem_ok (mem start).
Proof.
  intros sp p [blk Hblk]. destruct sp; cbn in Hblk; rewrite lookup_empty in Hblk; discriminate.
Qed.

Lemma wf_empty_device (T : ctype) σ : DeviceBuffer.wf σ (@DeviceBuffer.empty T).
Proof.
  split; [apply InvFacts.device_empty_inv |]. cbn. split; [| intros H; contradiction].
  rewrite Z.mul_0_r. reflexivity.
Qed.

Lemma wf_empty_host (T : ctype) σ : HostBuffer.wf σ (@HostBuffer.empty T).
Proof.
  split; [apply InvFacts.host_empty_inv |]. cbn. split; [| intros H; contradiction].
  rewrite Z.mul_0_r. reflexivity.
Qed.

Lemma wf_empty_pinned (T : ctype) σ : PinnedBuffer.wf σ (@PinnedBuffer.empty T).
Proof.
  split; [apply InvFacts.pinned_empty_inv |]. cbn. split; [| intros H; contradiction].
  rewrite Z.mul_0_r. reflexivity.
Qed.

Lemma fits_float (n : Z) : (0 <=? n) && (n <=? 1000000) = true -> fits float_t n.
Proof.
  intros Hn. apply andb_true_iff in Hn as [H0 H1]. apply Z.leb_le in H0, H1.
  split; [lia |]. unfold size_t_range. cbn [sizeof float_t]. lia.
Qed.

Lemma mem_ok_demo : mem_ok (mem demo).
Proof.
  intros sp p [blk Hblk].
  destruct sp; cbn in Hblk; apply lookup_singleton_Some in Hblk as [<- _]; cbn; lia.
Qed.

Lemma wf_demo_device : DeviceBuffer.wf demo demo_device.
Proof.
  split; [split; cbn; [lia | split; intros; [lia | discriminate]] |].
  split; [reflexivity |]. intros _. eexists. split; [apply lookup_singleton_eq | reflexivity].
Qed.

Lemma wf_demo_host : HostBuffer.wf demo demo_host.
Proof.
  split; [split; cbn; [lia | split; intros; [lia | discriminate]] |].
  split; [reflexivity |]. intros _. eexists. split; [apply lookup_singleton_eq | reflexivity].
Qed.

Lemma wf_demo_pinned : PinnedBuffer.wf demo demo_pinned.
Proof.
  split; [split; cbn; [lia | split; split; intros; (lia || discriminate)] |].
  split; [reflexivity |]. intros _.
  split; eexists; (split; [apply lookup_singleton_eq | reflexivity]).
Qed.

End ExampleFacts.

(** * The claims *)

(** C1. After a preserving resize to [n], the first [min(old_size, n)]
    elements of every container hold the values they held before, whether
    the call reallocates (the old allocation is then released and the new
    one starts with the old elements) or not (nothing is touched). *)
Theorem resize_preserves_prefix (T : ctype) (n : Z) (σ : state)
    (Hok : mem_ok (mem σ)) (Hidle : quiescent σ) (Hfit : fits T n) :
  (forall st (b : DeviceBuffer.t T), DeviceBuffer.wf σ b ->
   exists b' σ',
     DeviceBuffer.resize n st b σ = Ok (b', σ') /\
     DeviceBuffer._size b' = n /\
     prefix_kept (devmem (mem σ)) (devmem (mem σ')) (DeviceBuffer.devptr b)
       (DeviceBuffer.devptr b') (Z.to_nat (sizeof T * Z.min (DeviceBuffer._size b) n)) /\
     (n <= DeviceBuffer.capacity b ->
      σ' = σ /\ DeviceBuffer.devptr b' = DeviceBuffer.devptr b) /\
     (DeviceBuffer.capacity b < n ->
      DeviceBuffer.devptr b' <> DeviceBuffer.devptr b /\
      devmem (mem σ') !! DeviceBuffer.devptr b = None)) /\
  (forall (b : HostBuffer.t T), HostBuffer.wf σ b ->
   exists b' σ',
     HostBuffer.resize n b σ = Ok (b', σ') /\
     HostBuffer._size b' = n /\
     prefix_kept (hostmem (mem σ)) (hostmem (mem σ')) (HostBuffer.hostptr b)
       (HostBuffer.hostptr b') (Z.to_nat (sizeof T * Z.min (HostBuffer._size b) n)) /\
     (n <= HostBuffer.capacity b ->
      σ' = σ /\ HostBuffer.hostptr b' = HostBuffer.hostptr b) /\
     (HostBuffer.capacity b < n ->
      HostBuffer.hostptr b' <> HostBuffer.hostptr b /\
      hostmem (mem σ') !! HostBuffer.hostptr b = None)) /\
  (forall st (b : PinnedBuffer.t T), PinnedBuffer.wf σ b ->
   exists b' σ',
     PinnedBuffer.resize n st b σ = Ok (b', σ') /\
     PinnedBuffer._size b' = n /\
     prefix_kept (hostmem (mem σ)) (hostmem (mem σ')) (PinnedBuffer.hostptr b)
       (PinnedBuffer.hostptr b') (Z.to_nat (sizeof T * Z.min (PinnedBuffer._size b) n)) /\
     prefix_kept (devmem (mem σ)) (devmem (mem σ')) (PinnedBuffer.devptr b)
       (PinnedBuffer.devptr b') (Z.to_nat (sizeof T * Z.min (PinnedBuffer._size b) n)) /\
     (n <= PinnedBuffer.capacity b ->
      σ' = σ /\ PinnedBuffer.hostptr b' = PinnedBuffer.hostptr b /\
      PinnedBuffer.devptr b' = PinnedBuffer.devptr b) /\
     (PinnedBuffer.capacity b < n ->
      PinnedBuffer.hostptr b' <> PinnedBuffer.hostptr b /\
      PinnedBuffer.devptr b' <> PinnedBuffer.devptr b /\
      hostmem (mem σ') !! PinnedBuffer.hostptr b = None /\
      devmem (mem σ') !! PinnedBuffer.devptr b = None)).
Proof.
  split; [| split].
  - intros st b Hwf. apply device_resize_prefix; assumption.
  - intros b Hwf. apply host_resize_prefix; assumption.
  - intros st b Hwf. apply pinned_resize_prefix; assumption.
Qed.

Lemma resize_preserves_prefix_witness :
  exists b' σ',
    DeviceBuffer.resize 200 0%nat demo_device demo = Ok (b', σ') /\
    DeviceBuffer._size b' = 200 /\
    prefix_kept (devmem (mem demo)) (devmem (mem σ')) 2%N (DeviceBuffer.devptr b') 12.
Proof.
  destruct (resize_preserves_prefix float_t 200 demo ExampleFacts.mem_ok_demo eq_refl
              (ExampleFacts.fits_float 200 eq_refl)) as (Hdev & _).
  destruct (Hdev 0%nat demo_device ExampleFacts.wf_demo_device)
    as (b' & σ' & Hrun & Hsize & Hkept & _).
  exists b', σ'. split; [exact Hrun |]. split; [exact Hsize | exact Hkept].
Defined.

(** C2. Every operation of every container preserves the invariant on its
    fields (size at most capacity; capacity zero exactly when the pointer
    is null; for the pinned buffer, host and device pointers null
    together), for requests of at most [2^63] elements; move assignment
    preserves it for every object of the store; construction with size 0
    allocates nothing and yields zero fields and null pointers.  A resize
    of a buffer whose non-null pointers refer to allocations of exactly
    [capacity * sizeof(T)] bytes succeeds and leaves such a buffer. *)
Theorem invariant_preserved (T : ctype) :
  (forall (op : DeviceOp.t T) b,
     DeviceBuffer.inv b -> 0 <= DeviceOp.request op b <= 2 ^ 63 ->
     returns (DeviceOp.run op b) DeviceBuffer.inv) /\
  (forall (op : HostOp.t T) b,
     HostBuffer.inv b -> 0 <= HostOp.request op b <= 2 ^ 63 ->
     returns (HostOp.run op b) HostBuffer.inv) /\
  (forall (op : PinnedOp.t T) b,
     PinnedBuffer.inv b -> 0 <= PinnedOp.request op b <= 2 ^ 63 ->
     returns (PinnedOp.run op b) PinnedBuffer.inv) /\
  (forall this b objs,
     map_Forall (fun _ => DeviceBuffer.inv) objs ->
     returns (DeviceBuffer.move_assign (T := T) this b objs)
       (map_Forall (fun _ => DeviceBuffer.inv))) /\
  (forall this b objs,
     map_Forall (fun _ => HostBuffer.inv) objs ->
     returns (HostBuffer.move_assign (T := T) this b objs)
       (map_Forall (fun _ => HostBuffer.inv))) /\
  (forall this b objs,
     map_Forall (fun _ => PinnedBuffer.inv) objs ->
     returns (PinnedBuffer.move_assign (T := T) this b objs)
       (map_Forall (fun _ => PinnedBuffer.inv))) /\
  (forall σ,
     DeviceBuffer.new 0 σ = Ok (DeviceBuffer.Build (T := T) 0 0 nullptr, σ) /\
     HostBuffer.new 0 σ = Ok (HostBuffer.Build (T := T) 0 0 nullptr, σ) /\
     PinnedBuffer.new 0 σ = Ok (PinnedBuffer.Build (T := T) 0 0 nullptr nullptr, σ)) /\
  DeviceBuffer.inv (@DeviceBuffer.empty T) /\
  HostBuffer.inv (@HostBuffer.empty T) /\
  PinnedBuffer.inv (@PinnedBuffer.empty T) /\
  (forall n st copy (b : DeviceBuffer.t T) σ,
     mem_ok (mem σ) -> quiescent σ -> DeviceBuffer.wf σ b -> fits T n ->
     exists b' σ', DeviceBuffer._resize n st copy b σ = Ok (b', σ') /\
                   DeviceBuffer.wf σ' b') /\
  (forall n copy (b : HostBuffer.t T) σ,
     mem_ok (mem σ) -> quiescent σ -> HostBuffer.wf σ b -> fits T n ->
     exists b' σ', HostBuffer._resize n copy b σ = Ok (b', σ') /\
                   HostBuffer.wf σ' b') /\
  (forall n st copy (b : PinnedBuffer.t T) σ,
     mem_ok (mem σ) -> quiescent σ -> PinnedBuffer.wf σ b -> fits T n ->
     exists b' σ', PinnedBuffer._resize n st copy b σ = Ok (b', σ') /\
                   PinnedBuffer.wf σ' b').
Proof.
  split; [apply InvFacts.device_op_inv |].
  split; [apply InvFacts.host_op_inv |].
  split; [apply InvFacts.pinned_op_inv |].
  split; [apply InvFacts.device_move_assign_inv |].
  split; [apply InvFacts.host_move_assign_inv |].
  split; [apply InvFacts.pinned_move_assign_inv |].
  split; [intros σ; split; [| split]; reflexivity |].
  split; [apply InvFacts.device_empty_inv |].
  split; [apply InvFacts.host_empty_inv |].
  split; [apply InvFacts.pinned_empty_inv |].
  split; [| split].
  - intros n st copy b σ Hok Hidle Hwf Hfit.
    destruct (SequenceFacts.device_resize_total T n st copy b σ Hok Hidle Hwf Hfit)
      as (b' & σ' & Hrun & _ & _ & Hwf' & _).
    exists b', σ'. split; assumption.
  - intros n copy b σ Hok Hidle Hwf Hfit.
    destruct (SequenceFacts.host_resize_total T n copy b σ Hok Hidle Hwf Hfit)
      as (b' & σ' & Hrun & _ & _ & Hwf' & _).
    exists b', σ'. split; assumption.
  - intros n st copy b σ Hok Hidle Hwf Hfit.
    destruct (SequenceFacts.pinned_resize_total T n st copy b σ Hok Hidle Hwf Hfit)
      as (b' & σ' & Hrun & _ & _ & Hwf' & _).
    exists b', σ'. split; assumption.
Qed.

Lemma invariant_preserved_witness :
  returns (PinnedOp.run (PinnedOp.Resize 200 0%nat) demo_pinned) PinnedBuffer.inv /\
  exists b' σ', PinnedBuffer._resize 200 0%nat true demo_pinned demo = Ok (b', σ') /\
                PinnedBuffer.wf σ' b'.
Proof.
  destruct (invariant_preserved float_t)
    as (_ & _ & Hpin & _ & _ & _ & _ & _ & _ & _ & _ & _ & Hres).
  split.
  - apply Hpin; [exact (proj1 ExampleFacts.wf_demo_pinned) |].
    cbn. rewrite pow2_63. lia.
  - apply Hres;
      [exact ExampleFacts.mem_ok_demo | reflexivity | exact ExampleFacts.wf_demo_pinned
      | exact (ExampleFacts.fits_float 200 eq_refl)].
Defined.

(** C3 (amended). When the requested size exceeds the capacity, every
    [_resize] of every container chooses the capacity
    [128 * ceil(E / 128)], where [E] is [ceil(1.1 * n + 10)] as the double
    precision evaluation gives it; [E] is the exact value or one more (for
    [n] below [2^44]); the capacity exceeds [n] and is a multiple of 128
    whatever the element size. *)
Theorem growth_capacity (T : ctype) (n : Z) (σ : state)
    (Hok : mem_ok (mem σ)) (Hidle : quiescent σ) (Hfit : fits T n) :
  exists est,
    conservative_estimate n = Some est /\
    (n < 2 ^ 44 -> exact_estimate n <= est <= exact_estimate n + 1) /\
    n <= 128 * (- ((- est) / 128)) /\
    (128 * (- ((- est) / 128))) mod 128 = 0 /\
    (forall st copy (b : DeviceBuffer.t T),
       DeviceBuffer.wf σ b -> DeviceBuffer.capacity b < n ->
       exists b' σ', DeviceBuffer._resize n st copy b σ = Ok (b', σ') /\
                     DeviceBuffer.capacity b' = 128 * (- ((- est) / 128))) /\
    (forall copy (b : HostBuffer.t T),
       HostBuffer.wf σ b -> HostBuffer.capacity b < n ->
       exists b' σ', HostBuffer._resize n copy b σ = Ok (b', σ') /\
                     HostBuffer.capacity b' = 128 * (- ((- est) / 128))) /\
    (forall st copy (b : PinnedBuffer.t T),
       PinnedBuffer.wf σ b -> PinnedBuffer.capacity b < n ->
       exists b' σ', PinnedBuffer._resize n st copy b σ = Ok (b', σ') /\
                     PinnedBuffer.capacity b' = 128 * (- ((- est) / 128))).
Proof.
  destruct (fits_capacity T n Hfit) as (est & Hest & Hlo & Hal & Hn & Hmod & _ & _).
  exists est. split; [exact Hest |]. rewrite <- Hal.
  split.
  { intros Hsmall. destruct (conservative_estimate_near_exact n) as (est' & Hest' & Hb).
    - destruct Hfit as [H0 _]. lia.
    - rewrite Hest in Hest'. injection Hest' as <-. exact Hb. }
  split; [lia |]. split; [exact Hmod |].
  destruct σ as [m q sc tr]. unfold quiescent in Hidle. cbn [pending mem] in *. subst q.
  split; [| split].
  - intros st copy b Hwf Hlt.
    destruct (DeviceFacts.device_resize_grow T n st copy b m sc tr Hok Hwf Hfit Hlt)
      as (est' & sc' & tr' & Hest' & ->).
    rewrite Hest in Hest'. injection Hest' as <-.
    eexists _, _. split; reflexivity.
  - intros copy b Hwf Hlt.
    destruct (HostFacts.host_resize_grow T n copy b m sc tr Hok Hwf Hfit Hlt)
      as (est' & sc' & tr' & Hest' & ->).
    rewrite Hest in Hest'. injection Hest' as <-.
    eexists _, _. split; reflexivity.
  - intros st copy b Hwf Hlt.
    destruct (PinnedFacts.pinned_resize_grow T n st copy b m sc tr Hok Hwf Hfit Hlt)
      as (est' & sc' & tr' & Hest' & ->).
    rewrite Hest in Hest'. injection Hest' as <-.
    eexists _, _. split; reflexivity.
Qed.

(** C3 as stated fails: for 340 elements the exact formula gives 384, the
    code allocates 512, because [1.1 * 340.0 + 10.0] evaluates to a double
    just above 384. *)
Lemma growth_capacity_not_exact_formula :
  exists b σ',
    DeviceBuffer.resize_anew (T := float_t) 340 DeviceBuffer.empty start = Ok (b, σ') /\
    DeviceBuffer.capacity b = 512 /\
    spec_capacity 340 = 384 /\
    DeviceBuffer.capacity b <> spec_capacity 340.
Proof.
  eexists _, _. split; [vm_compute; reflexivity |].
  split; [reflexivity |]. split; [reflexivity |]. vm_compute. discriminate.
Qed.

Lemma growth_capacity_witness :
  exists est, conservative_estimate 340 = Some est /\
    exists b' σ', DeviceBuffer._resize (T := float_t) 340 0%nat false DeviceBuffer.empty start
                  = Ok (b', σ') /\
                  DeviceBuffer.capacity b' = 128 * (- ((- est) / 128)).
Proof.
  destruct (growth_capacity float_t 340 start ExampleFacts.mem_ok_start eq_refl (ExampleFacts.fits_float 340 eq_refl))
    as (est & Hest & _ & _ & _ & Hdev & _).
  exists est. split; [exact Hest |].
  apply Hdev; [apply ExampleFacts.wf_empty_device | cbn; lia].
Defined.

(** C4. Capacity never decreases over a sequence of resize calls, for each
    of the three containers: from a well-formed buffer in an idle process
    the whole sequence runs and ends with a capacity at least the initial
    one, and from any state whatever a run that returns has not decreased
    it.  A call that requests at most the capacity changes the size field
    and nothing else: capacity, pointers and the whole process state are
    the same.  So a call that changes a pointer, the capacity or the
    process state is one that requested more than the capacity. *)
Theorem capacity_never_decreases (T : ctype) (calls : list resize_call)
    (Hfit : Forall (fun c => fits T (requested c)) calls) :
  (forall (b : DeviceBuffer.t T) σ,
     mem_ok (mem σ) -> quiescent σ -> DeviceBuffer.wf σ b ->
     exists b' σ', foldM DeviceBuffer.resize_by calls b σ = Ok (b', σ') /\
                   DeviceBuffer.capacity b <= DeviceBuffer.capacity b') /\
  (forall (b : HostBuffer.t T) σ,
     mem_ok (mem σ) -> quiescent σ -> HostBuffer.wf σ b ->
     exists b' σ', foldM HostBuffer.resize_by calls b σ = Ok (b', σ') /\
                   HostBuffer.capacity b <= HostBuffer.capacity b') /\
  (forall (b : PinnedBuffer.t T) σ,
     mem_ok (mem σ) -> quiescent σ -> PinnedBuffer.wf σ b ->
     exists b' σ', foldM PinnedBuffer.resize_by calls b σ = Ok (b', σ') /\
                   PinnedBuffer.capacity b <= PinnedBuffer.capacity b') /\
  (forall b : DeviceBuffer.t T,
     returns (foldM DeviceBuffer.resize_by calls b)
       (fun b' => DeviceBuffer.capacity b <= DeviceBuffer.capacity b')) /\
  (forall b : HostBuffer.t T,
     returns (foldM HostBuffer.resize_by calls b)
       (fun b' => HostBuffer.capacity b <= HostBuffer.capacity b')) /\
  (forall b : PinnedBuffer.t T,
     returns (foldM PinnedBuffer.resize_by calls b)
       (fun b' => PinnedBuffer.capacity b <= PinnedBuffer.capacity b')) /\
  (forall c (b : DeviceBuffer.t T) σ,
     requested c <= DeviceBuffer.capacity b ->
     DeviceBuffer.resize_by c b σ =
       Ok (DeviceBuffer.Build (DeviceBuffer.capacity b) (requested c)
             (DeviceBuffer.devptr b), σ)) /\
  (forall c (b : HostBuffer.t T) σ,
     requested c <= HostBuffer.capacity b ->
     HostBuffer.resize_by c b σ =
       Ok (HostBuffer.Build (HostBuffer.capacity b) (requested c)
             (HostBuffer.hostptr b), σ)) /\
  (forall c (b : PinnedBuffer.t T) σ,
     requested c <= PinnedBuffer.capacity b ->
     PinnedBuffer.resize_by c b σ =
       Ok (PinnedBuffer.Build (PinnedBuffer.capacity b) (requested c)
             (PinnedBuffer.hostptr b) (PinnedBuffer.devptr b), σ)) /\
  (forall c (b b' : DeviceBuffer.t T) σ σ',
     DeviceBuffer.resize_by c b σ = Ok (b', σ') ->
     DeviceBuffer.capacity b' <> DeviceBuffer.capacity b \/
     DeviceBuffer.devptr b' <> DeviceBuffer.devptr b \/ σ' <> σ ->
     DeviceBuffer.capacity b < requested c) /\
  (forall c (b b' : HostBuffer.t T) σ σ',
     HostBuffer.resize_by c b σ = Ok (b', σ') ->
     HostBuffer.capacity b' <> HostBuffer.capacity b \/
     HostBuffer.hostptr b' <> HostBuffer.hostptr b \/ σ' <> σ ->
     HostBuffer.capacity b < requested c) /\
  (forall c (b b' : PinnedBuffer.t T) σ σ',
     PinnedBuffer.resize_by c b σ = Ok (b', σ') ->
     PinnedBuffer.capacity b' <> PinnedBuffer.capacity b \/
     PinnedBuffer.hostptr b' <> PinnedBuffer.hostptr b \/
     PinnedBuffer.devptr b' <> PinnedBuffer.devptr b \/ σ' <> σ ->
     PinnedBuffer.capacity b < requested c).
Proof.
  assert (Hreq : Forall (fun c => 0 <= requested c <= 2 ^ 63) calls)
    by (eapply Forall_impl; [exact Hfit | intros c Hc; exact (SequenceFacts.fits_request T _ Hc)]).
  assert (Hkd : forall c (b : DeviceBuffer.t T) σ,
            requested c <= DeviceBuffer.capacity b ->
            DeviceBuffer.resize_by c b σ =
              Ok (DeviceBuffer.Build (DeviceBuffer.capacity b) (requested c)
                    (DeviceBuffer.devptr b), σ))
    by (intros [n st | n] b σ Hle; apply DeviceFacts.device_resize_keep; exact Hle).
  assert (Hkh : forall c (b : HostBuffer.t T) σ,
            requested c <= HostBuffer.capacity b ->
            HostBuffer.resize_by c b σ =
              Ok (HostBuffer.Build (HostBuffer.capacity b) (requested c)
                    (HostBuffer.hostptr b), σ))
    by (intros [n st | n] b σ Hle; apply HostFacts.host_resize_keep; exact Hle).
  assert (Hkp : forall c (b : PinnedBuffer.t T) σ,
            requested c <= PinnedBuffer.capacity b ->
            PinnedBuffer.resize_by c b σ =
              Ok (PinnedBuffer.Build (PinnedBuffer.capacity b) (requested c)
                    (PinnedBuffer.hostptr b) (PinnedBuffer.devptr b), σ))
    by (intros [n st | n] b σ Hle; apply PinnedFacts.pinned_resize_keep; exact Hle).
  split; [| split; [| split]].
  - intros b σ Hok Hidle Hwf.
    destruct (SequenceFacts.device_resizes_total T calls Hfit b σ Hok Hidle Hwf)
      as (b' & σ' & Hrun & _ & _ & _ & Hle).
    exists b', σ'. split; assumption.
  - intros b σ Hok Hidle Hwf.
    destruct (SequenceFacts.host_resizes_total T calls Hfit b σ Hok Hidle Hwf)
      as (b' & σ' & Hrun & _ & _ & _ & Hle).
    exists b', σ'. split; assumption.
  - intros b σ Hok Hidle Hwf.
    destruct (SequenceFacts.pinned_resizes_total T calls Hfit b σ Hok Hidle Hwf)
      as (b' & σ' & Hrun & _ & _ & _ & Hle).
    exists b', σ'. split; assumption.
  - split; [apply InvFacts.device_resizes_monotone; exact Hreq |].
    split; [apply InvFacts.host_resizes_monotone; exact Hreq |].
    split; [apply InvFacts.pinned_resizes_monotone; exact Hreq |].
    split; [exact Hkd |]. split; [exact Hkh |]. split; [exact Hkp |].
    split; [| split].
    + intros c b b' σ σ' Hrun Hch.
      destruct (Z.le_gt_cases (requested c) (DeviceBuffer.capacity b)) as [Hle | Hgt]; [| lia].
      rewrite (Hkd c b σ Hle) in Hrun. injection Hrun as <- <-. cbn in Hch.
      destruct Hch as [E | [E | E]]; contradiction.
    + intros c b b' σ σ' Hrun Hch.
      destruct (Z.le_gt_cases (requested c) (HostBuffer.capacity b)) as [Hle | Hgt]; [| lia].
      rewrite (Hkh c b σ Hle) in Hrun. injection Hrun as <- <-. cbn in Hch.
      destruct Hch as [E | [E | E]]; contradiction.
    + intros c b b' σ σ' Hrun Hch.
      destruct (Z.le_gt_cases (requested c) (PinnedBuffer.capacity b)) as [Hle | Hgt]; [| lia].
      rewrite (Hkp c b σ Hle) in Hrun. injection Hrun as <- <-. cbn in Hch.
      destruct Hch as [E | [E | [E | E]]]; contradiction.
Qed.

Lemma capacity_never_decreases_witness :
  exists b' σ',
    foldM PinnedBuffer.resize_by
      [ResizePreserve 200 0%nat; ResizeAnew 5; ResizePreserve 1000 0%nat; ResizeAnew 0]
      demo_pinned demo = Ok (b', σ') /\
    PinnedBuffer.capacity demo_pinned <= PinnedBuffer.capacity b'.
Proof.
  assert (Hfit : Forall (fun c => fits float_t (requested c))
                   [ResizePreserve 200 0%nat; ResizeAnew 5; ResizePreserve 1000 0%nat;
                    ResizeAnew 0])
    by (repeat constructor; apply ExampleFacts.fits_float; reflexivity).
  destruct (capacity_never_decreases float_t _ Hfit) as (_ & _ & Hpin & _).
  exact (Hpin demo_pinned demo ExampleFacts.mem_ok_demo eq_refl ExampleFacts.wf_demo_pinned).
Defined.

(** C5. Moving [A] (at [src]) into [B] (at [dst], a different object)
    leaves [A] with size 0, capacity 0 and null pointers, in the very state
    of a container constructed with size 0, and gives [B] the fields of
    [A]; the storage [A] had is untouched by the move, and destroying [A]
    afterwards changes no memory at all.  Move construction is the case of
    a destination that starts from the default member initialisers. *)
Theorem move_leaves_source_empty (T : ctype) (dst src : positive) (σ : state)
    (Hne : dst <> src) (Hidle : quiescent σ) :
  (forall (objs : gmap positive (DeviceBuffer.t T)) A B,
     objs !! src = Some A -> objs !! dst = Some B -> DeviceBuffer.wf σ B ->
     exists objs' σ' σ'',
       DeviceBuffer.move_assign dst src objs σ = Ok (objs', σ') /\
       objs' !! src = Some (DeviceBuffer.Build 0 0 nullptr) /\
       objs' !! dst = Some A /\
       (forall p, p <> DeviceBuffer.devPtr B -> device_bytes σ' p = device_bytes σ p) /\
       DeviceBuffer.delete_object src objs' σ' = Ok (delete src objs', σ'') /\
       mem σ'' = mem σ') /\
  (forall (objs : gmap positive (HostBuffer.t T)) A B,
     objs !! src = Some A -> objs !! dst = Some B -> HostBuffer.wf σ B ->
     exists objs' σ' σ'',
       HostBuffer.move_assign dst src objs σ = Ok (objs', σ') /\
       objs' !! src = Some (HostBuffer.Build 0 0 nullptr) /\
       objs' !! dst = Some A /\
       (forall p, p <> HostBuffer.hostPtr B -> host_bytes σ' p = host_bytes σ p) /\
       HostBuffer.delete_object src objs' σ' = Ok (delete src objs', σ'') /\
       mem σ'' = mem σ') /\
  (forall (objs : gmap positive (PinnedBuffer.t T)) A B,
     objs !! src = Some A -> objs !! dst = Some B ->
     exists objs',
       PinnedBuffer.move_assign dst src objs σ = Ok (objs', σ) /\
       objs' !! src = Some (PinnedBuffer.Build 0 0 nullptr nullptr) /\
       objs' !! dst = Some A /\
       PinnedBuffer.delete_object src objs' σ = Ok (delete src objs', σ)) /\
  (forall (objs : gmap positive (DeviceBuffer.t T)) A,
     objs !! src = Some A -> objs !! dst = None ->
     exists objs',
       DeviceBuffer.move_construct dst src objs σ = Ok (objs', σ) /\
       objs' !! src = Some (DeviceBuffer.Build 0 0 nullptr) /\ objs' !! dst = Some A) /\
  (forall (objs : gmap positive (HostBuffer.t T)) A,
     objs !! src = Some A -> objs !! dst = None ->
     exists objs',
       HostBuffer.move_construct dst src objs σ = Ok (objs', σ) /\
       objs' !! src = Some (HostBuffer.Build 0 0 nullptr) /\ objs' !! dst = Some A) /\
  (forall (objs : gmap positive (PinnedBuffer.t T)) A,
     objs !! src = Some A -> objs !! dst = None ->
     exists objs',
       PinnedBuffer.move_construct dst src objs σ = Ok (objs', σ) /\
       objs' !! src = Some (PinnedBuffer.Build 0 0 nullptr nullptr) /\
       objs' !! dst = Some A) /\
  (forall σ0,
     DeviceBuffer.new 0 σ0 = Ok (DeviceBuffer.Build (T := T) 0 0 nullptr, σ0) /\
     HostBuffer.new 0 σ0 = Ok (HostBuffer.Build (T := T) 0 0 nullptr, σ0) /\
     PinnedBuffer.new 0 σ0 = Ok (PinnedBuffer.Build (T := T) 0 0 nullptr nullptr, σ0)).
Proof.
  destruct σ as [m q sc tr]. unfold quiescent in Hidle. cbn [pending] in Hidle. subst q.
  pose proof (fun (X : Type) (objs : gmap positive X) (e a : X) =>
                lookup_insert_eq (<[dst := a]> objs) src e) as Hsrc.
  assert (Hdst : forall (X : Type) (objs : gmap positive X) (e a : X),
            <[src := e]> (<[dst := a]> objs) !! dst = Some a)
    by (intros; rewrite lookup_insert_ne by congruence; apply lookup_insert_eq).
  split; [| split; [| split; [| split; [| split; [| split]]]]].
  - intros objs A B HA HB Hwf.
    destruct (MoveFacts.device_move_assign T dst src objs A B m sc tr Hne HA HB Hwf)
      as (m' & sc' & tr' & Hrun & _ & Hframe).
    eexists _, _, _. split; [exact Hrun |].
    split; [apply Hsrc |]. split; [apply Hdst |].
    split; [exact Hframe |].
    split; [apply MoveFacts.device_delete_moved, Hsrc | reflexivity].
  - intros objs A B HA HB Hwf.
    destruct (MoveFacts.host_move_assign T dst src objs A B m sc tr Hne HA HB Hwf)
      as (m' & sc' & tr' & Hrun & _ & Hframe).
    destruct (MoveFacts.host_delete_moved T src
                (<[src := HostBuffer.empty]> (<[dst := A]> objs)) m' sc' tr'
                (Hsrc _ _ _ _)) as (sc'' & tr'' & Hdel).
    eexists _, _, _. split; [exact Hrun |].
    split; [apply Hsrc |]. split; [apply Hdst |].
    split; [exact Hframe |]. split; [exact Hdel | reflexivity].
  - intros objs A B HA HB. eexists. split; [eapply MoveFacts.pinned_move_assign; eassumption |].
    split; [apply Hsrc |]. split; [apply Hdst |].
    apply MoveFacts.pinned_delete_moved, Hsrc.
  - intros objs A HA Hnone. unfold DeviceBuffer.move_construct. rewrite Hnone.
    unfold DeviceBuffer.move_assign.
    destruct (decide (dst = src)) as [E | _]; [contradiction |].
    rewrite lookup_insert_eq, lookup_insert_ne, HA by exact Hne. destruct A.
    eexists. split; [reflexivity |]. split; [apply Hsrc | apply Hdst].
  - intros objs A HA Hnone. unfold HostBuffer.move_construct. rewrite Hnone.
    unfold HostBuffer.move_assign.
    destruct (decide (dst = src)) as [E | _]; [contradiction |].
    rewrite lookup_insert_eq, lookup_insert_ne, HA by exact Hne. destruct A.
    eexists. split; [reflexivity |]. split; [apply Hsrc | apply Hdst].
  - intros objs A HA Hnone. unfold PinnedBuffer.move_construct. rewrite Hnone.
    unfold PinnedBuffer.move_assign.
    destruct (decide (dst = src)) as [E | _]; [contradiction |].
    rewrite lookup_insert_eq, lookup_insert_ne, HA by exact Hne. destruct A.
    eexists. split; [reflexivity |]. split; [apply Hsrc | apply Hdst].
  - intros σ0. split; [| split]; reflexivity.
Qed.

Lemma move_leaves_source_empty_witness :
  exists objs' σ' σ'',
    DeviceBuffer.move_assign 2%positive 1%positive
      (<[1%positive := demo_device]> {[2%positive := DeviceBuffer.empty]}) demo
      = Ok (objs', σ') /\
    objs' !! 1%positive = Some (DeviceBuffer.Build 0 0 nullptr) /\
    objs' !! 2%positive = Some demo_device /\
    device_bytes σ' (DeviceBuffer.devPtr demo_device)
      = device_bytes demo (DeviceBuffer.devPtr demo_device) /\
    DeviceBuffer.delete_object 1%positive objs' σ' = Ok (delete 1%positive objs', σ'') /\
    mem σ'' = mem σ'.
Proof.
  assert (Hne : 2%positive <> 1%positive) by discriminate.
  destruct (move_leaves_source_empty float_t 2 1 demo Hne eq_refl) as (Hdev & _).
  destruct (Hdev (<[1%positive := demo_device]> {[2%positive := DeviceBuffer.empty]})
              demo_device DeviceBuffer.empty)
    as (objs' & σ' & σ'' & Hrun & Hsrc & Hdst & Hframe & Hdel & Hmem).
  - apply lookup_insert_eq.
  - rewrite lookup_insert_ne by discriminate. apply lookup_singleton_eq.
  - apply ExampleFacts.wf_empty_device.
  - exists objs', σ', σ''. split; [exact Hrun |]. split; [exact Hsrc |].
    split; [exact Hdst |]. split; [apply Hframe; discriminate |].
    split; [exact Hdel | exact Hmem].
Defined.

(** C6. The two sides of a pinned buffer are independent: an element
    written on the host side and an element written on the device side (by
    a kernel, through the device pointer) are both read back as written, in
    whichever order the writes were issued and whatever the scheduler does;
    host-side writes and clears never touch device memory or the work in
    flight, and clearing the device side never touches host memory. *)
Theorem dual_sides_independent (T : ctype) (b : PinnedBuffer.t T) (st : nat)
    (σ : state) (i : Z) (vh vd : list byte)
    (Hidle : quiescent σ) (Hwf : PinnedBuffer.wf σ b)
    (Hi : 0 <= i < PinnedBuffer._size b)
    (Hlh : Z.of_nat (length vh) = sizeof T) (Hld : Z.of_nat (length vd) = sizeof T) :
  (exists σ' hb db,
     (PinnedBuffer.set i vh b ;;
      launch_store (PinnedBuffer.devPtr b) (i * sizeof T) vd st ;;
      cudaStreamSynchronize st) σ = Ok (tt, σ') /\
     host_bytes σ' (PinnedBuffer.hostPtr b) = Some hb /\ element T hb i = Init <$> vh /\
     device_bytes σ' (PinnedBuffer.devPtr b) = Some db /\ element T db i = Init <$> vd) /\
  (exists σ' hb db,
     (launch_store (PinnedBuffer.devPtr b) (i * sizeof T) vd st ;;
      PinnedBuffer.set i vh b ;;
      cudaStreamSynchronize st) σ = Ok (tt, σ') /\
     host_bytes σ' (PinnedBuffer.hostPtr b) = Some hb /\ element T hb i = Init <$> vh /\
     device_bytes σ' (PinnedBuffer.devPtr b) = Some db /\ element T db i = Init <$> vd) /\
  (forall j v σ0 σ1,
     PinnedBuffer.set j v b σ0 = Ok (tt, σ1) ->
     devmem (mem σ1) = devmem (mem σ0) /\ pending σ1 = pending σ0) /\
  (forall σ0 σ1,
     PinnedBuffer.clearHost b σ0 = Ok (tt, σ1) ->
     devmem (mem σ1) = devmem (mem σ0) /\ pending σ1 = pending σ0) /\
  (forall σ1,
     (PinnedBuffer.clearDevice st b ;; cudaStreamSynchronize st) σ = Ok (tt, σ1) ->
     hostmem (mem σ1) = hostmem (mem σ)).
Proof.
  destruct σ as [m q sc tr]. unfold quiescent in Hidle. cbn [pending] in Hidle. subst q.
  split; [apply IndependenceFacts.independent_host_then_device; assumption |].
  split; [apply IndependenceFacts.independent_device_then_host; assumption |].
  split; [intros j v σ0 σ1; apply IndependenceFacts.set_frame |].
  split; [intros σ0 σ1; apply IndependenceFacts.clearHost_frame |].
  intros σ1. apply IndependenceFacts.clearDevice_frame. reflexivity.
Qed.

Lemma dual_sides_independent_witness :
  exists σ' hb db,
    (PinnedBuffer.set 1 [x0a; x0b; x0c; x0d] demo_pinned ;;
     launch_store (PinnedBuffer.devPtr demo_pinned) (1 * sizeof float_t)
       [xf1; xf2; xf3; xf4] 0%nat ;;
     cudaStreamSynchronize 0%nat) demo = Ok (tt, σ') /\
    host_bytes σ' (PinnedBuffer.hostPtr demo_pinned) = Some hb /\
    element float_t hb 1 = [Init x0a; Init x0b; Init x0c; Init x0d] /\
    device_bytes σ' (PinnedBuffer.devPtr demo_pinned) = Some db /\
    element float_t db 1 = [Init xf1; Init xf2; Init xf3; Init xf4].
Proof.
  assert (Hi : 0 <= 1 < PinnedBuffer._size demo_pinned) by (cbn; lia).
  exact (proj1 (dual_sides_independent float_t demo_pinned 0%nat demo 1
                  [x0a; x0b; x0c; x0d] [xf1; xf2; xf3; xf4]
                  eq_refl ExampleFacts.wf_demo_pinned Hi eq_refl eq_refl)).
Defined.

(** C7 (amended). If the stream is synchronised after the upload, then
    clearing the host side and downloading synchronously brings back the
    host contents, under every behaviour of the device scheduler. *)
Theorem roundtrip_after_synchronize (T : ctype) (b : PinnedBuffer.t T)
    (st : nat) (σ : state) (hblk : list cell)
    (Hidle : quiescent σ) (Hwf : PinnedBuffer.wf σ b)
    (Hv : host_bytes σ (PinnedBuffer.hostPtr b) = Some hblk) :
  exists σ' hblk',
    (PinnedBuffer.uploadToDevice st b ;; cudaStreamSynchronize st ;;
     PinnedBuffer.clearHost b ;;
     PinnedBuffer.downloadFromDevice st Synch b) σ = Ok (tt, σ') /\
    host_bytes σ' (PinnedBuffer.hostPtr b) = Some hblk' /\
    take (Z.to_nat (sizeof T * PinnedBuffer._size b)) hblk' =
    take (Z.to_nat (sizeof T * PinnedBuffer._size b)) hblk.
Proof.
  destruct σ as [m q sc tr]. unfold quiescent in Hidle. cbn [pending] in Hidle. subst q.
  unfold host_bytes, PinnedBuffer.hostPtr in *. cbn [mem] in Hv.
  destruct (Z.lt_ge_cases 0 (PinnedBuffer._size b)) as [Hpos | Hzero].
  - destruct (TransferFacts.roundtrip T b st m sc tr hblk Hwf Hpos Hv)
      as (σ' & hblk' & Hrun & _ & Hh & Htake).
    exists σ', hblk'. split; [exact Hrun |]. split; [exact Hh | exact Htake].
  - unfold PinnedBuffer.uploadToDevice, PinnedBuffer.clearHost,
      PinnedBuffer.downloadFromDevice.
    replace (0 <? PinnedBuffer._size b) with false by (symmetry; apply Z.ltb_ge; exact Hzero).
    rewrite (bind_ok _ _ _ _ _ (eq_refl : ret tt _ = Ok (tt, _))).
    rewrite (bind_ok _ _ _ _ _ (cudaStreamSynchronize_idle _ _ _ _)).
    rewrite (bind_ok _ _ _ _ _ (eq_refl : ret tt _ = Ok (tt, _))).
    rewrite (bind_ok _ _ _ _ _ (eq_refl : ret tt _ = Ok (tt, _))).
    rewrite cudaStreamSynchronize_idle.
    eexists _, hblk. split; [reflexivity |]. split; [exact Hv | reflexivity].
Qed.

(** C7 as stated fails: without synchronisation the upload may still be in
    flight when the host side is cleared; it then uploads the zeros, and the
    download brings zeros back. *)
Lemma roundtrip_without_synchronize_loses_data :
  exists b σ1 σ2,
    (b <- PinnedBuffer.new (T := float_t) 1 ;;
     PinnedBuffer.set 0 [x01; x02; x03; x04] b ;; ret b) start = Ok (b, σ1) /\
    take 4 <$> host_bytes σ1 (PinnedBuffer.hostPtr b)
      = Some [Init x01; Init x02; Init x03; Init x04] /\
    (PinnedBuffer.uploadToDevice 0%nat b ;; PinnedBuffer.clearHost b ;;
     PinnedBuffer.downloadFromDevice 0%nat Synch b) σ1 = Ok (tt, σ2) /\
    take 4 <$> host_bytes σ2 (PinnedBuffer.hostPtr b)
      = Some [Init x00; Init x00; Init x00; Init x00].
Proof.
  eexists _, _, _. split; [vm_compute; reflexivity |].
  split; [vm_compute; reflexivity |].
  split; [vm_compute; reflexivity |]. vm_compute. reflexivity.
Qed.

Lemma roundtrip_after_synchronize_witness :
  exists σ' hblk',
    (PinnedBuffer.uploadToDevice 0%nat demo_pinned ;; cudaStreamSynchronize 0%nat ;;
     PinnedBuffer.clearHost demo_pinned ;;
     PinnedBuffer.downloadFromDevice 0%nat Synch demo_pinned) demo = Ok (tt, σ') /\
    host_bytes σ' (PinnedBuffer.hostPtr demo_pinned) = Some hblk' /\
    take 12 hblk' = replicate 12 (Init x01).
Proof.
  assert (Hv : host_bytes demo (PinnedBuffer.hostPtr demo_pinned)
               = Some (replicate 512 (Init x01))) by apply lookup_singleton_eq.
  destruct (roundtrip_after_synchronize float_t demo_pinned 0%nat demo _ eq_refl
              ExampleFacts.wf_demo_pinned Hv) as (σ' & hblk' & Hrun & Hh & Htake).
  exists σ', hblk'. split; [exact Hrun |]. split; [exact Hh | exact Htake].
Defined.

(** C8 (amended). The type-erased copy into a host buffer of element type
    [U] is refused exactly when the element size of the source is not an
    integer multiple of [sizeof(U)]; when it is a multiple the call
    succeeds and the host buffer holds [size * (sizeof(T) / sizeof(U))]
    elements.  A source whose elements are smaller than [U] is refused even
    when [sizeof(U)] is a multiple of its element size. *)
Theorem genericCopy_succeeds_iff_multiple (U : ctype) {C : Type} `{GPUcontainer C}
    (cont : C) (st : nat) (b : HostBuffer.t U) (σ : state)
    (Hok : mem_ok (mem σ)) (Hidle : quiescent σ) (Hwf : HostBuffer.wf σ b)
    (Hfit : fits U (size cont * (datatype_size cont / sizeof U))) :
  (datatype_size cont mod sizeof U <> 0 ->
   HostBuffer.genericCopy cont st b σ = Fail IncompatibleSizes) /\
  (datatype_size cont mod sizeof U = 0 ->
   exists b' σ',
     HostBuffer.genericCopy cont st b σ = Ok (b', σ') /\
     HostBuffer._size b' = size cont * (datatype_size cont / sizeof U)).
Proof.
  unfold HostBuffer.genericCopy. split; intros Hdiv.
  - replace (datatype_size cont mod sizeof U =? 0) with false
      by (symmetry; apply Z.eqb_neq; exact Hdiv).
    reflexivity.
  - replace (datatype_size cont mod sizeof U =? 0) with true
      by (symmetry; apply Z.eqb_eq; exact Hdiv).
    cbn [negb].
    assert (Hmul : size_mul (size cont) (datatype_size cont / sizeof U)
                   = size cont * (datatype_size cont / sizeof U)).
    { unfold size_mul. apply Z.mod_small. pose proof (fits_le U _ Hfit) as Hle.
      unfold size_t_range. rewrite pow2_63 in Hle. rewrite pow2_64. lia. }
    rewrite Hmul.
    destruct σ as [m q sc tr]. unfold quiescent in Hidle. cbn [pending mem] in *. subst q.
    unfold HostBuffer.resize.
    destruct (GenericCopyFacts.host_resize_ok U _ true b m sc tr Hok Hwf Hfit)
      as (b' & m' & sc' & tr' & Hrun & Hsize).
    rewrite (bind_ok _ _ _ _ _ Hrun).
    destruct (0 <? HostBuffer._size b').
    + rewrite (bind_ok _ _ _ _ _ (cudaMemcpyAsync_idle _ _ _ _ _ _ _ _)).
      eexists _, _. split; [reflexivity | exact Hsize].
    + eexists _, _. split; [reflexivity | exact Hsize].
Qed.

(** C8 as stated fails: a device buffer of 4-byte elements cannot be copied
    into a host buffer of 8-byte elements, although 8 is a multiple of 4. *)
Lemma genericCopy_refuses_wider_host_type :
  exists d σ1,
    DeviceBuffer.new (T := float_t) 2 start = Ok (d, σ1) /\
    sizeof double_t mod sizeof float_t = 0 /\
    HostBuffer.genericCopy d 0%nat (HostBuffer.empty (T := double_t)) σ1
      = Fail IncompatibleSizes.
Proof.
  eexists _, _. split; [vm_compute; reflexivity |].
  split; reflexivity.
Qed.

Lemma genericCopy_succeeds_iff_multiple_witness :
  exists b' σ',
    HostBuffer.genericCopy (DeviceBuffer.Build (T := double_t) 64 3 2%N) 0%nat
      (HostBuffer.empty (T := float_t)) demo = Ok (b', σ') /\
    HostBuffer._size b' = 6.
Proof.
  set (cont := DeviceBuffer.Build (T := double_t) 64 3 2%N).
  assert (Hfit : fits float_t (size cont * (datatype_size cont / sizeof float_t)))
    by exact (ExampleFacts.fits_float 6 eq_refl).
  destruct (genericCopy_succeeds_iff_multiple float_t cont 0%nat HostBuffer.empty demo
              ExampleFacts.mem_ok_demo eq_refl (ExampleFacts.wf_empty_host float_t demo)
              Hfit) as (_ & Hmul).
  exact (Hmul eq_refl).
Defined.

(** C9 (amended). [PinnedBuffer::copy(const HostBuffer<T>&)] is a
    host-to-host copy: it sets the size to the source's and leaves the
    source's elements on the HOST side of the pinned buffer.  Nothing is
    enqueued for the device; the device side keeps its memory, or is a
    fresh indeterminate allocation when the call had to reallocate. *)
Theorem copy_from_host_buffer_fills_host_side (T : ctype)
    (src : HostBuffer.t T) (b : PinnedBuffer.t T) (σ : state)
    (Hok : mem_ok (mem σ)) (Hidle : quiescent σ)
    (Hwf : PinnedBuffer.wf σ b) (Hsrc : HostBuffer.wf σ src)
    (Hfit : fits T (HostBuffer._size src))
    (Hdist : HostBuffer.hostPtr src <> nullptr ->
             HostBuffer.hostPtr src <> PinnedBuffer.hostPtr b) :
  exists b' σ',
    PinnedBuffer.copy_host src b σ = Ok (b', σ') /\
    PinnedBuffer._size b' = HostBuffer._size src /\
    quiescent σ' /\
    (0 < HostBuffer._size src ->
     exists sblk hb,
       host_bytes σ (HostBuffer.hostPtr src) = Some sblk /\
       host_bytes σ' (PinnedBuffer.hostPtr b') = Some hb /\
       take (Z.to_nat (sizeof T * HostBuffer._size src)) hb =
       take (Z.to_nat (sizeof T * HostBuffer._size src)) sblk) /\
    (HostBuffer._size src <= PinnedBuffer.capacity b ->
     PinnedBuffer.devPtr b' = PinnedBuffer.devPtr b /\
     devmem (mem σ') = devmem (mem σ)) /\
    (PinnedBuffer.capacity b < HostBuffer._size src ->
     device_bytes σ' (PinnedBuffer.devPtr b') =
       Some (fresh_block (sizeof T * PinnedBuffer.capacity b'))).
Proof.
  destruct σ as [m q sc tr]. unfold quiescent in Hidle. cbn [pending] in Hidle. subst q.
  exact (CopyFacts.copy_host_spec T src b m sc tr Hok Hwf Hsrc Hfit Hdist).
Qed.

(** C9 as stated fails: after the copy the device side holds nothing of the
    source; its bytes are those of a fresh allocation. *)
Lemma copy_from_host_buffer_leaves_device_side :
  exists h σ1 b σ2,
    (h <- HostBuffer.new (T := float_t) 1 ;;
     HostBuffer.set 0 [x01; x02; x03; x04] h ;; ret h) start = Ok (h, σ1) /\
    take 4 <$> host_bytes σ1 (HostBuffer.hostPtr h)
      = Some [Init x01; Init x02; Init x03; Init x04] /\
    PinnedBuffer.copy_host h PinnedBuffer.empty σ1 = Ok (b, σ2) /\
    pending σ2 = [] /\
    take 4 <$> device_bytes σ2 (PinnedBuffer.devPtr b) = Some [Undef; Undef; Undef; Undef] /\
    take 4 <$> host_bytes σ2 (PinnedBuffer.hostPtr b)
      = Some [Init x01; Init x02; Init x03; Init x04].
Proof.
  eexists _, _, _, _. split; [vm_compute; reflexivity |].
  split; [vm_compute; reflexivity |].
  split; [vm_compute; reflexivity |].
  split; [reflexivity |]. split; vm_compute; reflexivity.
Qed.

Lemma copy_from_host_buffer_fills_host_side_witness :
  exists b' σ',
    PinnedBuffer.copy_host demo_host PinnedBuffer.empty demo = Ok (b', σ') /\
    PinnedBuffer._size b' = 3 /\
    quiescent σ' /\
    device_bytes σ' (PinnedBuffer.devPtr b')
      = Some (fresh_block (sizeof float_t * PinnedBuffer.capacity b')).
Proof.
  assert (Hdist : HostBuffer.hostPtr demo_host <> nullptr ->
                  HostBuffer.hostPtr demo_host <> PinnedBuffer.hostPtr (@PinnedBuffer.empty float_t))
    by (intros _; discriminate).
  destruct (copy_from_host_buffer_fills_host_side float_t demo_host PinnedBuffer.empty demo
              ExampleFacts.mem_ok_demo eq_refl (ExampleFacts.wf_empty_pinned float_t demo)
              ExampleFacts.wf_demo_host (ExampleFacts.fits_float 3 eq_refl) Hdist)
    as (b' & σ' & Hrun & Hsize & Hidle & _ & _ & Hdev).
  exists b', σ'. split; [exact Hrun |]. split; [exact Hsize |]. split; [exact Hidle |].
  apply Hdev. cbn. lia.
Defined.

(** C10 (amended). A resize, copy or clear of a [DeviceBuffer] or a
    [PinnedBuffer] that is not marked synchronous and asks for no more
    elements than the capacity does not wait for the device: it makes none
    of the blocking runtime calls (no [cudaStreamSynchronize], no blocking
    [cudaMemcpy], no release), and on a stalled device it returns with all
    the work that was pending still pending, followed by what it enqueued
    on the stream it was given.  For a [DeviceBuffer] such a call always
    returns and leaves memory as it is; for a [PinnedBuffer], whose calls
    also act on host memory at once, it returns whenever the buffer is
    well-formed, a container whose host memory it reads is well-formed
    too, and an element it stores is within the size.

    A call that asks for more than the capacity goes through [_resize],
    which waits: when the container owns an allocation, [_resize] returns
    only with no work left in flight on any stream, because releasing the
    old allocation waits for the device; only the first allocation of a
    container that owns none waits for nothing.  The preserving resize of
    a [PinnedBuffer] that holds elements moreover calls
    [cudaStreamSynchronize] on its stream. *)
Theorem unmarked_calls_wait_only_to_reallocate (T : ctype) :
  (forall (op : DeviceOp.t T) b,
     DeviceOp.synchronous op = false ->
     DeviceOp.request op b <= DeviceBuffer.capacity b ->
     (forall σ, Forall nonblocking (calls_of (DeviceOp.run op b) σ)) /\
     (forall σ, stalled σ ->
        exists b' σ' l,
          DeviceOp.run op b σ = Ok (b', σ') /\
          mem σ' = mem σ /\
          pending σ' = pending σ ++ l /\
          Forall (fun sw => DeviceOp.stream op = Some sw.1) l)) /\
  (forall (op : PinnedOp.t T) b,
     PinnedOp.synchronous op = false ->
     PinnedOp.request op b <= PinnedBuffer.capacity b ->
     (forall σ, Forall nonblocking (calls_of (PinnedOp.run op b) σ)) /\
     (forall σ b' σ', stalled σ -> PinnedOp.run op b σ = Ok (b', σ') ->
        exists l, pending σ' = pending σ ++ l /\
                  Forall (fun sw => PinnedOp.stream op = Some sw.1) l) /\
     (forall σ, stalled σ -> PinnedBuffer.wf σ b ->
        (forall i v, op = PinnedOp.Set_ i v ->
           0 <= i < PinnedBuffer._size b /\ Z.of_nat (length v) = sizeof T) ->
        (forall cont, op = PinnedOp.CopyHost cont -> HostBuffer.wf σ cont) ->
        (forall cont st, op = PinnedOp.CopyPinned cont st -> PinnedBuffer.wf σ cont) ->
        exists b' σ', PinnedOp.run op b σ = Ok (b', σ'))) /\
  (forall n st copy (b : DeviceBuffer.t T) σ b' σ',
     DeviceBuffer.capacity b < n ->
     DeviceBuffer._resize n st copy b σ = Ok (b', σ') ->
     (DeviceBuffer.devPtr b <> nullptr -> pending σ' = []) /\
     (DeviceBuffer.devPtr b = nullptr -> stalled σ -> pending σ' = pending σ)) /\
  (forall n st copy (b : PinnedBuffer.t T) σ b' σ',
     PinnedBuffer.capacity b < n ->
     PinnedBuffer._resize n st copy b σ = Ok (b', σ') ->
     (PinnedBuffer.devPtr b <> nullptr -> pending σ' = []) /\
     (PinnedBuffer.hostPtr b = nullptr -> PinnedBuffer.devPtr b = nullptr ->
      stalled σ -> pending σ' = pending σ)) /\
  (forall n st (b : PinnedBuffer.t T) σ,
     mem_ok (mem σ) -> quiescent σ -> PinnedBuffer.wf σ b -> fits T n ->
     PinnedBuffer.capacity b < n -> 0 < PinnedBuffer._size b ->
     In (CallStreamSynchronize st) (calls_of (PinnedBuffer.resize n st b) σ)).
Proof.
  split; [| split; [| split; [| split]]].
  - intros op b Hop Hreq. split.
    + intros σ. apply TraceFacts.only_calls_of, BlockingFacts.device_op_calm; assumption.
    + intros [m q sc tr] Hst. unfold stalled in Hst. cbn [sched] in Hst. subst sc.
      destruct (BlockingFacts.device_op_enqueues T op b m q tr Hop Hreq)
        as (b' & l & calls & Hrun & Hl & _).
      exists b', (State m (q ++ l) [] (tr ++ calls)), l.
      split; [exact Hrun |]. split; [reflexivity |]. split; [reflexivity | exact Hl].
  - intros op b Hop Hreq. split; [| split].
    + intros σ. apply TraceFacts.only_calls_of, BlockingFacts.pinned_op_calm; assumption.
    + intros σ b' σ' Hst Hrun.
      exact (proj2 (BlockingFacts.pinned_op_enqueues T op b Hop Hreq σ b' σ' Hst Hrun)).
    + intros σ Hst Hwf Hset Hhost Hpin.
      exact (BlockingFacts.pinned_op_returns T op b σ Hop Hreq Hst Hwf Hset Hhost Hpin).
  - intros n st copy b σ b' σ' Hlt Hrun. split.
    + intros Hp. exact (BlockingFacts.device_resize_waits T n st copy b σ b' σ' Hlt Hp Hrun).
    + intros Hp Hst.
      exact (BlockingFacts.enqueues_nothing _ σ b' σ'
               (BlockingFacts.device_resize_first T n st copy b Hp) Hst Hrun).
  - intros n st copy b σ b' σ' Hlt Hrun. split.
    + intros Hp. exact (BlockingFacts.pinned_resize_waits T n st copy b σ b' σ' Hlt Hp Hrun).
    + intros Hh Hd Hst.
      exact (BlockingFacts.enqueues_nothing _ σ b' σ'
               (BlockingFacts.pinned_resize_first T n st copy b Hh Hd) Hst Hrun).
  - intros n st b σ Hok Hidle Hwf Hfit Hlt Hpos.
    destruct σ as [m q sc tr]. unfold quiescent in Hidle. cbn [pending] in Hidle. subst q.
    cbn [mem] in Hok.
    destruct (PinnedFacts.pinned_resize_grow_calls T n st true b m sc tr Hok Hwf Hfit Hlt)
      as (est & sc' & l & _ & Hin & Hrun).
    unfold calls_of, PinnedBuffer.resize. rewrite Hrun. cbn [trace].
    rewrite drop_app_length. apply Hin; [reflexivity | | exact Hpos].
    destruct Hwf as ((Hsz & Hnull & Hboth) & _). intros E.
    apply Hboth, Hnull in E. lia.
Qed.

(** C10 as stated fails twice.  A preserving resize of a pinned buffer
    that holds an element, to more than its capacity, synchronises the
    stream, although it is not one of the calls marked synchronous.  And a
    resize of a device buffer to more than its capacity, not marked
    synchronous either, started on stream 0 while a memset is pending on
    stream 7 of a stalled device, returns only after that memset has run:
    nothing is pending any more and the bytes the memset was to clear are
    zero in the new allocation. *)
Lemma pinned_resize_synchronizes :
  (exists b σ1,
     PinnedBuffer.new (T := float_t) 1 start = Ok (b, σ1) /\
     PinnedOp.synchronous (PinnedOp.Resize (T := float_t) 200 0%nat) = false /\
     calls_of (PinnedOp.run (PinnedOp.Resize 200 0%nat) b) σ1 =
       [CallHostAlloc; CallMalloc; CallMemcpyAsync 0%nat; CallStreamSynchronize 0%nat;
        CallFreeHost; CallFree]) /\
  (exists b' σ',
     DeviceOp.synchronous (DeviceOp.Resize (T := float_t) 200 0%nat) = false /\
     stalled demo_busy /\
     pending demo_busy = [(7%nat, WMemset 2%N x00 4)] /\
     DeviceOp.run (DeviceOp.Resize 200 0%nat) demo_device demo_busy = Ok (b', σ') /\
     pending σ' = [] /\
     calls_of (DeviceOp.run (DeviceOp.Resize 200 0%nat) demo_device) demo_busy =
       [CallMalloc; CallMemcpyAsync 0%nat; CallFree] /\
     option_map (take 4) (device_bytes σ' (DeviceBuffer.devPtr b')) =
       Some (replicate 4 (Init x00))).
Proof.
  split.
  - eexists _, _. split; [vm_compute; reflexivity |].
    split; [reflexivity | vm_compute; reflexivity].
  - eexists _, _. split; [reflexivity |]. split; [reflexivity |].
    split; [reflexivity |]. split; [vm_compute; reflexivity |].
    split; [reflexivity |]. split; vm_compute; reflexivity.
Qed.

Lemma unmarked_calls_wait_only_to_reallocate_witness :
  (exists b' σ' l,
     DeviceOp.run (DeviceOp.Clear 3%nat) demo_device demo_busy = Ok (b', σ') /\
     mem σ' = mem demo_busy /\
     pending σ' = pending demo_busy ++ l /\
     Forall (fun sw => DeviceOp.stream (DeviceOp.Clear (T := float_t) 3%nat) = Some sw.1) l) /\
  (exists b' σ',
     PinnedOp.run (PinnedOp.CopyHost demo_host) demo_pinned demo_busy = Ok (b', σ')) /\
  (exists b' σ',
     DeviceBuffer._resize 200 3%nat true demo_device demo_busy = Ok (b', σ') /\
     pending σ' = []) /\
  In (CallStreamSynchronize 0%nat) (calls_of (PinnedBuffer.resize 200 0%nat demo_pinned) demo).
Proof.
  destruct (unmarked_calls_wait_only_to_reallocate float_t)
    as (Hdev & Hpin & Hgrow & _ & Hsync).
  assert (Hreq : DeviceOp.request (DeviceOp.Clear 3%nat) demo_device
                 <= DeviceBuffer.capacity demo_device) by (cbn; lia).
  assert (Hreqp : PinnedOp.request (PinnedOp.CopyHost demo_host) demo_pinned
                  <= PinnedBuffer.capacity demo_pinned) by (cbn; lia).
  assert (Hwf : PinnedBuffer.wf demo_busy demo_pinned) by exact ExampleFacts.wf_demo_pinned.
  assert (Hsrc : HostBuffer.wf demo_busy demo_host) by exact ExampleFacts.wf_demo_host.
  assert (Hlt : DeviceBuffer.capacity demo_device < 200) by (cbn; lia).
  assert (Hltp : PinnedBuffer.capacity demo_pinned < 200) by (cbn; lia).
  assert (Hpos : 0 < PinnedBuffer._size demo_pinned) by (cbn; lia).
  assert (Hrun : exists b' σ',
             DeviceBuffer._resize 200 3%nat true demo_device demo_busy = Ok (b', σ'))
    by (eexists _, _; vm_compute; reflexivity).
  split; [| split; [| split]].
  - exact (proj2 (Hdev (DeviceOp.Clear 3%nat) demo_device eq_refl Hreq) demo_busy eq_refl).
  - apply (proj2 (proj2 (Hpin (PinnedOp.CopyHost demo_host) demo_pinned eq_refl Hreqp))
             demo_busy eq_refl Hwf).
    + intros i v E. discriminate E.
    + intros cont E. injection E as <-. exact Hsrc.
    + intros cont st E. discriminate E.
  - destruct Hrun as (b' & σ' & Hrun). exists b', σ'. split; [exact Hrun |].
    apply (proj1 (Hgrow 200 3%nat true demo_device demo_busy b' σ' Hlt Hrun)).
    discriminate.
  - exact (Hsync 200 0%nat demo_pinned demo ExampleFacts.mem_ok_demo eq_refl
             ExampleFacts.wf_demo_pinned (ExampleFacts.fits_float 200 eq_refl) Hltp Hpos).
Defined.

(** * Further properties of the containers *)

(** ** What a resize does to memory *)

Module FrameFacts.

Lemma device_resize_spec (T : ctype) n st copy (b : DeviceBuffer.t T) m sc tr :
  mem_ok m -> DeviceBuffer.wf (State m [] sc tr) b -> fits T n ->
  exists b' m' sc' tr',
    DeviceBuffer._resize n st copy b (State m [] sc tr) = Ok (b', State m' [] sc' tr') /\
    DeviceBuffer._size b' = n /\
    mem_ok m' /\ DeviceBuffer.wf (State m' [] sc' tr') b' /\
    hostmem m' = hostmem m /\
    (forall p, p <> DeviceBuffer.devptr b -> is_Some (devmem m !! p) ->
               devmem m' !! p = devmem m !! p) /\
    (n <= DeviceBuffer.capacity b ->
     m' = m /\ b' = DeviceBuffer.Build (DeviceBuffer.capacity b) n (DeviceBuffer.devptr b)) /\
    (DeviceBuffer.capacity b < n ->
     DeviceBuffer.devptr b' = Npos (next m) /\
     devmem m' !! DeviceBuffer.devptr b = None /\
     devmem m' !! DeviceBuffer.devptr b' =
       Some (grown_block copy (DeviceBuffer.devptr b) (sizeof T * DeviceBuffer._size b)
               (sizeof T * DeviceBuffer.capacity b') (devmem m !! DeviceBuffer.devptr b))).
Proof.
  intros Hok Hwf Hfit.
  destruct (SequenceFacts.device_resize_total T n st copy b (State m [] sc tr)
              Hok eq_refl Hwf Hfit) as (b' & σ' & Hrun & Hok' & Hidle' & Hwf' & _).
  destruct (Z.le_gt_cases n (DeviceBuffer.capacity b)) as [Hle | Hgt].
  - pose proof (DeviceFacts.device_resize_keep T n st copy b (State m [] sc tr) Hle) as Hk.
    rewrite Hk in Hrun. injection Hrun as <- <-.
    exists (DeviceBuffer.Build (DeviceBuffer.capacity b) n (DeviceBuffer.devptr b)), m, sc, tr.
    split; [exact Hk |]. split; [reflexivity |]. split; [exact Hok |].
    split; [exact Hwf' |]. split; [reflexivity |]. split; [reflexivity |].
    split; [intros _; split; reflexivity | lia].
  - destruct (DeviceFacts.device_resize_grow T n st copy b m sc tr Hok Hwf Hfit Hgt)
      as (est & sc' & tr' & Hest & Hg).
    rewrite Hg in Hrun. injection Hrun as <- <-. cbn [mem] in Hok'.
    eexists _, _, sc', tr'. split; [exact Hg |]. split; [reflexivity |].
    split; [exact Hok' |]. split; [exact Hwf' |]. split; [reflexivity |].
    cbn [devmem DeviceBuffer.devptr DeviceBuffer.capacity].
    split; [| split; [lia |]].
    + intros p Hp Hsome. rewrite lookup_delete_ne by (apply not_eq_sym; exact Hp).
      apply lookup_insert_ne. intros E. subst p.
      destruct (Hok Device _ Hsome) as [_ Hlt]. lia.
    + intros _. split; [reflexivity |]. split; [apply lookup_delete_eq |].
      destruct (decide (Npos (next m) = DeviceBuffer.devptr b)) as [E | E].
      * exfalso. destruct Hwf as (_ & _ & Halloc). cbn [mem] in Halloc.
        destruct Halloc as (blk & Hblk & _); [rewrite <- E; discriminate |].
        destruct (Hok Device (DeviceBuffer.devptr b)) as [_ Hlt]; [cbn; rewrite Hblk; eauto |].
        lia.
      * rewrite lookup_delete_ne by (apply not_eq_sym; exact E). apply lookup_insert_eq.
Qed.

Lemma host_resize_spec (T : ctype) n copy (b : HostBuffer.t T) m sc tr :
  mem_ok m -> HostBuffer.wf (State m [] sc tr) b -> fits T n ->
  exists b' m' sc' tr',
    HostBuffer._resize n copy b (State m [] sc tr) = Ok (b', State m' [] sc' tr') /\
    HostBuffer._size b' = n /\
    mem_ok m' /\ HostBuffer.wf (State m' [] sc' tr') b' /\
    devmem m' = devmem m /\
    (forall p, p <> HostBuffer.hostptr b -> is_Some (hostmem m !! p) ->
               hostmem m' !! p = hostmem m !! p) /\
    (n <= HostBuffer.capacity b ->
     m' = m /\ b' = HostBuffer.Build (HostBuffer.capacity b) n (HostBuffer.hostptr b)) /\
    (HostBuffer.capacity b < n ->
     HostBuffer.hostptr b' = Npos (next m) /\
     hostmem m' !! HostBuffer.hostptr b = None /\
     hostmem m' !! HostBuffer.hostptr b' =
       Some (grown_block copy (HostBuffer.hostptr b) (sizeof T * HostBuffer._size b)
               (sizeof T * HostBuffer.capacity b') (hostmem m !! HostBuffer.hostptr b))).
Proof.
  intros Hok Hwf Hfit.
  destruct (SequenceFacts.host_resize_total T n copy b (State m [] sc tr)
              Hok eq_refl Hwf Hfit) as (b' & σ' & Hrun & Hok' & Hidle' & Hwf' & _).
  destruct (Z.le_gt_cases n (HostBuffer.capacity b)) as [Hle | Hgt].
  - pose proof (HostFacts.host_resize_keep T n copy b (State m [] sc tr) Hle) as Hk.
    rewrite Hk in Hrun. injection Hrun as <- <-.
    exists (HostBuffer.Build (HostBuffer.capacity b) n (HostBuffer.hostptr b)), m, sc, tr.
    split; [exact Hk |]. split; [reflexivity |]. split; [exact Hok |].
    split; [exact Hwf' |]. split; [reflexivity |]. split; [reflexivity |].
    split; [intros _; split; reflexivity | lia].
  - destruct (HostFacts.host_resize_grow T n copy b m sc tr Hok Hwf Hfit Hgt)
      as (est & sc' & tr' & Hest & Hg).
    rewrite Hg in Hrun. injection Hrun as <- <-. cbn [mem] in Hok'.
    eexists _, _, sc', tr'. split; [exact Hg |]. split; [reflexivity |].
    split; [exact Hok' |]. split; [exact Hwf' |]. split; [reflexivity |].
    cbn [hostmem HostBuffer.hostptr HostBuffer.capacity].
    split; [| split; [lia |]].
    + intros p Hp Hsome. rewrite lookup_delete_ne by (apply not_eq_sym; exact Hp).
      apply lookup_insert_ne. intros E. subst p.
      destruct (Hok Host _ Hsome) as [_ Hlt]. lia.
    + intros _. split; [reflexivity |]. split; [apply lookup_delete_eq |].
      destruct (decide (Npos (next m) = HostBuffer.hostptr b)) as [E | E].
      * exfalso. destruct Hwf as (_ & _ & Halloc). cbn [mem] in Halloc.
        destruct Halloc as (blk & Hblk & _); [rewrite <- E; discriminate |].
        destruct (Hok Host (HostBuffer.hostptr b)) as [_ Hlt]; [cbn; rewrite Hblk; eauto |].
        lia.
      * rewrite lookup_delete_ne by (apply not_eq_sym; exact E). apply lookup_insert_eq.
Qed.

Lemma pinned_resize_spec (T : ctype) n st copy (b : PinnedBuffer.t T) m sc tr :
  mem_ok m -> PinnedBuffer.wf (State m [] sc tr) b -> fits T n ->
  exists b' m' sc' tr',
    PinnedBuffer._resize n st copy b (State m [] sc tr) = Ok (b', State m' [] sc' tr') /\
    PinnedBuffer._size b' = n /\
    mem_ok m' /\ PinnedBuffer.wf (State m' [] sc' tr') b' /\
    (forall p, p <> PinnedBuffer.hostptr b -> is_Some (hostmem m !! p) ->
               hostmem m' !! p = hostmem m !! p) /\
    (forall p, p <> PinnedBuffer.devptr b -> is_Some (devmem m !! p) ->
               devmem m' !! p = devmem m !! p) /\
    (n <= PinnedBuffer.capacity b ->
     m' = m /\
     b' = PinnedBuffer.Build (PinnedBuffer.capacity b) n (PinnedBuffer.hostptr b)
            (PinnedBuffer.devptr b)) /\
    (PinnedBuffer.capacity b < n ->
     PinnedBuffer.hostptr b' = Npos (next m) /\
     PinnedBuffer.devptr b' = Npos (Pos.succ (next m)) /\
     hostmem m' !! PinnedBuffer.hostptr b = None /\
     devmem m' !! PinnedBuffer.devptr b = None /\
     hostmem m' !! PinnedBuffer.hostptr b' =
       Some (grown_block copy (PinnedBuffer.hostptr b) (sizeof T * PinnedBuffer._size b)
               (sizeof T * PinnedBuffer.capacity b') (hostmem m !! PinnedBuffer.hostptr b)) /\
     devmem m' !! PinnedBuffer.devptr b' =
       Some (grown_block copy (PinnedBuffer.devptr b) (sizeof T * PinnedBuffer._size b)
               (sizeof T * PinnedBuffer.capacity b') (devmem m !! PinnedBuffer.devptr b))).
Proof.
  intros Hok Hwf Hfit.
  destruct (SequenceFacts.pinned_resize_total T n st copy b (State m [] sc tr)
              Hok eq_refl Hwf Hfit) as (b' & σ' & Hrun & Hok' & Hidle' & Hwf' & _).
  destruct (Z.le_gt_cases n (PinnedBuffer.capacity b)) as [Hle | Hgt].
  - pose proof (PinnedFacts.pinned_resize_keep T n st copy b (State m [] sc tr) Hle) as Hk.
    rewrite Hk in Hrun. injection Hrun as <- <-.
    exists (PinnedBuffer.Build (PinnedBuffer.capacity b) n (PinnedBuffer.hostptr b)
              (PinnedBuffer.devptr b)), m, sc, tr.
    split; [exact Hk |]. split; [reflexivity |]. split; [exact Hok |].
    split; [exact Hwf' |]. split; [reflexivity |]. split; [reflexivity |].
    split; [intros _; split; reflexivity | lia].
  - destruct (PinnedFacts.pinned_resize_grow T n st copy b m sc tr Hok Hwf Hfit Hgt)
      as (est & sc' & tr' & Hest & Hg).
    rewrite Hg in Hrun. injection Hrun as <- <-. cbn [mem] in Hok'.
    eexists _, _, sc', tr'. split; [exact Hg |]. split; [reflexivity |].
    split; [exact Hok' |]. split; [exact Hwf' |].
    cbn [hostmem devmem PinnedBuffer.hostptr PinnedBuffer.devptr PinnedBuffer.capacity].
    destruct Hwf as ((_ & _ & Hboth) & _ & Halloc). cbn [mem] in Halloc.
    assert (Hnh : Npos (next m) <> PinnedBuffer.hostptr b).
    { intros E. destruct Halloc as (_ & (blk & Hblk & _));
        [intros E0; apply Hboth in E0; rewrite E0 in E; discriminate |].
      destruct (Hok Host (PinnedBuffer.hostptr b)) as [_ Hlt]; [cbn; rewrite Hblk; eauto |].
      lia. }
    assert (Hnd : Npos (Pos.succ (next m)) <> PinnedBuffer.devptr b).
    { intros E. destruct Halloc as ((blk & Hblk & _) & _); [rewrite <- E; discriminate |].
      destruct (Hok Device (PinnedBuffer.devptr b)) as [_ Hlt]; [cbn; rewrite Hblk; eauto |].
      lia. }
    split; [| split; [| split; [lia |]]].
    + intros p Hp Hsome. rewrite lookup_delete_ne by (apply not_eq_sym; exact Hp).
      apply lookup_insert_ne. intros E. subst p.
      destruct (Hok Host _ Hsome) as [_ Hlt]. lia.
    + intros p Hp Hsome. rewrite lookup_delete_ne by (apply not_eq_sym; exact Hp).
      apply lookup_insert_ne. intros E. subst p.
      destruct (Hok Device _ Hsome) as [_ Hlt]. lia.
    + intros _. split; [reflexivity |]. split; [reflexivity |].
      split; [apply lookup_delete_eq |]. split; [apply lookup_delete_eq |].
      split.
      * rewrite lookup_delete_ne by (apply not_eq_sym; exact Hnh). apply lookup_insert_eq.
      * rewrite lookup_delete_ne by (apply not_eq_sym; exact Hnd). apply lookup_insert_eq.
Qed.

End FrameFacts.

(** ** Release of storage *)

Module LifetimeFacts.

(** What a release leaves, whatever the pointer was. *)
Lemma cudaFree_frame p m sc tr σ' :
  cudaFree p (State m [] sc tr) = Ok (tt, σ') ->
  pending σ' = [] /\ hostmem (mem σ') = hostmem m /\
  (forall q, q <> p -> devmem (mem σ') !! q = devmem m !! q).
Proof.
  intros H. destruct (decide (p = nullptr)) as [-> | Hp].
  - rewrite cudaFree_null_idle in H. injection H as <-. repeat split.
  - destruct (devmem m !! p) as [blk |] eqn:E.
    + rewrite cudaFree_idle in H by (rewrite ?E; eauto). injection H as <-.
      cbn. split; [reflexivity |]. split; [reflexivity |].
      intros q Hq. apply lookup_delete_ne. congruence.
    + exfalso. unfold cudaFree in H. rewrite (bind_ok _ _ _ _ _ (tick_idle m sc tr)) in H.
      rewrite (bind_ok _ _ _ _ _ (eq_refl : record CallFree _ = Ok (tt, _))) in H.
      destruct (decide (p = nullptr)) as [E0 | _]; [contradiction |].
      rewrite (bind_ok _ _ _ _ _ (eq_refl : wait_device (State m [] _ _) = Ok (tt, _))) in H.
      unfold release in H. cbn [heap_of mem] in H. rewrite E in H. discriminate.
Qed.

Lemma cudaFreeHost_frame p m sc tr σ' :
  cudaFreeHost p (State m [] sc tr) = Ok (tt, σ') ->
  pending σ' = [] /\ devmem (mem σ') = devmem m /\
  (forall q, q <> p -> hostmem (mem σ') !! q = hostmem m !! q).
Proof.
  intros H. destruct (decide (p = nullptr)) as [-> | Hp].
  - rewrite cudaFreeHost_null_idle in H. injection H as <-. repeat split.
  - destruct (hostmem m !! p) as [blk |] eqn:E.
    + rewrite cudaFreeHost_idle in H by (rewrite ?E; eauto). injection H as <-.
      cbn. split; [reflexivity |]. split; [reflexivity |].
      intros q Hq. apply lookup_delete_ne. congruence.
    + exfalso. unfold cudaFreeHost in H. rewrite (bind_ok _ _ _ _ _ (tick_idle m sc tr)) in H.
      rewrite (bind_ok _ _ _ _ _ (eq_refl : record CallFreeHost _ = Ok (tt, _))) in H.
      destruct (decide (p = nullptr)) as [E0 | _]; [contradiction |].
      rewrite (bind_ok _ _ _ _ _ (eq_refl : wait_device (State m [] _ _) = Ok (tt, _))) in H.
      unfold release in H. cbn [heap_of mem] in H. rewrite E in H. discriminate.
Qed.

Lemma device_destroy (T : ctype) (b : DeviceBuffer.t T) m sc tr :
  mem_ok m -> DeviceBuffer.wf (State m [] sc tr) b ->
  exists sc' tr',
    DeviceBuffer.destroy b (State m [] sc tr) =
      Ok (tt, State (Memory (hostmem m) (delete (DeviceBuffer.devptr b) (devmem m)) (next m))
                [] sc' tr').
Proof.
  intros Hok (_ & _ & Halloc). cbn [mem] in Halloc. unfold DeviceBuffer.destroy.
  destruct (N.eqb_spec (DeviceBuffer.devptr b) nullptr) as [E | E]; cbn [negb].
  - exists sc, tr. unfold ret. rewrite E.
    rewrite delete_id by (apply (HostFacts.null_not_allocated Device m Hok)).
    destruct m; reflexivity.
  - destruct (Halloc E) as (blk & Hblk & _).
    rewrite cudaFree_idle by (rewrite ?Hblk; eauto). eexists _, _. reflexivity.
Qed.

Lemma host_destroy (T : ctype) (b : HostBuffer.t T) m sc tr :
  mem_ok m -> HostBuffer.wf (State m [] sc tr) b ->
  exists sc' tr',
    HostBuffer.destroy b (State m [] sc tr) =
      Ok (tt, State (Memory (delete (HostBuffer.hostptr b) (hostmem m)) (devmem m) (next m))
                [] sc' tr').
Proof.
  intros Hok (_ & _ & Halloc). cbn [mem] in Halloc. unfold HostBuffer.destroy.
  destruct (decide (HostBuffer.hostptr b = nullptr)) as [E | E].
  - rewrite E, cudaFreeHost_null_idle.
    rewrite delete_id by (apply (HostFacts.null_not_allocated Host m Hok)).
    eexists _, _. destruct m; reflexivity.
  - destruct (Halloc E) as (blk & Hblk & _).
    rewrite cudaFreeHost_idle by (rewrite ?Hblk; eauto). eexists _, _. reflexivity.
Qed.

Lemma pinned_destroy (T : ctype) (b : PinnedBuffer.t T) m sc tr :
  mem_ok m -> PinnedBuffer.wf (State m [] sc tr) b ->
  exists sc' tr',
    PinnedBuffer.destroy b (State m [] sc tr) =
      Ok (tt, State (Memory (delete (PinnedBuffer.hostptr b) (hostmem m))
                       (delete (PinnedBuffer.devptr b) (devmem m)) (next m))
                [] sc' tr').
Proof.
  intros Hok ((_ & _ & Hboth) & _ & Halloc). cbn [mem] in Halloc. unfold PinnedBuffer.destroy.
  destruct (N.eqb_spec (PinnedBuffer.devptr b) nullptr) as [E | E]; cbn [negb].
  - exists sc, tr. unfold ret. rewrite E, (proj2 Hboth E).
    rewrite (delete_id (hostmem m)) by (apply (HostFacts.null_not_allocated Host m Hok)).
    rewrite (delete_id (devmem m)) by (apply (HostFacts.null_not_allocated Device m Hok)).
    destruct m; reflexivity.
  - destruct (Halloc E) as ((dblk & Hd & _) & (hblk & Hh & _)).
    assert (Eh : PinnedBuffer.hostptr b <> nullptr) by (intros E0; apply E, Hboth, E0).
    rewrite (bind_ok _ _ _ _ _ (cudaFreeHost_idle _ m sc tr Eh (mk_is_Some _ _ Hh))).
    rewrite cudaFree_idle by (cbn [devmem]; rewrite ?Hd; eauto).
    eexists _, _. reflexivity.
Qed.

Section Steady.
Context (P : api_call -> Prop).

Lemma only_calls_cudaMemcpy dst src count kind :
  P CallMemcpy -> only_calls P (cudaMemcpy dst src count kind).
Proof.
  intros Hp. unfold cudaMemcpy.
  repeat (apply TraceFacts.only_calls_bind; [| intros ?]);
    auto using TraceFacts.only_calls_tick, TraceFacts.only_calls_record,
      TraceFacts.only_calls_wait_device, TraceFacts.only_calls_run_now.
Qed.

Lemma device_resize_steady (T : ctype) n st copy (b : DeviceBuffer.t T) :
  n <= DeviceBuffer.capacity b -> only_calls P (DeviceBuffer._resize n st copy b).
Proof.
  intros Hle σ a σ' H. rewrite (DeviceFacts.device_resize_keep T n st copy b σ Hle) in H.
  injection H as <- <-. exists []. split; [rewrite app_nil_r; reflexivity | constructor].
Qed.

Lemma host_resize_steady (T : ctype) n copy (b : HostBuffer.t T) :
  n <= HostBuffer.capacity b -> only_calls P (HostBuffer._resize n copy b).
Proof.
  intros Hle σ a σ' H. rewrite (HostFacts.host_resize_keep T n copy b σ Hle) in H.
  injection H as <- <-. exists []. split; [rewrite app_nil_r; reflexivity | constructor].
Qed.

Lemma pinned_resize_steady (T : ctype) n st copy (b : PinnedBuffer.t T) :
  n <= PinnedBuffer.capacity b -> only_calls P (PinnedBuffer._resize n st copy b).
Proof.
  intros Hle σ a σ' H. rewrite (PinnedFacts.pinned_resize_keep T n st copy b σ Hle) in H.
  injection H as <- <-. exists []. split; [rewrite app_nil_r; reflexivity | constructor].
Qed.

End Steady.

(** Solves goals [only_calls no_alloc m] for code that neither allocates
    nor releases. *)
Ltac steady :=
  repeat first
    [ apply TraceFacts.only_calls_ret
    | apply TraceFacts.only_calls_fail
    | apply TraceFacts.only_calls_memcpy
    | apply TraceFacts.only_calls_memset
    | apply TraceFacts.only_calls_host_store
    | apply device_resize_steady; assumption
    | apply host_resize_steady; assumption
    | apply pinned_resize_steady; assumption
    | apply only_calls_cudaMemcpy; reflexivity
    | apply TraceFacts.only_calls_cudaMemcpyAsync; reflexivity
    | apply TraceFacts.only_calls_cudaMemsetAsync; reflexivity
    | apply TraceFacts.only_calls_cudaStreamSynchronize; reflexivity
    | apply TraceFacts.only_calls_bind; [| intros ?]
    | match goal with
      | |- only_calls _ (if ?c then _ else _) => destruct c
      | |- only_calls _ (match ?c with _ => _ end) => destruct c
      end ].

Lemma device_op_steady (T : ctype) (op : DeviceOp.t T) (b : DeviceBuffer.t T) :
  DeviceOp.request op b <= DeviceBuffer.capacity b ->
  only_calls no_alloc (DeviceOp.run op b).
Proof.
  intros Hle. destruct op; cbn [DeviceOp.run DeviceOp.request] in *;
    unfold DeviceBuffer.resize, DeviceBuffer.clear, DeviceBuffer.clearDevice,
      DeviceBuffer.copy_dev, DeviceBuffer.copy_host, DeviceBuffer.copy,
      DeviceBuffer.copyFromDevice, DeviceBuffer.copyFromHost, DeviceBuffer.resize_anew;
    steady.
Qed.

Lemma host_op_steady (T : ctype) (op : HostOp.t T) (b : HostBuffer.t T) :
  HostOp.request op b <= HostBuffer.capacity b ->
  only_calls no_alloc (HostOp.run op b).
Proof.
  intros Hle. destruct op; cbn [HostOp.run HostOp.request] in *;
    unfold HostBuffer.resize_anew, HostBuffer.set, HostBuffer.clear, HostBuffer.copy,
      HostBuffer.copy_dev, HostBuffer.genericCopy, HostBuffer.resize;
    cbv zeta; steady.
Qed.

Lemma pinned_op_steady (T : ctype) (op : PinnedOp.t T) (b : PinnedBuffer.t T) :
  PinnedOp.request op b <= PinnedBuffer.capacity b ->
  only_calls no_alloc (PinnedOp.run op b).
Proof.
  intros Hle. destruct op; cbn [PinnedOp.run PinnedOp.request] in *;
    unfold PinnedBuffer.resize, PinnedBuffer.set, PinnedBuffer.downloadFromDevice,
      PinnedBuffer.uploadToDevice, PinnedBuffer.clear, PinnedBuffer.clearDevice,
      PinnedBuffer.clearHost, PinnedBuffer.copy_dev, PinnedBuffer.copy_host,
      PinnedBuffer.copy_pinned, PinnedBuffer.copyDeviceOnly, PinnedBuffer.copy,
      PinnedBuffer.resize_anew;
    steady.
Qed.

(** Within the capacity, an operation returns the buffer with only the size
    changed. *)
Lemma device_resize_same (T : ctype) n st copy (b : DeviceBuffer.t T) :
  n <= DeviceBuffer.capacity b ->
  returns (DeviceBuffer._resize n st copy b)
    (fun b' => DeviceBuffer.capacity b' = DeviceBuffer.capacity b /\
               DeviceBuffer.devptr b' = DeviceBuffer.devptr b).
Proof.
  intros Hle σ a σ' H. rewrite (DeviceFacts.device_resize_keep T n st copy b σ Hle) in H.
  injection H as <- _. split; reflexivity.
Qed.

Lemma host_resize_same (T : ctype) n copy (b : HostBuffer.t T) :
  n <= HostBuffer.capacity b ->
  returns (HostBuffer._resize n copy b)
    (fun b' => HostBuffer.capacity b' = HostBuffer.capacity b /\
               HostBuffer.hostptr b' = HostBuffer.hostptr b).
Proof.
  intros Hle σ a σ' H. rewrite (HostFacts.host_resize_keep T n copy b σ Hle) in H.
  injection H as <- _. split; reflexivity.
Qed.

Lemma pinned_resize_same (T : ctype) n st copy (b : PinnedBuffer.t T) :
  n <= PinnedBuffer.capacity b ->
  returns (PinnedBuffer._resize n st copy b)
    (fun b' => PinnedBuffer.capacity b' = PinnedBuffer.capacity b /\
               PinnedBuffer.hostptr b' = PinnedBuffer.hostptr b /\
               PinnedBuffer.devptr b' = PinnedBuffer.devptr b).
Proof.
  intros Hle σ a σ' H. rewrite (PinnedFacts.pinned_resize_keep T n st copy b σ Hle) in H.
  injection H as <- _. repeat split.
Qed.

Ltac same_then lemma :=
  first
    [ apply lemma; assumption
    | apply InvFacts.returns_then; repeat split
    | eapply InvFacts.returns_bind;
      [ apply lemma; assumption
      | intros ? ?; first [apply InvFacts.returns_then; assumption
                          | apply InvFacts.returns_ret; assumption] ] ].

Lemma device_op_same (T : ctype) (op : DeviceOp.t T) (b : DeviceBuffer.t T) :
  DeviceOp.request op b <= DeviceBuffer.capacity b ->
  returns (DeviceOp.run op b)
    (fun b' => DeviceBuffer.capacity b' = DeviceBuffer.capacity b /\
               DeviceBuffer.devptr b' = DeviceBuffer.devptr b).
Proof.
  intros Hle. destruct op; cbn [DeviceOp.run DeviceOp.request] in *;
    unfold DeviceBuffer.resize, DeviceBuffer.copy_dev, DeviceBuffer.copy_host,
      DeviceBuffer.copy, DeviceBuffer.copyFromDevice, DeviceBuffer.copyFromHost,
      DeviceBuffer.resize_anew;
    same_then device_resize_same.
Qed.

Lemma host_op_same (T : ctype) (op : HostOp.t T) (b : HostBuffer.t T) :
  HostOp.request op b <= HostBuffer.capacity b ->
  returns (HostOp.run op b)
    (fun b' => HostBuffer.capacity b' = HostBuffer.capacity b /\
               HostBuffer.hostptr b' = HostBuffer.hostptr b).
Proof.
  intros Hle. destruct op; cbn [HostOp.run HostOp.request] in *;
    unfold HostBuffer.resize_anew, HostBuffer.copy, HostBuffer.copy_dev,
      HostBuffer.genericCopy, HostBuffer.resize;
    cbv zeta;
    try (match goal with |- returns (if ?c then _ else _) _ => destruct c end;
         [apply InvFacts.returns_fail |]);
    same_then host_resize_same.
Qed.

Lemma pinned_op_same (T : ctype) (op : PinnedOp.t T) (b : PinnedBuffer.t T) :
  PinnedOp.request op b <= PinnedBuffer.capacity b ->
  returns (PinnedOp.run op b)
    (fun b' => PinnedBuffer.capacity b' = PinnedBuffer.capacity b /\
               PinnedBuffer.hostptr b' = PinnedBuffer.hostptr b /\
               PinnedBuffer.devptr b' = PinnedBuffer.devptr b).
Proof.
  intros Hle. destruct op; cbn [PinnedOp.run PinnedOp.request] in *;
    unfold PinnedBuffer.resize, PinnedBuffer.copy_dev, PinnedBuffer.copy_host,
      PinnedBuffer.copy_pinned, PinnedBuffer.copyDeviceOnly, PinnedBuffer.copy,
      PinnedBuffer.resize_anew;
    same_then pinned_resize_same.
Qed.

End LifetimeFacts.

(** ** Elements, clearing and transfers *)

Module ElementFacts.

Lemma host_load_ok src off count m q sc tr blk :
  hostmem m !! src = Some blk ->
  (Z.to_nat off + Z.to_nat count <= length blk)%nat ->
  host_load src off count (State m q sc tr) =
  Ok (take (Z.to_nat count) (drop (Z.to_nat off) blk), State m q sc tr).
Proof.
  intros Hb Hl. unfold host_load. cbn [mem hostmem]. rewrite Hb.
  destruct (decide (Z.to_nat off + Z.to_nat count ≤ length blk)%nat) as [_ | E];
    [reflexivity | contradiction].
Qed.

(** Bytes outside the written range of a block are those of the block. *)
Lemma splice_lookup {A} (blk data : list A) (off x : nat) :
  (off + length data <= length blk)%nat ->
  (x < off \/ off + length data <= x)%nat ->
  (take off blk ++ data ++ drop (off + length data) blk) !! x = blk !! x.
Proof.
  intros Hl [Hx | Hx].
  - rewrite lookup_app_l by (rewrite length_take; lia). apply lookup_take_lt. exact Hx.
  - rewrite lookup_app_r by (rewrite length_take; lia).
    rewrite length_take, Nat.min_l by lia.
    rewrite lookup_app_r by lia. rewrite lookup_drop. f_equal. lia.
Qed.

Lemma splice_length {A} (blk data : list A) (off : nat) :
  (off + length data <= length blk)%nat ->
  length (take off blk ++ data ++ drop (off + length data) blk) = length blk.
Proof.
  intros Hl. rewrite !length_app, length_take, length_drop. lia.
Qed.

Lemma element_offsets (sz i j : Z) :
  0 < sz -> 0 <= i -> 0 <= j -> j <> i ->
  (Z.to_nat (j * sz) + Z.to_nat sz <= Z.to_nat (i * sz) \/
   Z.to_nat (i * sz) + Z.to_nat sz <= Z.to_nat (j * sz))%nat.
Proof.
  intros Hs Hi Hj Hne. destruct (Z.lt_ge_cases j i) as [Hlt | Hge].
  - left. assert ((j + 1) * sz <= i * sz) by nia. assert (0 <= j * sz) by nia. lia.
  - right. assert ((i + 1) * sz <= j * sz) by nia. assert (0 <= i * sz) by nia. lia.
Qed.

Lemma element_other (T : ctype) (blk data : list cell) (i j : Z) :
  0 <= i -> 0 <= j -> j <> i -> length data = Z.to_nat (sizeof T) ->
  (Z.to_nat (i * sizeof T) + length data <= length blk)%nat ->
  element T (take (Z.to_nat (i * sizeof T)) blk ++ data ++
             drop (Z.to_nat (i * sizeof T) + length data) blk) j = element T blk j.
Proof.
  intros Hi Hj Hne Hd Hl. unfold element. apply list_eq. intros k.
  rewrite !lookup_take. destruct (decide (k < Z.to_nat (sizeof T))%nat) as [Hk | _];
    [| reflexivity].
  rewrite !lookup_drop. apply splice_lookup; [exact Hl |].
  destruct (element_offsets (sizeof T) i j (sizeof_pos T) Hi Hj Hne); lia.
Qed.

Lemma exec_memset dst v count m blk :
  devmem m !! dst = Some blk -> (Z.to_nat count <= length blk)%nat ->
  exec_work (WMemset dst v count) m =
  Some (Memory (hostmem m)
          (<[dst := replicate (Z.to_nat count) (Init v) ++ drop (Z.to_nat count) blk]>
             (devmem m)) (next m)).
Proof.
  intros Hb Hl. unfold exec_work.
  rewrite (TransferFacts.store_front _ _ _ _ Hb) by (rewrite length_replicate; exact Hl).
  rewrite length_replicate. reflexivity.
Qed.

Lemma cudaMemcpy_idle dst src count kind m sc tr m' :
  exec_work (WMemcpy dst src count kind) m = Some m' ->
  cudaMemcpy dst src count kind (State m [] sc tr) =
  Ok (tt, State m' [] (tail sc) (tr ++ [CallMemcpy])).
Proof.
  intros Hw. unfold cudaMemcpy. rewrite (bind_ok _ _ _ _ _ (tick_idle m sc tr)).
  rewrite (bind_ok _ _ _ _ _ (eq_refl : record CallMemcpy _ = Ok (tt, _))).
  rewrite (bind_ok _ _ _ _ _ (eq_refl : wait_device (State m [] _ _) = Ok (tt, _))).
  unfold run_now. cbn [mem pending sched trace]. rewrite Hw. reflexivity.
Qed.

(** An asynchronous copy followed by the synchronisation of its stream. *)
Lemma copy_then_sync dst src count kind st m sc tr m' :
  exec_work (WMemcpy dst src count kind) m = Some m' ->
  (cudaMemcpyAsync dst src count kind st ;; cudaStreamSynchronize st) (State m [] sc tr) =
  Ok (tt, State m' [] (tail (tail sc))
            (tr ++ [CallMemcpyAsync st; CallStreamSynchronize st])).
Proof.
  intros Hw. rewrite (bind_ok _ _ _ _ _ (cudaMemcpyAsync_idle _ _ _ _ _ _ _ _)).
  rewrite (cudaStreamSynchronize_single _ _ _ _ _ _ Hw). rewrite <- app_assoc. reflexivity.
Qed.

End ElementFacts.

(** ** Copies between containers *)

Module ReceiveFacts.

(** Overwriting the bytes of a live allocation keeps the heap in order. *)
Lemma mem_ok_update sp p blk m :
  mem_ok m -> is_Some (heap_of sp m !! p) ->
  mem_ok (set_heap sp (<[p := blk]> (heap_of sp m)) m).
Proof.
  intros Hok Hp sp' q Hq.
  assert (Hq' : is_Some (heap_of sp' m !! q)).
  { destruct sp, sp'; cbn in *; try exact Hq;
      (destruct (decide (q = p)) as [-> | Hne];
       [exact Hp | rewrite lookup_insert_ne in Hq by congruence; exact Hq]). }
  destruct sp; cbn [set_heap next]; exact (Hok sp' q Hq').
Qed.

Lemma copied_prefix {A} (k : nat) (sblk dblk : list A) :
  (k <= length sblk)%nat -> (k <= length dblk)%nat ->
  take k (take k sblk ++ drop k dblk) = take k sblk /\
  drop k (take k sblk ++ drop k dblk) = drop k dblk /\
  length (take k sblk ++ drop k dblk) = length dblk.
Proof.
  intros Hs Hd. split; [| split].
  - rewrite take_app_le by (rewrite length_take; lia).
    rewrite take_take, Nat.min_id. reflexivity.
  - rewrite drop_app_length' by (rewrite length_take; lia). reflexivity.
  - rewrite length_app, length_take, length_drop. lia.
Qed.

(** The destination after the resize that starts every copy. *)
Lemma device_ready (T : ctype) n st copy (b : DeviceBuffer.t T) m sc tr :
  mem_ok m -> DeviceBuffer.wf (State m [] sc tr) b -> fits T n -> 0 < n ->
  exists b' m' sc' tr' dblk,
    DeviceBuffer._resize n st copy b (State m [] sc tr) = Ok (b', State m' [] sc' tr') /\
    DeviceBuffer._size b' = n /\ mem_ok m' /\ DeviceBuffer.wf (State m' [] sc' tr') b' /\
    hostmem m' = hostmem m /\
    devmem m' !! DeviceBuffer.devptr b' = Some dblk /\
    Z.of_nat (length dblk) = sizeof T * DeviceBuffer.capacity b' /\
    bytes_of T n = sizeof T * n /\ 0 < sizeof T * n <= sizeof T * DeviceBuffer.capacity b' /\
    (forall p, p <> DeviceBuffer.devptr b -> is_Some (devmem m !! p) ->
               p <> DeviceBuffer.devptr b' /\ devmem m' !! p = devmem m !! p).
Proof.
  intros Hok Hwf Hfit Hpos. pose proof (sizeof_pos T) as Hs.
  destruct (FrameFacts.device_resize_spec T n st copy b m sc tr Hok Hwf Hfit)
    as (b' & m' & sc' & tr' & Hrun & Hsize & Hok' & Hwf' & Hh & Hframe & Hkeep & Hgrow).
  pose proof Hwf' as ((Hsz & Hnull) & Hcap & Halloc). cbn [mem] in Halloc.
  assert (Hp : DeviceBuffer.devptr b' <> nullptr) by (intros E; apply Hnull in E; lia).
  destruct (Halloc Hp) as (dblk & Hd & Hl).
  exists b', m', sc', tr', dblk. split; [exact Hrun |]. split; [exact Hsize |].
  split; [exact Hok' |]. split; [exact Hwf' |]. split; [exact Hh |].
  split; [exact Hd |]. split; [exact Hl |].
  split; [apply bytes_of_small; [lia | destruct Hfit as [_ Hf]; nia] |].
  split; [nia |].
  intros p Hne Hsome. split; [| apply Hframe; assumption].
  destruct (Z.le_gt_cases n (DeviceBuffer.capacity b)) as [Hle | Hgt].
  - destruct (Hkeep Hle) as (_ & ->). exact Hne.
  - destruct (Hgrow Hgt) as (-> & _). intros ->.
    destruct (Hok Device _ Hsome) as [_ Hlt]. lia.
Qed.

Lemma host_ready (T : ctype) n copy (b : HostBuffer.t T) m sc tr :
  mem_ok m -> HostBuffer.wf (State m [] sc tr) b -> fits T n -> 0 < n ->
  exists b' m' sc' tr' dblk,
    HostBuffer._resize n copy b (State m [] sc tr) = Ok (b', State m' [] sc' tr') /\
    HostBuffer._size b' = n /\ mem_ok m' /\ HostBuffer.wf (State m' [] sc' tr') b' /\
    devmem m' = devmem m /\
    hostmem m' !! HostBuffer.hostptr b' = Some dblk /\
    Z.of_nat (length dblk) = sizeof T * HostBuffer.capacity b' /\
    bytes_of T n = sizeof T * n /\ 0 < sizeof T * n <= sizeof T * HostBuffer.capacity b' /\
    (forall p, p <> HostBuffer.hostptr b -> is_Some (hostmem m !! p) ->
               p <> HostBuffer.hostptr b' /\ hostmem m' !! p = hostmem m !! p).
Proof.
  intros Hok Hwf Hfit Hpos. pose proof (sizeof_pos T) as Hs.
  destruct (FrameFacts.host_resize_spec T n copy b m sc tr Hok Hwf Hfit)
    as (b' & m' & sc' & tr' & Hrun & Hsize & Hok' & Hwf' & Hd & Hframe & Hkeep & Hgrow).
  pose proof Hwf' as ((Hsz & Hnull) & Hcap & Halloc). cbn [mem] in Halloc.
  assert (Hp : HostBuffer.hostptr b' <> nullptr) by (intros E; apply Hnull in E; lia).
  destruct (Halloc Hp) as (dblk & Hb & Hl).
  exists b', m', sc', tr', dblk. split; [exact Hrun |]. split; [exact Hsize |].
  split; [exact Hok' |]. split; [exact Hwf' |]. split; [exact Hd |].
  split; [exact Hb |]. split; [exact Hl |].
  split; [apply bytes_of_small; [lia | destruct Hfit as [_ Hf]; nia] |].
  split; [nia |].
  intros p Hne Hsome. split; [| apply Hframe; assumption].
  destruct (Z.le_gt_cases n (HostBuffer.capacity b)) as [Hle | Hgt].
  - destruct (Hkeep Hle) as (_ & ->). exact Hne.
  - destruct (Hgrow Hgt) as (-> & _). intros ->.
    destruct (Hok Host _ Hsome) as [_ Hlt]. lia.
Qed.

Lemma pinned_ready (T : ctype) n st copy (b : PinnedBuffer.t T) m sc tr :
  mem_ok m -> PinnedBuffer.wf (State m [] sc tr) b -> fits T n -> 0 < n ->
  exists b' m' sc' tr' hblk dblk,
    PinnedBuffer._resize n st copy b (State m [] sc tr) = Ok (b', State m' [] sc' tr') /\
    PinnedBuffer._size b' = n /\ mem_ok m' /\ PinnedBuffer.wf (State m' [] sc' tr') b' /\
    hostmem m' !! PinnedBuffer.hostptr b' = Some hblk /\
    devmem m' !! PinnedBuffer.devptr b' = Some dblk /\
    Z.of_nat (length hblk) = sizeof T * PinnedBuffer.capacity b' /\
    Z.of_nat (length dblk) = sizeof T * PinnedBuffer.capacity b' /\
    bytes_of T n = sizeof T * n /\ 0 < sizeof T * n <= sizeof T * PinnedBuffer.capacity b' /\
    (forall p, p <> PinnedBuffer.hostptr b -> is_Some (hostmem m !! p) ->
               p <> PinnedBuffer.hostptr b' /\ hostmem m' !! p = hostmem m !! p) /\
    (forall p, p <> PinnedBuffer.devptr b -> is_Some (devmem m !! p) ->
               p <> PinnedBuffer.devptr b' /\ devmem m' !! p = devmem m !! p) /\
    (n <= PinnedBuffer.capacity b -> m' = m /\
       PinnedBuffer.hostptr b' = PinnedBuffer.hostptr b /\
       PinnedBuffer.devptr b' = PinnedBuffer.devptr b).
Proof.
  intros Hok Hwf Hfit Hpos. pose proof (sizeof_pos T) as Hs.
  destruct (FrameFacts.pinned_resize_spec T n st copy b m sc tr Hok Hwf Hfit)
    as (b' & m' & sc' & tr' & Hrun & Hsize & Hok' & Hwf' & Hfh & Hfd & Hkeep & Hgrow).
  assert (Hsz : 0 < PinnedBuffer._size b') by lia.
  destruct (TransferFacts.wf_blocks T b' _ Hwf' Hsz)
    as (Hhn & Hdn & hblk & dblk & Hh & Hd & Hhl & Hdl & _ & Hk).
  cbn [mem] in Hh, Hd.
  exists b', m', sc', tr', hblk, dblk. split; [exact Hrun |]. split; [exact Hsize |].
  split; [exact Hok' |]. split; [exact Hwf' |]. split; [exact Hh |]. split; [exact Hd |].
  split; [exact Hhl |]. split; [exact Hdl |].
  split; [apply bytes_of_small; [lia | destruct Hfit as [_ Hf]; nia] |].
  split; [rewrite <- Hsize; exact Hk |].
  split; [| split].
  - intros p Hne Hsome. split; [| apply Hfh; assumption].
    destruct (Z.le_gt_cases n (PinnedBuffer.capacity b)) as [Hle | Hgt].
    + destruct (Hkeep Hle) as (_ & ->). exact Hne.
    + destruct (Hgrow Hgt) as (-> & _). intros ->.
      destruct (Hok Host _ Hsome) as [_ Hlt]. lia.
  - intros p Hne Hsome. split; [| apply Hfd; assumption].
    destruct (Z.le_gt_cases n (PinnedBuffer.capacity b)) as [Hle | Hgt].
    + destruct (Hkeep Hle) as (_ & ->). exact Hne.
    + destruct (Hgrow Hgt) as (_ & -> & _). intros ->.
      destruct (Hok Device _ Hsome) as [_ Hlt]. lia.
  - intros Hle. destruct (Hkeep Hle) as (-> & ->). repeat split.
Qed.

(** The copy proper, issued asynchronously and awaited. *)
Lemma async_tail {B} (b' : B) dst src count kind st m sc tr m' :
  exec_work (WMemcpy dst src count kind) m = Some m' ->
  (x <- (cudaMemcpyAsync dst src count kind st ;; ret b') ;;
   cudaStreamSynchronize st ;; ret x) (State m [] sc tr) =
  Ok (b', State m' [] (tail (tail sc))
            (tr ++ [CallMemcpyAsync st; CallStreamSynchronize st])).
Proof.
  intros Hw. rewrite bind_assoc.
  rewrite (bind_ok _ _ _ _ _ (cudaMemcpyAsync_idle _ _ _ _ _ _ _ _)).
  rewrite (bind_ok _ _ _ _ _ (eq_refl : ret b' _ = Ok (b', _))).
  rewrite (bind_ok _ _ _ _ _ (cudaStreamSynchronize_single _ _ _ _ _ _ Hw)).
  rewrite <- app_assoc. reflexivity.
Qed.

Lemma memcpy_tail {B} (b' : B) dst src count m q sc tr m' :
  count <> 0 ->
  exec_work (WMemcpy dst src count cudaMemcpyHostToHost) m = Some m' ->
  (memcpy dst src count ;; ret b') (State m q sc tr) = Ok (b', State m' q sc tr).
Proof.
  intros Hnz Hw. rewrite (bind_ok _ _ _ _ _ (HostFacts.memcpy_ok _ _ _ _ _ _ _ _ Hnz Hw)).
  reflexivity.
Qed.

(** An asynchronous copy into a [DeviceBuffer], awaited. *)
Lemma device_receive (T : ctype) (b : DeviceBuffer.t T) kind st src n sblk m sc tr :
  mem_ok m -> DeviceBuffer.wf (State m [] sc tr) b ->
  dst_space kind = Device -> fits T n -> 0 < n ->
  heap_of (src_space kind) m !! src = Some sblk ->
  sizeof T * n <= Z.of_nat (length sblk) ->
  (src_space kind = Device -> src <> DeviceBuffer.devptr b) ->
  exists b' m' sc' tr' dblk,
    (x <- (b' <- DeviceBuffer.resize_anew n b ;;
           (if 0 <? DeviceBuffer._size b'
            then cudaMemcpyAsync (DeviceBuffer.devptr b') src
                   (bytes_of T (DeviceBuffer._size b')) kind st
            else ret tt) ;;
           ret b') ;;
     cudaStreamSynchronize st ;; ret x) (State m [] sc tr)
      = Ok (b', State m' [] sc' tr') /\
    DeviceBuffer._size b' = n /\ mem_ok m' /\ DeviceBuffer.wf (State m' [] sc' tr') b' /\
    hostmem m' = hostmem m /\
    devmem m' !! DeviceBuffer.devptr b' = Some dblk /\
    take (Z.to_nat (sizeof T * n)) dblk = take (Z.to_nat (sizeof T * n)) sblk /\
    heap_of (src_space kind) m' !! src = Some sblk /\
    (forall p, p <> DeviceBuffer.devptr b -> is_Some (devmem m !! p) ->
               p <> DeviceBuffer.devptr b' /\ devmem m' !! p = devmem m !! p).
Proof.
  intros Hok Hwf Hkind Hfit Hpos Hsrc Hlen Hdist.
  destruct (device_ready T n 0%nat false b m sc tr Hok Hwf Hfit Hpos)
    as (b' & m' & sc' & tr' & dblk & Hrun & Hsize & Hok' & Hwf' & Hh & Hd & Hl & Hbytes
        & Hk & Hframe).
  assert (Hsrc' : heap_of (src_space kind) m' !! src = Some sblk /\
                  (src_space kind = Device -> src <> DeviceBuffer.devptr b')).
  { destruct kind; try discriminate Hkind; cbn [src_space heap_of] in *.
    - split; [rewrite Hh; exact Hsrc | discriminate].
    - destruct (Hframe src (Hdist eq_refl) (mk_is_Some _ _ Hsrc)) as [Hne Heq].
      split; [rewrite Heq; exact Hsrc | intros _; exact Hne]. }
  destruct Hsrc' as [Hsrc' Hne'].
  assert (Hks : (Z.to_nat (sizeof T * n) <= length sblk)%nat) by lia.
  assert (Hkd : (Z.to_nat (sizeof T * n) <= length dblk)%nat) by lia.
  assert (Hdst : heap_of (dst_space kind) m' !! DeviceBuffer.devptr b' = Some dblk)
    by (rewrite Hkind; exact Hd).
  pose proof (exec_memcpy m' _ _ _ kind sblk dblk Hsrc' Hdst Hks Hkd) as Hexec.
  unfold DeviceBuffer.resize_anew. rewrite bind_assoc.
  rewrite (bind_ok _ _ _ _ _ Hrun). cbv beta. rewrite Hsize.
  replace (0 <? n) with true by (symmetry; apply Z.ltb_lt; exact Hpos).
  rewrite Hbytes.
  rewrite (async_tail b' _ _ _ kind st m' sc' tr' _ Hexec).
  destruct (copied_prefix _ sblk dblk Hks Hkd) as (Htake & _ & Hlen').
  rewrite Hkind in *. cbn [set_heap heap_of].
  eexists _, _, _, _, _. split; [reflexivity |]. split; [exact Hsize |].
  split; [apply (mem_ok_update Device); [exact Hok' | cbn; rewrite Hd; eauto] |].
  split.
  { destruct Hwf' as (Hinv & Hcap & Halloc). split; [exact Hinv |]. split; [exact Hcap |].
    intros _. cbn [mem devmem]. eexists. split; [apply lookup_insert_eq |].
    rewrite Hlen'. exact Hl. }
  cbn [hostmem devmem]. split; [exact Hh |].
  split; [apply lookup_insert_eq |]. split; [exact Htake |].
  split.
  { destruct kind; try discriminate Hkind; cbn [src_space heap_of hostmem devmem] in *.
    - exact Hsrc'.
    - rewrite lookup_insert_ne by (apply not_eq_sym, Hne'; reflexivity). exact Hsrc'. }
  intros p Hp Hsome. destruct (Hframe p Hp Hsome) as [Hne Heq].
  split; [exact Hne |]. rewrite lookup_insert_ne by (apply not_eq_sym; exact Hne). exact Heq.
Qed.

(** An asynchronous copy from the device into a [HostBuffer], awaited. *)
Lemma host_receive_async (T : ctype) (b : HostBuffer.t T) st src n sblk m sc tr :
  mem_ok m -> HostBuffer.wf (State m [] sc tr) b -> fits T n -> 0 < n ->
  devmem m !! src = Some sblk ->
  sizeof T * n <= Z.of_nat (length sblk) ->
  exists b' m' sc' tr' dblk,
    (x <- (b' <- HostBuffer.resize n b ;;
           (if 0 <? HostBuffer._size b'
            then cudaMemcpyAsync (HostBuffer.hostptr b') src
                   (bytes_of T (HostBuffer._size b')) cudaMemcpyDeviceToHost st
            else ret tt) ;;
           ret b') ;;
     cudaStreamSynchronize st ;; ret x) (State m [] sc tr)
      = Ok (b', State m' [] sc' tr') /\
    HostBuffer._size b' = n /\ mem_ok m' /\ HostBuffer.wf (State m' [] sc' tr') b' /\
    devmem m' = devmem m /\
    hostmem m' !! HostBuffer.hostptr b' = Some dblk /\
    take (Z.to_nat (sizeof T * n)) dblk = take (Z.to_nat (sizeof T * n)) sblk /\
    (forall p, p <> HostBuffer.hostptr b -> is_Some (hostmem m !! p) ->
               p <> HostBuffer.hostptr b' /\ hostmem m' !! p = hostmem m !! p).
Proof.
  intros Hok Hwf Hfit Hpos Hsrc Hlen.
  destruct (host_ready T n true b m sc tr Hok Hwf Hfit Hpos)
    as (b' & m' & sc' & tr' & dblk & Hrun & Hsize & Hok' & Hwf' & Hd & Hb & Hl & Hbytes
        & Hk & Hframe).
  assert (Hks : (Z.to_nat (sizeof T * n) <= length sblk)%nat) by lia.
  assert (Hkd : (Z.to_nat (sizeof T * n) <= length dblk)%nat) by lia.
  assert (Hsrc' : heap_of (src_space cudaMemcpyDeviceToHost) m' !! src = Some sblk)
    by (cbn; rewrite Hd; exact Hsrc).
  pose proof (exec_memcpy m' _ _ _ cudaMemcpyDeviceToHost sblk dblk Hsrc' Hb Hks Hkd)
    as Hexec.
  unfold HostBuffer.resize. rewrite bind_assoc.
  rewrite (bind_ok _ _ _ _ _ Hrun). cbv beta. rewrite Hsize.
  replace (0 <? n) with true by (symmetry; apply Z.ltb_lt; exact Hpos).
  rewrite Hbytes.
  rewrite (async_tail b' _ _ _ _ st m' sc' tr' _ Hexec).
  destruct (copied_prefix _ sblk dblk Hks Hkd) as (Htake & _ & Hlen').
  cbn [set_heap dst_space heap_of].
  eexists _, _, _, _, _. split; [reflexivity |]. split; [exact Hsize |].
  split; [apply (mem_ok_update Host); [exact Hok' | cbn; rewrite Hb; eauto] |].
  split.
  { destruct Hwf' as (Hinv & Hcap & Halloc). split; [exact Hinv |]. split; [exact Hcap |].
    intros _. cbn [mem hostmem]. eexists. split; [apply lookup_insert_eq |].
    rewrite Hlen'. exact Hl. }
  cbn [hostmem devmem]. split; [exact Hd |].
  split; [apply lookup_insert_eq |]. split; [exact Htake |].
  intros p Hp Hsome. destruct (Hframe p Hp Hsome) as [Hne Heq].
  split; [exact Hne |]. rewrite lookup_insert_ne by (apply not_eq_sym; exact Hne). exact Heq.
Qed.

(** [HostBuffer::copy] from a host pointer. *)
Lemma host_receive_memcpy (T : ctype) (b : HostBuffer.t T) src n sblk m sc tr :
  mem_ok m -> HostBuffer.wf (State m [] sc tr) b -> fits T n -> 0 < n ->
  hostmem m !! src = Some sblk ->
  sizeof T * n <= Z.of_nat (length sblk) ->
  src <> HostBuffer.hostptr b ->
  exists b' m' sc' tr' dblk,
    (b' <- HostBuffer.resize n b ;;
     memcpy (HostBuffer.hostptr b') src (bytes_of T (HostBuffer._size b')) ;;
     ret b') (State m [] sc tr)
      = Ok (b', State m' [] sc' tr') /\
    HostBuffer._size b' = n /\ mem_ok m' /\ HostBuffer.wf (State m' [] sc' tr') b' /\
    devmem m' = devmem m /\
    hostmem m' !! HostBuffer.hostptr b' = Some dblk /\
    take (Z.to_nat (sizeof T * n)) dblk = take (Z.to_nat (sizeof T * n)) sblk /\
    src <> HostBuffer.hostptr b' /\ hostmem m' !! src = Some sblk.
Proof.
  intros Hok Hwf Hfit Hpos Hsrc Hlen Hdist.
  destruct (host_ready T n true b m sc tr Hok Hwf Hfit Hpos)
    as (b' & m' & sc' & tr' & dblk & Hrun & Hsize & Hok' & Hwf' & Hd & Hb & Hl & Hbytes
        & Hk & Hframe).
  destruct (Hframe src Hdist (mk_is_Some _ _ Hsrc)) as [Hne Heq].
  assert (Hks : (Z.to_nat (sizeof T * n) <= length sblk)%nat) by lia.
  assert (Hkd : (Z.to_nat (sizeof T * n) <= length dblk)%nat) by lia.
  assert (Hsrc' : heap_of (src_space cudaMemcpyHostToHost) m' !! src = Some sblk)
    by (cbn; rewrite Heq; exact Hsrc).
  pose proof (exec_memcpy m' _ _ _ cudaMemcpyHostToHost sblk dblk Hsrc' Hb Hks Hkd)
    as Hexec.
  assert (Hnz : sizeof T * n <> 0) by lia.
  unfold HostBuffer.resize.
  rewrite (bind_ok _ _ _ _ _ Hrun). rewrite Hsize, Hbytes.
  rewrite (memcpy_tail b' _ _ _ _ _ _ _ _ Hnz Hexec).
  destruct (copied_prefix _ sblk dblk Hks Hkd) as (Htake & _ & Hlen').
  cbn [set_heap dst_space heap_of].
  eexists _, _, _, _, _. split; [reflexivity |]. split; [exact Hsize |].
  split; [apply (mem_ok_update Host); [exact Hok' | cbn; rewrite Hb; eauto] |].
  split.
  { destruct Hwf' as (Hinv & Hcap & Halloc). split; [exact Hinv |]. split; [exact Hcap |].
    intros _. cbn [mem hostmem]. eexists. split; [apply lookup_insert_eq |].
    rewrite Hlen'. exact Hl. }
  cbn [hostmem devmem]. split; [exact Hd |].
  split; [apply lookup_insert_eq |]. split; [exact Htake |].
  split; [exact Hne |].
  rewrite lookup_insert_ne by (apply not_eq_sym; exact Hne). cbn in Hsrc'. exact Hsrc'.
Qed.

(** Two awaited steps in a row, the second using the result of the first. *)
Lemma then_both {A B} (p1 : M A) (s1 : M unit) (p2 : A -> M B) (s2 : M unit)
    σ0 a σ1 b σ2 :
  (x <- p1 ;; s1 ;; ret x) σ0 = Ok (a, σ1) ->
  (y <- p2 a ;; s2 ;; ret y) σ1 = Ok (b, σ2) ->
  (x <- p1 ;; s1 ;; y <- p2 x ;; s2 ;; ret (x, y)) σ0 = Ok ((a, b), σ2).
Proof.
  intros H1 H2. unfold bind, ret in *.
  destruct (p1 σ0) as [[x s] |]; [| discriminate].
  destruct (s1 s) as [[u s'] |]; [| discriminate]. injection H1 as -> ->.
  destruct (p2 a σ1) as [[y t] |]; [| discriminate].
  destruct (s2 t) as [[v t'] |]; [| discriminate]. injection H2 as -> ->.
  reflexivity.
Qed.

End ReceiveFacts.

(** ** Resizing *)

(** X1. A resize, of either kind, touches no allocation but the buffer's
    own: every other live allocation holds the same bytes afterwards.  A
    [DeviceBuffer] leaves host memory as a whole unchanged, a [HostBuffer]
    device memory. *)
Theorem resize_leaves_other_allocations (T : ctype) (n : Z) (σ : state)
    (Hok : mem_ok (mem σ)) (Hidle : quiescent σ) (Hfit : fits T n) :
  (forall st copy (b : DeviceBuffer.t T), DeviceBuffer.wf σ b ->
   exists b' σ',
     DeviceBuffer._resize n st copy b σ = Ok (b', σ') /\
     hostmem (mem σ') = hostmem (mem σ) /\
     forall p, p <> DeviceBuffer.devPtr b -> is_Some (device_bytes σ p) ->
               device_bytes σ' p = device_bytes σ p) /\
  (forall copy (b : HostBuffer.t T), HostBuffer.wf σ b ->
   exists b' σ',
     HostBuffer._resize n copy b σ = Ok (b', σ') /\
     devmem (mem σ') = devmem (mem σ) /\
     forall p, p <> HostBuffer.hostPtr b -> is_Some (host_bytes σ p) ->
               host_bytes σ' p = host_bytes σ p) /\
  (forall st copy (b : PinnedBuffer.t T), PinnedBuffer.wf σ b ->
   exists b' σ',
     PinnedBuffer._resize n st copy b σ = Ok (b', σ') /\
     (forall p, p <> PinnedBuffer.hostPtr b -> is_Some (host_bytes σ p) ->
                host_bytes σ' p = host_bytes σ p) /\
     (forall p, p <> PinnedBuffer.devPtr b -> is_Some (device_bytes σ p) ->
                device_bytes σ' p = device_bytes σ p)).
Proof.
  destruct σ as [m q sc tr]. unfold quiescent in Hidle. cbn [pending mem] in *. subst q.
  split; [| split].
  - intros st copy b Hwf.
    destruct (FrameFacts.device_resize_spec T n st copy b m sc tr Hok Hwf Hfit)
      as (b' & m' & sc' & tr' & Hrun & _ & _ & _ & Hh & Hd & _).
    eexists _, _. split; [exact Hrun |]. split; [exact Hh | exact Hd].
  - intros copy b Hwf.
    destruct (FrameFacts.host_resize_spec T n copy b m sc tr Hok Hwf Hfit)
      as (b' & m' & sc' & tr' & Hrun & _ & _ & _ & Hd & Hh & _).
    eexists _, _. split; [exact Hrun |]. split; [exact Hd | exact Hh].
  - intros st copy b Hwf.
    destruct (FrameFacts.pinned_resize_spec T n st copy b m sc tr Hok Hwf Hfit)
      as (b' & m' & sc' & tr' & Hrun & _ & _ & _ & Hh & Hd & _).
    eexists _, _. split; [exact Hrun |]. split; [exact Hh | exact Hd].
Qed.

Lemma resize_leaves_other_allocations_witness :
  exists b' σ',
    HostBuffer._resize 200 true demo_host demo = Ok (b', σ') /\
    devmem (mem σ') = devmem (mem demo).
Proof.
  destruct (resize_leaves_other_allocations float_t 200 demo ExampleFacts.mem_ok_demo
              eq_refl (ExampleFacts.fits_float 200 eq_refl)) as (_ & Hhost & _).
  destruct (Hhost true demo_host ExampleFacts.wf_demo_host) as (b' & σ' & Hrun & Hd & _).
  exists b', σ'. split; [exact Hrun | exact Hd].
Defined.

(** X2. A discarding resize that has to reallocate carries nothing over:
    every byte of the new allocation is indeterminate, and the old
    allocation is released. *)
Theorem resize_anew_discards (T : ctype) (n : Z) (σ : state)
    (Hok : mem_ok (mem σ)) (Hidle : quiescent σ) (Hfit : fits T n) :
  (forall b : DeviceBuffer.t T,
     DeviceBuffer.wf σ b -> DeviceBuffer.capacity b < n ->
     exists b' σ',
       DeviceBuffer.resize_anew n b σ = Ok (b', σ') /\
       device_bytes σ' (DeviceBuffer.devPtr b') =
         Some (fresh_block (sizeof T * DeviceBuffer.capacity b')) /\
       device_bytes σ' (DeviceBuffer.devPtr b) = None) /\
  (forall b : HostBuffer.t T,
     HostBuffer.wf σ b -> HostBuffer.capacity b < n ->
     exists b' σ',
       HostBuffer.resize_anew n b σ = Ok (b', σ') /\
       host_bytes σ' (HostBuffer.hostPtr b') =
         Some (fresh_block (sizeof T * HostBuffer.capacity b')) /\
       host_bytes σ' (HostBuffer.hostPtr b) = None) /\
  (forall b : PinnedBuffer.t T,
     PinnedBuffer.wf σ b -> PinnedBuffer.capacity b < n ->
     exists b' σ',
       PinnedBuffer.resize_anew n b σ = Ok (b', σ') /\
       host_bytes σ' (PinnedBuffer.hostPtr b') =
         Some (fresh_block (sizeof T * PinnedBuffer.capacity b')) /\
       device_bytes σ' (PinnedBuffer.devPtr b') =
         Some (fresh_block (sizeof T * PinnedBuffer.capacity b')) /\
       host_bytes σ' (PinnedBuffer.hostPtr b) = None /\
       device_bytes σ' (PinnedBuffer.devPtr b) = None).
Proof.
  assert (Hfresh : forall p ob nb o, grown_block false p ob nb o = fresh_block nb)
    by (intros p ob nb [blk |]; reflexivity).
  destruct σ as [m q sc tr]. unfold quiescent in Hidle. cbn [pending mem] in *. subst q.
  split; [| split].
  - intros b Hwf Hlt.
    destruct (FrameFacts.device_resize_spec T n 0%nat false b m sc tr Hok Hwf Hfit)
      as (b' & m' & sc' & tr' & Hrun & _ & _ & _ & _ & _ & _ & Hg).
    destruct (Hg Hlt) as (_ & Hold & Hnew). rewrite Hfresh in Hnew.
    eexists _, _. split; [exact Hrun |]. split; [exact Hnew | exact Hold].
  - intros b Hwf Hlt.
    destruct (FrameFacts.host_resize_spec T n false b m sc tr Hok Hwf Hfit)
      as (b' & m' & sc' & tr' & Hrun & _ & _ & _ & _ & _ & _ & Hg).
    destruct (Hg Hlt) as (_ & Hold & Hnew). rewrite Hfresh in Hnew.
    eexists _, _. split; [exact Hrun |]. split; [exact Hnew | exact Hold].
  - intros b Hwf Hlt.
    destruct (FrameFacts.pinned_resize_spec T n 0%nat false b m sc tr Hok Hwf Hfit)
      as (b' & m' & sc' & tr' & Hrun & _ & _ & _ & _ & _ & _ & Hg).
    destruct (Hg Hlt) as (_ & _ & Holdh & Holdd & Hnewh & Hnewd).
    rewrite Hfresh in Hnewh, Hnewd.
    eexists _, _. split; [exact Hrun |].
    split; [exact Hnewh |]. split; [exact Hnewd |]. split; [exact Holdh | exact Holdd].
Qed.

Lemma resize_anew_discards_witness :
  exists b' σ',
    PinnedBuffer.resize_anew 200 demo_pinned demo = Ok (b', σ') /\
    host_bytes σ' (PinnedBuffer.hostPtr b') =
      Some (fresh_block (sizeof float_t * PinnedBuffer.capacity b')) /\
    host_bytes σ' (PinnedBuffer.hostPtr demo_pinned) = None.
Proof.
  destruct (resize_anew_discards float_t 200 demo ExampleFacts.mem_ok_demo
              eq_refl (ExampleFacts.fits_float 200 eq_refl)) as (_ & _ & Hpin).
  assert (Hlt : PinnedBuffer.capacity demo_pinned < 200) by (cbn; lia).
  destruct (Hpin demo_pinned ExampleFacts.wf_demo_pinned Hlt)
    as (b' & σ' & Hrun & Hh & _ & Hold & _).
  exists b', σ'. split; [exact Hrun |]. split; [exact Hh | exact Hold].
Defined.

(** X3. A resize that reallocates for [n] elements leaves room for growth:
    the new capacity is at least [n + 10] and at most [1.2 * n + 139], so
    every following request of up to [n + 10] elements is served without
    touching the allocation or the process state. *)
Theorem growth_leaves_slack (T : ctype) (n : Z) (σ : state)
    (Hok : mem_ok (mem σ)) (Hidle : quiescent σ) (Hfit : fits T n) :
  (forall st copy (b : DeviceBuffer.t T),
     DeviceBuffer.wf σ b -> DeviceBuffer.capacity b < n ->
     exists b' σ',
       DeviceBuffer._resize n st copy b σ = Ok (b', σ') /\
       n + 10 <= DeviceBuffer.capacity b' /\
       10 * DeviceBuffer.capacity b' <= 12 * n + 1390 /\
       forall c, requested c <= n + 10 ->
         DeviceBuffer.resize_by c b' σ' =
           Ok (DeviceBuffer.Build (DeviceBuffer.capacity b') (requested c)
                 (DeviceBuffer.devptr b'), σ')) /\
  (forall copy (b : HostBuffer.t T),
     HostBuffer.wf σ b -> HostBuffer.capacity b < n ->
     exists b' σ',
       HostBuffer._resize n copy b σ = Ok (b', σ') /\
       n + 10 <= HostBuffer.capacity b' /\
       10 * HostBuffer.capacity b' <= 12 * n + 1390 /\
       forall c, requested c <= n + 10 ->
         HostBuffer.resize_by c b' σ' =
           Ok (HostBuffer.Build (HostBuffer.capacity b') (requested c)
                 (HostBuffer.hostptr b'), σ')) /\
  (forall st copy (b : PinnedBuffer.t T),
     PinnedBuffer.wf σ b -> PinnedBuffer.capacity b < n ->
     exists b' σ',
       PinnedBuffer._resize n st copy b σ = Ok (b', σ') /\
       n + 10 <= PinnedBuffer.capacity b' /\
       10 * PinnedBuffer.capacity b' <= 12 * n + 1390 /\
       forall c, requested c <= n + 10 ->
         PinnedBuffer.resize_by c b' σ' =
           Ok (PinnedBuffer.Build (PinnedBuffer.capacity b') (requested c)
                 (PinnedBuffer.hostptr b') (PinnedBuffer.devptr b'), σ')).
Proof.
  destruct (new_capacity_spec n (fits_le T n Hfit))
    as (est & Hest & Hlo & Hhi & _ & Hal & _).
  destruct σ as [m q sc tr]. unfold quiescent in Hidle. cbn [pending mem] in *. subst q.
  split; [| split].
  - intros st copy b Hwf Hlt.
    destruct (DeviceFacts.device_resize_grow T n st copy b m sc tr Hok Hwf Hfit Hlt)
      as (est' & sc' & tr' & Hest' & Hrun).
    rewrite Hest in Hest'. injection Hest' as <-.
    eexists _, _. split; [exact Hrun |]. cbn [DeviceBuffer.capacity DeviceBuffer.devptr].
    split; [lia |]. split; [lia |].
    intros [k s | k] Hk; apply DeviceFacts.device_resize_keep; cbn in *; lia.
  - intros copy b Hwf Hlt.
    destruct (HostFacts.host_resize_grow T n copy b m sc tr Hok Hwf Hfit Hlt)
      as (est' & sc' & tr' & Hest' & Hrun).
    rewrite Hest in Hest'. injection Hest' as <-.
    eexists _, _. split; [exact Hrun |]. cbn [HostBuffer.capacity HostBuffer.hostptr].
    split; [lia |]. split; [lia |].
    intros [k s | k] Hk; apply HostFacts.host_resize_keep; cbn in *; lia.
  - intros st copy b Hwf Hlt.
    destruct (PinnedFacts.pinned_resize_grow T n st copy b m sc tr Hok Hwf Hfit Hlt)
      as (est' & sc' & tr' & Hest' & Hrun).
    rewrite Hest in Hest'. injection Hest' as <-.
    eexists _, _. split; [exact Hrun |].
    cbn [PinnedBuffer.capacity PinnedBuffer.hostptr PinnedBuffer.devptr].
    split; [lia |]. split; [lia |].
    intros [k s | k] Hk; apply PinnedFacts.pinned_resize_keep; cbn in *; lia.
Qed.

Lemma growth_leaves_slack_witness :
  exists b' σ',
    DeviceBuffer._resize 200 0%nat true demo_device demo = Ok (b', σ') /\
    200 + 10 <= DeviceBuffer.capacity b' /\
    DeviceBuffer.resize_by (ResizeAnew 210) b' σ' =
      Ok (DeviceBuffer.Build (DeviceBuffer.capacity b') 210 (DeviceBuffer.devptr b'), σ').
Proof.
  destruct (growth_leaves_slack float_t 200 demo ExampleFacts.mem_ok_demo
              eq_refl (ExampleFacts.fits_float 200 eq_refl)) as (Hdev & _).
  assert (Hlt : DeviceBuffer.capacity demo_device < 200) by (cbn; lia).
  destruct (Hdev 0%nat true demo_device ExampleFacts.wf_demo_device Hlt)
    as (b' & σ' & Hrun & Hlo & _ & Hnext).
  exists b', σ'. split; [exact Hrun |]. split; [exact Hlo |].
  apply (Hnext (ResizeAnew 210)). cbn. lia.
Defined.

(** ** Lifetime of the storage *)

(** X4. The destructor of a container releases exactly the allocation(s)
    the container owns and nothing else; constructing a container of [n]
    elements and destroying it leaves both address spaces as they were. *)
Theorem destroy_releases_storage (T : ctype) (σ : state)
    (Hok : mem_ok (mem σ)) (Hidle : quiescent σ) :
  (forall b : DeviceBuffer.t T, DeviceBuffer.wf σ b ->
   exists σ',
     DeviceBuffer.destroy b σ = Ok (tt, σ') /\ quiescent σ' /\
     devmem (mem σ') = delete (DeviceBuffer.devPtr b) (devmem (mem σ)) /\
     hostmem (mem σ') = hostmem (mem σ)) /\
  (forall b : HostBuffer.t T, HostBuffer.wf σ b ->
   exists σ',
     HostBuffer.destroy b σ = Ok (tt, σ') /\ quiescent σ' /\
     hostmem (mem σ') = delete (HostBuffer.hostPtr b) (hostmem (mem σ)) /\
     devmem (mem σ') = devmem (mem σ)) /\
  (forall b : PinnedBuffer.t T, PinnedBuffer.wf σ b ->
   exists σ',
     PinnedBuffer.destroy b σ = Ok (tt, σ') /\ quiescent σ' /\
     hostmem (mem σ') = delete (PinnedBuffer.hostPtr b) (hostmem (mem σ)) /\
     devmem (mem σ') = delete (PinnedBuffer.devPtr b) (devmem (mem σ))) /\
  (forall n, fits T n ->
   (exists σ',
      (b <- DeviceBuffer.new (T := T) n ;; DeviceBuffer.destroy b) σ = Ok (tt, σ') /\
      hostmem (mem σ') = hostmem (mem σ) /\ devmem (mem σ') = devmem (mem σ)) /\
   (exists σ',
      (b <- HostBuffer.new (T := T) n ;; HostBuffer.destroy b) σ = Ok (tt, σ') /\
      hostmem (mem σ') = hostmem (mem σ) /\ devmem (mem σ') = devmem (mem σ)) /\
   (exists σ',
      (b <- PinnedBuffer.new (T := T) n ;; PinnedBuffer.destroy b) σ = Ok (tt, σ') /\
      hostmem (mem σ') = hostmem (mem σ) /\ devmem (mem σ') = devmem (mem σ))).
Proof.
  destruct σ as [m q sc tr]. unfold quiescent in Hidle. cbn [pending mem] in *. subst q.
  assert (Hdev : forall m0 sc0 tr0 (b : DeviceBuffer.t T),
            mem_ok m0 -> DeviceBuffer.wf (State m0 [] sc0 tr0) b ->
            exists σ',
              DeviceBuffer.destroy b (State m0 [] sc0 tr0) = Ok (tt, σ') /\ quiescent σ' /\
              devmem (mem σ') = delete (DeviceBuffer.devPtr b) (devmem m0) /\
              hostmem (mem σ') = hostmem m0).
  { intros m0 sc0 tr0 b Hok0 Hwf.
    destruct (LifetimeFacts.device_destroy T b m0 sc0 tr0 Hok0 Hwf) as (sc' & tr' & Hrun).
    eexists. split; [exact Hrun |]. repeat split. }
  assert (Hhost : forall m0 sc0 tr0 (b : HostBuffer.t T),
            mem_ok m0 -> HostBuffer.wf (State m0 [] sc0 tr0) b ->
            exists σ',
              HostBuffer.destroy b (State m0 [] sc0 tr0) = Ok (tt, σ') /\ quiescent σ' /\
              hostmem (mem σ') = delete (HostBuffer.hostPtr b) (hostmem m0) /\
              devmem (mem σ') = devmem m0).
  { intros m0 sc0 tr0 b Hok0 Hwf.
    destruct (LifetimeFacts.host_destroy T b m0 sc0 tr0 Hok0 Hwf) as (sc' & tr' & Hrun).
    eexists. split; [exact Hrun |]. repeat split. }
  assert (Hpin : forall m0 sc0 tr0 (b : PinnedBuffer.t T),
            mem_ok m0 -> PinnedBuffer.wf (State m0 [] sc0 tr0) b ->
            exists σ',
              PinnedBuffer.destroy b (State m0 [] sc0 tr0) = Ok (tt, σ') /\ quiescent σ' /\
              hostmem (mem σ') = delete (PinnedBuffer.hostPtr b) (hostmem m0) /\
              devmem (mem σ') = delete (PinnedBuffer.devPtr b) (devmem m0)).
  { intros m0 sc0 tr0 b Hok0 Hwf.
    destruct (LifetimeFacts.pinned_destroy T b m0 sc0 tr0 Hok0 Hwf) as (sc' & tr' & Hrun).
    eexists. split; [exact Hrun |]. repeat split. }
  split; [intros b; apply Hdev, Hok |].
  split; [intros b; apply Hhost, Hok |].
  split; [intros b; apply Hpin, Hok |].
  intros n Hfit.
  pose proof (HostFacts.null_not_allocated Host m Hok) as Hh0.
  pose proof (HostFacts.null_not_allocated Device m Hok) as Hd0.
  cbn [heap_of] in Hh0, Hd0.
  assert (Hfh : hostmem m !! Npos (next m) = None).
  { destruct (hostmem m !! Npos (next m)) eqn:E; [| reflexivity].
    destruct (Hok Host (Npos (next m))) as [_ Hlt]; [cbn; rewrite E; eauto | lia]. }
  assert (Hfd : forall k, (next m <= k)%positive -> devmem m !! Npos k = None).
  { intros k Hk. destruct (devmem m !! Npos k) eqn:E; [| reflexivity].
    destruct (Hok Device (Npos k)) as [_ Hlt]; [cbn; rewrite E; eauto | lia]. }
  split; [| split].
  - destruct (FrameFacts.device_resize_spec T n 0%nat false DeviceBuffer.empty m sc tr Hok
                (ExampleFacts.wf_empty_device T _) Hfit)
      as (b' & m' & sc' & tr' & Hrun & _ & Hok' & Hwf' & Hh & _ & Hkeep & Hgrow).
    unfold DeviceBuffer.new, DeviceBuffer.resize_anew. rewrite (bind_ok _ _ _ _ _ Hrun).
    destruct (Hdev m' sc' tr' b' Hok' Hwf') as (σ' & Hd & _ & Hdm & Hhm).
    exists σ'. split; [exact Hd |]. split; [congruence |]. rewrite Hdm.
    destruct (Z.le_gt_cases n (DeviceBuffer.capacity (@DeviceBuffer.empty T))) as [Hle | Hgt].
    + destruct (Hkeep Hle) as (-> & ->). cbn. apply delete_id. exact Hd0.
    + destruct (DeviceFacts.device_resize_grow T n 0%nat false DeviceBuffer.empty m sc tr Hok
                  (ExampleFacts.wf_empty_device T _) Hfit Hgt)
        as (est & sc2 & tr2 & _ & Hg).
      rewrite Hg in Hrun. injection Hrun as <- <- _ _. cbn.
      rewrite (delete_id _ nullptr) by (rewrite lookup_insert_ne by discriminate; exact Hd0).
      apply delete_insert_id. apply Hfd. lia.
  - destruct (FrameFacts.host_resize_spec T n false HostBuffer.empty m sc tr Hok
                (ExampleFacts.wf_empty_host T _) Hfit)
      as (b' & m' & sc' & tr' & Hrun & _ & Hok' & Hwf' & Hd & _ & Hkeep & Hgrow).
    unfold HostBuffer.new, HostBuffer.resize_anew. rewrite (bind_ok _ _ _ _ _ Hrun).
    destruct (Hhost m' sc' tr' b' Hok' Hwf') as (σ' & Hdes & _ & Hhm & Hdm).
    exists σ'. split; [exact Hdes |]. split; [| congruence]. rewrite Hhm.
    destruct (Z.le_gt_cases n (HostBuffer.capacity (@HostBuffer.empty T))) as [Hle | Hgt].
    + destruct (Hkeep Hle) as (-> & ->). cbn. apply delete_id. exact Hh0.
    + destruct (HostFacts.host_resize_grow T n false HostBuffer.empty m sc tr Hok
                  (ExampleFacts.wf_empty_host T _) Hfit Hgt)
        as (est & sc2 & tr2 & _ & Hg).
      rewrite Hg in Hrun. injection Hrun as <- <- _ _. cbn.
      rewrite (delete_id _ nullptr) by (rewrite lookup_insert_ne by discriminate; exact Hh0).
      apply delete_insert_id. exact Hfh.
  - destruct (FrameFacts.pinned_resize_spec T n 0%nat false PinnedBuffer.empty m sc tr Hok
                (ExampleFacts.wf_empty_pinned T _) Hfit)
      as (b' & m' & sc' & tr' & Hrun & _ & Hok' & Hwf' & _ & _ & Hkeep & Hgrow).
    unfold PinnedBuffer.new, PinnedBuffer.resize_anew. rewrite (bind_ok _ _ _ _ _ Hrun).
    destruct (Hpin m' sc' tr' b' Hok' Hwf') as (σ' & Hdes & _ & Hhm & Hdm).
    exists σ'. split; [exact Hdes |]. rewrite Hhm, Hdm.
    destruct (Z.le_gt_cases n (PinnedBuffer.capacity (@PinnedBuffer.empty T))) as [Hle | Hgt].
    + destruct (Hkeep Hle) as (-> & ->). cbn. split; apply delete_id; assumption.
    + destruct (PinnedFacts.pinned_resize_grow T n 0%nat false PinnedBuffer.empty m sc tr Hok
                  (ExampleFacts.wf_empty_pinned T _) Hfit Hgt)
        as (est & sc2 & tr2 & _ & Hg).
      rewrite Hg in Hrun. injection Hrun as <- <- _ _. cbn. split.
      * rewrite (delete_id _ nullptr) by (rewrite lookup_insert_ne by discriminate; exact Hh0).
        apply delete_insert_id. exact Hfh.
      * rewrite (delete_id _ nullptr) by (rewrite lookup_insert_ne by discriminate; exact Hd0).
        apply delete_insert_id. apply Hfd. lia.
Qed.

Lemma destroy_releases_storage_witness :
  (exists σ',
     PinnedBuffer.destroy demo_pinned demo = Ok (tt, σ') /\
     host_bytes σ' (PinnedBuffer.hostPtr demo_pinned) = None /\
     device_bytes σ' (PinnedBuffer.devPtr demo_pinned) = None) /\
  (exists σ',
     (b <- PinnedBuffer.new (T := float_t) 100 ;; PinnedBuffer.destroy b) demo = Ok (tt, σ') /\
     hostmem (mem σ') = hostmem (mem demo) /\ devmem (mem σ') = devmem (mem demo)).
Proof.
  destruct (destroy_releases_storage float_t demo ExampleFacts.mem_ok_demo eq_refl)
    as (_ & _ & Hpin & Hnew).
  split.
  - destruct (Hpin demo_pinned ExampleFacts.wf_demo_pinned) as (σ' & Hrun & _ & Hh & Hd).
    exists σ'. split; [exact Hrun |]. unfold host_bytes, device_bytes.
    rewrite Hh, Hd. split; apply lookup_delete_eq.
  - exact (proj2 (proj2 (Hnew 100 (ExampleFacts.fits_float 100 eq_refl)))).
Defined.

(** X5. Move assignment of a [DeviceBuffer] or a [HostBuffer] releases the
    allocation the destination owned before, and only that one. *)
Theorem move_assign_releases_destination (T : ctype) (dst src : positive) (σ : state)
    (Hne : dst <> src) (Hok : mem_ok (mem σ)) (Hidle : quiescent σ) :
  (forall (objs : gmap positive (DeviceBuffer.t T)) A B,
     objs !! src = Some A -> objs !! dst = Some B -> DeviceBuffer.wf σ B ->
     exists objs' σ',
       DeviceBuffer.move_assign dst src objs σ = Ok (objs', σ') /\
       devmem (mem σ') = delete (DeviceBuffer.devPtr B) (devmem (mem σ)) /\
       hostmem (mem σ') = hostmem (mem σ)) /\
  (forall (objs : gmap positive (HostBuffer.t T)) A B,
     objs !! src = Some A -> objs !! dst = Some B -> HostBuffer.wf σ B ->
     exists objs' σ',
       HostBuffer.move_assign dst src objs σ = Ok (objs', σ') /\
       hostmem (mem σ') = delete (HostBuffer.hostPtr B) (hostmem (mem σ)) /\
       devmem (mem σ') = devmem (mem σ)).
Proof.
  destruct σ as [m q sc tr]. unfold quiescent in Hidle. cbn [pending mem] in *. subst q.
  split.
  - intros objs A B HA HB Hwf.
    destruct (LifetimeFacts.device_destroy T B m sc tr Hok Hwf) as (sc' & tr' & Hrun).
    unfold DeviceBuffer.destroy in Hrun. unfold DeviceBuffer.move_assign.
    destruct (decide (dst = src)) as [E | _]; [contradiction |].
    rewrite HB, HA. rewrite (bind_ok _ _ _ _ _ Hrun).
    eexists _, _. split; [reflexivity |]. split; reflexivity.
  - intros objs A B HA HB Hwf.
    unfold HostBuffer.move_assign.
    destruct (decide (dst = src)) as [E | _]; [contradiction |].
    rewrite HB, HA.
    destruct (N.eqb_spec (HostBuffer.hostptr B) nullptr) as [E | E]; cbn [negb].
    + eexists _, _. split; [reflexivity |]. cbn. split; [| reflexivity].
      unfold HostBuffer.hostPtr. rewrite E. symmetry. apply delete_id.
      apply (HostFacts.null_not_allocated Host m Hok).
    + destruct (LifetimeFacts.host_destroy T B m sc tr Hok Hwf) as (sc' & tr' & Hrun).
      unfold HostBuffer.destroy in Hrun. rewrite (bind_ok _ _ _ _ _ Hrun).
      eexists _, _. split; [reflexivity |]. split; reflexivity.
Qed.

Lemma move_assign_releases_destination_witness :
  exists objs' σ',
    DeviceBuffer.move_assign 2%positive 1%positive
      (<[1%positive := DeviceBuffer.empty]> {[2%positive := demo_device]}) demo
      = Ok (objs', σ') /\
    device_bytes σ' (DeviceBuffer.devPtr demo_device) = None.
Proof.
  assert (Hne : 2%positive <> 1%positive) by discriminate.
  destruct (move_assign_releases_destination float_t 2 1 demo Hne
              ExampleFacts.mem_ok_demo eq_refl) as (Hdev & _).
  destruct (Hdev (<[1%positive := DeviceBuffer.empty]> {[2%positive := demo_device]})
              DeviceBuffer.empty demo_device) as (objs' & σ' & Hrun & Hd & _).
  - apply lookup_insert_eq.
  - rewrite lookup_insert_ne by discriminate. apply lookup_singleton_eq.
  - exact ExampleFacts.wf_demo_device.
  - exists objs', σ'. split; [exact Hrun |]. unfold device_bytes. rewrite Hd.
    apply lookup_delete_eq.
Defined.

(** X6. Move assignment of a [PinnedBuffer] releases nothing: the two
    allocations the destination owned before stay live with their bytes,
    and they are still live after both objects have been destroyed. *)
Theorem pinned_move_assign_keeps_destination_storage (T : ctype)
    (dst src : positive) (σ : state) (objs : gmap positive (PinnedBuffer.t T))
    (A B : PinnedBuffer.t T)
    (Hne : dst <> src) (Hok : mem_ok (mem σ)) (Hidle : quiescent σ)
    (HA : objs !! src = Some A) (HB : objs !! dst = Some B)
    (HwfA : PinnedBuffer.wf σ A)
    (Hh : PinnedBuffer.hostPtr A <> PinnedBuffer.hostPtr B)
    (Hd : PinnedBuffer.devPtr A <> PinnedBuffer.devPtr B) :
  exists objs',
    PinnedBuffer.move_assign dst src objs σ = Ok (objs', σ) /\
    objs' !! dst = Some A /\ objs' !! src = Some PinnedBuffer.empty /\
    exists σ'',
      (o <- PinnedBuffer.delete_object dst objs' ;; PinnedBuffer.delete_object src o) σ
        = Ok (delete src (delete dst objs'), σ'') /\
      host_bytes σ'' (PinnedBuffer.hostPtr B) = host_bytes σ (PinnedBuffer.hostPtr B) /\
      device_bytes σ'' (PinnedBuffer.devPtr B) = device_bytes σ (PinnedBuffer.devPtr B).
Proof.
  destruct σ as [m q sc tr]. unfold quiescent in Hidle. cbn [pending mem] in *. subst q.
  eexists. split; [eapply MoveFacts.pinned_move_assign; eassumption |].
  split; [rewrite lookup_insert_ne by congruence; apply lookup_insert_eq |].
  split; [apply lookup_insert_eq |].
  destruct (LifetimeFacts.pinned_destroy T A m sc tr Hok HwfA) as (sc' & tr' & Hrun).
  unfold PinnedBuffer.delete_object at 1.
  rewrite lookup_insert_ne by congruence. rewrite lookup_insert_eq.
  rewrite bind_assoc. rewrite (bind_ok _ _ _ _ _ Hrun). cbv beta.
  rewrite (bind_ok _ _ _ _ _ (eq_refl : ret _ _ = Ok (_, _))).
  rewrite MoveFacts.pinned_delete_moved
    by (rewrite lookup_delete_ne by exact Hne; apply lookup_insert_eq).
  eexists. split; [reflexivity |]. unfold host_bytes, device_bytes. cbn [mem hostmem devmem].
  split; apply lookup_delete_ne; assumption.
Qed.

Lemma pinned_move_assign_keeps_destination_storage_witness :
  exists objs' σ'',
    PinnedBuffer.move_assign 2%positive 1%positive
      (<[1%positive := PinnedBuffer.empty]> {[2%positive := demo_pinned]}) demo
      = Ok (objs', demo) /\
    (o <- PinnedBuffer.delete_object 2%positive objs' ;;
     PinnedBuffer.delete_object 1%positive o) demo
      = Ok (delete 1%positive (delete 2%positive objs'), σ'') /\
    host_bytes σ'' (PinnedBuffer.hostPtr demo_pinned)
      = host_bytes demo (PinnedBuffer.hostPtr demo_pinned).
Proof.
  assert (Hne : 2%positive <> 1%positive) by discriminate.
  assert (HA : (<[1%positive := PinnedBuffer.empty]> {[2%positive := demo_pinned]}
                  : gmap positive (PinnedBuffer.t float_t)) !! 1%positive
               = Some PinnedBuffer.empty) by apply lookup_insert_eq.
  assert (HB : (<[1%positive := PinnedBuffer.empty]> {[2%positive := demo_pinned]}
                  : gmap positive (PinnedBuffer.t float_t)) !! 2%positive
               = Some demo_pinned)
    by (rewrite lookup_insert_ne by discriminate; apply lookup_singleton_eq).
  assert (Hh : PinnedBuffer.hostPtr (@PinnedBuffer.empty float_t)
               <> PinnedBuffer.hostPtr demo_pinned) by discriminate.
  assert (Hd : PinnedBuffer.devPtr (@PinnedBuffer.empty float_t)
               <> PinnedBuffer.devPtr demo_pinned) by discriminate.
  destruct (pinned_move_assign_keeps_destination_storage float_t 2 1 demo _ _ _ Hne
              ExampleFacts.mem_ok_demo eq_refl HA HB
              (ExampleFacts.wf_empty_pinned float_t demo) Hh Hd)
    as (objs' & Hrun & _ & _ & σ'' & Hdel & Hhost & _).
  exists objs', σ''. split; [exact Hrun |]. split; [exact Hdel | exact Hhost].
Defined.

(** X7. An operation whose request fits the capacity neither allocates nor
    releases memory, and the buffer keeps its capacity and pointer(s). *)
Theorem no_allocation_within_capacity (T : ctype) :
  (forall (op : DeviceOp.t T) b,
     DeviceOp.request op b <= DeviceBuffer.capacity b ->
     (forall σ, Forall no_alloc (calls_of (DeviceOp.run op b) σ)) /\
     returns (DeviceOp.run op b)
       (fun b' => DeviceBuffer.capacity b' = DeviceBuffer.capacity b /\
                  DeviceBuffer.devPtr b' = DeviceBuffer.devPtr b)) /\
  (forall (op : HostOp.t T) b,
     HostOp.request op b <= HostBuffer.capacity b ->
     (forall σ, Forall no_alloc (calls_of (HostOp.run op b) σ)) /\
     returns (HostOp.run op b)
       (fun b' => HostBuffer.capacity b' = HostBuffer.capacity b /\
                  HostBuffer.hostPtr b' = HostBuffer.hostPtr b)) /\
  (forall (op : PinnedOp.t T) b,
     PinnedOp.request op b <= PinnedBuffer.capacity b ->
     (forall σ, Forall no_alloc (calls_of (PinnedOp.run op b) σ)) /\
     returns (PinnedOp.run op b)
       (fun b' => PinnedBuffer.capacity b' = PinnedBuffer.capacity b /\
                  PinnedBuffer.hostPtr b' = PinnedBuffer.hostPtr b /\
                  PinnedBuffer.devPtr b' = PinnedBuffer.devPtr b)).
Proof.
  split; [| split].
  - intros op b Hle. split.
    + intros σ. apply TraceFacts.only_calls_of, LifetimeFacts.device_op_steady, Hle.
    + apply LifetimeFacts.device_op_same, Hle.
  - intros op b Hle. split.
    + intros σ. apply TraceFacts.only_calls_of, LifetimeFacts.host_op_steady, Hle.
    + apply LifetimeFacts.host_op_same, Hle.
  - intros op b Hle. split.
    + intros σ. apply TraceFacts.only_calls_of, LifetimeFacts.pinned_op_steady, Hle.
    + apply LifetimeFacts.pinned_op_same, Hle.
Qed.

Lemma no_allocation_within_capacity_witness :
  Forall no_alloc
    (calls_of (PinnedOp.run (PinnedOp.CopyDevice demo_device 0%nat) demo_pinned) demo) /\
  calls_of (PinnedOp.run (PinnedOp.CopyDevice demo_device 0%nat) demo_pinned) demo
    = [CallMemcpyAsync 0%nat].
Proof.
  destruct (no_allocation_within_capacity float_t) as (_ & _ & Hpin).
  assert (Hle : PinnedOp.request (PinnedOp.CopyDevice demo_device 0%nat) demo_pinned
                <= PinnedBuffer.capacity demo_pinned) by (cbn; lia).
  split; [exact (proj1 (Hpin _ demo_pinned Hle) demo) | reflexivity].
Defined.

(** ** Elements, clearing and transfers *)

(** X8. [operator[]] on the host side: an element that was stored is
    read back as stored, and storing it changes no other element. *)
Theorem element_store_then_load (T : ctype) (σ : state) (i j : Z) (v : list byte)
    (Hi : 0 <= i) (Hj : 0 <= j) (Hlen : Z.of_nat (length v) = sizeof T) :
  (forall b : HostBuffer.t T,
     HostBuffer.wf σ b -> i < HostBuffer._size b -> j < HostBuffer._size b ->
     exists σ',
       HostBuffer.set i v b σ = Ok (tt, σ') /\
       HostBuffer.get i b σ' = Ok (Init <$> v, σ') /\
       (j <> i -> exists old, HostBuffer.get j b σ = Ok (old, σ) /\
                              HostBuffer.get j b σ' = Ok (old, σ'))) /\
  (forall b : PinnedBuffer.t T,
     PinnedBuffer.wf σ b -> i < PinnedBuffer._size b -> j < PinnedBuffer._size b ->
     exists σ',
       PinnedBuffer.set i v b σ = Ok (tt, σ') /\
       PinnedBuffer.get i b σ' = Ok (Init <$> v, σ') /\
       (j <> i -> exists old, PinnedBuffer.get j b σ = Ok (old, σ) /\
                              PinnedBuffer.get j b σ' = Ok (old, σ'))).
Proof.
  pose proof (sizeof_pos T) as Hs.
  assert (Hcore : forall p blk cap size,
            hostmem (mem σ) !! p = Some blk ->
            Z.of_nat (length blk) = sizeof T * cap -> size <= cap ->
            i < size -> j < size ->
            exists σ',
              host_store p (i * sizeof T) v σ = Ok (tt, σ') /\
              host_load p (i * sizeof T) (sizeof T) σ' = Ok (Init <$> v, σ') /\
              (j <> i -> exists old,
                 host_load p (j * sizeof T) (sizeof T) σ = Ok (old, σ) /\
                 host_load p (j * sizeof T) (sizeof T) σ' = Ok (old, σ'))).
  { intros p blk cap size Hblk Hl Hsz Hil Hjl. destruct σ as [m q sc tr]. cbn [mem] in Hblk.
    assert (Hfit : forall k, 0 <= k < size ->
              (Z.to_nat (k * sizeof T) + Z.to_nat (sizeof T) <= length blk)%nat).
    { intros k Hk. assert ((k + 1) * sizeof T <= sizeof T * cap) by nia.
      assert (0 <= k * sizeof T) by nia. lia. }
    assert (Hlv : length (Init <$> v) = Z.to_nat (sizeof T)) by (rewrite length_fmap; lia).
    assert (Hoff : (Z.to_nat (i * sizeof T) + length v <= length blk)%nat)
      by (specialize (Hfit i ltac:(lia)); lia).
    rewrite (IndependenceFacts.host_store_ok _ _ _ _ _ _ _ _ Hblk Hoff).
    eexists. split; [reflexivity |].
    assert (Hlen' : length (take (Z.to_nat (i * sizeof T)) blk ++ (Init <$> v) ++
                            drop (Z.to_nat (i * sizeof T) + length v) blk) = length blk).
    { rewrite <- (length_fmap Init v) at 1. apply ElementFacts.splice_length.
      rewrite length_fmap. exact Hoff. }
    split.
    - rewrite (ElementFacts.host_load_ok _ _ _ _ _ _ _ _ (lookup_insert_eq _ _ _))
        by (rewrite Hlen'; apply Hfit; lia).
      f_equal. f_equal.
      apply (IndependenceFacts.element_written T blk i (Init <$> v)); [lia | exact Hlv | lia].
    - intros Hne. eexists. split.
      + apply (ElementFacts.host_load_ok _ _ _ _ _ _ _ _ Hblk). apply Hfit. lia.
      + rewrite (ElementFacts.host_load_ok _ _ _ _ _ _ _ _ (lookup_insert_eq _ _ _))
          by (rewrite Hlen'; apply Hfit; lia).
        f_equal. f_equal. rewrite <- (length_fmap Init v).
        apply (ElementFacts.element_other T blk (Init <$> v) i j); lia. }
  split.
  - intros b ((Hsz & Hnull) & _ & Halloc) Hil Hjl.
    assert (Hp : HostBuffer.hostptr b <> nullptr) by (intros E; apply Hnull in E; lia).
    destruct (Halloc Hp) as (blk & Hblk & Hl).
    exact (Hcore _ _ _ _ Hblk Hl (proj2 Hsz) Hil Hjl).
  - intros b ((Hsz & Hnull & Hboth) & _ & Halloc) Hil Hjl.
    assert (Hp : PinnedBuffer.devptr b <> nullptr) by (intros E; apply Hnull in E; lia).
    destruct (Halloc Hp) as (_ & (blk & Hblk & Hl)).
    exact (Hcore _ _ _ _ Hblk Hl (proj2 Hsz) Hil Hjl).
Qed.

Lemma element_store_then_load_witness :
  exists σ',
    HostBuffer.set 1 [x0a; x0b; x0c; x0d] demo_host demo = Ok (tt, σ') /\
    HostBuffer.get 1 demo_host σ' = Ok ([Init x0a; Init x0b; Init x0c; Init x0d], σ') /\
    exists old, HostBuffer.get 2 demo_host demo = Ok (old, demo) /\
                HostBuffer.get 2 demo_host σ' = Ok (old, σ').
Proof.
  assert (H0 : 0 <= 1) by lia. assert (H2 : 0 <= 2) by lia.
  destruct (element_store_then_load float_t demo 1 2 [x0a; x0b; x0c; x0d] H0 H2 eq_refl)
    as (Hhost & _).
  assert (H1s : 1 < HostBuffer._size demo_host) by (cbn; lia).
  assert (H2s : 2 < HostBuffer._size demo_host) by (cbn; lia).
  destruct (Hhost demo_host ExampleFacts.wf_demo_host H1s H2s) as (σ' & Hset & Hget & Hoth).
  exists σ'. split; [exact Hset |]. split; [exact Hget |]. apply Hoth. lia.
Defined.

(** X9. Clearing sets the first [size] elements to zero bytes and leaves
    the rest of the allocation as it was: [HostBuffer::clear] at once, the
    device-side clears once the stream is synchronised; [PinnedBuffer::clear]
    does so on both sides. *)
Theorem clear_zeroes_the_elements (T : ctype) (σ : state) (Hidle : quiescent σ) :
  (forall (b : HostBuffer.t T) blk,
     HostBuffer.wf σ b -> 0 < HostBuffer._size b ->
     host_bytes σ (HostBuffer.hostPtr b) = Some blk ->
     exists σ',
       HostBuffer.clear b σ = Ok (tt, σ') /\
       host_bytes σ' (HostBuffer.hostPtr b) =
         Some (replicate (Z.to_nat (sizeof T * HostBuffer._size b)) (Init x00) ++
               drop (Z.to_nat (sizeof T * HostBuffer._size b)) blk) /\
       devmem (mem σ') = devmem (mem σ)) /\
  (forall st (b : DeviceBuffer.t T) blk,
     DeviceBuffer.wf σ b -> 0 < DeviceBuffer._size b ->
     device_bytes σ (DeviceBuffer.devPtr b) = Some blk ->
     exists σ',
       (DeviceBuffer.clear st b ;; cudaStreamSynchronize st) σ = Ok (tt, σ') /\
       quiescent σ' /\
       device_bytes σ' (DeviceBuffer.devPtr b) =
         Some (replicate (Z.to_nat (sizeof T * DeviceBuffer._size b)) (Init x00) ++
               drop (Z.to_nat (sizeof T * DeviceBuffer._size b)) blk) /\
       hostmem (mem σ') = hostmem (mem σ)) /\
  (forall st (b : PinnedBuffer.t T) hblk dblk,
     PinnedBuffer.wf σ b -> 0 < PinnedBuffer._size b ->
     host_bytes σ (PinnedBuffer.hostPtr b) = Some hblk ->
     device_bytes σ (PinnedBuffer.devPtr b) = Some dblk ->
     exists σ',
       (PinnedBuffer.clear st b ;; cudaStreamSynchronize st) σ = Ok (tt, σ') /\
       quiescent σ' /\
       host_bytes σ' (PinnedBuffer.hostPtr b) =
         Some (replicate (Z.to_nat (sizeof T * PinnedBuffer._size b)) (Init x00) ++
               drop (Z.to_nat (sizeof T * PinnedBuffer._size b)) hblk) /\
       device_bytes σ' (PinnedBuffer.devPtr b) =
         Some (replicate (Z.to_nat (sizeof T * PinnedBuffer._size b)) (Init x00) ++
               drop (Z.to_nat (sizeof T * PinnedBuffer._size b)) dblk)).
Proof.
  pose proof (sizeof_pos T) as Hs.
  destruct σ as [m q sc tr]. unfold quiescent in Hidle. cbn [pending] in Hidle. subst q.
  unfold host_bytes, device_bytes. cbn [mem].
  split; [| split].
  - intros b blk ((Hsz & Hnull) & Hcap & Halloc) Hpos Hblk. cbn [mem] in Halloc.
    assert (Hp : HostBuffer.hostptr b <> nullptr) by (intros E; apply Hnull in E; lia).
    destruct (Halloc Hp) as (blk' & Hblk' & Hl).
    unfold HostBuffer.hostPtr in Hblk. rewrite Hblk in Hblk'. injection Hblk' as <-.
    assert (Hnz : sizeof T * HostBuffer._size b <> 0) by nia.
    assert (Hk : (Z.to_nat (sizeof T * HostBuffer._size b) <= length blk)%nat) by nia.
    unfold HostBuffer.clear. rewrite bytes_of_small by nia.
    rewrite (TransferFacts.memset_ok _ x00 _ _ _ _ _ _ Hnz Hblk Hk).
    eexists. split; [reflexivity |]. cbn [mem hostmem devmem].
    split; [apply lookup_insert_eq | reflexivity].
  - intros st b blk ((Hsz & Hnull) & Hcap & Halloc) Hpos Hblk. cbn [mem] in Halloc.
    assert (Hp : DeviceBuffer.devptr b <> nullptr) by (intros E; apply Hnull in E; lia).
    destruct (Halloc Hp) as (blk' & Hblk' & Hl).
    unfold DeviceBuffer.devPtr in Hblk. rewrite Hblk in Hblk'. injection Hblk' as <-.
    unfold DeviceBuffer.clear, DeviceBuffer.clearDevice.
    replace (0 <? DeviceBuffer._size b) with true by (symmetry; apply Z.ltb_lt; exact Hpos).
    rewrite bytes_of_small by nia.
    rewrite (bind_ok _ _ _ _ _ (cudaMemsetAsync_idle _ _ _ _ _ _ _)).
    assert (Hk : (Z.to_nat (sizeof T * DeviceBuffer._size b) <= length blk)%nat) by nia.
    rewrite (cudaStreamSynchronize_single _ _ _ _ _ _
               (ElementFacts.exec_memset _ x00 _ _ _ Hblk Hk)).
    eexists. split; [reflexivity |]. split; [reflexivity |]. cbn [mem hostmem devmem].
    split; [apply lookup_insert_eq | reflexivity].
  - intros st b hblk dblk Hwf Hpos Hh Hd.
    destruct (TransferFacts.wf_blocks T b _ Hwf Hpos)
      as (Hhn & Hdn & hblk' & dblk' & Hh' & Hd' & Hhl & Hdl & Hbytes & Hk).
    cbn [mem] in Hh', Hd'. unfold PinnedBuffer.hostPtr, PinnedBuffer.devPtr in *.
    rewrite Hh in Hh'. injection Hh' as <-. rewrite Hd in Hd'. injection Hd' as <-.
    unfold PinnedBuffer.clear, PinnedBuffer.clearDevice, PinnedBuffer.clearHost.
    replace (0 <? PinnedBuffer._size b) with true by (symmetry; apply Z.ltb_lt; exact Hpos).
    rewrite Hbytes. rewrite !bind_assoc.
    rewrite (bind_ok _ _ _ _ _ (cudaMemsetAsync_idle _ _ _ _ _ _ _)).
    assert (Hnz : sizeof T * PinnedBuffer._size b <> 0) by lia.
    assert (Hkh : (Z.to_nat (sizeof T * PinnedBuffer._size b) <= length hblk)%nat) by lia.
    assert (Hkd : (Z.to_nat (sizeof T * PinnedBuffer._size b) <= length dblk)%nat) by lia.
    rewrite (bind_ok _ _ _ _ _ (TransferFacts.memset_ok _ x00 _ _ _ _ _ _ Hnz Hh Hkh)).
    rewrite (cudaStreamSynchronize_single _ _ _ _ _ _
               (ElementFacts.exec_memset (PinnedBuffer.devptr b) x00 _
                  (Memory _ (devmem m) (next m)) dblk Hd Hkd)).
    eexists. split; [reflexivity |]. split; [reflexivity |]. cbn [mem hostmem devmem].
    split; apply lookup_insert_eq.
Qed.

Lemma clear_zeroes_the_elements_witness :
  exists σ',
    (PinnedBuffer.clear 0%nat demo_pinned ;; cudaStreamSynchronize 0%nat) demo = Ok (tt, σ') /\
    host_bytes σ' (PinnedBuffer.hostPtr demo_pinned) =
      Some (replicate 12 (Init x00) ++ replicate 500 (Init x01)) /\
    device_bytes σ' (PinnedBuffer.devPtr demo_pinned) =
      Some (replicate 12 (Init x00) ++ replicate 500 (Init x02)).
Proof.
  destruct (clear_zeroes_the_elements float_t demo eq_refl) as (_ & _ & Hpin).
  assert (Hpos : 0 < PinnedBuffer._size demo_pinned) by (cbn; lia).
  destruct (Hpin 0%nat demo_pinned (replicate 512 (Init x01)) (replicate 512 (Init x02))
              ExampleFacts.wf_demo_pinned Hpos
              (lookup_singleton_eq _ _) (lookup_singleton_eq _ _))
    as (σ' & Hrun & _ & Hh & Hd).
  exists σ'. split; [exact Hrun |]. split; [exact Hh | exact Hd].
Defined.

(** X10. The two transfers of a [PinnedBuffer]: after [uploadToDevice] and
    the synchronisation of its stream the first [size] elements of the device
    side are those of the host side; after a synchronous
    [downloadFromDevice] the first [size] elements of the host side are
    those of the device side.  The source side and the bytes beyond [size]
    are unchanged. *)
Theorem transfer_copies_the_elements (T : ctype) (b : PinnedBuffer.t T) (st : nat)
    (σ : state) (hblk dblk : list cell)
    (Hidle : quiescent σ) (Hwf : PinnedBuffer.wf σ b) (Hpos : 0 < PinnedBuffer._size b)
    (Hh : host_bytes σ (PinnedBuffer.hostPtr b) = Some hblk)
    (Hd : device_bytes σ (PinnedBuffer.devPtr b) = Some dblk) :
  (exists σ',
     (PinnedBuffer.uploadToDevice st b ;; cudaStreamSynchronize st) σ = Ok (tt, σ') /\
     quiescent σ' /\ hostmem (mem σ') = hostmem (mem σ) /\
     device_bytes σ' (PinnedBuffer.devPtr b) =
       Some (take (Z.to_nat (sizeof T * PinnedBuffer._size b)) hblk ++
             drop (Z.to_nat (sizeof T * PinnedBuffer._size b)) dblk)) /\
  (exists σ',
     PinnedBuffer.downloadFromDevice st Synch b σ = Ok (tt, σ') /\
     quiescent σ' /\ devmem (mem σ') = devmem (mem σ) /\
     host_bytes σ' (PinnedBuffer.hostPtr b) =
       Some (take (Z.to_nat (sizeof T * PinnedBuffer._size b)) dblk ++
             drop (Z.to_nat (sizeof T * PinnedBuffer._size b)) hblk)).
Proof.
  destruct σ as [m q sc tr]. unfold quiescent in Hidle. cbn [pending] in Hidle. subst q.
  destruct (TransferFacts.wf_blocks T b _ Hwf Hpos)
    as (Hhn & Hdn & hblk' & dblk' & Hh' & Hd' & Hhl & Hdl & Hbytes & Hk).
  unfold host_bytes, device_bytes, PinnedBuffer.hostPtr, PinnedBuffer.devPtr in *.
  cbn [mem] in *.
  rewrite Hh in Hh'. injection Hh' as <-. rewrite Hd in Hd'. injection Hd' as <-.
  assert (Hkh : (Z.to_nat (sizeof T * PinnedBuffer._size b) <= length hblk)%nat) by lia.
  assert (Hkd : (Z.to_nat (sizeof T * PinnedBuffer._size b) <= length dblk)%nat) by lia.
  split.
  - unfold PinnedBuffer.uploadToDevice.
    replace (0 <? PinnedBuffer._size b) with true by (symmetry; apply Z.ltb_lt; exact Hpos).
    rewrite Hbytes.
    rewrite (ElementFacts.copy_then_sync _ _ _ cudaMemcpyHostToDevice st m sc tr _
               (exec_memcpy m _ _ _ cudaMemcpyHostToDevice hblk dblk Hh Hd Hkh Hkd)).
    eexists. split; [reflexivity |]. split; [reflexivity |]. cbn.
    split; [reflexivity | apply lookup_insert_eq].
  - unfold PinnedBuffer.downloadFromDevice.
    replace (0 <? PinnedBuffer._size b) with true by (symmetry; apply Z.ltb_lt; exact Hpos).
    rewrite Hbytes.
    rewrite (ElementFacts.copy_then_sync _ _ _ cudaMemcpyDeviceToHost st m sc tr _
               (exec_memcpy m _ _ _ cudaMemcpyDeviceToHost dblk hblk Hd Hh Hkd Hkh)).
    eexists. split; [reflexivity |]. split; [reflexivity |]. cbn.
    split; [reflexivity | apply lookup_insert_eq].
Qed.

Lemma transfer_copies_the_elements_witness :
  exists σ',
    PinnedBuffer.downloadFromDevice 0%nat Synch demo_pinned demo = Ok (tt, σ') /\
    host_bytes σ' (PinnedBuffer.hostPtr demo_pinned) =
      Some (replicate 12 (Init x02) ++ replicate 500 (Init x01)).
Proof.
  assert (Hpos : 0 < PinnedBuffer._size demo_pinned) by (cbn; lia).
  destruct (transfer_copies_the_elements float_t demo_pinned 0%nat demo
              (replicate 512 (Init x01)) (replicate 512 (Init x02))
              eq_refl ExampleFacts.wf_demo_pinned Hpos
              (lookup_singleton_eq _ _) (lookup_singleton_eq _ _))
    as (_ & σ' & Hrun & _ & _ & Hh).
  exists σ'. split; [exact Hrun | exact Hh].
Defined.

(** ** Copies into a [DeviceBuffer] *)

(** X11. Each asynchronous copy into a [DeviceBuffer] (from a container with
    a device pointer or with a host pointer, and from either side of a
    [PinnedBuffer]) gives the destination the size of the source and, once
    the stream is synchronised, the elements of the source; the source
    keeps its bytes and host memory is unchanged. *)
Theorem device_buffer_receives (T : ctype) (b : DeviceBuffer.t T) (st : nat) (σ : state)
    (Hok : mem_ok (mem σ)) (Hidle : quiescent σ) (Hwf : DeviceBuffer.wf σ b) :
  (forall Cont `{DeviceSource T Cont} (cont : Cont) sblk,
     fits T (dsrc_size cont) -> 0 < dsrc_size cont ->
     device_bytes σ (dsrc_devPtr cont) = Some sblk ->
     sizeof T * dsrc_size cont <= Z.of_nat (length sblk) ->
     dsrc_devPtr cont <> DeviceBuffer.devPtr b ->
     (exists b' σ' dblk,
        (x <- DeviceBuffer.copy_dev cont st b ;; cudaStreamSynchronize st ;; ret x) σ
          = Ok (b', σ') /\
        DeviceBuffer._size b' = dsrc_size cont /\ quiescent σ' /\
        device_bytes σ' (DeviceBuffer.devPtr b') = Some dblk /\
        take (Z.to_nat (sizeof T * dsrc_size cont)) dblk =
          take (Z.to_nat (sizeof T * dsrc_size cont)) sblk /\
        device_bytes σ' (dsrc_devPtr cont) = Some sblk /\
        hostmem (mem σ') = hostmem (mem σ)) /\
     (exists b' σ' dblk,
        (x <- DeviceBuffer.copyFromDevice cont st b ;; cudaStreamSynchronize st ;; ret x) σ
          = Ok (b', σ') /\
        DeviceBuffer._size b' = dsrc_size cont /\ quiescent σ' /\
        device_bytes σ' (DeviceBuffer.devPtr b') = Some dblk /\
        take (Z.to_nat (sizeof T * dsrc_size cont)) dblk =
          take (Z.to_nat (sizeof T * dsrc_size cont)) sblk /\
        device_bytes σ' (dsrc_devPtr cont) = Some sblk /\
        hostmem (mem σ') = hostmem (mem σ))) /\
  (forall Cont `{HostSource T Cont} (cont : Cont) sblk,
     fits T (hsrc_size cont) -> 0 < hsrc_size cont ->
     host_bytes σ (hsrc_hostPtr cont) = Some sblk ->
     sizeof T * hsrc_size cont <= Z.of_nat (length sblk) ->
     (exists b' σ' dblk,
        (x <- DeviceBuffer.copy_host cont st b ;; cudaStreamSynchronize st ;; ret x) σ
          = Ok (b', σ') /\
        DeviceBuffer._size b' = hsrc_size cont /\ quiescent σ' /\
        device_bytes σ' (DeviceBuffer.devPtr b') = Some dblk /\
        take (Z.to_nat (sizeof T * hsrc_size cont)) dblk =
          take (Z.to_nat (sizeof T * hsrc_size cont)) sblk /\
        hostmem (mem σ') = hostmem (mem σ)) /\
     (exists b' σ' dblk,
        (x <- DeviceBuffer.copyFromHost cont st b ;; cudaStreamSynchronize st ;; ret x) σ
          = Ok (b', σ') /\
        DeviceBuffer._size b' = hsrc_size cont /\ quiescent σ' /\
        device_bytes σ' (DeviceBuffer.devPtr b') = Some dblk /\
        take (Z.to_nat (sizeof T * hsrc_size cont)) dblk =
          take (Z.to_nat (sizeof T * hsrc_size cont)) sblk /\
        hostmem (mem σ') = hostmem (mem σ))).
Proof.
  destruct σ as [m q sc tr]. unfold quiescent in Hidle. cbn [pending] in Hidle. subst q.
  cbn [mem] in Hok. unfold device_bytes, host_bytes, DeviceBuffer.devPtr. cbn [mem].
  assert (Hcore : forall kind src n sblk,
            dst_space kind = Device -> fits T n -> 0 < n ->
            heap_of (src_space kind) m !! src = Some sblk ->
            sizeof T * n <= Z.of_nat (length sblk) ->
            (src_space kind = Device -> src <> DeviceBuffer.devptr b) ->
            exists b' σ' dblk,
              (x <- (b' <- DeviceBuffer.resize_anew n b ;;
                     (if 0 <? DeviceBuffer._size b'
                      then cudaMemcpyAsync (DeviceBuffer.devptr b') src
                             (bytes_of T (DeviceBuffer._size b')) kind st
                      else ret tt) ;;
                     ret b') ;;
               cudaStreamSynchronize st ;; ret x) (State m [] sc tr) = Ok (b', σ') /\
              DeviceBuffer._size b' = n /\ quiescent σ' /\
              devmem (mem σ') !! DeviceBuffer.devptr b' = Some dblk /\
              take (Z.to_nat (sizeof T * n)) dblk = take (Z.to_nat (sizeof T * n)) sblk /\
              heap_of (src_space kind) (mem σ') !! src = Some sblk /\
              hostmem (mem σ') = hostmem m).
  { intros kind src n sblk Hkind Hfit Hpos Hsrc Hlen Hdist.
    destruct (ReceiveFacts.device_receive T b kind st src n sblk m sc tr Hok Hwf Hkind Hfit
                Hpos Hsrc Hlen Hdist)
      as (b' & m' & sc' & tr' & dblk & Hrun & Hsize & _ & _ & Hh & Hd & Htake & Hs & _).
    exists b', (State m' [] sc' tr'), dblk. split; [exact Hrun |]. split; [exact Hsize |].
    split; [reflexivity |]. split; [exact Hd |]. split; [exact Htake |].
    split; [exact Hs | exact Hh]. }
  split.
  - intros Cont HC cont sblk Hfit Hpos Hsrc Hlen Hdist.
    assert (H : exists b' σ' dblk,
              (x <- DeviceBuffer.copy_dev cont st b ;; cudaStreamSynchronize st ;; ret x)
                (State m [] sc tr) = Ok (b', σ') /\
              DeviceBuffer._size b' = dsrc_size cont /\ quiescent σ' /\
              devmem (mem σ') !! DeviceBuffer.devptr b' = Some dblk /\
              take (Z.to_nat (sizeof T * dsrc_size cont)) dblk =
                take (Z.to_nat (sizeof T * dsrc_size cont)) sblk /\
              devmem (mem σ') !! dsrc_devPtr cont = Some sblk /\
              hostmem (mem σ') = hostmem m)
      by exact (Hcore cudaMemcpyDeviceToDevice (dsrc_devPtr cont) (dsrc_size cont) sblk
                  eq_refl Hfit Hpos Hsrc Hlen (fun _ => Hdist)).
    split; exact H.
  - intros Cont HC cont sblk Hfit Hpos Hsrc Hlen.
    assert (Hnodist : src_space cudaMemcpyHostToDevice = Device ->
                      hsrc_hostPtr cont <> DeviceBuffer.devptr b) by discriminate.
    destruct (Hcore cudaMemcpyHostToDevice (hsrc_hostPtr cont) (hsrc_size cont) sblk
                eq_refl Hfit Hpos Hsrc Hlen Hnodist)
      as (b' & σ' & dblk & Hrun & Hsize & Hq & Hd & Htake & _ & Hh).
    split; exists b', σ', dblk; (split; [exact Hrun |]); repeat (split; [assumption |]);
      assumption.
Qed.

Lemma device_buffer_receives_witness :
  exists b' σ' dblk,
    (x <- DeviceBuffer.copy_host demo_host 0%nat DeviceBuffer.empty ;;
     cudaStreamSynchronize 0%nat ;; ret x) demo = Ok (b', σ') /\
    DeviceBuffer._size b' = 3 /\
    device_bytes σ' (DeviceBuffer.devPtr b') = Some dblk /\
    take 12 dblk = replicate 12 (Init x01).
Proof.
  destruct (device_buffer_receives float_t DeviceBuffer.empty 0%nat demo
              ExampleFacts.mem_ok_demo eq_refl (ExampleFacts.wf_empty_device float_t demo))
    as (_ & Hhost).
  assert (Hpos : 0 < hsrc_size demo_host) by (cbn; lia).
  assert (Hlen : sizeof float_t * hsrc_size demo_host
                 <= Z.of_nat (length (replicate 512 (Init x01)))) by (cbn; lia).
  assert (Hfit : fits float_t (hsrc_size demo_host))
    by exact (ExampleFacts.fits_float 3 eq_refl).
  destruct (Hhost (HostBuffer.t float_t) HostBuffer.HostBuffer_HostSource demo_host
              (replicate 512 (Init x01)) Hfit Hpos (lookup_singleton_eq _ _) Hlen)
    as ((b' & σ' & dblk & Hrun & Hsize & _ & Hd & Htake & _) & _).
  exists b', σ', dblk. split; [exact Hrun |]. split; [exact Hsize |].
  split; [exact Hd | exact Htake].
Defined.

(** X12. The synchronous [DeviceBuffer::copy(const DeviceBuffer&)], which
    is also the copy constructor and the copy assignment, is a deep copy: it
    returns with the destination holding the size and the elements of the
    source in an allocation of its own, nothing left in flight, and the
    source untouched. *)
Theorem device_buffer_copy_is_deep (T : ctype) (cont b : DeviceBuffer.t T) (σ : state)
    (Hok : mem_ok (mem σ)) (Hidle : quiescent σ)
    (Hwf : DeviceBuffer.wf σ b) (Hsrc : DeviceBuffer.wf σ cont)
    (Hfit : fits T (DeviceBuffer._size cont))
    (Hdist : DeviceBuffer.devPtr cont <> nullptr ->
             DeviceBuffer.devPtr cont <> DeviceBuffer.devPtr b) :
  exists b' σ',
    DeviceBuffer.copy_assign cont b σ = Ok (b', σ') /\
    DeviceBuffer._size b' = DeviceBuffer._size cont /\ quiescent σ' /\
    hostmem (mem σ') = hostmem (mem σ) /\
    device_bytes σ' (DeviceBuffer.devPtr cont) = device_bytes σ (DeviceBuffer.devPtr cont) /\
    (0 < DeviceBuffer._size cont ->
     DeviceBuffer.devPtr b' <> DeviceBuffer.devPtr cont /\
     exists sblk dblk,
       device_bytes σ (DeviceBuffer.devPtr cont) = Some sblk /\
       device_bytes σ' (DeviceBuffer.devPtr b') = Some dblk /\
       take (Z.to_nat (sizeof T * DeviceBuffer._size cont)) dblk =
         take (Z.to_nat (sizeof T * DeviceBuffer._size cont)) sblk).
Proof.
  destruct σ as [m q sc tr]. unfold quiescent in Hidle. cbn [pending] in Hidle. subst q.
  cbn [mem] in Hok. unfold device_bytes, DeviceBuffer.devPtr in *. cbn [mem].
  unfold DeviceBuffer.copy_assign, DeviceBuffer.copy, DeviceBuffer.resize_anew,
    DeviceBuffer.devPtr.
  set (n := DeviceBuffer._size cont) in *.
  destruct (Z.lt_ge_cases 0 n) as [Hpos | Hzero].
  - destruct (ReceiveFacts.device_ready T n 0%nat false b m sc tr Hok Hwf Hfit Hpos)
      as (b' & m' & sc' & tr' & dblk & Hrun & Hsize & Hok' & Hwf' & Hh & Hd & Hl & Hbytes
          & Hk & Hframe).
    destruct Hsrc as ((Hssz & Hsnull) & _ & Hsalloc). cbn [mem] in Hsalloc. fold n in Hssz.
    assert (Hp : DeviceBuffer.devptr cont <> nullptr) by (intros E; apply Hsnull in E; lia).
    destruct (Hsalloc Hp) as (sblk & Hsb & Hsl).
    destruct (Hframe _ (Hdist Hp) (mk_is_Some _ _ Hsb)) as [Hne Heq].
    assert (Hks : (Z.to_nat (sizeof T * n) <= length sblk)%nat) by nia.
    assert (Hkd : (Z.to_nat (sizeof T * n) <= length dblk)%nat) by lia.
    assert (Hsb' : devmem m' !! DeviceBuffer.devptr cont = Some sblk)
      by (rewrite Heq; exact Hsb).
    pose proof (exec_memcpy m' _ _ _ cudaMemcpyDeviceToDevice sblk dblk Hsb' Hd Hks Hkd)
      as Hexec.
    rewrite (bind_ok _ _ _ _ _ Hrun). rewrite Hsize.
    replace (0 <? n) with true by (symmetry; apply Z.ltb_lt; exact Hpos).
    rewrite Hbytes.
    rewrite (bind_ok _ _ _ _ _ (ElementFacts.cudaMemcpy_idle _ _ _ _ _ _ _ _ Hexec)).
    destruct (ReceiveFacts.copied_prefix _ sblk dblk Hks Hkd) as (Htake & _ & _).
    eexists _, _. split; [reflexivity |]. split; [exact Hsize |]. split; [reflexivity |].
    cbn [mem set_heap dst_space heap_of hostmem devmem].
    split; [exact Hh |].
    split; [rewrite lookup_insert_ne by (apply not_eq_sym; exact Hne); congruence |].
    intros _. split; [apply not_eq_sym; exact Hne |].
    exists sblk. eexists. split; [exact Hsb |]. split; [apply lookup_insert_eq | exact Htake].
  - assert (Hn0 : n = 0) by (destruct Hfit; lia).
    assert (Hle : n <= DeviceBuffer.capacity b) by (destruct Hwf as ((? & _) & _); lia).
    rewrite (bind_ok _ _ _ _ _ (DeviceFacts.device_resize_keep T n 0%nat false b _ Hle)).
    cbn [DeviceBuffer._size]. rewrite Hn0. cbn [Z.ltb Z.compare].
    rewrite (bind_ok _ _ _ _ _ (eq_refl : ret tt _ = Ok (tt, _))).
    eexists _, _. split; [reflexivity |]. split; [reflexivity |]. split; [reflexivity |].
    split; [reflexivity |]. split; [reflexivity | lia].
Qed.

Lemma device_buffer_copy_is_deep_witness :
  exists b' σ' dblk,
    DeviceBuffer.copy_construct demo_device demo = Ok (b', σ') /\
    DeviceBuffer._size b' = 3 /\
    DeviceBuffer.devPtr b' <> DeviceBuffer.devPtr demo_device /\
    device_bytes σ' (DeviceBuffer.devPtr b') = Some dblk /\
    take 12 dblk = replicate 12 (Init x02).
Proof.
  assert (Hdist : DeviceBuffer.devPtr demo_device <> nullptr ->
                  DeviceBuffer.devPtr demo_device
                  <> DeviceBuffer.devPtr (@DeviceBuffer.empty float_t))
    by (intros _; discriminate).
  destruct (device_buffer_copy_is_deep float_t demo_device DeviceBuffer.empty demo
              ExampleFacts.mem_ok_demo eq_refl (ExampleFacts.wf_empty_device float_t demo)
              ExampleFacts.wf_demo_device (ExampleFacts.fits_float 3 eq_refl) Hdist)
    as (b' & σ' & Hrun & Hsize & _ & _ & _ & Hdata).
  assert (Hpos : 0 < DeviceBuffer._size demo_device) by (cbn; lia).
  destruct (Hdata Hpos) as (Hne & sblk & dblk & Hs & Hd & Htake).
  assert (Es : sblk = replicate 512 (Init x02)).
  { assert (E : Some sblk = Some (replicate 512 (Init x02)))
      by (rewrite <- Hs; apply lookup_singleton_eq).
    injection E as E. exact E. }
  exists b', σ', dblk. split; [exact Hrun |]. split; [exact Hsize |].
  split; [exact Hne |]. split; [exact Hd |]. rewrite Es in Htake. exact Htake.
Defined.

(** ** Copies into a [HostBuffer] *)

(** X13. [HostBuffer::copy] from a container with a host pointer (which is
    also the copy constructor and the copy assignment) returns with the
    destination holding the size and the elements of the source; the copy
    from a container with a device pointer does so once the stream is
    synchronised.  The source keeps its bytes and device memory is
    unchanged. *)
Theorem host_buffer_receives (T : ctype) (b : HostBuffer.t T) (st : nat) (σ : state)
    (Hok : mem_ok (mem σ)) (Hidle : quiescent σ) (Hwf : HostBuffer.wf σ b) :
  (forall Cont `{HostSource T Cont} (cont : Cont) sblk,
     fits T (hsrc_size cont) -> 0 < hsrc_size cont ->
     host_bytes σ (hsrc_hostPtr cont) = Some sblk ->
     sizeof T * hsrc_size cont <= Z.of_nat (length sblk) ->
     hsrc_hostPtr cont <> HostBuffer.hostPtr b ->
     exists b' σ' dblk,
       HostBuffer.copy cont b σ = Ok (b', σ') /\
       HostBuffer._size b' = hsrc_size cont /\ quiescent σ' /\
       HostBuffer.hostPtr b' <> hsrc_hostPtr cont /\
       host_bytes σ' (HostBuffer.hostPtr b') = Some dblk /\
       take (Z.to_nat (sizeof T * hsrc_size cont)) dblk =
         take (Z.to_nat (sizeof T * hsrc_size cont)) sblk /\
       host_bytes σ' (hsrc_hostPtr cont) = Some sblk /\
       devmem (mem σ') = devmem (mem σ)) /\
  (forall Cont `{DeviceSource T Cont} (cont : Cont) sblk,
     fits T (dsrc_size cont) -> 0 < dsrc_size cont ->
     device_bytes σ (dsrc_devPtr cont) = Some sblk ->
     sizeof T * dsrc_size cont <= Z.of_nat (length sblk) ->
     exists b' σ' dblk,
       (x <- HostBuffer.copy_dev cont st b ;; cudaStreamSynchronize st ;; ret x) σ
         = Ok (b', σ') /\
       HostBuffer._size b' = dsrc_size cont /\ quiescent σ' /\
       host_bytes σ' (HostBuffer.hostPtr b') = Some dblk /\
       take (Z.to_nat (sizeof T * dsrc_size cont)) dblk =
         take (Z.to_nat (sizeof T * dsrc_size cont)) sblk /\
       devmem (mem σ') = devmem (mem σ)).
Proof.
  destruct σ as [m q sc tr]. unfold quiescent in Hidle. cbn [pending] in Hidle. subst q.
  cbn [mem] in Hok. unfold device_bytes, host_bytes, HostBuffer.hostPtr. cbn [mem].
  split.
  - intros Cont HC cont sblk Hfit Hpos Hsrc Hlen Hdist.
    destruct (ReceiveFacts.host_receive_memcpy T b (hsrc_hostPtr cont) (hsrc_size cont) sblk
                m sc tr Hok Hwf Hfit Hpos Hsrc Hlen Hdist)
      as (b' & m' & sc' & tr' & dblk & Hrun & Hsize & _ & _ & Hd & Hb & Htake & Hne & Hs).
    exists b', (State m' [] sc' tr'), dblk. split; [exact Hrun |]. split; [exact Hsize |].
    split; [reflexivity |]. split; [apply not_eq_sym; exact Hne |].
    split; [exact Hb |]. split; [exact Htake |]. split; [exact Hs | exact Hd].
  - intros Cont HC cont sblk Hfit Hpos Hsrc Hlen.
    destruct (ReceiveFacts.host_receive_async T b st (dsrc_devPtr cont) (dsrc_size cont) sblk
                m sc tr Hok Hwf Hfit Hpos Hsrc Hlen)
      as (b' & m' & sc' & tr' & dblk & Hrun & Hsize & _ & _ & Hd & Hb & Htake & _).
    exists b', (State m' [] sc' tr'), dblk. split; [exact Hrun |]. split; [exact Hsize |].
    split; [reflexivity |]. split; [exact Hb |]. split; [exact Htake | exact Hd].
Qed.

Lemma host_buffer_receives_witness :
  exists b' σ' dblk,
    HostBuffer.copy_construct demo_host demo = Ok (b', σ') /\
    HostBuffer._size b' = 3 /\
    HostBuffer.hostPtr b' <> HostBuffer.hostPtr demo_host /\
    host_bytes σ' (HostBuffer.hostPtr b') = Some dblk /\
    take 12 dblk = replicate 12 (Init x01).
Proof.
  destruct (host_buffer_receives float_t HostBuffer.empty 0%nat demo
              ExampleFacts.mem_ok_demo eq_refl (ExampleFacts.wf_empty_host float_t demo))
    as (Hhost & _).
  assert (Hfit : fits float_t (hsrc_size demo_host))
    by exact (ExampleFacts.fits_float 3 eq_refl).
  assert (Hpos : 0 < hsrc_size demo_host) by (cbn; lia).
  assert (Hlen : sizeof float_t * hsrc_size demo_host
                 <= Z.of_nat (length (replicate 512 (Init x01)))) by (cbn; lia).
  assert (Hdist : hsrc_hostPtr demo_host <> HostBuffer.hostPtr (@HostBuffer.empty float_t))
    by discriminate.
  destruct (Hhost (HostBuffer.t float_t) HostBuffer.HostBuffer_HostSource demo_host
              (replicate 512 (Init x01)) Hfit Hpos (lookup_singleton_eq _ _) Hlen Hdist)
    as (b' & σ' & dblk & Hrun & Hsize & _ & Hne & Hd & Htake & _).
  exists b', σ', dblk. split; [exact Hrun |]. split; [exact Hsize |].
  split; [exact Hne |]. split; [exact Hd | exact Htake].
Defined.

(** X14. The type-erased copy moves bytes, not elements: when the element
    size of the source is a multiple of that of the host buffer, the host
    buffer holds, once the stream is synchronised, exactly as many bytes as
    the source has in use, and they are the bytes of the source. *)
Theorem genericCopy_moves_the_bytes (U : ctype) {C : Type} `{GPUcontainer C}
    (cont : C) (st : nat) (b : HostBuffer.t U) (σ : state) (sblk : list cell)
    (Hok : mem_ok (mem σ)) (Hidle : quiescent σ) (Hwf : HostBuffer.wf σ b)
    (Hmul : datatype_size cont mod sizeof U = 0)
    (Hfit : fits U (size cont * (datatype_size cont / sizeof U)))
    (Hpos : 0 < size cont * (datatype_size cont / sizeof U))
    (Hsrc : device_bytes σ (genericDevPtr cont) = Some sblk)
    (Hlen : datatype_size cont * size cont <= Z.of_nat (length sblk)) :
  exists b' σ' dblk,
    (x <- HostBuffer.genericCopy cont st b ;; cudaStreamSynchronize st ;; ret x) σ
      = Ok (b', σ') /\
    sizeof U * HostBuffer._size b' = datatype_size cont * size cont /\
    quiescent σ' /\
    host_bytes σ' (HostBuffer.hostPtr b') = Some dblk /\
    take (Z.to_nat (datatype_size cont * size cont)) dblk =
      take (Z.to_nat (datatype_size cont * size cont)) sblk /\
    devmem (mem σ') = devmem (mem σ).
Proof.
  destruct σ as [m q sc tr]. unfold quiescent in Hidle. cbn [pending] in Hidle. subst q.
  cbn [mem] in Hok. unfold device_bytes, host_bytes, HostBuffer.hostPtr in *. cbn [mem] in *.
  pose proof (sizeof_pos U) as Hs.
  set (n := size cont * (datatype_size cont / sizeof U)) in *.
  assert (Hbytes : sizeof U * n = datatype_size cont * size cont).
  { unfold n. pose proof (Z.div_mod (datatype_size cont) (sizeof U) ltac:(lia)) as Hdm.
    rewrite Hmul in Hdm. nia. }
  assert (Hn : size_mul (size cont) (datatype_size cont / sizeof U) = n).
  { unfold size_mul. fold n. apply Z.mod_small. destruct Hfit as [H0 Hf].
    unfold size_t_range in *. nia. }
  assert (Hlen' : sizeof U * n <= Z.of_nat (length sblk)) by lia.
  destruct (ReceiveFacts.host_receive_async U b st (genericDevPtr cont) n sblk
              m sc tr Hok Hwf Hfit Hpos Hsrc Hlen')
    as (b' & m' & sc' & tr' & dblk & Hrun & Hsize & _ & _ & Hd & Hb & Htake & _).
  unfold HostBuffer.genericCopy.
  replace (datatype_size cont mod sizeof U =? 0) with true
    by (symmetry; apply Z.eqb_eq; exact Hmul).
  cbn [negb]. cbv zeta. rewrite Hn.
  exists b', (State m' [] sc' tr'), dblk. split; [exact Hrun |].
  split; [rewrite Hsize; exact Hbytes |]. split; [reflexivity |].
  split; [exact Hb |]. rewrite <- Hbytes. split; [exact Htake | exact Hd].
Qed.

Lemma genericCopy_moves_the_bytes_witness :
  exists b' σ' dblk,
    (x <- HostBuffer.genericCopy (DeviceBuffer.Build (T := double_t) 64 3 2%N) 0%nat
            (HostBuffer.empty (T := float_t)) ;;
     cudaStreamSynchronize 0%nat ;; ret x) demo = Ok (b', σ') /\
    HostBuffer._size b' = 6 /\
    host_bytes σ' (HostBuffer.hostPtr b') = Some dblk /\
    take 24 dblk = replicate 24 (Init x02).
Proof.
  set (cont := DeviceBuffer.Build (T := double_t) 64 3 2%N).
  assert (Hfit : fits float_t (size cont * (datatype_size cont / sizeof float_t)))
    by exact (ExampleFacts.fits_float 6 eq_refl).
  assert (Hpos : 0 < size cont * (datatype_size cont / sizeof float_t)) by reflexivity.
  assert (Hsrc : device_bytes demo (genericDevPtr cont) = Some (replicate 512 (Init x02)))
    by apply lookup_singleton_eq.
  assert (Hlen : datatype_size cont * size cont
                 <= Z.of_nat (length (replicate 512 (Init x02))))
    by (vm_compute; discriminate).
  assert (Hmul : datatype_size cont mod sizeof float_t = 0) by reflexivity.
  destruct (genericCopy_moves_the_bytes float_t cont 0%nat HostBuffer.empty demo _
              ExampleFacts.mem_ok_demo eq_refl (ExampleFacts.wf_empty_host float_t demo)
              Hmul Hfit Hpos Hsrc Hlen)
    as (b' & σ' & dblk & Hrun & Hsize & _ & Hd & Htake & _).
  exists b', σ', dblk. split; [exact Hrun |].
  split; [subst cont; cbn in Hsize; lia |]. split; [exact Hd | exact Htake].
Defined.

(** X15. Host to device and back: copying a [HostBuffer] into a
    [DeviceBuffer] and that [DeviceBuffer] into another [HostBuffer], each
    copy followed by the synchronisation of its stream, gives the second
    host buffer the size and the elements of the first. *)
Theorem host_device_host_roundtrip (T : ctype) (h h2 : HostBuffer.t T)
    (d : DeviceBuffer.t T) (st : nat) (σ : state) (sblk : list cell)
    (Hok : mem_ok (mem σ)) (Hidle : quiescent σ)
    (Hh : HostBuffer.wf σ h) (Hd : DeviceBuffer.wf σ d) (Hh2 : HostBuffer.wf σ h2)
    (Hfit : fits T (HostBuffer._size h)) (Hpos : 0 < HostBuffer._size h)
    (Hsrc : host_bytes σ (HostBuffer.hostPtr h) = Some sblk) :
  exists d' h2' σ' dblk,
    (d' <- DeviceBuffer.copy_host h st d ;; cudaStreamSynchronize st ;;
     h2' <- HostBuffer.copy_dev d' st h2 ;; cudaStreamSynchronize st ;;
     ret (d', h2')) σ = Ok ((d', h2'), σ') /\
    HostBuffer._size h2' = HostBuffer._size h /\ quiescent σ' /\
    host_bytes σ' (HostBuffer.hostPtr h2') = Some dblk /\
    take (Z.to_nat (sizeof T * HostBuffer._size h)) dblk =
      take (Z.to_nat (sizeof T * HostBuffer._size h)) sblk.
Proof.
  destruct σ as [m q sc tr]. unfold quiescent in Hidle. cbn [pending] in Hidle. subst q.
  cbn [mem] in Hok. unfold host_bytes, HostBuffer.hostPtr in *. cbn [mem] in *.
  pose proof (sizeof_pos T) as Hs.
  set (n := HostBuffer._size h) in *.
  assert (Hlen : sizeof T * n <= Z.of_nat (length sblk)).
  { destruct Hh as ((Hsz & Hnull) & _ & Halloc). cbn [mem] in Halloc. fold n in Hsz.
    assert (Hp : HostBuffer.hostptr h <> nullptr) by (intros E; apply Hnull in E; lia).
    destruct (Halloc Hp) as (blk & Hblk & Hl). rewrite Hsrc in Hblk. injection Hblk as <-.
    nia. }
  assert (Hnodist : src_space cudaMemcpyHostToDevice = Device ->
                    HostBuffer.hostptr h <> DeviceBuffer.devptr d) by discriminate.
  destruct (ReceiveFacts.device_receive T d cudaMemcpyHostToDevice st (HostBuffer.hostptr h)
              n sblk m sc tr Hok Hd eq_refl Hfit Hpos Hsrc Hlen Hnodist)
    as (d' & m1 & sc1 & tr1 & dblk1 & Hrun1 & Hsize1 & Hok1 & Hwf1 & Hhm1 & Hd1 & Htake1 & _).
  assert (Hh2' : HostBuffer.wf (State m1 [] sc1 tr1) h2).
  { destruct Hh2 as (Hinv & Hcap & Halloc). split; [exact Hinv |]. split; [exact Hcap |].
    cbn [mem] in *. rewrite Hhm1. exact Halloc. }
  assert (Hlen1 : sizeof T * n <= Z.of_nat (length dblk1)).
  { destruct Hwf1 as ((Hsz & Hnull) & _ & Halloc). cbn [mem] in Halloc.
    assert (Hp : DeviceBuffer.devptr d' <> nullptr) by (intros E; apply Hnull in E; lia).
    destruct (Halloc Hp) as (blk & Hblk & Hl). rewrite Hd1 in Hblk. injection Hblk as <-.
    nia. }
  assert (Hfit1 : fits T n) by exact Hfit.
  destruct (ReceiveFacts.host_receive_async T h2 st (DeviceBuffer.devptr d') n dblk1
              m1 sc1 tr1 Hok1 Hh2' Hfit1 Hpos Hd1 Hlen1)
    as (h2' & m2 & sc2 & tr2 & dblk2 & Hrun2 & Hsize2 & _ & _ & _ & Hb2 & Htake2 & _).
  exists d', h2', (State m2 [] sc2 tr2), dblk2.
  split.
  - rewrite <- Hsize1 in Hrun2.
    exact (ReceiveFacts.then_both (DeviceBuffer.copy_host h st d) (cudaStreamSynchronize st)
             (fun d0 => HostBuffer.copy_dev d0 st h2) (cudaStreamSynchronize st)
             _ _ _ _ _ Hrun1 Hrun2).
  - split; [exact Hsize2 |]. split; [reflexivity |]. split; [exact Hb2 |].
    rewrite Htake2. exact Htake1.
Qed.

Lemma host_device_host_roundtrip_witness :
  exists d' h2' σ' dblk,
    (d' <- DeviceBuffer.copy_host demo_host 0%nat demo_device ;; cudaStreamSynchronize 0%nat ;;
     h2' <- HostBuffer.copy_dev d' 0%nat HostBuffer.empty ;; cudaStreamSynchronize 0%nat ;;
     ret (d', h2')) demo = Ok ((d', h2'), σ') /\
    HostBuffer._size h2' = 3 /\
    host_bytes σ' (HostBuffer.hostPtr h2') = Some dblk /\
    take 12 dblk = replicate 12 (Init x01).
Proof.
  assert (Hpos : 0 < HostBuffer._size demo_host) by (cbn; lia).
  destruct (host_device_host_roundtrip float_t demo_host HostBuffer.empty demo_device
              0%nat demo (replicate 512 (Init x01))
              ExampleFacts.mem_ok_demo eq_refl ExampleFacts.wf_demo_host
              ExampleFacts.wf_demo_device (ExampleFacts.wf_empty_host float_t demo)
              (ExampleFacts.fits_float 3 eq_refl) Hpos (lookup_singleton_eq _ _))
    as (d' & h2' & σ' & dblk & Hrun & Hsize & _ & Hd & Htake).
  exists d', h2', σ', dblk. split; [exact Hrun |]. split; [exact Hsize |].
  split; [exact Hd | exact Htake].
Defined.

(** ** Copies into a [PinnedBuffer] *)

(** X16. The copies into a [PinnedBuffer] write the side(s) they name: from
    a [DeviceBuffer] and with [copyDeviceOnly] the device side receives the
    elements of the source and the host side is not written; from a
    [PinnedBuffer] both sides receive those of the same side of the source,
    with a stream once it is synchronised, without one on return. *)
Theorem pinned_buffer_receives (T : ctype) (b : PinnedBuffer.t T) (st : nat) (σ : state)
    (Hok : mem_ok (mem σ)) (Hidle : quiescent σ) (Hwf : PinnedBuffer.wf σ b) :
  (forall (cont : DeviceBuffer.t T) sd,
     fits T (DeviceBuffer._size cont) -> 0 < DeviceBuffer._size cont ->
     device_bytes σ (DeviceBuffer.devPtr cont) = Some sd ->
     sizeof T * DeviceBuffer._size cont <= Z.of_nat (length sd) ->
     DeviceBuffer.devPtr cont <> PinnedBuffer.devPtr b ->
     exists b' σ' dblk,
       (x <- PinnedBuffer.copy_dev cont st b ;; cudaStreamSynchronize st ;; ret x) σ
         = Ok (b', σ') /\
       PinnedBuffer._size b' = DeviceBuffer._size cont /\ quiescent σ' /\
       device_bytes σ' (PinnedBuffer.devPtr b') = Some dblk /\
       take (Z.to_nat (sizeof T * DeviceBuffer._size cont)) dblk =
         take (Z.to_nat (sizeof T * DeviceBuffer._size cont)) sd /\
       (DeviceBuffer._size cont <= PinnedBuffer.capacity b ->
        hostmem (mem σ') = hostmem (mem σ))) /\
  (forall (cont : PinnedBuffer.t T) sh sd,
     fits T (PinnedBuffer._size cont) -> 0 < PinnedBuffer._size cont ->
     host_bytes σ (PinnedBuffer.hostPtr cont) = Some sh ->
     device_bytes σ (PinnedBuffer.devPtr cont) = Some sd ->
     sizeof T * PinnedBuffer._size cont <= Z.of_nat (length sh) ->
     sizeof T * PinnedBuffer._size cont <= Z.of_nat (length sd) ->
     PinnedBuffer.hostPtr cont <> PinnedBuffer.hostPtr b ->
     PinnedBuffer.devPtr cont <> PinnedBuffer.devPtr b ->
     (exists b' σ' hblk dblk,
        (x <- PinnedBuffer.copy_pinned cont st b ;; cudaStreamSynchronize st ;; ret x) σ
          = Ok (b', σ') /\
        PinnedBuffer._size b' = PinnedBuffer._size cont /\ quiescent σ' /\
        host_bytes σ' (PinnedBuffer.hostPtr b') = Some hblk /\
        device_bytes σ' (PinnedBuffer.devPtr b') = Some dblk /\
        take (Z.to_nat (sizeof T * PinnedBuffer._size cont)) hblk =
          take (Z.to_nat (sizeof T * PinnedBuffer._size cont)) sh /\
        take (Z.to_nat (sizeof T * PinnedBuffer._size cont)) dblk =
          take (Z.to_nat (sizeof T * PinnedBuffer._size cont)) sd) /\
     (exists b' σ' hblk dblk,
        PinnedBuffer.copy cont b σ = Ok (b', σ') /\
        PinnedBuffer._size b' = PinnedBuffer._size cont /\ quiescent σ' /\
        host_bytes σ' (PinnedBuffer.hostPtr b') = Some hblk /\
        device_bytes σ' (PinnedBuffer.devPtr b') = Some dblk /\
        take (Z.to_nat (sizeof T * PinnedBuffer._size cont)) hblk =
          take (Z.to_nat (sizeof T * PinnedBuffer._size cont)) sh /\
        take (Z.to_nat (sizeof T * PinnedBuffer._size cont)) dblk =
          take (Z.to_nat (sizeof T * PinnedBuffer._size cont)) sd) /\
     (exists b' σ' dblk,
        (x <- PinnedBuffer.copyDeviceOnly cont st b ;; cudaStreamSynchronize st ;; ret x) σ
          = Ok (b', σ') /\
        PinnedBuffer._size b' = PinnedBuffer._size cont /\ quiescent σ' /\
        device_bytes σ' (PinnedBuffer.devPtr b') = Some dblk /\
        take (Z.to_nat (sizeof T * PinnedBuffer._size cont)) dblk =
          take (Z.to_nat (sizeof T * PinnedBuffer._size cont)) sd /\
        (PinnedBuffer._size cont <= PinnedBuffer.capacity b ->
         hostmem (mem σ') = hostmem (mem σ)))).
Proof.
  destruct σ as [m q sc tr]. unfold quiescent in Hidle. cbn [pending] in Hidle. subst q.
  cbn [mem] in Hok.
  unfold device_bytes, host_bytes, PinnedBuffer.devPtr, PinnedBuffer.hostPtr,
    DeviceBuffer.devPtr. cbn [mem].
  assert (Hdevice : forall src n sd,
            fits T n -> 0 < n -> devmem m !! src = Some sd ->
            sizeof T * n <= Z.of_nat (length sd) -> src <> PinnedBuffer.devptr b ->
            exists b' σ' dblk,
              (x <- (b' <- PinnedBuffer.resize_anew n b ;;
                     (if 0 <? PinnedBuffer._size b'
                      then cudaMemcpyAsync (PinnedBuffer.devptr b') src
                             (bytes_of T (PinnedBuffer._size b'))
                             cudaMemcpyDeviceToDevice st
                      else ret tt) ;;
                     ret b') ;;
               cudaStreamSynchronize st ;; ret x) (State m [] sc tr) = Ok (b', σ') /\
              PinnedBuffer._size b' = n /\ quiescent σ' /\
              devmem (mem σ') !! PinnedBuffer.devptr b' = Some dblk /\
              take (Z.to_nat (sizeof T * n)) dblk = take (Z.to_nat (sizeof T * n)) sd /\
              (n <= PinnedBuffer.capacity b -> hostmem (mem σ') = hostmem m)).
  { intros src n sd Hfit Hpos Hsd Hlen Hdist.
    destruct (ReceiveFacts.pinned_ready T n 0%nat false b m sc tr Hok Hwf Hfit Hpos)
      as (b' & m' & sc' & tr' & hblk & dblk & Hrun & Hsize & _ & _ & Hh & Hd & Hhl & Hdl
          & Hbytes & Hk & _ & Hfd & Hkeep).
    destruct (Hfd src Hdist (mk_is_Some _ _ Hsd)) as [Hne Heq].
    assert (Hks : (Z.to_nat (sizeof T * n) <= length sd)%nat) by lia.
    assert (Hkd : (Z.to_nat (sizeof T * n) <= length dblk)%nat) by lia.
    assert (Hsd' : heap_of (src_space cudaMemcpyDeviceToDevice) m' !! src = Some sd)
      by (cbn; rewrite Heq; exact Hsd).
    pose proof (exec_memcpy m' _ _ _ cudaMemcpyDeviceToDevice sd dblk Hsd' Hd Hks Hkd)
      as Hexec.
    unfold PinnedBuffer.resize_anew. rewrite bind_assoc.
    rewrite (bind_ok _ _ _ _ _ Hrun). cbv beta. rewrite Hsize.
    replace (0 <? n) with true by (symmetry; apply Z.ltb_lt; exact Hpos).
    rewrite Hbytes.
    rewrite (ReceiveFacts.async_tail b' _ _ _ _ st m' sc' tr' _ Hexec).
    destruct (ReceiveFacts.copied_prefix _ sd dblk Hks Hkd) as (Htake & _ & _).
    eexists _, _, _. split; [reflexivity |]. split; [exact Hsize |]. split; [reflexivity |].
    cbn [mem set_heap dst_space heap_of hostmem devmem].
    split; [apply lookup_insert_eq |]. split; [exact Htake |].
    intros Hle. destruct (Hkeep Hle) as (-> & _). reflexivity. }
  split.
  - intros cont sd Hfit Hpos Hsd Hlen Hdist.
    exact (Hdevice (DeviceBuffer.devptr cont) (DeviceBuffer._size cont) sd
             Hfit Hpos Hsd Hlen Hdist).
  - intros cont sh sd Hfit Hpos Hsh Hsd Hlh Hld Hdh Hdd.
    set (n := PinnedBuffer._size cont) in *.
    split; [| split].
    + destruct (ReceiveFacts.pinned_ready T n 0%nat false b m sc tr Hok Hwf Hfit Hpos)
        as (b' & m' & sc' & tr' & hblk & dblk & Hrun & Hsize & _ & _ & Hh & Hd & Hhl & Hdl
            & Hbytes & Hk & Hfh & Hfd & _).
      destruct (Hfh _ Hdh (mk_is_Some _ _ Hsh)) as [Hneh Heqh].
      destruct (Hfd _ Hdd (mk_is_Some _ _ Hsd)) as [Hned Heqd].
      assert (Hksh : (Z.to_nat (sizeof T * n) <= length sh)%nat) by lia.
      assert (Hksd : (Z.to_nat (sizeof T * n) <= length sd)%nat) by lia.
      assert (Hkh : (Z.to_nat (sizeof T * n) <= length hblk)%nat) by lia.
      assert (Hkd : (Z.to_nat (sizeof T * n) <= length dblk)%nat) by lia.
      assert (Hnz : sizeof T * n <> 0) by lia.
      assert (Hsh' : heap_of (src_space cudaMemcpyHostToHost) m'
                       !! PinnedBuffer.hostptr cont = Some sh)
        by (cbn; rewrite Heqh; exact Hsh).
      pose proof (exec_memcpy m' _ _ _ cudaMemcpyHostToHost sh hblk Hsh' Hh Hksh Hkh)
        as Hexech.
      cbn [set_heap dst_space heap_of] in Hexech.
      set (m2 := Memory (<[PinnedBuffer.hostptr b' :=
                             take (Z.to_nat (sizeof T * n)) sh ++
                             drop (Z.to_nat (sizeof T * n)) hblk]> (hostmem m'))
                   (devmem m') (next m')) in *.
      assert (Hsd' : heap_of (src_space cudaMemcpyDeviceToDevice) m2
                       !! PinnedBuffer.devptr cont = Some sd)
        by (cbn; rewrite Heqd; exact Hsd).
      assert (Hd2 : heap_of (dst_space cudaMemcpyDeviceToDevice) m2
                      !! PinnedBuffer.devptr b' = Some dblk) by exact Hd.
      pose proof (exec_memcpy m2 _ _ _ cudaMemcpyDeviceToDevice sd dblk Hsd' Hd2 Hksd Hkd)
        as Hexecd.
      unfold PinnedBuffer.copy_pinned, PinnedBuffer.resize_anew,
        PinnedBuffer.devPtr, PinnedBuffer.hostPtr. fold n.
      rewrite !bind_assoc. rewrite (bind_ok _ _ _ _ _ Hrun). cbv beta. rewrite Hsize.
      replace (0 <? n) with true by (symmetry; apply Z.ltb_lt; exact Hpos).
      rewrite Hbytes. rewrite !bind_assoc.
      rewrite (bind_ok _ _ _ _ _ (cudaMemcpyAsync_idle _ _ _ _ _ _ _ _)).
      rewrite (bind_ok _ _ _ _ _ (HostFacts.memcpy_ok _ _ _ _ _ _ _ _ Hnz Hexech)).
      rewrite (bind_ok _ _ _ _ _ (eq_refl : ret b' _ = Ok (b', _))).
      rewrite (bind_ok _ _ _ _ _ (cudaStreamSynchronize_single _ _ _ _ _ _ Hexecd)).
      destruct (ReceiveFacts.copied_prefix _ sh hblk Hksh Hkh) as (Htakeh & _ & _).
      destruct (ReceiveFacts.copied_prefix _ sd dblk Hksd Hkd) as (Htaked & _ & _).
      eexists _, _, _, _. split; [reflexivity |]. split; [exact Hsize |].
      split; [reflexivity |]. unfold m2. cbn [mem set_heap dst_space heap_of hostmem devmem].
      split; [apply lookup_insert_eq |]. split; [apply lookup_insert_eq |].
      split; [exact Htakeh | exact Htaked].
    + destruct (ReceiveFacts.pinned_ready T n 0%nat false b m sc tr Hok Hwf Hfit Hpos)
        as (b' & m' & sc' & tr' & hblk & dblk & Hrun & Hsize & _ & _ & Hh & Hd & Hhl & Hdl
            & Hbytes & Hk & Hfh & Hfd & _).
      destruct (Hfh _ Hdh (mk_is_Some _ _ Hsh)) as [Hneh Heqh].
      destruct (Hfd _ Hdd (mk_is_Some _ _ Hsd)) as [Hned Heqd].
      assert (Hksh : (Z.to_nat (sizeof T * n) <= length sh)%nat) by lia.
      assert (Hksd : (Z.to_nat (sizeof T * n) <= length sd)%nat) by lia.
      assert (Hkh : (Z.to_nat (sizeof T * n) <= length hblk)%nat) by lia.
      assert (Hkd : (Z.to_nat (sizeof T * n) <= length dblk)%nat) by lia.
      assert (Hnz : sizeof T * n <> 0) by lia.
      assert (Hsd' : heap_of (src_space cudaMemcpyDeviceToDevice) m'
                       !! PinnedBuffer.devptr cont = Some sd)
        by (cbn; rewrite Heqd; exact Hsd).
      pose proof (exec_memcpy m' _ _ _ cudaMemcpyDeviceToDevice sd dblk Hsd' Hd Hksd Hkd)
        as Hexecd.
      cbn [set_heap dst_space heap_of] in Hexecd.
      set (m2 := Memory (hostmem m')
                   (<[PinnedBuffer.devptr b' :=
                        take (Z.to_nat (sizeof T * n)) sd ++
                        drop (Z.to_nat (sizeof T * n)) dblk]> (devmem m'))
                   (next m')) in *.
      assert (Hsh' : heap_of (src_space cudaMemcpyHostToHost) m2
                       !! PinnedBuffer.hostptr cont = Some sh)
        by (cbn; rewrite Heqh; exact Hsh).
      assert (Hh2 : heap_of (dst_space cudaMemcpyHostToHost) m2
                      !! PinnedBuffer.hostptr b' = Some hblk) by exact Hh.
      pose proof (exec_memcpy m2 _ _ _ cudaMemcpyHostToHost sh hblk Hsh' Hh2 Hksh Hkh)
        as Hexech.
      unfold PinnedBuffer.copy, PinnedBuffer.resize_anew,
        PinnedBuffer.devPtr, PinnedBuffer.hostPtr. fold n.
      rewrite (bind_ok _ _ _ _ _ Hrun). rewrite Hsize.
      replace (0 <? n) with true by (symmetry; apply Z.ltb_lt; exact Hpos).
      rewrite Hbytes. rewrite !bind_assoc.
      rewrite (bind_ok _ _ _ _ _ (ElementFacts.cudaMemcpy_idle _ _ _ _ _ _ _ _ Hexecd)).
      rewrite (bind_ok _ _ _ _ _ (HostFacts.memcpy_ok _ _ _ _ _ _ _ _ Hnz Hexech)).
      destruct (ReceiveFacts.copied_prefix _ sh hblk Hksh Hkh) as (Htakeh & _ & _).
      destruct (ReceiveFacts.copied_prefix _ sd dblk Hksd Hkd) as (Htaked & _ & _).
      eexists _, _, _, _. split; [reflexivity |]. split; [exact Hsize |].
      split; [reflexivity |]. unfold m2. cbn [mem set_heap dst_space heap_of hostmem devmem].
      split; [apply lookup_insert_eq |]. split; [apply lookup_insert_eq |].
      split; [exact Htakeh | exact Htaked].
    + exact (Hdevice (PinnedBuffer.devptr cont) n sd Hfit Hpos Hsd Hld Hdd).
Qed.

Lemma pinned_buffer_receives_witness :
  exists b' σ' hblk dblk,
    PinnedBuffer.copy_construct demo_pinned demo = Ok (b', σ') /\
    PinnedBuffer._size b' = 3 /\
    host_bytes σ' (PinnedBuffer.hostPtr b') = Some hblk /\
    device_bytes σ' (PinnedBuffer.devPtr b') = Some dblk /\
    take 12 hblk = replicate 12 (Init x01) /\
    take 12 dblk = replicate 12 (Init x02).
Proof.
  destruct (pinned_buffer_receives float_t PinnedBuffer.empty 0%nat demo
              ExampleFacts.mem_ok_demo eq_refl (ExampleFacts.wf_empty_pinned float_t demo))
    as (_ & Hpin).
  assert (Hpos : 0 < PinnedBuffer._size demo_pinned) by (cbn; lia).
  assert (Hlh : sizeof float_t * PinnedBuffer._size demo_pinned
                <= Z.of_nat (length (replicate 512 (Init x01)))) by (cbn; lia).
  assert (Hld : sizeof float_t * PinnedBuffer._size demo_pinned
                <= Z.of_nat (length (replicate 512 (Init x02)))) by (cbn; lia).
  assert (Hdh : PinnedBuffer.hostPtr demo_pinned
                <> PinnedBuffer.hostPtr (@PinnedBuffer.empty float_t)) by discriminate.
  assert (Hdd : PinnedBuffer.devPtr demo_pinned
                <> PinnedBuffer.devPtr (@PinnedBuffer.empty float_t)) by discriminate.
  destruct (Hpin demo_pinned (replicate 512 (Init x01)) (replicate 512 (Init x02))
              (ExampleFacts.fits_float 3 eq_refl) Hpos
              (lookup_singleton_eq _ _) (lookup_singleton_eq _ _) Hlh Hld Hdh Hdd)
    as (_ & (b' & σ' & hblk & dblk & Hrun & Hsize & _ & Hh & Hd & Hth & Htd) & _).
  exists b', σ', hblk, dblk. split; [exact Hrun |]. split; [exact Hsize |].
  split; [exact Hh |]. split; [exact Hd |]. split; [exact Hth | exact Htd].
Defined.

(** ** Copying an empty source *)

(** X17. Copying from a source that holds no elements only sets the size of
    the destination to zero: capacity and pointer(s) stay, no runtime call
    is made and the process state is unchanged. *)
Theorem copy_of_empty_source (T : ctype) (st : nat) (σ : state) :
  (forall (b : DeviceBuffer.t T), DeviceBuffer.inv b ->
     let b0 := DeviceBuffer.Build (DeviceBuffer.capacity b) 0 (DeviceBuffer.devptr b) in
     (forall Cont (HC : DeviceSource T Cont) (cont : Cont), dsrc_size cont = 0 ->
        DeviceBuffer.copy_dev cont st b σ = Ok (b0, σ) /\
        DeviceBuffer.copyFromDevice cont st b σ = Ok (b0, σ)) /\
     (forall Cont (HC : HostSource T Cont) (cont : Cont), hsrc_size cont = 0 ->
        DeviceBuffer.copy_host cont st b σ = Ok (b0, σ) /\
        DeviceBuffer.copyFromHost cont st b σ = Ok (b0, σ)) /\
     (forall cont : DeviceBuffer.t T, DeviceBuffer._size cont = 0 ->
        DeviceBuffer.copy cont b σ = Ok (b0, σ))) /\
  (forall (b : HostBuffer.t T), HostBuffer.inv b ->
     let b0 := HostBuffer.Build (HostBuffer.capacity b) 0 (HostBuffer.hostptr b) in
     (forall Cont (HC : HostSource T Cont) (cont : Cont), hsrc_size cont = 0 ->
        HostBuffer.copy cont b σ = Ok (b0, σ)) /\
     (forall Cont (HC : DeviceSource T Cont) (cont : Cont), dsrc_size cont = 0 ->
        HostBuffer.copy_dev cont st b σ = Ok (b0, σ)) /\
     (forall C (HC : GPUcontainer C) (cont : C),
        size cont = 0 -> datatype_size cont mod sizeof T = 0 ->
        HostBuffer.genericCopy cont st b σ = Ok (b0, σ))) /\
  (forall (b : PinnedBuffer.t T), PinnedBuffer.inv b ->
     let b0 := PinnedBuffer.Build (PinnedBuffer.capacity b) 0 (PinnedBuffer.hostptr b)
                 (PinnedBuffer.devptr b) in
     (forall cont : DeviceBuffer.t T, DeviceBuffer._size cont = 0 ->
        PinnedBuffer.copy_dev cont st b σ = Ok (b0, σ)) /\
     (forall cont : HostBuffer.t T, HostBuffer._size cont = 0 ->
        PinnedBuffer.copy_host cont b σ = Ok (b0, σ)) /\
     (forall cont : PinnedBuffer.t T, PinnedBuffer._size cont = 0 ->
        PinnedBuffer.copy_pinned cont st b σ = Ok (b0, σ) /\
        PinnedBuffer.copyDeviceOnly cont st b σ = Ok (b0, σ) /\
        PinnedBuffer.copy cont b σ = Ok (b0, σ))).
Proof.
  assert (Hzero : bytes_of T 0 = 0) by (unfold bytes_of, size_mul; rewrite Z.mul_0_r; reflexivity).
  split; [| split].
  - intros b (Hsz & _) b0.
    assert (Hle : 0 <= DeviceBuffer.capacity b) by lia.
    pose proof (fun s c => DeviceFacts.device_resize_keep T 0 s c b σ Hle) as Hk.
    split; [| split].
    + intros Cont HC cont E.
      unfold DeviceBuffer.copy_dev, DeviceBuffer.copyFromDevice, DeviceBuffer.resize_anew.
      rewrite E, (bind_ok _ _ _ _ _ (Hk _ _)). split; reflexivity.
    + intros Cont HC cont E.
      unfold DeviceBuffer.copy_host, DeviceBuffer.copyFromHost, DeviceBuffer.resize_anew.
      rewrite E, (bind_ok _ _ _ _ _ (Hk _ _)). split; reflexivity.
    + intros cont E. unfold DeviceBuffer.copy, DeviceBuffer.resize_anew.
      rewrite E, (bind_ok _ _ _ _ _ (Hk _ _)). reflexivity.
  - intros b (Hsz & _) b0.
    assert (Hle : 0 <= HostBuffer.capacity b) by lia.
    pose proof (fun c => HostFacts.host_resize_keep T 0 c b σ Hle) as Hk.
    split; [| split].
    + intros Cont HC cont E. unfold HostBuffer.copy, HostBuffer.resize.
      rewrite E, (bind_ok _ _ _ _ _ (Hk _)). cbn [HostBuffer._size HostBuffer.hostptr].
      rewrite Hzero. reflexivity.
    + intros Cont HC cont E. unfold HostBuffer.copy_dev, HostBuffer.resize.
      rewrite E, (bind_ok _ _ _ _ _ (Hk _)). reflexivity.
    + intros C HC cont E Hmod. unfold HostBuffer.genericCopy, HostBuffer.resize.
      replace (datatype_size cont mod sizeof T =? 0) with true
        by (symmetry; apply Z.eqb_eq; exact Hmod).
      cbn [negb]. cbv zeta. rewrite E.
      replace (size_mul 0 (datatype_size cont / sizeof T)) with 0 by reflexivity.
      rewrite (bind_ok _ _ _ _ _ (Hk _)). reflexivity.
  - intros b (Hsz & _) b0.
    assert (Hle : 0 <= PinnedBuffer.capacity b) by lia.
    pose proof (fun s c => PinnedFacts.pinned_resize_keep T 0 s c b σ Hle) as Hk.
    split; [| split].
    + intros cont E. unfold PinnedBuffer.copy_dev, PinnedBuffer.resize_anew.
      rewrite E, (bind_ok _ _ _ _ _ (Hk _ _)). reflexivity.
    + intros cont E. unfold PinnedBuffer.copy_host, PinnedBuffer.resize_anew.
      rewrite E, (bind_ok _ _ _ _ _ (Hk _ _)). cbn [PinnedBuffer._size PinnedBuffer.hostptr].
      rewrite Hzero. reflexivity.
    + intros cont E.
      unfold PinnedBuffer.copy_pinned, PinnedBuffer.copyDeviceOnly, PinnedBuffer.copy,
        PinnedBuffer.resize_anew.
      rewrite E, !(bind_ok _ _ _ _ _ (Hk _ _)). split; [reflexivity | split; reflexivity].
Qed.

Lemma copy_of_empty_source_witness :
  PinnedBuffer.copy_host HostBuffer.empty demo_pinned demo =
    Ok (PinnedBuffer.Build 128 0 1%N 2%N, demo).
Proof.
  destruct (copy_of_empty_source float_t 0%nat demo) as (_ & _ & Hpin).
  destruct (Hpin demo_pinned (proj1 ExampleFacts.wf_demo_pinned)) as (_ & Hhost & _).
  exact (Hhost HostBuffer.empty eq_refl).
Defined.
